(** * BilayAna: neighbours, interaction energies and leaflets

    A shallow embedding of the analysis modules of BilayAna
    ([bilana/analysis/neighbors.py], [energy.py] and [leaflets.py]) together
    with the properties of them that the specification states.

    Conventions of the embedding:
    - Python [int] is [Z], [str] is [string].  The numbers of the energy
      tables and the differences of times are binary64 floats ([f64]); a
      time that is only compared or used as a key is the exact rational
      value ([Q]) of its float; positions are real numbers ([R]).
    - A [dict] is a [gmap]; a dict that the code only iterates is kept as an
      association list in insertion order.
    - A raised exception is the [Raise] case of [Py.result]; code that also
      touches files or runs the external engine threads a [world]. *)

From Stdlib Require Import ZArith QArith Qround Reals Psatz String Ascii List DecimalString DecimalPos
  SpecFloat Sorted.
From stdpp Require Import base gmap strings list.

Local Open Scope string_scope.
Local Open Scope list_scope.
Local Open Scope Z_scope.

(** ** The Python runtime primitives the three modules rely on *)
Module Py.

Inductive exn : Type :=
| KeyError
| IndexError
| NameError
| ZeroDivisionError
| FileNotFoundError (path : string)
| ValueError (msg : string).

Inductive result (A : Type) : Type :=
| Ok (a : A)
| Raise (e : exn).
Arguments Ok {A} a.
Arguments Raise {A} e.

#[export] Instance result_ret : MRet result := fun _ a => Ok a.
#[export] Instance result_bind : MBind result :=
  fun _ _ f r => match r with Ok a => f a | Raise e => Raise e end.
#[export] Instance result_fmap : FMap result :=
  fun _ _ f r => match r with Ok a => Ok (f a) | Raise e => Raise e end.

#[export] Instance exn_eq_dec : EqDecision exn.
Proof. solve_decision. Defined.

Definition is_ok {A} (r : result A) : bool :=
  match r with Ok _ => true | Raise _ => false end.

(** [d[k]] on a dict: [KeyError] when the key is absent. *)
Definition getitem `{Countable K} {V} (d : gmap K V) (k : K) : result V :=
  match d !! k with Some v => Ok v | None => Raise KeyError end.

(** [l[i]] on a list, for [i >= 0]: [IndexError] out of range. *)
Definition index {A} (l : list A) (i : nat) : result A :=
  match l !! i with Some a => Ok a | None => Raise IndexError end.

(** [for x in l: acc = body(acc, x)], stopping at the first exception. *)
Fixpoint for_each {A S} (body : S -> A -> result S) (l : list A) (s : S) : result S :=
  match l with
  | [] => Ok s
  | x :: l' => match body s x with
               | Ok s' => for_each body l' s'
               | Raise e => Raise e
               end
  end.

(** *** Characters and strings *)

Definition dquote : ascii := "034"%char.

(** [str.isspace] on ASCII: TAB..CR, FS..US and the blank. *)
Definition is_space (c : ascii) : bool :=
  let n := nat_of_ascii c in
  ((9 <=? n)%nat && (n <=? 13)%nat) || ((28 <=? n)%nat && (n <=? 32)%nat).

Definition is_digit (c : ascii) : bool :=
  let n := nat_of_ascii c in (48 <=? n)%nat && (n <=? 57)%nat.

Definition digit_val (c : ascii) : Z := Z.of_nat (nat_of_ascii c) - 48.

(** [str(n)] for an [int]. *)
Definition str (n : Z) : string := NilZero.string_of_int (Z.to_int n).

(** [s[n:]]. *)
Fixpoint drop_str (n : nat) (s : string) : string :=
  match n, s with
  | O, _ => s
  | S n', String _ s' => drop_str n' s'
  | S _, EmptyString => EmptyString
  end.

(** [s[:-1]]. *)
Fixpoint but_last (s : string) : string :=
  match s with
  | EmptyString => EmptyString
  | String c s' => match s' with
                   | EmptyString => EmptyString
                   | String _ _ => String c (but_last s')
                   end
  end.

(** [sep.join(l)]. *)
Fixpoint join (sep : string) (l : list string) : string :=
  match l with
  | [] => EmptyString
  | [x] => x
  | x :: l' => x +:+ sep +:+ join sep l'
  end.

(** [''.join(l)], and what [str.format] and [+] build from pieces. *)
Definition cat (l : list string) : string := join EmptyString l.

Fixpoint starts_with (p s : string) : bool :=
  match p, s with
  | EmptyString, _ => true
  | String a p', String b s' => if Ascii.eqb a b then starts_with p' s' else false
  | String _ _, EmptyString => false
  end.

(** [sub in s]. *)
Fixpoint contains (sub s : string) : bool :=
  starts_with sub s ||
  match s with
  | EmptyString => false
  | String _ s' => contains sub s'
  end.

(** [s.split(sep)] for a non-empty separator: the pieces between the
    non-overlapping occurrences of [sep], found from the left.  [skip] counts
    the characters of a separator still to be passed over. *)
Fixpoint split_go (sep : string) (skip : nat) (s : string) : list string :=
  match s with
  | EmptyString => [EmptyString]
  | String c s' =>
      match skip with
      | S k => split_go sep k s'
      | O =>
          if starts_with sep s
          then EmptyString :: split_go sep (String.length sep - 1) s'
          else match split_go sep 0 s' with
               | w :: ws => String c w :: ws
               | [] => [String c EmptyString]
               end
      end
  end.

Definition split (sep s : string) : list string := split_go sep 0 s.

(** [s.split()]: the maximal runs of non-blank characters. *)
Fixpoint split_ws (s : string) : list string :=
  match s with
  | EmptyString => []
  | String c s' =>
      if is_space c then split_ws s'
      else match s' with
           | EmptyString => [String c EmptyString]
           | String c' _ =>
               if is_space c' then String c EmptyString :: split_ws s'
               else match split_ws s' with
                    | w :: ws => String c w :: ws
                    | [] => [String c EmptyString]
                    end
           end
  end.

(** [s.replace(old, new)] for a non-empty [old]. *)
Definition replace (old new s : string) : string := join new (split old s).

Fixpoint lstrip (s : string) : string :=
  match s with
  | EmptyString => EmptyString
  | String c s' => if is_space c then lstrip s' else s
  end.

Fixpoint rstrip (s : string) : string :=
  match s with
  | EmptyString => EmptyString
  | String c s' =>
      match rstrip s' with
      | EmptyString => if is_space c then EmptyString else String c EmptyString
      | r => String c r
      end
  end.

Definition strip (s : string) : string := rstrip (lstrip s).

(** The digits of a decimal literal; single underscores may separate digits. *)
Fixpoint int_digits (acc : Z) (after_digit : bool) (s : string) : option Z :=
  match s with
  | EmptyString => if after_digit then Some acc else None
  | String c s' =>
      if is_digit c then int_digits (10 * acc + digit_val c) true s'
      else if Ascii.eqb c "_" && after_digit
           then match s' with
                | String d _ => if is_digit d then int_digits acc false s' else None
                | EmptyString => None
                end
           else None
  end.

Definition int_literal (s : string) : option Z :=
  match strip s with
  | String "-" r => Z.opp <$> int_digits 0 false r
  | String "+" r => int_digits 0 false r
  | r => int_digits 0 false r
  end.

Definition invalid_int : exn := ValueError "invalid literal for int() with base 10".
Definition invalid_float : exn := ValueError "could not convert string to float".

(** [int(s)] on a string, base 10, ASCII digits. *)
Definition int (s : string) : result Z :=
  match int_literal s with Some z => Ok z | None => Raise invalid_int end.

(** The digits after the decimal point: numerator and number of digits. *)
Fixpoint frac_digits (acc : Z) (n : nat) (s : string) : option (Z * nat) :=
  match s with
  | EmptyString => Some (acc, n)
  | String c s' =>
      if is_digit c then frac_digits (10 * acc + digit_val c) (S n) s' else None
  end.

Definition unsigned_float (s : string) : option Q :=
  match split "." s with
  | [i] => z ← int_digits 0 false i; Some (inject_Z z)
  | [i; f] =>
      '(num, n) ← frac_digits 0 0 f;
      z ← (if String.eqb i "" then (if (n =? 0)%nat then None else Some 0)
           else int_digits 0 false i);
      Some (Qmake (z * 10 ^ Z.of_nat n + num) (Z.to_pos (10 ^ Z.of_nat n)))
  | _ => None
  end.

Definition float_literal (s : string) : option Q :=
  match strip s with
  | String "-" r => Qopp <$> unsigned_float r
  | String "+" r => unsigned_float r
  | r => unsigned_float r
  end.

(** [float(s)] where the result is a dictionary key (the times of the
    neighbor table): the exact value of a fixed-point literal (sign, digits,
    point, digits).  The other spellings CPython accepts (exponents, [inf],
    [nan]) count as invalid here; the numbers of the energy tables are read
    with [f64.of_string], which covers them. *)
Definition float (s : string) : result Q :=
  match float_literal s with Some q => Ok q | None => Raise invalid_float end.

(** [n // d] and [n % d] on ints are [Z.div] and [Z.modulo]: both round
    towards minus infinity, the remainder has the sign of the divisor. *)
Definition floordiv (n d : Z) : result Z :=
  if Z.eqb d 0 then Raise ZeroDivisionError else Ok (n / d).
Definition modulo (n d : Z) : result Z :=
  if Z.eqb d 0 then Raise ZeroDivisionError else Ok (n mod d).

(** [list(set(l))]: the distinct elements of [l].  CPython fixes no iteration
    order for a set; the order chosen here (first occurrences removed, last
    kept) stands for whichever order the runtime picks. *)
Definition list_set (l : list Z) : list Z := remove_dups l.

(** ['{: <w}'.format(s)] and ['{: >w}'.format(s)]. *)
Fixpoint spaces (n : nat) : string :=
  match n with O => EmptyString | S n' => String " " (spaces n') end.
Definition ljust (w : nat) (s : string) : string := s +:+ spaces (w - String.length s).
Definition rjust (w : nat) (s : string) : string := spaces (w - String.length s) +:+ s.

(** Values of mixed type held in one list ([int] or [str]); [==] between an
    [int] and a [str] is [False]. *)
Inductive value : Type :=
| VInt (n : Z)
| VStr (s : string).

#[export] Instance value_eq_dec : EqDecision value.
Proof. solve_decision. Defined.

Definition remove_msg : string := "list.remove(x): x not in list".

(** [l.remove(x)]: drops the first element equal to [x]. *)
Fixpoint list_remove (x : value) (l : list value) : result (list value) :=
  match l with
  | [] => Raise (ValueError remove_msg)
  | y :: l' => if decide (y = x) then Ok l'
               else l'' ← list_remove x l'; Ok (y :: l'')
  end.

End Py.

Import Py.

(** ** Floating-point numbers *)

(** Python's [float] and numpy's [float64] are IEEE 754 binary64 numbers.
    They are taken from the Standard Library's specification of that
    arithmetic ([SpecFloat], with 53 bits of precision and the exponent
    bound 1024): sums and differences are rounded to nearest, ties to even,
    and there are signed zeros, infinities and a NaN. *)
Module f64.

Definition t : Type := spec_float.
Definition prec : Z := 53.
Definition emax : Z := 1024.

Definition zero : t := S754_zero false.
Definition nan : t := S754_nan.

Definition is_nan (x : t) : bool :=
  match x with S754_nan => true | _ => false end.

(** The float nearest to [n / d], with the sign [s]. *)
Definition of_ratio (s : bool) (n d : positive) : t :=
  let '(mz, ez, lz) := SFdiv_core_binary prec emax (Zpos n) 0 (Zpos d) 0 in
  binary_round_aux prec emax s mz ez lz.

(** The float nearest to a rational number; a value that a float holds is
    given back as it is. *)
Definition of_Q (q : Q) : t :=
  match Qnum (Qred q) with
  | Z0 => zero
  | Zpos n => of_ratio false n (Qden (Qred q))
  | Zneg n => of_ratio true n (Qden (Qred q))
  end.

Definition of_Z (z : Z) : t := of_Q (inject_Z z).

Definition add : t -> t -> t := SFadd prec emax.
Definition sub : t -> t -> t := SFsub prec emax.
(** [x < y]; [False] when one of the two is NaN. *)
Definition ltb : t -> t -> bool := SFltb.

(** [Series.fillna(fill)] on one entry. *)
Definition fillna (fill x : t) : t := if is_nan x then fill else x.

(** *** [float(s)] *)

(** [digit (["_"] digit)*]: the digits read after [acc], their number and
    the rest of the string. *)
Fixpoint digitpart (acc : Z) (n : nat) (s : string) : Z * nat * string :=
  match s with
  | EmptyString => (acc, n, s)
  | String c s' =>
      if is_digit c then digitpart (10 * acc + digit_val c) (S n) s'
      else if Ascii.eqb c "_" && negb (n =? 0)%nat
           then match s' with
                | String d _ => if is_digit d then digitpart acc n s' else (acc, n, s)
                | EmptyString => (acc, n, s)
                end
           else (acc, n, s)
  end.

(** [("e" | "E") [sign] digitpart] or nothing: the exponent. *)
Definition exponent (s : string) : option Z :=
  match s with
  | EmptyString => Some 0
  | String c r =>
      if Ascii.eqb c "e" || Ascii.eqb c "E"
      then let '(neg, r) := match r with
                            | String "-" r' => (true, r')
                            | String "+" r' => (false, r')
                            | _ => (false, r)
                            end in
           match digitpart 0 0 r with
           | (_, O, _) => None
           | (e, S _, EmptyString) => Some (if neg then - e else e)
           | (_, S _, String _ _) => None
           end
      else None
  end.

(** [number [exponent]] as mantissa and power of ten. *)
Definition floatnumber (s : string) : option (Z * Z) :=
  let '(i, ni, r) := digitpart 0 0 s in
  match r with
  | String "." r' =>
      let '(m, nf, r'') := digitpart i 0 r' in
      if (ni =? 0)%nat && (nf =? 0)%nat then None
      else e ← exponent r''; Some (m, e - Z.of_nat nf)
  | _ => if (ni =? 0)%nat then None else e ← exponent r; Some (i, e)
  end.

Definition lower (c : ascii) : ascii :=
  let n := nat_of_ascii c in
  if (65 <=? n)%nat && (n <=? 90)%nat then ascii_of_nat (n + 32) else c.

Fixpoint lowercase (s : string) : string :=
  match s with
  | EmptyString => EmptyString
  | String c s' => String (lower c) (lowercase s')
  end.

Definition absfloatvalue (neg : bool) (s : string) : option t :=
  if bool_decide (lowercase s ∈ ["inf"; "infinity"]) then Some (S754_infinity neg)
  else if String.eqb (lowercase s) "nan" then Some S754_nan
  else
    '(m, e) ← floatnumber s;
    Some match m with
         | Zpos p => if (0 <=? e)%Z then of_ratio neg (Z.to_pos (Zpos p * 10 ^ e)) 1
                     else of_ratio neg p (Z.to_pos (10 ^ (- e)))
         | _ => S754_zero neg
         end.

Definition floatvalue (s : string) : option t :=
  match strip s with
  | String "-" r => absfloatvalue true r
  | String "+" r => absfloatvalue false r
  | r => absfloatvalue false r
  end.

(** [float(s)]: blanks around the literal are dropped; a sign, then [inf],
    [infinity] or [nan] in any case, or digits with an optional point and an
    optional exponent; single underscores may stand between digits.  The
    value is the float nearest to the decimal number. *)
Definition of_string (s : string) : result t :=
  match floatvalue s with Some x => Ok x | None => Raise invalid_float end.

(** *** ['{:.<n>f}'.format(x)] *)

(** [n / d] rounded to the nearest integer, ties to even. *)
Definition round_half_even (n d : Z) : Z :=
  let q := n / d in
  let r := n mod d in
  match Z.compare (2 * r) d with
  | Lt => q
  | Gt => q + 1
  | Eq => if Z.even q then q else q + 1
  end.

Fixpoint zeros (n : nat) : string :=
  match n with O => EmptyString | S n' => String "0" (zeros n') end.

(** The decimal expansion of the exact value, rounded to [digits] places. *)
Definition fixed (digits : nat) (x : t) : string :=
  let shown (neg : bool) (n : Z) : string :=
    let p := 10 ^ Z.of_nat digits in
    let frac := str (n mod p) in
    (if neg then "-" else EmptyString) +:+ str (n / p)
    +:+ match digits with
        | O => EmptyString
        | S _ => "." +:+ zeros (digits - String.length frac) +:+ frac
        end in
  match x with
  | S754_nan => "nan"
  | S754_infinity neg => if neg then "-inf" else "inf"
  | S754_zero neg => shown neg 0
  | S754_finite neg m e =>
      let p := 10 ^ Z.of_nat digits in
      shown neg (if (0 <=? e)%Z then Zpos m * 2 ^ e * p
                 else round_half_even (Zpos m * p) (2 ^ (- e)))
  end.

(** *** [x % y != 0] *)

(** CPython takes [fmod], which is exact, and moves a remainder of the wrong
    sign by [y]: the result is zero exactly when [x] is a whole multiple of
    [y].  [ZeroDivisionError] for [y == 0]; the result is NaN, and so
    different from 0, when [x] is not finite or [y] is NaN. *)
Definition mod_nonzero (x y : t) : result bool :=
  match y, x with
  | S754_zero _, _ => Raise ZeroDivisionError
  | _, S754_zero _ => Ok false
  | S754_finite _ my ey, S754_finite _ mx ex =>
      let ez := Z.min ex ey in
      Ok (negb ((Zpos mx * 2 ^ (ex - ez)) mod (Zpos my * 2 ^ (ey - ez)) =? 0)%Z)
  | _, _ => Ok true
  end.

End f64.

(** ** bilana/analysis/leaflets.py *)
Module leaflets.

(** *** The orientation rule *)

(** A position, [np.array([x, y, z])]. *)
Record vec : Type := Vec { vx : R; vy : R; vz : R }.

Definition vsub (a b : vec) : vec :=
  Vec (vx a - vx b) (vy a - vy b) (vz a - vz b).

(** [np.dot]. *)
Definition dot (a b : vec) : R :=
  (vx a * vx b + vy a * vy b + vz a * vz b)%R.

(** [np.linalg.norm]. *)
Definition norm (a : vec) : R := sqrt (dot a a).

(** The result of a float division: a number, or what IEEE gives for a zero
    divisor ([nan] for 0/0, an infinity otherwise; numpy only warns). *)
Inductive npfloat : Type :=
| Finite (r : R)
| Inf (negative : bool)
| NaN.

Definition np_div (a b : R) : npfloat :=
  if Req_dec_T b 0 then
    if Req_dec_T a 0 then NaN
    else if Rle_dec a 0 then Inf true else Inf false
  else Finite (a / b).

(** [x <= 0]; every comparison with [nan] is [False]. *)
Definition le_zero (x : npfloat) : bool :=
  match x with
  | Finite r => if Rle_dec r 0 then true else false
  | Inf negative => negative
  | NaN => false
  end.

(** The default [axis] argument. *)
Definition axis_z : vec := Vec 0 0 1.

Definition molecule_leaflet_orientation (atompos1 atompos2 axis : vec) : Z :=
  let new_coords := vsub atompos1 atompos2 in
  let cos := np_div (dot new_coords axis) (norm new_coords) in
  if le_zero cos then 0 else 1.

(** The block of [create_leaflet_assignment_file] that assigns the last
    residue of the coordinate file: the leaflet written and the increments of
    [sum_upper] and [sum_lower]. *)
Definition assign_last_residue (coord_head coord_base : vec) : Z * (Z * Z) :=
  let new_coords := vsub coord_head coord_base in
  let cos := np_div (dot new_coords (Vec 0 0 1)) (norm new_coords) in
  if le_zero cos then (0, (1, 0)) else (1, (0, 1)).

(** The block for every earlier residue: [leaflet] from the function, then
    [if leaflet: sum_lower += 1 else: sum_upper += 1]. *)
Definition assign_residue (coord_head coord_base : vec) : Z * (Z * Z) :=
  let leaflet := molecule_leaflet_orientation coord_head coord_base axis_z in
  if Z.eqb leaflet 0 then (leaflet, (1, 0)) else (leaflet, (0, 1)).

(** The cosine of the angle between two vectors. *)
Definition cosine (v axis : vec) : R := (dot v axis / (norm v * norm axis))%R.

(** *** Flip-flop events *)

(** A row of [leaflet_trajectory.csv].  [time] is the exact value of the
    float64 entry of the frame, so that comparisons of times are those of
    the frame. *)
Record sample : Type := Sample {
  resid : Z;
  resname : string;
  leaflet : Z;
  time : Q
}.

(** A row of [flipflop_complete.csv]. *)
Record roundtrip : Type := Roundtrip {
  rt_resid : Z;
  rt_resname : string;
  t_start : Q;
  t_end : Q;
  rt_leaflet : Z
}.

Definition Qlt_bool (a b : Q) : bool := negb (Qle_bool b a).

(** [Series.diff().fillna(fill)]: the first entry has no predecessor. *)
Definition diff_fillna {A} (minus : A -> A -> A) (fill : A) (xs : list A) : list A :=
  match xs with
  | [] => []
  | _ :: xs' => fill :: zip_with (fun prev x => minus x prev) xs xs'
  end.

(** [frame[mask]]: the rows whose mask entry is [True]. *)
Fixpoint select {A} (fr : list A) (mask : list bool) : list A :=
  match fr, mask with
  | r :: fr', b :: mask' => if b then r :: select fr' mask' else select fr' mask'
  | _, _ => []
  end.

(** [fr[fr.leaflet.diff().fillna(0) != 0]]. *)
Definition change_points (fr : list sample) : list sample :=
  select fr (map (fun d => negb (Z.eqb d 0)) (diff_fillna Z.sub 0 (map leaflet fr))).

(** [events.time.diff().fillna(fill)]: the times are float64 values, their
    differences are rounded as float64 differences are, and every NaN (the
    first entry, and the difference of two infinities) is replaced. *)
Definition time_diff (fill : f64.t) (events : list sample) : list f64.t :=
  map (f64.fillna fill)
      (diff_fillna f64.sub f64.nan (map (fun e => f64.of_Q (time e)) events)).

(** [[0] + [t for t in events[events.time.diff().fillna(0) > 10000.0].time]]. *)
Definition split_times (events : list sample) : list Q :=
  0%Q :: map time
    (select events (map (fun d => f64.ltb (f64.of_Z 10000) d) (time_diff f64.zero events))).

(** The frames [dat] of the loop over [enumerate(split_times)]. *)
Fixpoint windows (events : list sample) (split_times : list Q) : list (list sample) :=
  match split_times with
  | [] => []
  | left_val :: rest =>
      match rest with
      | [] => List.filter (fun e => Qle_bool left_val (time e)) events
      | right_val :: _ =>
          List.filter (fun e => Qle_bool left_val (time e) && Qlt_bool (time e) right_val) events
      end :: windows events rest
  end.

(** The frames [dat] met for one residue: none when it has no change point
    ([if events.empty: continue]). *)
Definition segments (fr : list sample) : list (list sample) :=
  match change_points fr with
  | [] => []
  | _ :: _ => windows (change_points fr) (split_times (change_points fr))
  end.

(** The body of that loop: [start = dat.iloc[0]], [end = dat.iloc[-1]] and the
    test that appends to [frames2]. *)
Definition record_segment (frames2 : list (sample * sample)) (dat : list sample)
  : result (list (sample * sample)) :=
  match head dat, List.last (map Some dat) None with
  | Some start, Some end_ =>
      if Z.eqb (leaflet start) (leaflet end_)
      then Ok (frames2 ++ [(start, end_)])
      else Ok frames2
  | _, _ => Raise IndexError
  end.

(** [events[events.time.diff().fillna(1001.0) > 1000.0]]. *)
Definition filtered_events (events : list sample) : list sample :=
  select events (map (fun d => f64.ltb (f64.of_Z 1000) d) (time_diff (f64.of_Z 1001) events)).

(** One turn of [for res, fr in grpd]. *)
Definition flipflop_group (acc : list (list sample) * list (sample * sample))
    (fr : list sample) : result (list (list sample) * list (sample * sample)) :=
  let '(frames1, frames2) := acc in
  let events := change_points fr in
  match events with
  | [] => Ok acc
  | _ :: _ =>
      frames2' ← for_each record_segment (windows events (split_times events)) frames2;
      Ok (frames1 ++ [filtered_events events], frames2')
  end.

Fixpoint insert_sorted (x : Z) (l : list Z) : list Z :=
  match l with
  | [] => [x]
  | y :: l' => if Z.leb x y then x :: l else y :: insert_sorted x l'
  end.

(** [dat.groupby("resid")]: one frame per residue id, ids ascending, rows in
    file order. *)
Definition groupby_resid (dat : list sample) : list (list sample) :=
  map (fun r => List.filter (fun s => Z.eqb (resid s) r) dat)
      (foldr insert_sorted [] (remove_dups (map resid dat))).

Definition to_roundtrip (l : sample * sample) : roundtrip :=
  Roundtrip (resid (fst l)) (resname (fst l)) (time (fst l)) (time (snd l)) (leaflet (snd l)).

(** The two tables written: the change points kept ([flipflop_events.csv])
    and the completed round trips ([flipflop_complete.csv]).  [dat] is the
    frame [pd.read_csv] returns. *)
Definition get_flipflop_events (dat : list sample) : result (list sample * list roundtrip) :=
  '(frames1, frames2) ← for_each flipflop_group (groupby_resid dat) ([], []);
  match frames1 with
  | [] => Raise (ValueError "No objects to concatenate")
  | _ :: _ => Ok (concat frames1, map to_roundtrip frames2)
  end.

End leaflets.

(** ** What the modules import from the rest of the package *)

(** [bilana.definitions.lipidmolecules]: the naming tables, as far as the
    three modules consult them. *)
Module lipidmolecules.
Record t : Type := Defs {
  STEROLS : list string;
  PROTEINS : list string;
  central_atom_of : string -> result string;
  tailcarbons_of : string -> result (list (list string))
}.
End lipidmolecules.

(** [bilana.systeminfo.SysInfo]: the attributes read by the three modules.
    [str_float] is [str()] on a [float]. *)
Module systeminfo.
Record SysInfo : Type := Build {
  system : string;
  MOLRANGE : list Z;
  resid_to_lipid : gmap Z string;
  index_to_resid : gmap Z Z;
  molecules : list string;
  RESNAMES : list string;
  t_start : Q;
  t_end : Q;
  dt : Q;
  cutoff : Q;
  temperature : Q;
  str_float : Q -> string;
  datapath : string;
  indexpath : string;
  temppath : string;
  energypath : string;
  toppath : string;
  gropath : string;
  tprpath : string;
  trjpath : string
}.
End systeminfo.
Import systeminfo.

(** ** Files and the external engine *)
Module os.

Definition nl : string := String "010"%char EmptyString.
Definition tab : string := String "009"%char EmptyString.

(** Two spellings of a path that differ in repeated slashes name one file. *)
Fixpoint path_key (p : string) : string :=
  match p with
  | EmptyString => EmptyString
  | String c p' =>
      match p' with
      | String c' _ =>
          if Ascii.eqb c "/" && Ascii.eqb c' "/" then path_key p' else String c (path_key p')
      | EmptyString => String c EmptyString
      end
  end.

(** The regular files (path to text) and the record of the engine runs:
    argument list and text fed to standard input. *)
Record world : Type := World {
  files : gmap string string;
  calls : list (list string * option string)
}.

(** The external program: from its arguments, its input and the files it
    finds to its two output streams and the files it leaves. *)
Definition engine : Type :=
  list string -> option string -> gmap string string -> string * string * gmap string string.

Definition io (A : Type) : Type := world -> result A * world.

#[export] Instance io_ret : MRet io := fun _ a w => (Ok a, w).
#[export] Instance io_bind : MBind io :=
  fun _ _ f m w => match m w with
                   | (Ok a, w') => f a w'
                   | (Raise e, w') => (Raise e, w')
                   end.

Definition lift {A} (r : result A) : io A := fun w => (r, w).

Fixpoint io_for_each {A} (body : A -> io unit) (l : list A) : io unit :=
  match l with
  | [] => mret tt
  | x :: l' => body x ≫= fun _ => io_for_each body l'
  end.

Fixpoint io_foldl {A S} (body : S -> A -> io S) (l : list A) (s : S) : io S :=
  match l with
  | [] => mret s
  | x :: l' => body s x ≫= io_foldl body l'
  end.

(** [os.path.isfile]. *)
Definition isfile (p : string) (w : world) : bool :=
  bool_decide (is_Some (files w !! path_key p)).

(** [open(p, "w")] followed by writing [text], in a directory that is
    there: the working directory, or one of the directories of the system
    that the code never makes itself.  Where the code makes a directory and
    then opens a file, [write_file_in] below is used. *)
Definition write_file (p text : string) : io unit :=
  fun w => (Ok tt, World (<[path_key p := text]> (files w)) (calls w)).

(** [open(p, "a")] followed by writing [text]. *)
Definition append_file (p text : string) : io unit :=
  fun w => (Ok tt, World (<[path_key p := default EmptyString (files w !! path_key p) +:+ text]> (files w))
                         (calls w)).

(** [open(p, "r")] and the lines of the file. *)
Definition file_lines (fs : gmap string string) (p : string) : result (list string) :=
  match fs !! path_key p with
  | Some text =>
      Ok (match reverse (split nl text) with
          | EmptyString :: ls => reverse ls
          | ls => reverse ls
          end)
  | None => Raise (FileNotFoundError p)
  end.

Definition read_lines (p : string) : io (list string) :=
  fun w => (file_lines (files w) p, w).

(** Modelled from the spec: [bilana.common.exec_gromacs] is not among the
    sources.  It runs the engine with an argument list, optionally feeds its
    standard input, waits, and returns the captured output and error text;
    every run is counted. *)
Definition exec_gromacs (gmx : engine) (cmd : list string) (inp_str : option string)
  : io (string * string) :=
  fun w => let '(out, err, fs) := gmx cmd inp_str (files w) in
           (Ok (out, err), World fs (calls w ++ [(cmd, inp_str)])).

(** The runs of one sub-command among the recorded ones. *)
Definition runs_of (sub : string) (w : world) : list (list string * option string) :=
  List.filter (fun c => match fst c !! 1%nat with
                        | Some s => String.eqb s sub
                        | None => false
                        end) (calls w).

(** [open(p, "r")] and [''.join(f.readlines())]: the whole text. *)
Definition read_text (p : string) : io string :=
  fun w => (match files w !! path_key p with
            | Some text => Ok text
            | None => Raise (FileNotFoundError p)
            end, w).

(** The part of a path before its last slash, empty for a path without one:
    the directory in which [open] makes the file. *)
Fixpoint dirname (p : string) : string :=
  match p with
  | EmptyString => EmptyString
  | String c p' => if contains "/" p' then String c (dirname p') else EmptyString
  end.

(** Two names of one directory. *)
Definition same_dir (a b : string) : bool :=
  String.eqb (path_key (a +:+ "/")) (path_key (b +:+ "/")).

(** A directory that the world shows to be there: the working directory,
    or one in which a file lies. *)
Definition isdir (d : string) (w : world) : bool :=
  match d with
  | EmptyString => true
  | String _ _ =>
      existsb (fun kv => starts_with (path_key (d +:+ "/")) (fst kv)) (map_to_list (files w))
  end.

(** [os.makedirs(made, exist_ok=True)] followed by [open(p, "w")] and the
    writing of [text]: the file is made when its directory is the one just
    made or is there already, and [open] raises [FileNotFoundError]
    otherwise. *)
Definition write_file_in (made p text : string) : io unit :=
  fun w =>
    if same_dir made (dirname p) || isdir (dirname p) w then write_file p text w
    else (Raise (FileNotFoundError p), w).

End os.
Import os.

Definition GMXNAME : string := "gmx".

(** ** bilana/analysis/neighbors.py *)
Module neighbors.

Section Neighbors.
Variable lm : lipidmolecules.t.
Variable gmx : engine.
Variable self : SysInfo.

Definition wrong_refatoms (refatoms : string) : exn :=
  ValueError ("Wrong input for refatoms with: " +:+ refatoms).

(** The text printed for [refatoms] equal to ['bothtails'] or ['glycerol'];
    the two differ in the atom names only. *)
Definition three_atom_selection (resid : Z) (t1 t2 : string) : string :=
  let cut := str_float self (cutoff self) in
  cat ["host = resid "; str resid; " and name "; t1; " "; t2; " O3;"; nl;
       "allOAtoms = resname CHL1 and name O3 and not host;"; nl;
       "allTail1Atoms = resname DPPC DUPC and name "; t1; " and not host;"; nl;
       "allTail2Atoms = resname DPPC DUPC and name "; t2; " and not host;"; nl;
       "neibOs = allOAtoms and within "; cut; " of host;"; nl;
       "neibTail1 = allTail1Atoms and within "; cut; " of host;"; nl;
       "neibTail2 = allTail2Atoms and within "; cut; " of host;"; nl;
       "neibs = neibOs or neibTail1 or neibTail2;"; nl;
       "neibs;"].

Definition tail_definitions : result (list string) :=
  @concat string <$> mapM (fun resn =>
    mapM (fun tailn : nat =>
            tails ← lipidmolecules.tailcarbons_of lm resn;
            tail ← index tails tailn;
            Ok (cat ["tail"; str (Z.of_nat tailn); "=(resname "; resn; " and name ";
                     join " " tail; ");"; nl]))
         [0%nat; 1%nat]) (RESNAMES self).

(** Returns the name of the selection file, or [None] for a residue whose
    species is not configured. *)
Definition create_selectionfile_neighborsearch (resid : Z) (refatoms : string)
  : io (option string) :=
  let filename := temppath self +:+ "/sf" in
  hosttype ← lift (getitem (resid_to_lipid self) resid);
  if negb (bool_decide (hosttype ∈ molecules self)) then mret None
  else
    let ref_atm := lipidmolecules.central_atom_of lm in
    host_atm ← lift (ref_atm hosttype);
    let hoststring := cat ["resid "; str resid; " and (name "; host_atm; ")"] in
    parts ← lift (mapM (fun i => a ← ref_atm i;
                                 Ok (cat ["(resname "; i; " and name "; a; ")"]))
                       (RESNAMES self));
    let neibstring_parts := join " or " parts in
    let neibstring := cat ["(("; neibstring_parts; ") and not host) and within ";
                           str_float self (cutoff self); " of host"] in
    _ ← write_file filename EmptyString;
    (if String.eqb refatoms "P" then
       write_file filename
         (cat ["host =  "; hoststring; ";"; nl; "neibs = "; neibstring; ";"; nl; "neibs;"; nl])
     else if String.eqb refatoms "bothtails" then
       write_file filename (three_atom_selection resid "C34" "C24" +:+ nl)
     else if String.eqb refatoms "glycerol" then
       write_file filename (three_atom_selection resid "C31" "C21" +:+ nl)
     else if String.eqb refatoms "tails_com" then
       tailstr_l ← lift tail_definitions;
       let cut := str_float self (cutoff self) in
       write_file filename
         (cat [cat tailstr_l;
               "host1 = (resid "; str resid; " and (tail0 or name O3));"; nl;
               "host2 = (resid "; str resid; " and (tail1 or name O3));"; nl;
               "allOAtoms = resname CHL1 and name O3 and not (host1 or host2);"; nl;
               "neibOs = allOAtoms and (within "; cut; " of com of host1 or within "; cut;
               " of com of host2);"; nl;
               "neibTail = (tail0 or tail1) and (within "; cut; " of com of host1 or within ";
               cut; " of com of host2);"; nl;
               "neibs = neibOs or neibTail;"; nl;
               "neibs;"; nl])
     else lift (Raise (wrong_refatoms refatoms))) ≫= fun _ =>
    mret (Some filename).

(** ['{: <10}{: <20}{: <10}{: >25}'.format(a, b, c, d)]. *)
Definition format_row (a b c d : string) : string :=
  cat [ljust 10 a; ljust 20 b; ljust 10 c; rjust 25 d].

(** The row made from one line of the engine's data file: the time, the
    count and the atom indices it lists. *)
Definition neighbor_row (residue : Z) (line : string) : result string :=
  let cols := split_ws line in
  time ← index cols 0;
  nneibs ← index cols 1;
  neibindeces ← mapM int (drop 2 cols);
  neibresid ← mapM (getitem (index_to_resid self)) neibindeces;
  let residlist := join "," (map str neibresid) in
  Ok (format_row (str residue) time nneibs residlist).

Definition neighbor_info_header : string :=
  format_row "Resid" "Time" "Number_of_neighbors" "List_of_Neighbors".

Definition determine_neighbors (refatoms : string) (overwrite : bool) : io unit :=
  _ ← write_file "neighbor_info" (neighbor_info_header +:+ nl);
  io_for_each (fun residue =>
    if negb (bool_decide (is_Some (resid_to_lipid self !! residue))) then mret tt
    else
      selectionfile ← create_selectionfile_neighborsearch residue refatoms;
      match selectionfile with
      | None => mret tt
      | Some selectionfile =>
          let indexoutput := cat [indexpath self; "/neighbors_of_residue"; str residue; ".ndx"] in
          let datafileoutput :=
            cat [datapath self; "/neighborfiles/neighbors_of_residue"; str residue; ".dat"] in
          _ ← (fun w =>
                 if isfile datafileoutput w && negb overwrite then (Ok tt, w)
                 else
                   let cmdlist :=
                     [GMXNAME; "select"; "-s"; tprpath self; "-f"; trjpath self;
                      "-sf"; selectionfile; "-on"; indexoutput; "-oi"; datafileoutput;
                      "-b"; str_float self (t_start self); "-e"; str_float self (t_end self);
                      "-dt"; str_float self (dt self)] in
                   ('(out, err) ← exec_gromacs gmx cmdlist None;
                    write_file "gmx_select.log" (err +:+ out)) w);
          datfile ← read_lines datafileoutput;
          io_for_each (fun line =>
            row ← lift (neighbor_row residue line);
            append_file "neighbor_info" (row +:+ nl)) datfile
      end) (MOLRANGE self).

End Neighbors.

(** [dict.update({key: v})] on a dict with float keys. *)
Fixpoint update_time (key : Q) (v : list Z) (d : list (Q * list Z)) : list (Q * list Z) :=
  match d with
  | [] => [(key, v)]
  | (k, x) :: d' => if Qeq_bool k key then (k, v) :: d' else (k, x) :: update_time key v d'
  end.

(** One line of the neighbor table added to the dictionary. *)
Definition add_neighbor_line (neibdict : gmap Z (list (Q * list Z))) (line : string)
  : result (gmap Z (list (Q * list Z))) :=
  let cols := split_ws line in
  resid ← (index cols 0 ≫= int);
  time ← (index cols 1 ≫= float);
  let neibdict := if bool_decide (is_Some (neibdict !! resid)) then neibdict
                  else <[resid := []]> neibdict in
  match cols !! 3%nat with
  | Some c =>
      neiblist ← mapM int (split "," c);
      Ok (<[resid := update_time time (list_set neiblist) (default [] (neibdict !! resid))]> neibdict)
  | None =>
      Ok (<[resid := update_time time [] (default [] (neibdict !! resid))]> neibdict)
  end.

(** The neighbor table read back: residue id to (time to neighbor ids). *)
Definition get_neighbor_dict (neighbor_filename : string) : io (gmap Z (list (Q * list Z))) :=
  neibmap ← read_lines neighbor_filename;
  lift (for_each add_neighbor_line (drop 1 neibmap) ∅).

(** *** The index file of the energy groups *)

(** The tables of [lipidmolecules] that only the index file consults. *)
Record atom_tables : Type := AtomTables {
  tail_atoms_of : string -> result (list (list string));
  head_atoms_of : string -> result (list string);
  tailhydr_of : string -> result (list (list string))
}.

(** [zip(it, it)] on one iterator: the elements two by two, an odd last one
    dropped. *)
Fixpoint pairs {A} (l : list A) : list (A * A) :=
  match l with
  | a :: l' => match l' with
               | b :: l'' => (a, b) :: pairs l''
               | [] => []
               end
  | [] => []
  end.

(** [zip(carbons, zip(it, it))] with the tuples unpacked: every carbon
    followed by its two hydrogens, as far as both lists reach. *)
Fixpoint methylgroup (carbons : list string) (hydr : list (string * string)) : list string :=
  match carbons, hydr with
  | c :: cs, (h1, h2) :: hs => c :: h1 :: h2 :: methylgroup cs hs
  | _, _ => []
  end.

(** The two lists that the loop of [get_atoms_tailhalfs] extends. *)
Definition tailhalf_lists (tails : list (list string)) : list string * list string :=
  foldl (fun acc molpart =>
           (fst acc ++ take (length molpart / 2)%nat molpart,
            snd acc ++ drop (length molpart / 2)%nat molpart))
        ([], []) tails.

(** [range(0, len(l0) - 1, 6)]. *)
Definition group_starts (l0 : list string) : list nat :=
  map (fun k => (6 * k)%nat) (seq 0 ((length l0 - 1 + 5) / 6)%nat).

(** The strings made from [methylatomslists]: for every start [i] the
    slices [i:i+3] and [i+3:i+6] of the first two chains. *)
Definition methylatomstrings_of (methylatomslists : list (list string)) : result (list string) :=
  l0 ← index methylatomslists 0;
  mapM (fun i =>
          l1 ← index methylatomslists 1;
          Ok (join " " (take 3 (drop i l0) ++ take 3 (drop (i + 3) l0)
                        ++ take 3 (drop i l1) ++ take 3 (drop (i + 3) l1))))
       (group_starts l0).

(** ['resid_{0}=...'] and ['resid_{0}_{1}=...']: one line of definitions. *)
Definition selection_line (mol : Z) (lipidtype : string) (d : string * string) : string :=
  let '(prefname, atomnames) := d in
  if String.eqb prefname EmptyString
  then cat ["resid_"; str mol; "=resid "; str mol; " and resname "; lipidtype;
            " and name "; atomnames; ";"; nl]
  else cat ["resid_"; prefname; "_"; str mol; "=resid "; str mol; " and resname "; lipidtype;
            " and name "; atomnames; ";"; nl].

Definition define_selection_for_resids (mol : Z) (lipidtype : string)
    (descriptor : list (string * string)) : string :=
  cat (map (selection_line mol lipidtype) descriptor).

(** The list [lastlineitems]: the groups the selection asks for. *)
Definition lastlineitems (mol : Z) (selprefixes : list (string * string)) : list string :=
  cat ["resid_"; str mol; ";"; nl]
  :: map (fun p => cat ["resid_"; fst p; "_"; str mol; ";"; nl])
         (List.filter (fun p => negb (String.eqb (fst p) EmptyString)) selprefixes).

Section IndexFile.
Variable lm : lipidmolecules.t.
Variable atoms : atom_tables.
Variable gmx : engine.
Variable self : SysInfo.

Definition get_atoms_tail (lipidtype : string) : result (list string * list string) :=
  tailatomlist ← tail_atoms_of atoms lipidtype;
  let tailatoms := concat tailatomlist in
  headatoms ← head_atoms_of atoms lipidtype;
  Ok (tailatoms, headatoms).

Definition get_atoms_tailhalfs (lipidtype : string) : result (string * string) :=
  tails ← tail_atoms_of atoms lipidtype;
  let '(tailhalf12_l, tailhalf22_l) := tailhalf_lists tails in
  Ok (join " " tailhalf12_l, join " " tailhalf22_l).

(** The list [methylatomslists]: one list per chain. *)
Definition methylatomslists_of (lipidtype : string) : result (list (list string)) :=
  carbons ← lipidmolecules.tailcarbons_of lm lipidtype;
  mapM (fun tailindex =>
          hydr ← tailhydr_of atoms lipidtype;
          h ← index hydr tailindex;
          c ← index carbons tailindex;
          Ok (methylgroup c (pairs h)))
       (seq 0 (length carbons)).

Definition get_atoms_tailcarbons (lipidtype : string) : result (list string) :=
  methylatomslists_of lipidtype ≫= methylatomstrings_of.

(** The list [selprefixes] of a lipid that is neither sterol nor protein. *)
Definition selprefixes_of (lipidtype : string) : result (list (string * string)) :=
  '(tailatoms, headatoms) ← get_atoms_tail lipidtype;
  '(tailhalf12, tailhalf22) ← get_atoms_tailhalfs lipidtype;
  methylatomstrings ← get_atoms_tailcarbons lipidtype;
  c0 ← index methylatomstrings 0;
  c1 ← index methylatomstrings 1;
  c2 ← index methylatomstrings 2;
  c3 ← index methylatomstrings 3;
  c4 ← index methylatomstrings 4;
  c5 ← index methylatomstrings 5;
  c6 ← index methylatomstrings 6;
  Ok [(EmptyString, String dquote (".*" +:+ String dquote EmptyString));
      ("h", join " " headatoms);
      ("t", join " " tailatoms);
      ("t12", tailhalf12);
      ("t22", tailhalf22);
      ("C0", c0); ("C1", c1); ("C2", c2); ("C3", c3); ("C4", c4); ("C5", c5); ("C6", c6)].

(** The selection file is opened, and so emptied, before anything is looked
    up. *)
Definition create_selectionfile_indexcreation (selectionfilename : string) (mol : Z)
  : io unit :=
  _ ← write_file selectionfilename EmptyString;
  lipidtype ← lift (getitem (resid_to_lipid self) mol);
  if negb (bool_decide (lipidtype ∈ molecules self)) then mret tt
  else if negb (bool_decide (lipidtype ∈ lipidmolecules.STEROLS lm
                                          ++ lipidmolecules.PROTEINS lm)) then
    selprefixes ← lift (selprefixes_of lipidtype);
    let resid_defs := define_selection_for_resids mol lipidtype selprefixes in
    write_file selectionfilename (resid_defs +:+ cat (lastlineitems mol selprefixes))
  else
    write_file selectionfilename
      (cat ["resid_"; str mol; "=resid "; str mol; " and resname "; lipidtype; ";"; nl;
            "resid_"; str mol; ";"]).

(** The arguments of the [select] run of one residue. *)
Definition gmx_select_arglist (mol : Z) : list string :=
  [GMXNAME; "select"; "-s"; gropath self; "-sf"; temppath self +:+ "/tmp_selectionfile";
   "-on"; cat [indexpath self; "/resid_"; str mol; ".ndx"]].

Definition gmx_make_ndx_arglist : list string :=
  [GMXNAME; "make_ndx"; "-f"; gropath self; "-o"; temppath self +:+ "/make_ndx_system.ndx"].

(** The body of [for mol in self.MOLRANGE]: the selection of the residue,
    the [select] run and the index file it leaves added to
    [resindex_all.ndx] (that file stays open through the loop; what is
    written to it is added at its end). *)
Definition index_turn (mol : Z) : io unit :=
  let selectionfilename := temppath self +:+ "/tmp_selectionfile" in
  _ ← create_selectionfile_indexcreation selectionfilename mol;
  let outputindex := cat [indexpath self; "/resid_"; str mol; ".ndx"] in
  '(out, err) ← exec_gromacs gmx (gmx_select_arglist mol) None;
  _ ← write_file "gmx_select.log" (err +:+ out);
  filecontent ← read_text outputindex;
  append_file "resindex_all.ndx" (filecontent +:+ nl +:+ nl).

(** What follows the loop: the group of the whole system. *)
Definition system_group : io unit :=
  let make_ndx_output := temppath self +:+ "/make_ndx_system.ndx" in
  '(out, err) ← exec_gromacs gmx gmx_make_ndx_arglist (Some ("keep 0" +:+ nl +:+ "q" +:+ nl));
  _ ← write_file "gmx_make_ndx.log" (err +:+ out);
  filecontent ← read_text make_ndx_output;
  append_file "resindex_all.ndx" (filecontent +:+ nl +:+ nl).

Definition create_indexfile : io unit :=
  _ ← write_file "resindex_all.ndx" EmptyString;
  _ ← io_for_each index_turn (MOLRANGE self);
  system_group.

End IndexFile.

End neighbors.

(** ** bilana/analysis/energy.py *)
Module energy.

Definition DENOMINATOR : Z := 40.

(** The attributes an [Energy] instance adds to those of [SysInfo]. *)
Record Energy : Type := Build {
  sys : SysInfo;
  neiblist : gmap Z (list (Q * list Z));
  resindex_all : string;
  overwrite : bool;
  groupblocks : list Z;
  part : string;
  molparts : list string;
  denominator : Z;
  molparts_short : list string;
  all_energies : string
}.

Definition with_groupblocks (self : Energy) (gb : list Z) : Energy :=
  Build (sys self) (neiblist self) (resindex_all self) (overwrite self) gb (part self)
        (molparts self) (denominator self) (molparts_short self) (all_energies self).

Definition knownparts : list string := ["complete"; "head-tail"; "head-tailhalfs"; "carbons"].

Definition unknown_part : exn := ValueError "Part keyword specified is not known.".

(** [int(a / b)] for ints: the quotient truncated towards zero. *)
Definition int_truediv (a b : Z) : Z := Z.quot a b.

(** [Energy.__init__]; [inputfile] is the registry [super().__init__] has
    built from the input file. *)
Definition init (inputfile : SysInfo) (part_ : string) (neighborfilename resindex_all_ : string)
    (overwrite_ : bool) : io Energy :=
  if negb (bool_decide (part_ ∈ knownparts)) then lift (Raise unknown_part)
  else
    neiblist_ ← neighbors.get_neighbor_dict "neighbor_info";
    let mk := Build inputfile neiblist_ resindex_all_ overwrite_ [] in
    if String.eqb part_ "complete" then
      mret (mk EmptyString ["resid_"] DENOMINATOR [EmptyString]
               (if negb (String.eqb neighborfilename "neighbor_info")
                then "all_energies_" +:+ neighborfilename +:+ ".dat"
                else "all_energies.dat"))
    else if String.eqb part_ "head-tail" then
      mret (mk part_ ["resid_h_"; "resid_t_"] (int_truediv DENOMINATOR 2) ["h_"; "t_"]
               "all_energies_headtail.dat")
    else if String.eqb part_ "head-tailhalfs" then
      mret (mk part_ ["resid_h_"; "resid_t12_"; "resid_t22_"] (int_truediv DENOMINATOR 4)
               ["h_"; "t12_"; "t22_"] "all_energies_headtailhalfs.dat")
    else if String.eqb part_ "carbons" then
      mret (mk part_ (map (fun i => "resid_C" +:+ str (Z.of_nat i) +:+ "_") (seq 0 7))
               (int_truediv DENOMINATOR 10)
               (map (fun i => "C" +:+ str (Z.of_nat i) +:+ "_") (seq 0 7))
               "all_energies_carbons.dat")
    else (* not reached: [part_] is one of [knownparts] *)
      mret (mk part_ [] 0 [] EmptyString).

Section Energy.
Variable lm : lipidmolecules.t.
Variable gmx : engine.

(** [list(set([neibs for t in self.neiblist[res].keys()
                     for neibs in self.neiblist[res][t]]))]. *)
Definition all_neibs_of (self : Energy) (res : Z) : result (list Z) :=
  by_time ← getitem (neiblist self) res;
  Ok (list_set (concat (map snd by_time))).

(** The [if nneibs % self.denominator == 0] statement that the three loops
    over residues share. *)
Definition number_of_groupfragments (self : Energy) (nneibs : Z) : result Z :=
  r ← modulo nneibs (denominator self);
  q ← floordiv nneibs (denominator self);
  if Z.eqb r 0 then Ok q else Ok (q + 1).

(** [range(n)]. *)
Definition range (n : Z) : list Z := map Z.of_nat (seq 0 (Z.to_nat n)).

(** [l[a:b]] for bounds that are not negative. *)
Definition slice {A} (l : list A) (a b : Z) : list A :=
  drop (Z.to_nat a) (take (Z.to_nat b) l).

(** [x in lipidmolecules.STEROLS + lipidmolecules.PROTEINS]. *)
Definition sterol_or_protein (resname : string) : bool :=
  bool_decide (resname ∈ lipidmolecules.STEROLS lm ++ lipidmolecules.PROTEINS lm).

Definition current_block (self : Energy) (all_neibs_of_res : list Z) : result (list Z) :=
  a ← index (groupblocks self) 0;
  b ← index (groupblocks self) 1;
  Ok (slice all_neibs_of_res a b).

(** The names appended for one member of [energygroup_indeces]. *)
Definition groups_of_index (self : Energy) (index_ : Z) : result (list string) :=
  lipid ← getitem (resid_to_lipid (sys self)) index_;
  if sterol_or_protein lipid then Ok ["resid_" +:+ str index_]
  else Ok (map (fun part_ => part_ +:+ str index_) (molparts self)).

Definition energygroup_list (self : Energy) (res : Z) (all_neibs_of_res : list Z)
  : result (list string) :=
  block ← current_block self all_neibs_of_res;
  @concat string <$> mapM (groups_of_index self) (res :: block).

Definition gather_energygroups (self : Energy) (res : Z) (all_neibs_of_res : list Z)
  : result string :=
  join " " <$> energygroup_list self res all_neibs_of_res.

(** [for part in parts:] with the counter that lets a molecule treated as a
    whole through exactly once, under the name [whole_name]: the values the
    loop variable has when the loop body is reached. *)
Fixpoint parts_reached (whole : bool) (whole_name : string) (counter : nat)
    (parts : list string) : list string :=
  match parts with
  | [] => []
  | p :: parts' =>
      if whole && (counter =? 0)%nat
      then whole_name :: parts_reached whole whole_name (S counter) parts'
      else if whole then parts_reached whole whole_name counter parts'
      else p :: parts_reached whole whole_name counter parts'
  end.

(** The entries [get_relev_energies] collects in [energyselection]. *)
Definition energyselection (self : Energy) (res : Z) (all_neibs_of_res : list Z)
  : result (list string) :=
  let Etypes := ["Coul-SR:"; "LJ-SR:"] in
  block ← current_block self all_neibs_of_res;
  @concat string <$> mapM (fun interaction =>
    hosttype ← getitem (resid_to_lipid (sys self)) res;
    @concat string <$> mapM (fun parthost =>
      @concat string <$> mapM (fun neib =>
        neibtype ← getitem (resid_to_lipid (sys self)) neib;
        Ok (map (fun partneib => cat [interaction; parthost; str res; "-"; partneib; str neib])
                (parts_reached (sterol_or_protein neibtype) "resid_" 0 (molparts self))))
        block)
      (parts_reached (sterol_or_protein hosttype) "resid_" 0 (molparts self)))
    Etypes.

Definition get_relev_energies (self : Energy) (res : Z) (all_neibs_of_res : list Z)
  : result string :=
  es ← energyselection self res all_neibs_of_res;
  Ok (join nl (es ++ [nl])).

Definition raw_mdp_template : list string :=
  [EmptyString;
   "integrator              = md";
   "dt                      = 0.002";
   "nsteps                  =";
   "nstlog                  = 100000";
   "nstxout                 = 0";
   "nstvout                 = 0";
   "nstfout                 = 0";
   "nstcalcenergy           = 1000";
   "nstenergy               = 100";
   "cutoff-scheme           = Verlet";
   "nstlist                 = 20";
   "rlist                   = 1.2";
   "coulombtype             = pme";
   "rcoulomb                = 1.2";
   "vdwtype                 = Cut-off";
   "vdw-modifier            = Force-switch";
   "rvdw_switch             = 1.0";
   "rvdw                    = 1.2";
   "tcoupl                  = Nose-Hoover";
   "tau_t                   = 1.0";
   "tc-grps                 = System";
   "pcoupl                  = Parrinello-Rahman";
   "pcoupltype              = semiisotropic";
   "tau_p                   = 5.0";
   "compressibility         = 4.5e-5  4.5e-5";
   "ref_p                   = 1.0     1.0";
   "constraints             = h-bonds";
   "constraint_algorithm    = LINCS";
   "continuation            = yes";
   "nstcomm                 = 100";
   "comm_mode               = linear";
   "refcoord_scaling        = com";
   EmptyString].

(** The directory made is [energypath + '/mdpfiles']; the file opened,
    [mdpout], is built by [run_calculation] as [energypath + 'mdpfiles/...'],
    which lies in that directory only when [energypath] ends with a slash. *)
Definition create_MDP (self : Energy) (mdpout energygroups : string) : io unit :=
  let raw_mdp := raw_mdp_template
                 ++ ["ref_t = " +:+ str_float (sys self) (temperature (sys self))]
                 ++ [cat ["energygrps"; tab; tab; tab; "="; energygroups; nl]] in
  write_file_in (energypath (sys self) +:+ "/mdpfiles") mdpout (join nl raw_mdp +:+ nl).

(** The directories that [create_TPR], [do_Energyrun] and [write_XVG] make
    with [os.makedirs(..., exist_ok=True)] receive the files of the engine
    only; what the engine finds and leaves is the engine's matter, and the
    world keeps no record of empty directories. *)
Definition create_TPR (self : Energy) (mdpoutfile tprout : string) : io unit :=
  let grompp_arglist :=
    [GMXNAME; "grompp"; "-f"; mdpoutfile; "-p"; toppath (sys self); "-c"; gropath (sys self);
     "-o"; tprout; "-n"; resindex_all self; "-po"; mdpoutfile] in
  '(out, err) ← exec_gromacs gmx grompp_arglist None;
  append_file "gmx_grompp.log" (err +:+ out).

Definition do_Energyrun (self : Energy) (res : Z) (groupfragment tprrerun_in energyf_out : string)
  : io unit :=
  let logoutput_file :=
    cat [energypath (sys self); "logfiles/"; "mdrerun_resid"; str res; part self; "frag";
         groupfragment; ".log"] in
  let trajout := "EMPTY.trr" in
  let mdrun_arglist :=
    [GMXNAME; "mdrun"; "-s"; tprrerun_in; "-rerun"; trjpath (sys self);
     "-e"; energyf_out; "-o"; trajout; "-g"; logoutput_file] in
  '(out, err) ← exec_gromacs gmx mdrun_arglist None;
  append_file "gmx_mdrun.log" (err +:+ out).

Definition write_XVG (self : Energy) (energyf_in tprrerun_in all_relev_energies xvg_out : string)
  : io unit :=
  let g_energy_arglist :=
    [GMXNAME; "energy"; "-f"; energyf_in; "-s"; tprrerun_in; "-o"; xvg_out] in
  let inp_str := all_relev_energies in
  '(out, err) ← exec_gromacs gmx g_energy_arglist (Some inp_str);
  append_file "gmx_energy.log" (err +:+ out).

(** The names of the files of one fragment, as [run_calculation] builds them. *)
Definition g_energy_output_of (self : Energy) (res groupfragment : Z) : string :=
  cat [energypath (sys self); "/xvgtables/energies_residue"; str res; "_"; str groupfragment;
       part self; ".xvg"].
Definition mdpout_of (self : Energy) (res groupfragment : Z) : string :=
  cat [energypath (sys self); "mdpfiles/energy_mdp_recalc_resid"; str res; "_";
       str groupfragment; part self; ".mdp"].
Definition tprout_of (self : Energy) (res groupfragment : Z) : string :=
  cat [energypath (sys self); "tprfiles/mdrerun_resid"; str res; "_"; str groupfragment;
       part self; ".tpr"].
Definition energyf_output_of (self : Energy) (res groupfragment : Z) : string :=
  cat [energypath (sys self); "edrfiles/energyfile_resid"; str res; "_" +:+ str groupfragment;
       part self; ".edr"].
Definition xvg_out_of (self : Energy) (res groupfragment : Z) : string :=
  cat [energypath (sys self); "xvgtables/energies_residue"; str res; "_"; str groupfragment;
       part self; ".xvg"].

(** The rerun step of one fragment. *)
Definition rerun_step (self : Energy) (res groupfragment : Z) : io unit :=
  fun w =>
    if isfile (energyf_output_of self res groupfragment) w && negb (overwrite self)
    then (Ok tt, w)
    else do_Energyrun self res (str groupfragment) (tprout_of self res groupfragment)
                      (energyf_output_of self res groupfragment) w.

(** The extraction step of one fragment. *)
Definition extraction_step (self : Energy) (res groupfragment : Z) (relev_energies : string)
  : io unit :=
  fun w =>
    if isfile (g_energy_output_of self res groupfragment) w && negb (overwrite self)
    then (Ok tt, w)
    else write_XVG self (energyf_output_of self res groupfragment)
                   (tprout_of self res groupfragment) relev_energies
                   (xvg_out_of self res groupfragment) w.

(** The body of [for groupfragment in range(number_of_groupfragments)]. *)
Definition run_fragment (self : Energy) (res : Z) (all_neibs_of_res : list Z) (groupfragment : Z)
  : io unit :=
  let groupblockstart := groupfragment * denominator self in
  let groupblockend := (groupfragment + 1) * denominator self in
  let self := with_groupblocks self [groupblockstart; groupblockend] in
  energygroups ← lift (gather_energygroups self res all_neibs_of_res);
  relev_energies ← lift (get_relev_energies self res all_neibs_of_res);
  _ ← create_MDP self (mdpout_of self res groupfragment) energygroups;
  _ ← create_TPR self (mdpout_of self res groupfragment) (tprout_of self res groupfragment);
  _ ← rerun_step self res groupfragment;
  extraction_step self res groupfragment relev_energies.

(** The world in which the rerun step of a fragment starts: the one left by
    [create_MDP] and [create_TPR]. *)
Definition before_rerun (self : Energy) (res groupfragment : Z) (energygroups : string)
    (w : world) : world :=
  snd (create_TPR self (mdpout_of self res groupfragment) (tprout_of self res groupfragment)
         (snd (create_MDP self (mdpout_of self res groupfragment) energygroups w))).

(** The fragments of one residue: [range(number_of_groupfragments)]. *)
Definition fragments_of (self : Energy) (res : Z) : result (list Z) :=
  all_neibs_of_res ← all_neibs_of self res;
  let nneibs := Z.of_nat (length all_neibs_of_res) in
  range <$> number_of_groupfragments self nneibs.

Definition run_calculation (self : Energy) (resids : list Z) : io Z :=
  _ ← io_for_each (fun res =>
         all_neibs_of_res ← lift (all_neibs_of self res);
         groupfragments ← lift (fragments_of self res);
         io_for_each (run_fragment self res all_neibs_of_res) groupfragments) resids;
  mret 1.

(** The name under which [write_energyfile] and [check_exist_xvgs] look for
    a table. *)
Definition xvgfilename_of (self : Energy) (resid part_ : Z) : string :=
  cat [energypath (sys self); "/xvgtables/energies_residue"; str resid; "_"; str part_;
       part self; ".xvg"].

Definition check_exist_xvgs (self : Energy) : io bool :=
  _ ← write_file "missing_xvgfiles.info" ("#Files missing" +:+ nl);
  io_foldl (fun all_okay resid =>
    parts ← lift (fragments_of self resid);
    io_foldl (fun all_okay part_ =>
      let xvgfilename := xvgfilename_of self resid part_ in
      present ← (fun w => (Ok (isfile xvgfilename w), w));
      if negb present
      then _ ← append_file "missing_xvgfiles.info" (xvgfilename +:+ nl); mret false
      else mret all_okay) parts all_okay) (MOLRANGE (sys self)) true.

(** *** [write_energyfile] *)

(** A row of the consolidated table [all_energies*.dat]: the time as the
    float that is printed, the two energies as the strings found in the
    table, and the total as it is printed, with five decimals. *)
Record energy_row : Type := Row {
  r_time : f64.t;
  r_host : Z;
  r_neighbor : Z;
  r_molparts : string;
  r_vdw : string;
  r_coul : string;
  r_etot : string
}.

(** The local variables of [write_energyfile] that outlive one line of a
    table, and the rows printed so far ([host] is unbound until the first
    legend line has been read). *)
Record locals : Type := Locals {
  written : list energy_row;
  host : option string;
  res_to_row : gmap (string * string * string) Z;
  processed_neibs : list string
}.

Definition agg (A : Type) : Type := locals -> result A * locals.

#[export] Instance agg_ret : MRet agg := fun _ a st => (Ok a, st).
#[export] Instance agg_bind : MBind agg :=
  fun _ _ f m st => match m st with
                    | (Ok a, st') => f a st'
                    | (Raise e, st') => (Raise e, st')
                    end.

Definition agg_lift {A} (r : result A) : agg A := fun st => (r, st).
Definition agg_read {A} (f : locals -> result A) : agg A := fun st => (f st, st).
Definition agg_modify (f : locals -> locals) : agg unit := fun st => (Ok tt, f st).

Fixpoint agg_for_each {A} (body : A -> agg unit) (l : list A) : agg unit :=
  match l with
  | [] => mret tt
  | x :: l' => body x ≫= fun _ => agg_for_each body l'
  end.

(** [cols[k]] for an int [k]; a negative [k] counts from the end. *)
Definition index_int {A} (l : list A) (k : Z) : result A :=
  if Z.ltb k 0 then
    (if Z.ltb (Z.of_nat (length l) + k) 0 then Raise IndexError
     else index l (Z.to_nat (Z.of_nat (length l) + k)))
  else index l (Z.to_nat k).

(** The four assignments made from a line with ['@ s'] in it. *)
Definition parse_legend (energyline_cols : list string) : result (Z * string * string * string) :=
  row ← (index energyline_cols 1 ≫= fun c => int (drop_str 1 c));
  let row := row + 1 in
  neib ← (index energyline_cols 3 ≫= fun c => but_last <$> index (split "resid_" c) 2);
  host_ ← (index energyline_cols 3 ≫= fun c => but_last <$> index (split "resid_" c) 1);
  energytype ← (index energyline_cols 3 ≫= fun c => drop_str 1 <$> index (split "-" c) 0);
  Ok (row, neib, host_, energytype).

(** A line with ['@ s'] in it. *)
Definition read_legend (energyline_cols : list string) : agg unit :=
  fun st =>
    match parse_legend energyline_cols with
    | Raise e => (Raise e, st)
    | Ok (row, neib, host_, energytype) =>
        (Ok tt,
         Locals (written st) (Some host_)
                (<[(energytype, host_, neib) := row]> (res_to_row st))
                (if String.eqb energytype "LJ" then processed_neibs st ++ [neib]
                 else processed_neibs st))
    end.

(** The label of a part in the [Molparts] column. *)
Definition inter_label (part_ : string) : string :=
  if String.eqb (but_last part_) EmptyString then "w" else but_last part_.

(** The innermost body: one host part against one neighbor part. *)
Definition print_pair (resid : Z) (energyline_cols : list string) (time : f64.t) (neib : Z)
    (parthost partneib : string) : agg unit :=
  fun st =>
    let inter := cat [inter_label parthost; "_"; inter_label partneib] in
    match res_to_row st !! ("LJ", parthost +:+ str resid, partneib +:+ str neib) with
    | None => (Ok tt, st)
    | Some i =>
        match index_int energyline_cols i with
        | Raise e => (Raise e, st)
        | Ok vdw =>
            match res_to_row st !! ("Coul", parthost +:+ str resid, partneib +:+ str neib) with
            | None => (Ok tt, st)
            | Some j =>
                match (coul ← index_int energyline_cols j;
                       a ← f64.of_string vdw; b ← f64.of_string coul;
                       Ok (coul, f64.fixed 5 (f64.add a b))) with
                | Raise e => (Raise e, st)
                | Ok (coul, Etot) =>
                    (Ok tt,
                     Locals (written st ++ [Row time resid neib inter vdw coul Etot])
                            (host st) (res_to_row st) (processed_neibs st))
                end
            end
        end
    end.

(** The test that leaves out the pair 372/242 of one system. *)
Definition broken_pair (self : Energy) (neib : Z) : agg bool :=
  fun st =>
    if String.eqb (system (sys self)) "dppc_dupc_chol25" then
      match host st with
      | None => (Raise NameError, st)
      | Some h =>
          match int h with
          | Raise e => (Raise e, st)
          | Ok h => (Ok ((Z.eqb h 372 && Z.eqb neib 242) || (Z.eqb h 242 && Z.eqb neib 372)), st)
          end
      end
    else (Ok false, st).

(** The body of [for neib in all_neibs_of_res] on a data line. *)
Definition print_neighbor (self : Energy) (resid : Z) (residtype : string)
    (energyline_cols : list string) (time : f64.t) (neib : Z) : agg unit :=
  skip ← broken_pair self neib;
  if (skip : bool) then mret tt
  else
    neibtype ← agg_lift (getitem (resid_to_lipid (sys self)) neib);
    agg_for_each (fun parthost =>
      agg_for_each (fun partneib =>
        print_pair resid energyline_cols time neib parthost partneib)
        (parts_reached (String.eqb neibtype "CHL1") EmptyString 0
                       (map (drop_str 6) (molparts self))))
      (parts_reached (String.eqb residtype "CHL1") EmptyString 0
                     (map (drop_str 6) (molparts self))).

(** One line of a table. *)
Definition read_energyline (self : Energy) (resid : Z) (residtype : string)
    (all_neibs_of_res : list Z) (energyline : string) : agg unit :=
  let energyline_cols := split_ws energyline in
  if contains "@ s" energyline then read_legend energyline_cols
  else if negb (contains "@" energyline) && negb (contains "#" energyline) then
    time ← agg_lift (index energyline_cols 0 ≫= f64.of_string);
    unaligned ← agg_lift (f64.mod_nonzero time (f64.of_Q (dt (sys self))));
    if (unaligned : bool) then mret tt
    else agg_for_each (print_neighbor self resid residtype energyline_cols time) all_neibs_of_res
  else mret tt.

(** One table: [res_to_row] starts empty. *)
Definition read_xvgfile (self : Energy) (fs : gmap string string) (resid : Z)
    (residtype : string) (all_neibs_of_res : list Z) (part_ : Z) : agg unit :=
  xvgfile ← agg_lift (file_lines fs (xvgfilename_of self resid part_));
  _ ← agg_modify (fun st => Locals (written st) (host st) ∅ (processed_neibs st));
  agg_for_each (read_energyline self resid residtype all_neibs_of_res) xvgfile.

(** The list the processed neighbors are removed from. *)
Definition expected_neighbors (self : Energy) (all_neibs_of_res : list Z) : list value :=
  if (1 <? length (molparts self))%nat then
    let named :=
      concat (map (fun entry =>
                     map (fun part_ => replace "resid_" EmptyString part_ +:+ str entry)
                         (molparts self)) all_neibs_of_res) in
    concat (map (fun entry => map (fun _ => VStr entry) (seq 0 (length (molparts self)))) named)
  else map VInt all_neibs_of_res.

Definition not_all_found : exn := ValueError "Not all neighbours found in xvgfile".

(** The check at the end of a residue. *)
Definition check_processed (self : Energy) (all_neibs_of_res : list Z) (processed : list string)
  : result unit :=
  rest ← for_each (fun l pneib => list_remove (VStr pneib) l) processed
                  (expected_neighbors self all_neibs_of_res);
  match rest with
  | [] => Ok tt
  | _ :: _ => Raise not_all_found
  end.

(** The tables of one residue read, without the check that follows. *)
Definition read_residue (self : Energy) (fs : gmap string string) (resid : Z) : agg (list Z) :=
  residtype ← agg_lift (getitem (resid_to_lipid (sys self)) resid);
  all_neibs_of_res ← agg_lift (all_neibs_of self resid);
  parts ← agg_lift (fragments_of self resid);
  _ ← agg_modify (fun st => Locals (written st) (host st) (res_to_row st) []);
  _ ← agg_for_each (read_xvgfile self fs resid residtype all_neibs_of_res) parts;
  mret all_neibs_of_res.

(** The body of [for resid in self.MOLRANGE]. *)
Definition write_residue (self : Energy) (fs : gmap string string) (resid : Z) : agg unit :=
  all_neibs_of_res ← read_residue self fs resid;
  agg_read (fun st => check_processed self all_neibs_of_res (processed_neibs st)).

(** The rows are kept as records; the state returned holds the rows printed,
    also when an exception ends the run. *)
Definition write_energyfile (self : Energy) (fs : gmap string string) : result unit * locals :=
  agg_for_each (write_residue self fs) (MOLRANGE (sys self)) (Locals [] None ∅ []).

End Energy.
(** *** The interaction of a residue with itself *)
Section SelfInteraction.
Variable gmx : engine.

(** The entries [get_relev_self_interaction] collects in [energyselection]. *)
Definition self_energyselection (self : Energy) (res : Z) : list string :=
  concat (map (fun interaction =>
                 map (fun parthost => cat [interaction; parthost; str res; "-"; parthost; str res])
                     (molparts self))
              ["Coul-SR:"; "LJ-SR:"; "Coul-14:"; "LJ-14:"]).

Definition get_relev_self_interaction (self : Energy) (res : Z) : string :=
  join nl (self_energyselection self res ++ [nl]).

(** The table of the self interaction of a residue. *)
Definition self_xvg_out_of (self : Energy) (res : Z) : string :=
  cat [energypath (sys self); "xvgtables/energies_residue"; str res; "_selfinteraction";
       part self; ".xvg"].

Definition selfinteractions_edr_to_xvg (self : Energy) : io unit :=
  io_for_each (fun res =>
    let relev_energies := get_relev_self_interaction self res in
    let tprout :=
      cat [energypath (sys self); "tprfiles/mdrerun_resid"; str res; "_"; "0"; part self;
           ".tpr"] in
    let energyf_output :=
      cat [energypath (sys self); "edrfiles/energyfile_resid"; str res; "_" +:+ "0";
           part self; ".edr"] in
    let xvg_out := self_xvg_out_of self res in
    write_XVG gmx self energyf_output tprout relev_energies xvg_out) (MOLRANGE (sys self)).

(** A row of [selfinteractions.dat]; the three sums as they are printed,
    with five decimals. *)
Record self_row : Type := SelfRow {
  s_time : f64.t;
  s_lipid : Z;
  s_etot : string;
  s_vdw_sr : string;
  s_coul_sr : string;
  s_vdw_14 : string;
  s_coul_14 : string;
  s_vdw_tot : string;
  s_coul_tot : string
}.

(** The local variables of [selfinteractions_xvg_to_dat] that outlive one
    line, and the rows printed so far. *)
Record self_locals : Type := SelfLocals {
  self_written : list self_row;
  self_host : option string;
  self_res_to_row : gmap (string * string) Z
}.

(** A statement run on the local variables; the variables are kept when it
    raises. *)
Definition stmt : Type := self_locals -> result unit * self_locals.

Fixpoint stmt_for_each {A} (body : A -> stmt) (l : list A) : stmt :=
  fun st =>
    match l with
    | [] => (Ok tt, st)
    | x :: l' => match body x st with
                 | (Ok _, st') => stmt_for_each body l' st'
                 | (Raise e, st') => (Raise e, st')
                 end
    end.

(** The three assignments made from a line with ['@ s'] in it. *)
Definition parse_self_legend (energyline_cols : list string) : result (Z * string * string) :=
  row ← (index energyline_cols 1 ≫= fun c => int (drop_str 1 c));
  let row := row + 1 in
  host_ ← (index energyline_cols 3 ≫= fun c => but_last <$> index (split "resid_" c) 1);
  energytype ← (index energyline_cols 3 ≫= fun c => drop_str 1 <$> index (split ":" c) 0);
  Ok (row, host_, energytype).

Definition read_self_legend (energyline_cols : list string) : stmt :=
  fun st =>
    match parse_self_legend energyline_cols with
    | Raise e => (Raise e, st)
    | Ok (row, host_, energytype) =>
        (Ok tt, SelfLocals (self_written st) (Some host_)
                           (<[(energytype, host_) := row]> (self_res_to_row st)))
    end.

(** [energyline_cols[res_to_row[(energytype, host)]]] inside the [try]:
    [None] stands for the [KeyError] that the [except] clause catches. *)
Definition self_column (st : self_locals) (energyline_cols : list string)
    (energytype host_ : string) : result (option string) :=
  match self_res_to_row st !! (energytype, host_) with
  | None => Ok None
  | Some i => Some <$> index_int energyline_cols i
  end.

(** The next statement of the [try] block. *)
Definition and_then {A B} (m : result (option A)) (f : A -> result (option B))
  : result (option B) :=
  match m with
  | Raise e => Raise e
  | Ok None => Ok None
  | Ok (Some a) => f a
  end.

(** The [try] block of a data line. *)
Definition self_energies (st : self_locals) (energyline_cols : list string) (host_ : string)
  : result (option (string * string * string * string * f64.t * f64.t)) :=
  and_then (self_column st energyline_cols "LJ-SR" host_) (fun vdw_sr =>
  and_then (self_column st energyline_cols "LJ-14" host_) (fun vdw_14 =>
  and_then (self_column st energyline_cols "Coul-SR" host_) (fun coul_sr =>
  and_then (self_column st energyline_cols "Coul-14" host_) (fun coul_14 =>
    a14 ← f64.of_string vdw_14;
    asr ← f64.of_string vdw_sr;
    c14 ← f64.of_string coul_14;
    csr ← f64.of_string coul_sr;
    Ok (Some (vdw_sr, vdw_14, coul_sr, coul_14, f64.add a14 asr, f64.add c14 csr)))))).

(** A line without ['@'] and ['#']. *)
Definition read_self_data (self : Energy) (resid : Z) (energyline_cols : list string) : stmt :=
  fun st =>
    match (time ← (index energyline_cols 0 ≫= f64.of_string);
           unaligned ← f64.mod_nonzero time (f64.of_Q (dt (sys self)));
           Ok (time, unaligned)) with
    | Raise e => (Raise e, st)
    | Ok (time, true) => (Ok tt, st)
    | Ok (time, false) =>
        match self_host st with
        | None => (Raise NameError, st)
        | Some host_ =>
            match self_energies st energyline_cols host_ with
            | Raise e => (Raise e, st)
            | Ok None => (Ok tt, st)
            | Ok (Some (vdw_sr, vdw_14, coul_sr, coul_14, vdw_tot, coul_tot)) =>
                match (a ← f64.of_string vdw_sr; b ← f64.of_string coul_sr;
                       c ← f64.of_string vdw_14; d ← f64.of_string coul_14;
                       Ok (f64.add (f64.add (f64.add a b) c) d)) with
                | Raise e => (Raise e, st)
                | Ok Etot =>
                    (Ok tt,
                     SelfLocals (self_written st
                                 ++ [SelfRow time resid (f64.fixed 5 Etot) vdw_sr coul_sr
                                             vdw_14 coul_14 (f64.fixed 5 vdw_tot)
                                             (f64.fixed 5 coul_tot)])
                                (self_host st) (self_res_to_row st))
                end
            end
        end
    end.

(** One line of a table. *)
Definition read_self_line (self : Energy) (resid : Z) (energyline : string) : stmt :=
  let energyline_cols := split_ws energyline in
  if contains "@ s" energyline then read_self_legend energyline_cols
  else if negb (contains "@" energyline) && negb (contains "#" energyline)
       then read_self_data self resid energyline_cols
       else fun st => (Ok tt, st).

(** The body of [for resid in self.MOLRANGE]: [res_to_row] starts empty,
    [host] keeps its value. *)
Definition read_self_table (self : Energy) (fs : gmap string string) (resid : Z) : stmt :=
  fun st =>
    match file_lines fs (self_xvg_out_of self resid) with
    | Raise e => (Raise e, st)
    | Ok xvgfile =>
        stmt_for_each (read_self_line self resid) xvgfile
          (SelfLocals (self_written st) (self_host st) ∅)
    end.

(** The rows are kept as records; the state returned holds the rows printed,
    also when an exception ends the run. *)
Definition selfinteractions_xvg_to_dat (self : Energy) (fs : gmap string string)
  : result unit * self_locals :=
  stmt_for_each (read_self_table self fs) (MOLRANGE (sys self)) (SelfLocals [] None ∅).

End SelfInteraction.

End energy.

(** ** bilana/analysis/leaflets.py: the functions that read the registry,
    the trajectory or the files *)
Module leaflet_files.
Import leaflets.

(** *** Neighbors across the leaflets *)

(** The list that [is_neighbor_in_leaflet] logs: a pair for every host, time
    and neighbor whose leaflets differ.  [res_to_leaflet] is the attribute
    of the registry of that name. *)
Definition is_neighbor_in_leaflet (self : SysInfo) (res_to_leaflet : gmap Z Z)
    (neiblist : gmap Z (list (Q * list Z))) : result (list (Z * Z)) :=
  for_each (fun host_has_interleafletneib host =>
    neibs_times ← getitem neiblist host;
    host_leaflet ← getitem res_to_leaflet host;
    for_each (fun acc t =>
      for_each (fun acc neib =>
        neib_leaflet ← getitem res_to_leaflet neib;
        if negb (Z.eqb neib_leaflet host_leaflet) then Ok (acc ++ [(host, neib)]) else Ok acc)
        (snd t) acc)
      neibs_times host_has_interleafletneib)
    (MOLRANGE self) [].

(** *** The leaflet of every residue along the trajectory *)

(** What the code reads of a residue of the trajectory: its id, its name,
    the positions of the atoms a selection picks and the center of mass of
    a selection. *)
Record residue : Type := Residue {
  res_resid : Z;
  res_resname : string;
  positions : string -> list vec;
  center_of_mass : string -> vec
}.

(** A frame of the trajectory: its time and its residues. *)
Record timestep : Type := Timestep {
  ts_time : Q;
  ts_residues : list residue
}.

(** The rows [leaflet_assignment_of_frame] returns: id, name and leaflet. *)
Definition leaflet_assignment_of_frame (residues : list residue)
    (refhead reftail : gmap string string) : result (list (Z * string * Z)) :=
  mapM (fun residue_ =>
          head_sel ← getitem refhead (res_resname residue_);
          coord_head ← index (positions residue_ head_sel) 0;
          tail_sel ← getitem reftail (res_resname residue_);
          let coord_tail := center_of_mass residue_ tail_sel in
          let leaflet := molecule_leaflet_orientation coord_head coord_tail axis_z in
          Ok (res_resid residue_, res_resname residue_, leaflet))
       residues.

Section Trajectory.
Variable lm : lipidmolecules.t.
(** [lipidmolecules.scd_tail_atoms_of]. *)
Variable scd_tail_atoms_of : string -> result (list (list string)).
Variable self : SysInfo.

(** [i[-1]]. *)
Definition last_atom (chain : list string) : result string :=
  match last chain with Some a => Ok a | None => Raise IndexError end.

(** The two dictionaries of selections, one entry per configured species. *)
Definition reference_selections : result (gmap string string * gmap string string) :=
  for_each (fun dicts mol =>
    atm ← lipidmolecules.central_atom_of lm mol;
    tails ← scd_tail_atoms_of mol;
    lasts ← mapM last_atom tails;
    Ok (<[mol := "name " +:+ atm]> (fst dicts), <[mol := "name " +:+ join " " lasts]> (snd dicts)))
  (molecules self) (∅, ∅).

(** The frame made from one timestep: the rows of the residues of a
    configured species, with the time of the frame. *)
Definition frame_of (refhead reftail : gmap string string) (ts : timestep)
  : result (list sample) :=
  let atomsel := List.filter (fun r => bool_decide (res_resname r ∈ molecules self))
                             (ts_residues ts) in
  rows ← leaflet_assignment_of_frame atomsel refhead reftail;
  Ok (map (fun row => Sample (fst (fst row)) (snd (fst row)) (snd row) (ts_time ts)) rows).

(** [for ts in u.trajectory]: a frame before [t_start] is passed over, the
    first frame after [t_end] ends the loop. *)
Fixpoint trajectory_loop (refhead reftail : gmap string string) (trajectory : list timestep)
    (frames : list (list sample)) : result (list (list sample)) :=
  match trajectory with
  | [] => Ok frames
  | ts :: rest =>
      if Qlt_bool (ts_time ts) (systeminfo.t_start self) then trajectory_loop refhead reftail rest frames
      else if Qlt_bool (systeminfo.t_end self) (ts_time ts) then Ok frames
      else
        match frame_of refhead reftail ts with
        | Ok frame => trajectory_loop refhead reftail rest (frames ++ [frame])
        | Raise e => Raise e
        end
  end.

(** The rows written to [leaflet_trajectory.csv]. *)
Definition leaflet_assignment_time_evolution (trajectory : list timestep)
  : result (list sample) :=
  '(refdict_head, refdict_tail) ← reference_selections;
  frames ← trajectory_loop refdict_head refdict_tail trajectory [];
  match frames with
  | [] => Raise (ValueError "No objects to concatenate")
  | _ :: _ => Ok (concat frames)
  end.

End Trajectory.

(** *** The density along the bilayer normal *)
Section Density.
Variable gmx : engine.
Variable self : SysInfo.
(** [systeminfo.trjpath_whole]. *)
Variable trjpath_whole : string.

(** [kw_den] as the flags added to the command: [-key value] for every
    keyword, in the order given. *)
Definition additional_input (kw_den : list (string * string)) : list string :=
  concat (map (fun z => ["-" +:+ fst z; snd z]) kw_den).

(** [os.path.exists] is taken as [os.path.isfile]: the worlds hold no
    directories. *)
Definition calc_density (selstr outname : string) (overwrite : bool)
    (kw_den : list (string * string)) : io string :=
  let TRJ := trjpath_whole in
  let TPR := tprpath self in
  let NDX := temppath self +:+ "temp.ndx" in
  let OUT := datapath self +:+ "densities/" +:+ outname in
  fun w =>
    if negb overwrite && isfile OUT w then (Ok OUT, w)
    else
      (let commandstring := cat ["gmx select -f "; TRJ; " -s "; TPR; " -on "; NDX; " -select"] in
       let cmd := split_ws commandstring ++ [selstr] in
       '(out, err) ← exec_gromacs gmx cmd None;
       _ ← write_file "gmx_select.log" (err +:+ nl +:+ out +:+ nl);
       let commandstring :=
         cat ["gmx density -f "; TRJ; " -s "; TPR; " -n "; NDX; " -o "; OUT; "  -d Z"] in
       let cmd := split_ws commandstring ++ additional_input kw_den in
       '(out, err) ← exec_gromacs gmx cmd None;
       _ ← write_file "gmx_density.log" (err +:+ nl +:+ out +:+ nl);
       mret OUT) w.

End Density.

End leaflet_files.


(** ** Reference definitions and concrete inputs used by the properties *)

(** ceil(n/d), the smallest [k] with [n <= k * d]. *)
Definition ceil_div (n d : Z) : Z := - ((- n) / d).


(** The names of the reference strategies of the neighbor search. *)
Definition known_refatoms : list string := ["P"; "bothtails"; "glycerol"; "tails_com"].

(** Every neighbor list held by a dictionary is free of duplicates. *)
Definition duplicate_free (d : gmap Z (list (Q * list Z))) : Prop :=
  forall r by_time t l, d !! r = Some by_time -> (t, l) ∈ by_time -> NoDup l.

(** Every character of a string passes a test. *)
Fixpoint string_forall (P : ascii -> bool) (s : string) : bool :=
  match s with
  | EmptyString => true
  | String c s' => P c && string_forall P s'
  end.

Definition not_r (c : ascii) : bool := negb (Ascii.eqb c "r").
Definition digit_or_minus (c : ascii) : bool := is_digit c || Ascii.eqb c "-".

(** The fourth column of a legend line: the entry between double quotes. *)
Definition quoted (s : string) : string := String dquote (s +:+ String dquote EmptyString).

(** A line that [write_energyfile] takes for a legend line and whose fourth
    column names the entry, as in [@ s0 legend "LJ-SR:resid_5-resid_7"]. *)
Definition is_legend_for (entry line : string) : Prop :=
  contains "@ s" line = true /\ split_ws line !! 3%nat = Some (quoted entry).

(** The parts of the four modes, as [Energy.__init__] sets them. *)
Definition molparts_of_modes : list (list string) :=
  [["resid_"]; ["resid_h_"; "resid_t_"]; ["resid_h_"; "resid_t12_"; "resid_t22_"];
   map (fun i => "resid_C" +:+ str (Z.of_nat i) +:+ "_") (seq 0 7)].

(** Every fragment of a residue has its table, and the table has a legend
    line for every entry that [get_relev_energies] asks the engine for. *)
Definition tables_complete (lm : lipidmolecules.t) (self : energy.Energy)
    (fs : gmap string string) (resid : Z) (all_neibs_of_res : list Z) : Prop :=
  forall k,
    k ∈ energy.range (ceil_div (Z.of_nat (length all_neibs_of_res)) (energy.denominator self)) ->
    exists entries lines,
      energy.energyselection lm
        (energy.with_groupblocks self [k * energy.denominator self;
                                       (k + 1) * energy.denominator self])
        resid all_neibs_of_res = Ok entries
      /\ file_lines fs (energy.xvgfilename_of self resid k) = Ok lines
      /\ forall e, e ∈ entries -> exists line, line ∈ lines /\ is_legend_for e line.

(** The entry of the energy table asked for a pair of parts. *)
Definition entry (interaction parthost : string) (res : Z) (partneib : string) (neib : Z)
  : string :=
  cat [interaction; parthost; str res; "-"; partneib; str neib].

(** The labels collected so far are kept. *)
Definition extends (st st' : energy.locals) : Prop :=
  forall p, p ∈ energy.processed_neibs st -> p ∈ energy.processed_neibs st'.

(** A part name is [resid_] followed by a label without the letter r. *)
Definition part_ok (part_ : string) : bool :=
  starts_with "resid_" part_ && string_forall not_r (drop_str 6 part_).

(** The label of a part starts with a letter. *)
Definition label_ok (part_ : string) : bool :=
  match replace "resid_" EmptyString part_ with
  | String c _ => negb (digit_or_minus c)
  | EmptyString => false
  end.

(** The samples of one residue come in time order, no time before [prev]. *)
Fixpoint time_ordered (prev : Q) (fr : list leaflets.sample) : bool :=
  match fr with
  | [] => true
  | s :: fr' => Qle_bool prev (leaflets.time s) && time_ordered (leaflets.time s) fr'
  end.

(** Two times lie more than 10000 time units apart as the frame sees it:
    their float64 difference exceeds 10000.0. *)
Definition far_apart (earlier later : Q) : bool :=
  f64.ltb (f64.of_Z 10000) (f64.sub (f64.of_Q later) (f64.of_Q earlier)).

(** A list of change points cut wherever two consecutive ones lie more than
    10000 time units apart. *)
Fixpoint split_at_gaps (events : list leaflets.sample) : list (list leaflets.sample) :=
  match events with
  | [] => []
  | e :: rest =>
      match rest with
      | [] => [[e]]
      | e' :: _ =>
          if far_apart (leaflets.time e) (leaflets.time e')
          then [e] :: split_at_gaps rest
          else match split_at_gaps rest with
               | s :: ss => (e :: s) :: ss
               | [] => [[e]]
               end
      end
  end.

(** The times at which a new segment starts, [prev] being the time of the
    change point before the list. *)
Fixpoint gap_starts (prev : Q) (events : list leaflets.sample) : list Q :=
  match events with
  | [] => []
  | e :: rest =>
      (if far_apart prev (leaflets.time e) then [leaflets.time e] else [])
      ++ gap_starts (leaflets.time e) rest
  end.

(** [cur] put in front of the first segment. *)
Definition prepend (cur : list leaflets.sample) (segs : list (list leaflets.sample))
  : list (list leaflets.sample) :=
  match segs with
  | s :: ss => (cur ++ s) :: ss
  | [] => [cur]
  end.

(** The samples whose leaflet differs from that of the sample before,
    [prev] being the leaflet of the sample before the list. *)
Fixpoint leaflet_changes (prev : Z) (fr : list leaflets.sample) : list leaflets.sample :=
  match fr with
  | [] => []
  | s :: fr' =>
      (if Z.eqb (leaflets.leaflet s) prev then [] else [s])
      ++ leaflet_changes (leaflets.leaflet s) fr'
  end.

(** The segments whose first and last change point report the same leaflet,
    as pairs (first, last). *)
Definition round_trips (segs : list (list leaflets.sample))
  : list (leaflets.sample * leaflets.sample) :=
  omap (fun seg => match head seg, last seg with
                   | Some start, Some end_ =>
                       if Z.eqb (leaflets.leaflet start) (leaflets.leaflet end_)
                       then Some (start, end_) else None
                   | _, _ => None
                   end) segs.

(** The frames that go to the table of events: for every residue with a
    change point, its change points that lie more than 1000 time units after
    the one before. *)
Definition kept_events (groups : list (list leaflets.sample)) : list (list leaflets.sample) :=
  concat (map (fun g => match leaflets.change_points g with
                        | [] => []
                        | _ :: _ => [leaflets.filtered_events (leaflets.change_points g)]
                        end) groups).

(** The completed round trips of all residues: for every residue in turn,
    the segments of its change points whose first and last change point
    report the same leaflet. *)
Definition completed (groups : list (list leaflets.sample))
  : list (leaflets.sample * leaflets.sample) :=
  concat (map (fun g => round_trips (split_at_gaps (leaflets.change_points g))) groups).

(** The rows of one residue, in the order of the table. *)
Definition rows_of_resid (dat : list leaflets.sample) (r : Z) : list leaflets.sample :=
  List.filter (fun s => Z.eqb (leaflets.resid s) r) dat.

(** A string without a slash. *)
Definition slashless (s : string) : bool :=
  string_forall (fun c => negb (Ascii.eqb c "/")) s.

Module scenario.
Import energy.

(** Naming tables with a second sterol and a protein residue. *)
Definition lipid_tables : lipidmolecules.t :=
  lipidmolecules.Defs ["CHL1"; "ERG"] ["VAL"]
    (fun _ => Ok "P") (fun _ => Ok [["C21"; "C22"]; ["C31"; "C32"]]).

(** An engine that writes nothing and prints nothing. *)
Definition silent_engine : engine := fun _ _ fs => (EmptyString, EmptyString, fs).

Definition registry (system_ : string) (species : list (Z * string)) : SysInfo :=
  systeminfo.Build system_ [5] (list_to_map species) (list_to_map [(10, 3); (11, 3); (12, 4)])
    ["DPPC"; "CHL1"; "ERG"] ["DPPC"; "CHL1"; "ERG"] 0 (1000 # 1) (100 # 1) (1 # 1) (300 # 1)
    (fun _ => "1.0") "data" "index" "temp" "energy/" "topol.top" "conf.gro" "topol.tpr"
    "traj.xtc".

Definition lipids : list (Z * string) := [(5, "DPPC"); (7, "DPPC"); (8, "DPPC")].

(** Mode [complete]; residue 5 has the neighbors [neibs] at time 0. *)
Definition complete (neibs : list Z) : Energy :=
  Build (registry "dppc_chol" lipids) (list_to_map [(5, [(0%Q, neibs)])])
        "resindex_all" false [] EmptyString ["resid_"] 40 [EmptyString] "all_energies.dat".

(** Mode [head-tail]; residue 5 has the neighbors [neibs] at time 0. *)
Definition headtail (system_ : string) (species : list (Z * string)) (neibs : list Z) : Energy :=
  Build (registry system_ species) (list_to_map [(5, [(0%Q, neibs)])])
        "resindex_all" false [] "head-tail" ["resid_h_"; "resid_t_"] 20 ["h_"; "t_"]
        "all_energies_headtail.dat".

(** A legend line of a table as the engine writes it. *)
Definition legend (i : nat) (entry : string) : string :=
  cat ["@ s"; str (Z.of_nat i); " legend "; quoted entry].

(** A table with one legend line per entry, then the data lines. *)
Definition table (entries data : list string) : string :=
  cat (map (fun l => l +:+ nl) (["# gmx energy"; "@ title x"] ++ imap legend entries ++ data)).

(** The files of an energy run in which fragment 0 of residue 5 has a table
    with the given entries. *)
Definition tables_of (self : Energy) (entries data : list string) : gmap string string :=
  {[ path_key (xvgfilename_of self 5 0) := table entries data ]}.

(** The table of fragment 0 of residue 5 with every entry asked for. *)
Definition full_tables (self : Energy) (data : list string) : gmap string string :=
  match all_neibs_of self 5 ≫=
        energyselection lipid_tables (with_groupblocks self [0; denominator self]) 5 with
  | Ok entries => tables_of self entries data
  | Raise _ => ∅
  end.

(** One data line with a time and eight energies. *)
Definition data_line : string := "0.000000  -1.5  -2.5  -3.5  -4.5  -5.5  -6.5  -7.5  -8.5".

(** An ergosterol host with a lipid neighbor, mode [head-tail]. *)
Definition ergosterol_host : Energy := headtail "dppc_erg" [(5, "ERG"); (7, "DPPC")] [7].

(** A cholesterol host with a lipid neighbor, mode [head-tail]. *)
Definition cholesterol_host : Energy := headtail "dppc_chol" [(5, "CHL1"); (7, "DPPC")] [7].

(** A lipid host with a cholesterol neighbor, mode [head-tail]. *)
Definition cholesterol_neighbor (system_ : string) : Energy :=
  headtail system_ [(5, "DPPC"); (7, "CHL1")] [7].

(** Mode [complete], neighbors 7 and 8, and a table that has the entries of
    neighbor 7 only. *)
Definition partial_tables : gmap string string :=
  tables_of (complete [7; 8]) ["Coul-SR:resid_5-resid_7"; "LJ-SR:resid_5-resid_7"] [data_line].

(** Mode [head-tail], lipid neighbors 7 and 8, and a table that has the
    entries of neighbor 7 only. *)
Definition partial_tables_headtail : gmap string string :=
  tables_of (headtail "dppc_chol" lipids [7; 8])
    ["Coul-SR:resid_h_5-resid_h_7"; "Coul-SR:resid_h_5-resid_t_7";
     "Coul-SR:resid_t_5-resid_h_7"; "Coul-SR:resid_t_5-resid_t_7";
     "LJ-SR:resid_h_5-resid_h_7"; "LJ-SR:resid_h_5-resid_t_7";
     "LJ-SR:resid_t_5-resid_h_7"; "LJ-SR:resid_t_5-resid_t_7"] [data_line].

(** The local variables at the start of [write_energyfile]. *)
Definition start : locals := Locals [] None ∅ [].

(** An engine that leaves a file under every name that follows [-o] or
    [-e] in its arguments. *)
Definition writing_engine : engine := fun cmd _ fs =>
  let sub := default EmptyString (cmd !! 1%nat) in
  let targets :=
    omap (fun p => if bool_decide (fst p ∈ ["-o"; "-e"]) then Some (snd p) else None)
         (zip cmd (drop 1 cmd)) in
  (EmptyString, EmptyString,
   foldr (fun p fs => <[path_key p := "written by " +:+ sub]> fs) fs targets).

(** The sub-commands of the engine runs recorded in a world, in order. *)
Definition subcommands (w : world) : list string :=
  map (fun c => default EmptyString (fst c !! 1%nat)) (calls w).

(** The files left by a first [run_calculation], and by a second one. *)
Definition first_run : world :=
  snd (run_calculation lipid_tables writing_engine (complete [7]) [5] (World ∅ [])).
Definition second_run : world :=
  snd (run_calculation lipid_tables writing_engine (complete [7]) [5] first_run).

(** The same run with an [energypath] that does not end with a slash, in a
    world where the directory [energymdpfiles] is there. *)
Definition without_slash : Energy :=
  Build (systeminfo.Build "dppc_chol" [5] (list_to_map lipids) ∅
           ["DPPC"; "CHL1"; "ERG"] ["DPPC"; "CHL1"; "ERG"] 0 (1000 # 1) (100 # 1) (1 # 1)
           (300 # 1) (fun _ => "1.0") "data" "index" "temp" "energy" "topol.top" "conf.gro"
           "topol.tpr" "traj.xtc")
        (list_to_map [(5, [(0%Q, [7])])])
        "resindex_all" false [] EmptyString ["resid_"] 40 [EmptyString] "all_energies.dat".
Definition prepared : world := World {[ "energymdpfiles/README" := EmptyString ]} [].
Definition first_run_without_slash : world :=
  snd (run_calculation lipid_tables writing_engine without_slash [5] prepared).
Definition second_run_without_slash : world :=
  snd (run_calculation lipid_tables writing_engine without_slash [5] first_run_without_slash).

(** A lipid sampled every 50 time units, with the four samples after which
    its leaflet is 0, 1, 0 and 1. *)
Definition crossing (t : Z) (leaflet_ : Z) : leaflets.sample :=
  leaflets.Sample 17 "DPPC" leaflet_ (inject_Z t).

Definition flips : list leaflets.sample :=
  [crossing 0 0; crossing 50 0; crossing 100 1; crossing 150 1; crossing 200 0;
   crossing 250 0; crossing 14950 0; crossing 15000 1; crossing 15050 1].

End scenario.

(** A character that [str.split()] does not take for a blank. *)
Definition not_space (c : ascii) : bool := negb (is_space c).

(** A column as [str.split()] returns it: not empty and free of blanks. *)
Definition token (s : string) : bool :=
  negb (String.eqb s EmptyString) && string_forall not_space s.

(** The two halves of a chain of [n] atoms: its first [n // 2] atoms, and
    the others. *)
Definition first_half (chain : list string) : list string :=
  take (length chain / 2)%nat chain.
Definition second_half (chain : list string) : list string :=
  drop (length chain / 2)%nat chain.

(** A text defines the group [g] of a residue: one of its lines starts
    with [g=resid <mol> and resname <lipidtype>]. *)
Definition defines (text g : string) (mol : Z) (lipidtype : string) : bool :=
  let definition := cat [g; "=resid "; str mol; " and resname "; lipidtype] in
  starts_with definition text || contains (nl +:+ definition) text.

(** A text asks for the group [g]: it has the line [g;]. *)
Definition asks_for (text g : string) : bool :=
  contains (nl +:+ g +:+ ";") text.

(** Concrete inputs for the index file of the energy groups. *)
Module index_scenario.

(** The carbons of a chain, [C<chain>2], [C<chain>3], ... *)
Definition chain_carbons (chain : string) (n : nat) : list string :=
  map (fun i => cat ["C"; chain; str (Z.of_nat i)]) (seq 2 n).

(** The hydrogens of a chain, two for every carbon. *)
Definition chain_hydrogens (chain : string) (n : nat) : list string :=
  concat (map (fun i => [cat ["H"; str (Z.of_nat i); "R"]; cat ["H"; str (Z.of_nat i); "S"]])
              (seq 2 n)).

(** Naming tables of a lipid with two chains of [n] carbons each. *)
Definition lipid_tables (n : nat) : lipidmolecules.t :=
  lipidmolecules.Defs ["CHL1"] [] (fun _ => Ok "P")
    (fun _ => Ok [chain_carbons "2" n; chain_carbons "3" n]).

Definition atoms (n : nat) : neighbors.atom_tables :=
  neighbors.AtomTables
    (fun _ => Ok [chain_carbons "2" n ++ chain_hydrogens "2" n;
                  chain_carbons "3" n ++ chain_hydrogens "3" n])
    (fun _ => Ok ["P"; "N"; "C1"; "C2"; "C3"])
    (fun _ => Ok [chain_hydrogens "2" n; chain_hydrogens "3" n]).

(** An engine that leaves a file under every name that follows [-on] or
    [-o] in its arguments. *)
Definition index_engine : engine := fun cmd _ fs =>
  let targets :=
    omap (fun p => if bool_decide (fst p ∈ ["-on"; "-o"]) then Some (snd p) else None)
         (zip cmd (drop 1 cmd)) in
  (EmptyString, EmptyString,
   foldr (fun p fs => <[path_key p := "[ group ]" +:+ nl]> fs) fs targets).

(** A registry with the lipid 5 and the cholesterol 6. *)
Definition registry : SysInfo :=
  systeminfo.Build "dppc_chol" [5; 6] (list_to_map [(5, "DPPC"); (6, "CHL1")])
    ∅ ["DPPC"; "CHL1"] ["DPPC"; "CHL1"] 0 (1000 # 1) (100 # 1) (1 # 1) (300 # 1)
    (fun _ => "1.0") "data" "index" "temp" "energy/" "topol.top" "conf.gro" "topol.tpr"
    "traj.xtc".

(** An energy run in mode [head-tail] over that registry. *)
Definition headtail : energy.Energy :=
  energy.Build registry ∅ "resindex_all" false [] "head-tail" ["resid_h_"; "resid_t_"] 20
    ["h_"; "t_"] "all_energies_headtail.dat".

(** The world after the selection file of a residue has been written. *)
Definition selection_written (mol : Z) : world :=
  snd (neighbors.create_selectionfile_indexcreation (lipid_tables 13) (atoms 13) registry
         "temp/tmp_selectionfile" mol (World ∅ [])).

End index_scenario.

(** The last character of a string. *)
Fixpoint last_char (s : string) : option ascii :=
  match s with
  | EmptyString => None
  | String c s' => match s' with
                   | EmptyString => Some c
                   | String _ _ => last_char s'
                   end
  end.

(** The tables of the fragments of a residue are all there. *)
Definition tables_present (self : energy.Energy) (w : world) (resid : Z) : Prop :=
  forall parts, energy.fragments_of self resid = Ok parts ->
    forall part_, part_ ∈ parts -> isfile (energy.xvgfilename_of self resid part_) w = true.

(** The world is as it was, but for the report. *)
Definition report_only (w w1 : world) : Prop :=
  calls w1 = calls w
  /\ forall key, key <> "missing_xvgfiles.info" -> files w1 !! key = files w !! key.


(** Concrete inputs for the entries of a fragment: a lipid host with a
    cholesterol neighbor in mode [head-tail], first fragment. *)
Module pairs_scenario.

Definition self : energy.Energy :=
  energy.with_groupblocks (scenario.cholesterol_neighbor "dppc_chol") [0; 20].

Definition entries : list string :=
  ["Coul-SR:resid_h_5-resid_7"; "Coul-SR:resid_t_5-resid_7";
   "LJ-SR:resid_h_5-resid_7"; "LJ-SR:resid_t_5-resid_7"].

Definition groups : list string := ["resid_h_5"; "resid_t_5"; "resid_7"].

End pairs_scenario.

(** A row of the consolidated table tells of a residue of [MOLRANGE] and
    one of its all-time neighbors at a time that is a multiple of [dt], and
    its total is the float sum of the two energies it shows, printed with
    five decimals. *)
Definition row_sound (self : energy.Energy) (r : energy.energy_row) : Prop :=
  energy.r_host r ∈ MOLRANGE (energy.sys self)
  /\ (exists neibs, energy.all_neibs_of self (energy.r_host r) = Ok neibs
                    /\ energy.r_neighbor r ∈ neibs)
  /\ f64.mod_nonzero (energy.r_time r) (f64.of_Q (dt (energy.sys self))) = Ok false
  /\ exists a b, f64.of_string (energy.r_vdw r) = Ok a /\ f64.of_string (energy.r_coul r) = Ok b
                 /\ energy.r_etot r = f64.fixed 5 (f64.add a b).

(** A statement keeps a property of the local variables, whether it
    returns or raises. *)
Definition keeps {A} (P : energy.locals -> Prop) (m : energy.agg A) : Prop :=
  forall st, P st -> P (snd (m st)).

(** The rows written so far are sound. *)
Definition sound_so_far (self : energy.Energy) (st : energy.locals) : Prop :=
  Forall (row_sound self) (energy.written st).

(** A row of the self-interaction table tells of a residue of [MOLRANGE]
    at a time that is a multiple of [dt], and its three sums are those of
    the four energies it shows. *)
Definition self_row_sound (self : energy.Energy) (r : energy.self_row) : Prop :=
  energy.s_lipid r ∈ MOLRANGE (energy.sys self)
  /\ f64.mod_nonzero (energy.s_time r) (f64.of_Q (dt (energy.sys self))) = Ok false
  /\ exists vsr csr v14 c14,
       f64.of_string (energy.s_vdw_sr r) = Ok vsr
       /\ f64.of_string (energy.s_coul_sr r) = Ok csr
       /\ f64.of_string (energy.s_vdw_14 r) = Ok v14
       /\ f64.of_string (energy.s_coul_14 r) = Ok c14
       /\ energy.s_vdw_tot r = f64.fixed 5 (f64.add v14 vsr)
       /\ energy.s_coul_tot r = f64.fixed 5 (f64.add c14 csr)
       /\ energy.s_etot r = f64.fixed 5 (f64.add (f64.add (f64.add vsr csr) v14) c14).

Definition self_sound_so_far (self : energy.Energy) (st : energy.self_locals) : Prop :=
  Forall (self_row_sound self) (energy.self_written st).

(** Concrete inputs for the self-interaction table: mode [complete],
    residue 5, a table with the four entries asked for and one data line. *)
Module self_scenario.

Definition self : energy.Energy := scenario.complete [7].

Definition tables : gmap string string :=
  {[ path_key (energy.self_xvg_out_of self 5) :=
       scenario.table (energy.self_energyselection self 5)
         ["0.000000  -1.5  -2.5  -3.5  -4.5"] ]}.

End self_scenario.

(** No engine run has been added and no file has gone. *)
Definition grows (w w1 : world) : Prop :=
  calls w1 = calls w
  /\ forall key, is_Some (files w !! key) -> is_Some (files w1 !! key).

(** A step that adds no engine run and removes no file, in every world in
    which [I] holds. *)
Definition steady {A} (I : world -> Prop) (m : io A) : Prop :=
  forall w, I w -> grows w (snd (m w)).

(** The data file that [gmx select] leaves for a residue. *)
Definition datafile_of (self : SysInfo) (residue : Z) : string :=
  cat [datapath self; "/neighborfiles/neighbors_of_residue"; str residue; ".dat"].

(** The data files of all the residues of [MOLRANGE] are there. *)
Definition searched (self : SysInfo) (w : world) : Prop :=
  forall residue, residue ∈ MOLRANGE self -> isfile (datafile_of self residue) w = true.

(** A residue that [determine_neighbors] passes over: it has no species,
    or its species is not configured. *)
Definition passed_over (self : SysInfo) (residue : Z) : Prop :=
  match resid_to_lipid self !! residue with
  | None => True
  | Some hosttype => hosttype ∉ molecules self
  end.

(** A residue with a configured species: the residues that
    [determine_neighbors] works on. *)
Definition configured (self : SysInfo) (residue : Z) : bool :=
  match resid_to_lipid self !! residue with
  | None => false
  | Some hosttype => bool_decide (hosttype ∈ molecules self)
  end.

(** The rows made from the lines of the data file of a residue. *)
Definition rows_of_datafile (self : SysInfo) (fs : gmap string string) (residue : Z)
  : result (list string) :=
  datfile ← file_lines fs (datafile_of self residue);
  mapM (neighbors.neighbor_row self residue) datfile.

(** The neighbor table made from the data files: the header line, then for
    every configured residue of [MOLRANGE] in turn the rows of its data
    file. *)
Definition table_of_datafiles (self : SysInfo) (fs : gmap string string) : result string :=
  rowss ← mapM (rows_of_datafile self fs) (List.filter (configured self) (MOLRANGE self));
  Ok (neighbors.neighbor_info_header +:+ nl
      +:+ cat (map (fun row => row +:+ nl) (concat rowss))).

(** Concrete inputs for the neighbor search. *)
Module search_scenario.

(** The dictionary after a first line for residue 5 at time 0 has been
    read. *)
Definition first_line_read : gmap Z (list (Q * list Z)) :=
  match neighbors.add_neighbor_line ∅ "5  0.000  1  7" with
  | Ok d => d
  | Raise _ => ∅
  end.

(** A world in which the data file of residue 5 is already there. *)
Definition searched_before : world :=
  World {[ path_key (datafile_of (scenario.registry "dppc_chol" scenario.lipids) 5) :=
             "   0.000   3   10 11 12" +:+ nl ]} [].

End search_scenario.

(** The rows a function hands back, none when it raises. *)
Definition rows_of {A} (r : result (list A)) : list A :=
  match r with Ok rows => rows | Raise _ => [] end.

(** A row of the leaflet trajectory lies in the time window of the
    registry, names a configured species and puts it in leaflet 0 or 1. *)
Definition in_window (self : SysInfo) (s : leaflets.sample) : Prop :=
  Qle_bool (systeminfo.t_start self) (leaflets.time s) = true
  /\ Qle_bool (leaflets.time s) (systeminfo.t_end self) = true
  /\ leaflets.resname s ∈ molecules self
  /\ (leaflets.leaflet s = 0 \/ leaflets.leaflet s = 1).

(** Concrete inputs for the functions that read the leaflets. *)
Module leaflet_scenario.

(** Residues 5 and 7 in leaflet 0, residue 6 in leaflet 1. *)
Definition assignment : gmap Z Z := list_to_map [(5, 0); (6, 1); (7, 0)].

(** At time 0, residue 5 has the neighbors 6 and 7 and residue 6 has the
    neighbor 5. *)
Definition neiblist : gmap Z (list (Q * list Z)) :=
  list_to_map [(5, [(0%Q, [6; 7])]); (6, [(0%Q, [5])])].

(** Naming tables with a central atom and two chains for every species. *)
Definition tables : lipidmolecules.t :=
  lipidmolecules.Defs ["CHL1"] [] (fun _ => Ok "P") (fun _ => Ok []).

Definition scd_tail_atoms_of (mol : string) : result (list (list string)) :=
  Ok [["C22"; "C23"]; ["C32"; "C33"]].

(** A residue all of whose atoms sit at the origin. *)
Definition at_origin (resid_ : Z) (resname_ : string) : leaflet_files.residue :=
  leaflet_files.Residue resid_ resname_ (fun _ => [leaflets.Vec 0 0 0])
    (fun _ => leaflets.Vec 0 0 0).

(** Frames at the times 500, 2000 and 700, each with a lipid and a water. *)
Definition frame_at (t : Q) : leaflet_files.timestep :=
  leaflet_files.Timestep t [at_origin 5 "DPPC"; at_origin 9 "TIP3"].

(** Rows of a residue that stays in leaflet 0 and one that stays in 1. *)
Definition steady_rows : list leaflets.sample :=
  [leaflets.Sample 5 "DPPC" 0 0; leaflets.Sample 6 "CHL1" 1 0;
   leaflets.Sample 5 "DPPC" 0 (1000 # 1); leaflets.Sample 6 "CHL1" 1 (1000 # 1)].

End leaflet_scenario.


(** * Properties *)

(** ** The runtime primitives on the texts met in the tables *)
Example split_resid :
  split "resid_" "LJ-SR:resid_h_5-resid_t_7" = ["LJ-SR:"; "h_5-"; "t_7"].
Proof. reflexivity. Qed.

Example split_ws_legend :
  split_ws "@ s0 legend   x" = ["@"; "s0"; "legend"; "x"].
Proof. reflexivity. Qed.

Example int_examples :
  int "42" = Ok 42 /\ int "h_5" = Raise invalid_int /\ int "-7" = Ok (-7) /\ int "1_0" = Ok 10.
Proof. repeat split; reflexivity. Qed.

Example float_examples :
  float "1000.000000" = Ok (1000000000 # 1000000)%Q /\ float "x" = Raise invalid_float.
Proof. split; reflexivity. Qed.


(** ** The orientation rule *)
Section Orientation.
Import leaflets.
Local Open Scope R_scope.

Lemma dot_self_nonneg (v : vec) : 0 <= dot v v.
Proof. unfold dot. nra. Qed.

Lemma norm_nonneg (v : vec) : 0 <= norm v.
Proof. apply sqrt_pos. Qed.

Lemma norm_zero_iff (v : vec) : norm v = 0 <-> v = Vec 0 0 0.
Proof.
  split.
  - intros H. apply sqrt_eq_0 in H; [|apply dot_self_nonneg].
    destruct v as [x y z]. unfold dot in H. simpl in H.
    assert (x = 0) by nra. assert (y = 0) by nra. assert (z = 0) by nra.
    subst. reflexivity.
  - intros ->. unfold norm, dot. simpl.
    replace (0 * 0 + 0 * 0 + 0 * 0) with 0 by ring. apply sqrt_0.
Qed.

Lemma vsub_zero_iff (a b : vec) : vsub a b = Vec 0 0 0 <-> a = b.
Proof.
  destruct a as [ax ay az], b as [bx by_ bz]. unfold vsub. simpl. split.
  - intros H. inversion H. f_equal; lra.
  - intros H. inversion H. subst. f_equal; lra.
Qed.

Lemma norm_axis_z : norm axis_z = 1.
Proof.
  unfold norm, dot, axis_z. simpl.
  replace (0 * 0 + 0 * 0 + 1 * 1) with 1 by ring. apply sqrt_1.
Qed.

Lemma dot_axis_z (v : vec) : dot v axis_z = vz v.
Proof. unfold dot, axis_z. simpl. ring. Qed.

(** What the code divides is the cosine, the axis having length one. *)
Lemma cosine_axis_z (v : vec) : cosine v axis_z = vz v / norm v.
Proof. unfold cosine. rewrite norm_axis_z, dot_axis_z, Rmult_1_r. reflexivity. Qed.

Lemma orientation_nonzero (head tail : vec) :
  head <> tail ->
  molecule_leaflet_orientation head tail axis_z
  = if Rle_dec (cosine (vsub head tail) axis_z) 0 then 0%Z else 1%Z.
Proof.
  intros Hne. unfold molecule_leaflet_orientation, np_div.
  destruct (Req_dec_T (norm (vsub head tail)) 0) as [Hz|Hnz].
  - exfalso. apply Hne. apply vsub_zero_iff, norm_zero_iff. exact Hz.
  - rewrite cosine_axis_z, dot_axis_z. simpl.
    destruct (Rle_dec _ 0); reflexivity.
Qed.

Lemma cosine_sign (v : vec) :
  v <> Vec 0 0 0 -> (cosine v axis_z <= 0 <-> vz v <= 0).
Proof.
  intros Hne. rewrite cosine_axis_z.
  assert (Hpos : 0 < norm v).
  { destruct (norm_nonneg v) as [H|H]; [exact H|].
    exfalso. apply Hne. apply norm_zero_iff. symmetry. exact H. }
  unfold Rdiv. split; intros H.
  - apply Rmult_le_reg_r with (r := / norm v); [apply Rinv_0_lt_compat; exact Hpos|].
    rewrite Rmult_0_l. exact H.
  - replace 0 with (0 * / norm v) by ring.
    apply Rmult_le_compat_r; [left; apply Rinv_0_lt_compat; exact Hpos | exact H].
Qed.

Lemma orientation_by_sign (head tail : vec) :
  head <> tail ->
  (0 < vz (vsub head tail) -> molecule_leaflet_orientation head tail axis_z = 1%Z)
  /\ (vz (vsub head tail) <= 0 -> molecule_leaflet_orientation head tail axis_z = 0%Z).
Proof.
  intros Hne.
  assert (Hv : vsub head tail <> Vec 0 0 0) by (rewrite vsub_zero_iff; exact Hne).
  pose proof (orientation_nonzero head tail Hne) as Heq.
  pose proof (cosine_sign _ Hv) as Hs.
  split; intros Hz; rewrite Heq.
  - destruct (Rle_dec _ 0) as [Hle|]; [|reflexivity]. apply Hs in Hle. lra.
  - destruct (Rle_dec _ 0) as [|Hn]; [reflexivity|]. exfalso. apply Hn, Hs. exact Hz.
Qed.

Lemma assign_last_residue_agrees (head tail : vec) :
  assign_last_residue head tail = assign_residue head tail.
Proof.
  unfold assign_last_residue, assign_residue, molecule_leaflet_orientation, axis_z.
  destruct (le_zero _); reflexivity.
Qed.

(** C1, as the code has it: for two distinct positions the molecule is put
    in leaflet 0 when the cosine of head - tail with the axis (0,0,1) is at
    most 0 and in leaflet 1 otherwise; a vector with positive z-component
    gives leaflet 1, a vector orthogonal to the axis gives leaflet 0, and the
    block for the last residue of [create_leaflet_assignment_file] assigns
    and counts as the function does. *)
Theorem orientation_rule (head tail : vec) :
  head <> tail ->
  molecule_leaflet_orientation head tail axis_z
  = (if Rle_dec (cosine (vsub head tail) axis_z) 0 then 0%Z else 1%Z)
  /\ (0 < vz (vsub head tail) -> molecule_leaflet_orientation head tail axis_z = 1%Z)
  /\ (vz (vsub head tail) < 0 -> molecule_leaflet_orientation head tail axis_z = 0%Z)
  /\ (cosine (vsub head tail) axis_z = 0 -> molecule_leaflet_orientation head tail axis_z = 0%Z)
  /\ assign_last_residue head tail = assign_residue head tail.
Proof.
  intros Hne.
  assert (Hv : vsub head tail <> Vec 0 0 0) by (rewrite vsub_zero_iff; exact Hne).
  destruct (orientation_by_sign head tail Hne) as [Hup Hdown].
  pose proof (cosine_sign _ Hv) as Hs.
  repeat split.
  - apply orientation_nonzero. exact Hne.
  - exact Hup.
  - intros Hz. apply Hdown. lra.
  - intros Hc. apply Hdown, Hs. lra.
  - apply assign_last_residue_agrees.
Qed.

Lemma unit_z_distinct : Vec 0 0 1 <> Vec 0 0 0.
Proof. intros H. inversion H. lra. Qed.

Lemma orientation_rule_witness :
  molecule_leaflet_orientation (Vec 0 0 1) (Vec 0 0 0) axis_z = 1%Z.
Proof.
  apply (orientation_rule (Vec 0 0 1) (Vec 0 0 0) unit_z_distinct). simpl. lra.
Defined.

(** C1 as the specification words it fails: with the head above the tail
    (positive z-component) the molecule is put in leaflet 1, not 0, and with
    a vector orthogonal to the axis (cosine 0) in leaflet 0, not 1. *)
Lemma orientation_rule_as_claimed_fails :
  0 < vz (vsub (Vec 0 0 1) (Vec 0 0 0))
  /\ molecule_leaflet_orientation (Vec 0 0 1) (Vec 0 0 0) axis_z <> 0%Z
  /\ cosine (vsub (Vec 1 0 0) (Vec 0 0 0)) axis_z = 0
  /\ molecule_leaflet_orientation (Vec 1 0 0) (Vec 0 0 0) axis_z <> 1%Z.
Proof.
  assert (H1 : Vec 1 0 0 <> Vec 0 0 0) by (intros H; inversion H; lra).
  destruct (orientation_by_sign (Vec 0 0 1) (Vec 0 0 0) unit_z_distinct) as [Hup _].
  destruct (orientation_by_sign (Vec 1 0 0) (Vec 0 0 0) H1) as [_ Hdown].
  repeat split.
  - simpl. lra.
  - rewrite Hup; [discriminate | simpl; lra].
  - rewrite cosine_axis_z. simpl. unfold Rdiv. ring.
  - rewrite Hdown; [discriminate | simpl; lra].
Qed.

(** Two equal positions: the cosine is [nan], every comparison with it is
    false, and the molecule is put in leaflet 1. *)
Lemma orientation_same_position (p : vec) :
  molecule_leaflet_orientation p p axis_z = 1%Z.
Proof.
  unfold molecule_leaflet_orientation, np_div.
  assert (Hz : vsub p p = Vec 0 0 0) by (apply vsub_zero_iff; reflexivity).
  rewrite Hz.
  destruct (Req_dec_T (norm (Vec 0 0 0)) 0) as [_|Hn].
  - destruct (Req_dec_T (dot (Vec 0 0 0) axis_z) 0) as [_|Hd]; [reflexivity|].
    exfalso. apply Hd. unfold dot. simpl. ring.
  - exfalso. apply Hn. apply norm_zero_iff. reflexivity.
Qed.

End Orientation.


(** ** Fragments of a residue *)
Section Fragments.
Import energy.

Lemma ceil_div_spec (n d : Z) : 0 < d -> n <= ceil_div n d * d < n + d.
Proof.
  intros Hd. unfold ceil_div.
  pose proof (Z.div_mod (- n) d ltac:(lia)) as Hdm.
  pose proof (Z.mod_pos_bound (- n) d Hd) as Hb.
  nia.
Qed.

(** [ceil_div n d] is the least number of blocks of [d] that hold [n]. *)
Lemma ceil_div_least (n d k : Z) : 0 < d -> n <= k * d -> ceil_div n d <= k.
Proof.
  intros Hd Hk. pose proof (ceil_div_spec n d Hd) as Hs. nia.
Qed.

Lemma number_of_groupfragments_ceil (self : Energy) (nneibs : Z) :
  0 < denominator self ->
  number_of_groupfragments self nneibs = Ok (ceil_div nneibs (denominator self)).
Proof.
  intros Hd. unfold number_of_groupfragments, modulo, floordiv.
  destruct (Z.eqb_spec (denominator self) 0) as [H0|_]; [lia|].
  simpl. unfold ceil_div.
  destruct (Z.eqb_spec (nneibs mod denominator self) 0) as [Hz|Hnz]; f_equal.
  - rewrite Z.div_opp_l_z by lia. lia.
  - rewrite Z.div_opp_l_nz by lia. lia.
Qed.

Lemma all_neibs_of_spec (self : Energy) (res : Z) (neibs : list Z) :
  all_neibs_of self res = Ok neibs ->
  NoDup neibs
  /\ forall x, x ∈ neibs <->
       exists by_time t l, neiblist self !! res = Some by_time /\ (t, l) ∈ by_time /\ x ∈ l.
Proof.
  unfold all_neibs_of, getitem.
  destruct (neiblist self !! res) as [by_time|] eqn:Hl; simpl; [|discriminate].
  intros [= <-]. unfold list_set. split; [apply NoDup_remove_dups|].
  intros x. rewrite elem_of_remove_dups, list_elem_of_In, in_concat. split.
  - intros (l & Hl1 & Hl2). apply in_map_iff in Hl1 as ([t l'] & <- & Hin).
    exists by_time, t, l'. rewrite !list_elem_of_In. auto.
  - intros (bt & t & l & [= <-] & Hin & Hx).
    exists l. apply list_elem_of_In in Hin. apply list_elem_of_In in Hx. split; [|exact Hx].
    apply in_map_iff. exists (t, l). auto.
Qed.

Lemma fragments_of_ceil (self : Energy) (res : Z) (neibs : list Z) :
  0 < denominator self ->
  all_neibs_of self res = Ok neibs ->
  fragments_of self res = Ok (range (ceil_div (Z.of_nat (length neibs)) (denominator self))).
Proof.
  intros Hd Hn. unfold fragments_of. rewrite Hn. simpl.
  rewrite (number_of_groupfragments_ceil self _ Hd). reflexivity.
Qed.

Lemma length_range (n : Z) : length (range n) = Z.to_nat n.
Proof. unfold range. rewrite length_map, length_seq. reflexivity. Qed.

(** C2, as the code has it: with N the size of the all-time deduplicated
    neighbor set of a residue and D the denominator of the mode, the number
    of fragments that [run_calculation], [write_energyfile] and
    [check_exist_xvgs] loop over is ceil(N/D); N=85, D=40 gives 3 fragments
    and N=0 gives none. *)
Theorem fragment_count (self : Energy) (res : Z) (neibs : list Z) :
  0 < denominator self ->
  all_neibs_of self res = Ok neibs ->
  (NoDup neibs
   /\ forall x, x ∈ neibs <->
        exists by_time t l, neiblist self !! res = Some by_time /\ (t, l) ∈ by_time /\ x ∈ l)
  /\ number_of_groupfragments self (Z.of_nat (length neibs))
     = Ok (ceil_div (Z.of_nat (length neibs)) (denominator self))
  /\ fragments_of self res = Ok (range (ceil_div (Z.of_nat (length neibs)) (denominator self)))
  /\ Z.of_nat (length (range (ceil_div (Z.of_nat (length neibs)) (denominator self))))
     = ceil_div (Z.of_nat (length neibs)) (denominator self)
  /\ ceil_div 85 40 = 3
  /\ ceil_div 0 (denominator self) = 0.
Proof.
  intros Hd Hn. split; [apply all_neibs_of_spec; exact Hn|].
  pose proof (number_of_groupfragments_ceil self (Z.of_nat (length neibs)) Hd) as Hc.
  split; [exact Hc|]. split.
  - apply fragments_of_ceil; assumption.
  - split; [|split; [reflexivity|unfold ceil_div; simpl; rewrite Z.div_0_l; lia]].
    rewrite length_range.
    pose proof (ceil_div_spec (Z.of_nat (length neibs)) (denominator self) Hd). nia.
Qed.

Lemma fragment_count_witness :
  fragments_of (scenario.complete [7; 8; 7]) 5 = Ok [0].
Proof.
  apply (fragment_count (scenario.complete [7; 8; 7]) 5 [8; 7]); [reflexivity | reflexivity].
Defined.

(** C2 as the specification words it fails for N=0: a residue without
    neighbors gets no fragment at all, and [run_calculation] does not run the
    engine for it. *)
Lemma no_neighbors_no_fragment :
  all_neibs_of (scenario.complete []) 5 = Ok []
  /\ number_of_groupfragments (scenario.complete []) 0 = Ok 0
  /\ fragments_of (scenario.complete []) 5 <> Ok [0]
  /\ run_calculation scenario.lipid_tables scenario.silent_engine (scenario.complete []) [5]
       (World ∅ []) = (Ok 1, World ∅ []).
Proof. repeat split; [discriminate]. Qed.

End Fragments.


(** ** Sterols and proteins as one part *)
Section WholeResidues.
Import energy.
Variable lm : lipidmolecules.t.

Lemma parts_reached_after_first (name : string) (k : nat) (parts : list string) :
  parts_reached true name (S k) parts = [].
Proof. induction parts as [|p parts IH]; simpl; [reflexivity | exact IH]. Qed.

(** A molecule treated as a whole reaches the loop body once, under the
    whole-residue name, whatever the parts of the mode are. *)
Lemma parts_reached_whole (name : string) (parts : list string) :
  parts <> [] -> parts_reached true name 0 parts = [name].
Proof.
  destruct parts as [|p parts]; [congruence|]. intros _. simpl.
  rewrite parts_reached_after_first. reflexivity.
Qed.

Lemma parts_reached_divided (name : string) (k : nat) (parts : list string) :
  parts_reached false name k parts = parts.
Proof. induction parts as [|p parts IH]; simpl; [reflexivity | rewrite IH; reflexivity]. Qed.

(** [gather_energygroups] names one group for a sterol or protein. *)
Lemma groups_of_whole_residue (self : Energy) (index_ : Z) (lipid : string) :
  resid_to_lipid (sys self) !! index_ = Some lipid ->
  sterol_or_protein lm lipid = true ->
  groups_of_index lm self index_ = Ok ["resid_" +:+ str index_].
Proof.
  intros Hl Hs. unfold groups_of_index, getitem. rewrite Hl. simpl. rewrite Hs. reflexivity.
Qed.

(** [get_relev_energies] pairs a sterol or protein under the one name
    [resid_]. *)
Lemma selection_parts_of_whole_residue (self : Energy) (lipid : string) :
  molparts self <> [] ->
  sterol_or_protein lm lipid = true ->
  parts_reached (sterol_or_protein lm lipid) "resid_" 0 (molparts self) = ["resid_"].
Proof. intros Hm ->. apply parts_reached_whole. exact Hm. Qed.

(** [write_energyfile] gives a residue of species CHL1 the one label [w]. *)
Lemma aggregation_parts_of_CHL1 (self : Energy) :
  molparts self <> [] ->
  map inter_label
      (parts_reached (String.eqb "CHL1" "CHL1") EmptyString 0 (map (drop_str 6) (molparts self)))
  = ["w"].
Proof.
  intros Hm. simpl String.eqb. rewrite parts_reached_whole; [reflexivity|].
  destruct (molparts self); [congruence | discriminate].
Qed.

End WholeResidues.

(** C3 at an ergosterol host in mode head-tail, all tables complete:
    [gather_energygroups] and [get_relev_energies] name the residue once, as
    [resid_5]; [write_energyfile] compares the species with ['CHL1'] only,
    goes through both parts [h_] and [t_], finds no column for them, prints
    no row for the residue and ends in the error of the final check. *)
Theorem sterol_other_than_CHL1_not_collapsed :
  energy.sterol_or_protein scenario.lipid_tables "ERG" = true
  /\ energy.gather_energygroups scenario.lipid_tables
       (energy.with_groupblocks scenario.ergosterol_host [0; 20]) 5 [7]
     = Ok "resid_5 resid_h_7 resid_t_7"
  /\ energy.energyselection scenario.lipid_tables
       (energy.with_groupblocks scenario.ergosterol_host [0; 20]) 5 [7]
     = Ok ["Coul-SR:resid_5-resid_h_7"; "Coul-SR:resid_5-resid_t_7";
           "LJ-SR:resid_5-resid_h_7"; "LJ-SR:resid_5-resid_t_7"]
  /\ energy.parts_reached (String.eqb "ERG" "CHL1") EmptyString 0
       (map (drop_str 6) (energy.molparts scenario.ergosterol_host)) = ["h_"; "t_"]
  /\ energy.written
       (snd (energy.write_energyfile scenario.ergosterol_host
               (scenario.full_tables scenario.ergosterol_host [scenario.data_line]))) = []
  /\ fst (energy.write_energyfile scenario.ergosterol_host
            (scenario.full_tables scenario.ergosterol_host [scenario.data_line]))
     = Raise energy.not_all_found.
Proof. vm_compute. repeat split. Qed.

(** The same run with a cholesterol host prints one row per part of the
    neighbor, labelled [w_h] and [w_t]. *)
Lemma cholesterol_host_collapsed :
  map energy.r_molparts
      (energy.written
         (snd (energy.write_energyfile scenario.cholesterol_host
                 (scenario.full_tables scenario.cholesterol_host [scenario.data_line]))))
  = ["w_h"; "w_t"].
Proof. vm_compute. reflexivity. Qed.


(** ** The neighbor table *)
Section NeighborTable.
Import neighbors.

Lemma bind_Ok {A B} (f : A -> result B) (a : A) : (Ok a ≫= f) = f a.
Proof. reflexivity. Qed.

Lemma bind_Raise {A B} (f : A -> result B) (e : exn) : (Raise e ≫= f) = Raise e.
Proof. reflexivity. Qed.

Lemma mapM_cons {A B} (f : A -> result B) (x : A) (l : list A) :
  mapM f (x :: l) = f x ≫= fun y => mapM f l ≫= fun k => mret (y :: k).
Proof. reflexivity. Qed.

Lemma mapM_result_Forall2 {A B} (f : A -> result B) (l : list A) (k : list B) :
  mapM f l = Ok k <-> Forall2 (fun x y => f x = Ok y) l k.
Proof.
  revert k. induction l as [|x l IH]; intros k.
  - split.
    + intros [= <-]. constructor.
    + intros H. inversion H. reflexivity.
  - rewrite mapM_cons. split.
    + destruct (f x) as [y|e] eqn:Hx; [|discriminate].
      destruct (mapM f l) as [k'|e] eqn:Hl; [|discriminate].
      rewrite !bind_Ok. intros [= <-]. constructor; [exact Hx | apply IH; reflexivity].
    + intros H. inversion H as [|? y ? k' Hx Hl]; subst.
      rewrite Hx, bind_Ok. apply IH in Hl. rewrite Hl, bind_Ok. reflexivity.
Qed.

Lemma mapM_result_length {A B} (f : A -> result B) (l : list A) (k : list B) :
  mapM f l = Ok k -> length k = length l.
Proof. intros H. apply mapM_result_Forall2, Forall2_length in H. symmetry. exact H. Qed.

(** The row is made from the columns of the data line as they come. *)
Lemma neighbor_row_eq (self : SysInfo) (residue : Z) (line time nneibs : string)
    (ixs : list string) (neibindeces neibresid : list Z) :
  split_ws line = time :: nneibs :: ixs ->
  mapM int ixs = Ok neibindeces ->
  mapM (getitem (index_to_resid self)) neibindeces = Ok neibresid ->
  neighbor_row self residue line
  = Ok (format_row (str residue) time nneibs (join "," (map str neibresid))).
Proof.
  intros Hc Hi Hr. unfold neighbor_row. rewrite Hc.
  change (index (time :: nneibs :: ixs) 0) with (Ok time). rewrite bind_Ok.
  change (index (time :: nneibs :: ixs) 1) with (Ok nneibs). rewrite bind_Ok.
  change (drop 2 (time :: nneibs :: ixs)) with ixs.
  rewrite Hi, bind_Ok, Hr, bind_Ok. reflexivity.
Qed.

Lemma update_time_elem (key : Q) (v : list Z) (d : list (Q * list Z)) (t : Q) (l : list Z) :
  (t, l) ∈ update_time key v d -> l = v \/ (t, l) ∈ d.
Proof.
  induction d as [|[k x] d IH]; simpl.
  - intros H. apply list_elem_of_singleton in H. left. congruence.
  - destruct (Qeq_bool k key).
    + intros H. apply elem_of_cons in H as [H|H].
      * left. congruence.
      * right. apply elem_of_cons. right. exact H.
    + intros H. apply elem_of_cons in H as [H|H].
      * right. rewrite H. apply elem_of_cons. left. reflexivity.
      * destruct (IH H) as [?|?]; [left; assumption|].
        right. apply elem_of_cons. right. assumption.
Qed.

Lemma duplicate_free_insert (d : gmap Z (list (Q * list Z))) (r : Z) (key : Q) (v : list Z) :
  duplicate_free d -> NoDup v ->
  duplicate_free (<[r := update_time key v (default [] (d !! r))]> d).
Proof.
  intros Hd Hv r' bt t l Hl Hin.
  destruct (decide (r = r')) as [<-|Hne].
  - rewrite lookup_insert_eq in Hl. injection Hl as <-.
    apply update_time_elem in Hin as [->|Hin]; [exact Hv|].
    destruct (d !! r) as [bt|] eqn:Hr; simpl in Hin.
    + exact (Hd r bt t l Hr Hin).
    + inversion Hin.
  - rewrite lookup_insert_ne in Hl by exact Hne. exact (Hd r' bt t l Hl Hin).
Qed.

Lemma add_neighbor_line_duplicate_free (d d' : gmap Z (list (Q * list Z))) (line : string) :
  duplicate_free d -> add_neighbor_line d line = Ok d' -> duplicate_free d'.
Proof.
  intros Hd. unfold add_neighbor_line.
  destruct (index (split_ws line) 0 ≫= int) as [resid|]; simpl; [|discriminate].
  destruct (index (split_ws line) 1 ≫= float) as [time|]; simpl; [|discriminate].
  set (d0 := if bool_decide (is_Some (d !! resid)) then d else <[resid:=[]]> d).
  assert (Hd0 : duplicate_free d0).
  { subst d0. destruct (bool_decide (is_Some (d !! resid))); [exact Hd|].
    intros r bt t l Hl Hin. destruct (decide (resid = r)) as [<-|Hne].
    - rewrite lookup_insert_eq in Hl. injection Hl as <-. inversion Hin.
    - rewrite lookup_insert_ne in Hl by exact Hne. exact (Hd r bt t l Hl Hin). }
  destruct (split_ws line !! 3%nat) as [c|].
  - destruct (mapM int (split "," c)) as [neiblist|]; simpl; [|discriminate].
    intros [= <-]. apply duplicate_free_insert; [exact Hd0|].
    unfold list_set. apply NoDup_remove_dups.
  - intros [= <-]. apply duplicate_free_insert; [exact Hd0 | constructor].
Qed.

Lemma for_each_invariant {A S} (P : S -> Prop) (body : S -> A -> result S) (l : list A) :
  (forall s x s', P s -> body s x = Ok s' -> P s') ->
  forall s s', P s -> for_each body l s = Ok s' -> P s'.
Proof.
  intros Hb. induction l as [|x l IH]; simpl; intros s s' Hs.
  - intros [= <-]. exact Hs.
  - destruct (body s x) as [s1|] eqn:Hx; [|discriminate].
    apply IH. exact (Hb s x s1 Hs Hx).
Qed.

(** Duplicates go when the table is read. *)
Lemma get_neighbor_dict_duplicate_free (neighbor_filename : string) (w w' : world)
    (d : gmap Z (list (Q * list Z))) :
  get_neighbor_dict neighbor_filename w = (Ok d, w') -> duplicate_free d.
Proof.
  unfold get_neighbor_dict, mbind, io_bind, read_lines, lift.
  destruct (file_lines (files w) neighbor_filename) as [ls|]; [|discriminate].
  intros [= H _]. revert H.
  apply (for_each_invariant duplicate_free).
  - intros s x s' Hs Hx. exact (add_neighbor_line_duplicate_free s s' x Hs Hx).
  - intros r bt t l Hl. rewrite lookup_empty in Hl. discriminate.
Qed.




End NeighborTable.


(** ** Unknown configuration choices *)
Section InvalidInput.
Import neighbors.

Lemma init_unknown_part (inputfile : SysInfo) (part_ neighborfilename resindex_all_ : string)
    (overwrite_ : bool) (w : world) :
  part_ ∉ energy.knownparts ->
  energy.init inputfile part_ neighborfilename resindex_all_ overwrite_ w
  = (Raise energy.unknown_part, w).
Proof.
  intros Hp. unfold energy.init. rewrite bool_decide_eq_false_2 by exact Hp. reflexivity.
Qed.

Lemma unknown_refatoms_eqb (refatoms : string) :
  refatoms ∉ known_refatoms ->
  String.eqb refatoms "P" = false /\ String.eqb refatoms "bothtails" = false
  /\ String.eqb refatoms "glycerol" = false /\ String.eqb refatoms "tails_com" = false.
Proof.
  intros Hn. repeat split; apply String.eqb_neq; intros ->; apply Hn;
    unfold known_refatoms; set_solver.
Qed.

(** What the selection-file construction returns for a name that is not a
    reference strategy, case by case. *)
Lemma selectionfile_unknown_refatoms (lm : lipidmolecules.t) (self : SysInfo) (resid : Z)
    (refatoms : string) (w : world) :
  refatoms ∉ known_refatoms ->
  match resid_to_lipid self !! resid with
  | None => create_selectionfile_neighborsearch lm self resid refatoms w = (Raise KeyError, w)
  | Some hosttype =>
      if bool_decide (hosttype ∈ molecules self) then
        exists e, fst (create_selectionfile_neighborsearch lm self resid refatoms w) = Raise e
                  /\ (forall atm parts,
                        lipidmolecules.central_atom_of lm hosttype = Ok atm ->
                        mapM (fun i => a ← lipidmolecules.central_atom_of lm i;
                                       Ok (cat ["(resname "; i; " and name "; a; ")"]))
                             (RESNAMES self) = Ok parts ->
                        e = wrong_refatoms refatoms)
      else create_selectionfile_neighborsearch lm self resid refatoms w = (Ok None, w)
  end.
Proof.
  intros Hn. destruct (unknown_refatoms_eqb refatoms Hn) as (H1 & H2 & H3 & H4).
  unfold create_selectionfile_neighborsearch, mbind, io_bind, lift, getitem.
  destruct (resid_to_lipid self !! resid) as [hosttype|]; [|reflexivity].
  destruct (bool_decide (hosttype ∈ molecules self)); simpl; [|reflexivity].
  destruct (lipidmolecules.central_atom_of lm hosttype) as [atm|e1] eqn:Ha.
  - match goal with
    | |- context [mapM ?f (RESNAMES self)] => destruct (mapM f (RESNAMES self)) as [parts|e2] eqn:Hp
    end.
    + rewrite H1, H2, H3, H4. simpl. exists (wrong_refatoms refatoms). split; [reflexivity|].
      intros; reflexivity.
    + exists e2. split; [reflexivity|]. intros atm' parts' _ Hp'. congruence.
  - exists e1. split; [reflexivity|]. intros atm' parts' Ha' _. congruence.
Qed.

(** With an unknown strategy [determine_neighbors] stops at the first
    residue, if its species is configured. *)
Lemma determine_neighbors_aborts (lm : lipidmolecules.t) (gmx : engine) (self : SysInfo)
    (refatoms : string) (overwrite : bool) (w : world) (r : Z) (rest : list Z)
    (hosttype atm : string) (parts : list string) :
  refatoms ∉ known_refatoms ->
  MOLRANGE self = r :: rest ->
  resid_to_lipid self !! r = Some hosttype ->
  hosttype ∈ molecules self ->
  lipidmolecules.central_atom_of lm hosttype = Ok atm ->
  mapM (fun i => a ← lipidmolecules.central_atom_of lm i;
                 Ok (cat ["(resname "; i; " and name "; a; ")"]))
       (RESNAMES self) = Ok parts ->
  fst (determine_neighbors lm gmx self refatoms overwrite w) = Raise (wrong_refatoms refatoms).
Proof.
  intros Hn Hm Hl Hin Ha Hp.
  unfold determine_neighbors. rewrite Hm.
  unfold mbind at 1. unfold io_bind at 1. unfold write_file at 1. cbv beta iota.
  set (w1 := World _ (calls w)).
  change (io_for_each ?b (r :: rest)) with (b r ≫= fun _ => io_for_each b rest).
  cbv beta. rewrite Hl.
  assert (His : is_Some (Some hosttype)) by (exists hosttype; reflexivity).
  rewrite (bool_decide_eq_true_2 _ His). simpl negb. cbv iota.
  pose proof (selectionfile_unknown_refatoms lm self r refatoms w1 Hn) as Hsel.
  rewrite Hl, (bool_decide_eq_true_2 _ Hin) in Hsel.
  destruct Hsel as (e & He & Hwrong). rewrite (Hwrong atm parts Ha Hp) in He.
  unfold mbind, io_bind.
  destruct (create_selectionfile_neighborsearch lm self r refatoms w1) as [res w2].
  simpl in He. subst res. reflexivity.
Qed.

(** C9, as the code has it: an [Energy] built with a part mode outside the
    four known ones raises at once; the selection-file construction called
    with an unknown reference strategy never hands back a selection file:
    for a residue of a configured species it raises (with the "Wrong input
    for refatoms" error when the atom names are found), for a residue of a
    species that is not configured it returns [None] before the strategy is
    looked at, and for an unknown residue the lookup raises. *)
Theorem unknown_choices_rejected (part_ refatoms : string) :
  part_ ∉ energy.knownparts ->
  refatoms ∉ known_refatoms ->
  (forall inputfile neighborfilename resindex_all_ overwrite_ w,
     energy.init inputfile part_ neighborfilename resindex_all_ overwrite_ w
     = (Raise energy.unknown_part, w))
  /\ (forall lm self resid w,
        (forall f, fst (create_selectionfile_neighborsearch lm self resid refatoms w)
                   <> Ok (Some f))
        /\ (forall hosttype,
              resid_to_lipid self !! resid = Some hosttype ->
              hosttype ∈ molecules self ->
              exists e,
                fst (create_selectionfile_neighborsearch lm self resid refatoms w) = Raise e
                /\ (forall atm parts,
                      lipidmolecules.central_atom_of lm hosttype = Ok atm ->
                      mapM (fun i => a ← lipidmolecules.central_atom_of lm i;
                                     Ok (cat ["(resname "; i; " and name "; a; ")"]))
                           (RESNAMES self) = Ok parts ->
                      e = wrong_refatoms refatoms))
        /\ (forall hosttype,
              resid_to_lipid self !! resid = Some hosttype ->
              hosttype ∉ molecules self ->
              create_selectionfile_neighborsearch lm self resid refatoms w = (Ok None, w))).
Proof.
  intros Hp Hr. split.
  - intros. apply init_unknown_part. exact Hp.
  - intros lm self resid w.
    pose proof (selectionfile_unknown_refatoms lm self resid refatoms w Hr) as H.
    repeat split.
    + intros f. destruct (resid_to_lipid self !! resid) as [hosttype|].
      * destruct (bool_decide (hosttype ∈ molecules self)).
        -- destruct H as (e & -> & _). discriminate.
        -- rewrite H. discriminate.
      * rewrite H. discriminate.
    + intros hosttype Hl Hm. rewrite Hl in H.
      rewrite bool_decide_eq_true_2 in H by exact Hm. exact H.
    + intros hosttype Hl Hm. rewrite Hl in H.
      rewrite bool_decide_eq_false_2 in H by exact Hm. exact H.
Qed.

Lemma unknown_choices_rejected_witness :
  energy.init (scenario.registry "dppc_chol" scenario.lipids) "tails" "neighbor_info"
              "resindex_all" true (World ∅ [])
  = (Raise energy.unknown_part, World ∅ []).
Proof.
  apply (unknown_choices_rejected "tails" "heads");
    apply (bool_decide_eq_false_1 _); reflexivity.
Defined.

(** C9 as the specification words it fails: for a residue whose species is
    not among the configured molecules the call with an unknown strategy
    returns [None] and raises nothing, and [determine_neighbors] goes on to
    the end of its loop. *)
Lemma unknown_refatoms_not_raised :
  ("heads" ∉ known_refatoms)
  /\ create_selectionfile_neighborsearch scenario.lipid_tables
       (scenario.registry "dppc_chol" [(5, "POPE")]) 5 "heads" (World ∅ [])
     = (Ok None, World ∅ [])
  /\ fst (determine_neighbors scenario.lipid_tables scenario.silent_engine
            (scenario.registry "dppc_chol" [(5, "POPE")]) "heads" true (World ∅ [])) = Ok tt.
Proof.
  split; [apply (bool_decide_eq_false_1 _); reflexivity|]. split; reflexivity.
Qed.

End InvalidInput.


(** ** Flip-flop events *)
Section FlipFlop.
Import leaflets.

Lemma Qlt_bool_iff (a b : Q) : Qlt_bool a b = true <-> (a < b)%Q.
Proof.
  unfold Qlt_bool. rewrite negb_true_iff. split.
  - intros H. apply Qnot_le_lt. intros Hle. apply Qle_bool_iff in Hle. congruence.
  - intros H. destruct (Qle_bool b a) eqn:Hle; [|reflexivity].
    apply Qle_bool_iff in Hle. exfalso. exact (Qlt_not_le _ _ H Hle).
Qed.

Lemma Qlt_bool_false (a b : Q) : Qlt_bool a b = false <-> (b <= a)%Q.
Proof.
  unfold Qlt_bool. rewrite negb_false_iff. apply Qle_bool_iff.
Qed.

Lemma Qle_bool_false (a b : Q) : Qle_bool a b = false <-> (b < a)%Q.
Proof.
  split.
  - intros H. apply Qnot_le_lt. intros Hle. apply Qle_bool_iff in Hle. congruence.
  - intros H. destruct (Qle_bool a b) eqn:Hle; [|reflexivity].
    apply Qle_bool_iff in Hle. exfalso. exact (Qlt_not_le _ _ H Hle).
Qed.

Lemma filter_none {A} (f : A -> bool) (l : list A) :
  Forall (fun x => f x = false) l -> List.filter f l = [].
Proof.
  induction 1 as [|x l Hx _ IH]; simpl; [reflexivity|]. rewrite Hx. exact IH.
Qed.

Lemma filter_all {A} (f : A -> bool) (l : list A) :
  Forall (fun x => f x = true) l -> List.filter f l = l.
Proof.
  induction 1 as [|x l Hx _ IH]; simpl; [reflexivity|]. rewrite Hx, IH. reflexivity.
Qed.

Lemma ten_thousand : f64.of_Z 10000 = S754_finite false 5497558138880000 (-39).
Proof. vm_compute. reflexivity. Qed.

Lemma ltb_fillna_zero (d : f64.t) :
  f64.ltb (f64.of_Z 10000) (f64.fillna f64.zero d) = f64.ltb (f64.of_Z 10000) d.
Proof. rewrite ten_thousand. destruct d; reflexivity. Qed.

(** A float taken from itself leaves zero, or NaN when it is not a number
    or infinite. *)
Lemma sub_diag (x : f64.t) : f64.sub x x = S754_zero false \/ f64.sub x x = S754_nan.
Proof.
  destruct x as [s|s| |s m e].
  - left. destruct s; reflexivity.
  - right. destruct s; reflexivity.
  - right. reflexivity.
  - left. unfold f64.sub, SFsub.
    match goal with
    | |- binary_normalize _ _ (?a - ?a) _ _ = _ => replace (a - a) with 0 by lia
    end.
    reflexivity.
Qed.

Lemma of_Q_Qeq (a b : Q) : (a == b)%Q -> f64.of_Q a = f64.of_Q b.
Proof. intros H. unfold f64.of_Q. rewrite (Qred_complete _ _ H). reflexivity. Qed.

(** Of two times in order that lie far apart, the second is the later one. *)
Lemma far_apart_lt (a b : Q) : (a <= b)%Q -> far_apart a b = true -> (a < b)%Q.
Proof.
  intros Hle H. destruct (Qlt_le_dec a b) as [Hlt|Hge]; [exact Hlt|].
  exfalso. unfold far_apart in H.
  rewrite (of_Q_Qeq b a) in H by (apply Qle_antisym; assumption).
  rewrite ten_thousand in H.
  destruct (sub_diag (f64.of_Q a)) as [E|E]; rewrite E in H; discriminate H.
Qed.

Lemma ltb_nan : f64.ltb (f64.of_Z 10000) f64.nan = false.
Proof. rewrite ten_thousand. reflexivity. Qed.

Lemma zip_with_cons {A B C} (f : A -> B -> C) (x : A) (y : B) (xs : list A) (ys : list B) :
  zip_with f (x :: xs) (y :: ys) = f x y :: zip_with f xs ys.
Proof. reflexivity. Qed.

Lemma gap_mask (prev : Q) (rest : list sample) :
  map time
    (select rest
       (map (fun d => f64.ltb (f64.of_Z 10000) d)
          (map (f64.fillna f64.zero)
             (zip_with (fun prev x => f64.sub x prev)
                (f64.of_Q prev :: map (fun e => f64.of_Q (time e)) rest)
                (map (fun e => f64.of_Q (time e)) rest)))))
  = gap_starts prev rest.
Proof.
  revert prev. induction rest as [|e rest IH]; intros prev; [reflexivity|].
  change (map (fun e => f64.of_Q (time e)) (e :: rest))
    with (f64.of_Q (time e) :: map (fun e => f64.of_Q (time e)) rest).
  rewrite zip_with_cons. cbn [map select gap_starts]. rewrite ltb_fillna_zero.
  change (f64.ltb (f64.of_Z 10000) (f64.sub (f64.of_Q (time e)) (f64.of_Q prev)))
    with (far_apart prev (time e)).
  destruct (far_apart prev (time e)); cbn [map app]; rewrite IH; reflexivity.
Qed.

Lemma split_times_gap_starts (e : sample) (rest : list sample) :
  split_times (e :: rest) = 0%Q :: gap_starts (time e) rest.
Proof.
  unfold split_times, time_diff. f_equal. cbn [map diff_fillna].
  rewrite ltb_fillna_zero, ltb_nan. cbn [select]. apply gap_mask.
Qed.

Lemma split_at_gaps_nonempty (e : sample) (rest : list sample) :
  split_at_gaps (e :: rest) <> [].
Proof.
  destruct rest as [|e' r]; simpl; [discriminate|].
  destruct (far_apart (time e) (time e')); [discriminate|].
  destruct (match r with [] => _ | _ => _ end); discriminate.
Qed.

Lemma time_ordered_later (prev : Q) (fr : list sample) :
  time_ordered prev fr = true -> Forall (fun s => (prev <= time s)%Q) fr.
Proof.
  revert prev. induction fr as [|s fr IH]; intros prev; simpl; [constructor|].
  intros H. apply andb_true_iff in H as [H1 H2]. apply Qle_bool_iff in H1.
  constructor; [exact H1|].
  eapply Forall_impl; [apply IH; exact H2|].
  intros x Hx. simpl in Hx. eapply Qle_trans; eassumption.
Qed.

Lemma windows_split_at_gaps (rest pre cur : list sample) (e : sample) (l : Q) :
  Forall (fun p => (time p < l)%Q) pre ->
  Forall (fun c => (l <= time c)%Q /\ (time c <= time e)%Q) cur ->
  (l <= time e)%Q ->
  time_ordered (time e) rest = true ->
  windows (pre ++ cur ++ e :: rest) (l :: gap_starts (time e) rest)
  = prepend cur (split_at_gaps (e :: rest)).
Proof.
  revert pre cur e l. induction rest as [|e' r IH]; intros pre cur e l Hpre Hcur Hl Ho.
  - simpl. f_equal. rewrite !List.filter_app. simpl.
    rewrite filter_none, filter_all.
    + apply Qle_bool_iff in Hl. rewrite Hl. reflexivity.
    + eapply Forall_impl; [exact Hcur|]. intros c [Hc _]. apply Qle_bool_iff. exact Hc.
    + eapply Forall_impl; [exact Hpre|]. intros p Hp. apply Qle_bool_false. exact Hp.
  - pose proof (time_ordered_later _ _ Ho) as Hlater.
    simpl in Ho. apply andb_true_iff in Ho as [Hee' Ho]. apply Qle_bool_iff in Hee'.
    change (gap_starts (time e) (e' :: r))
      with ((if far_apart (time e) (time e') then [time e'] else [])
            ++ gap_starts (time e') r).
    change (split_at_gaps (e :: e' :: r))
      with (if far_apart (time e) (time e') then [e] :: split_at_gaps (e' :: r)
            else match split_at_gaps (e' :: r) with
                 | s :: ss => (e :: s) :: ss
                 | [] => [[e]]
                 end).
    destruct (far_apart (time e) (time e')) eqn:Hgap.
    + assert (Hlt : (time e < time e')%Q) by exact (far_apart_lt _ _ Hee' Hgap).
      change (windows ?all (l :: [time e'] ++ ?g))
        with (List.filter (fun x => Qle_bool l (time x) && Qlt_bool (time x) (time e')) all
              :: windows all (time e' :: g)).
      unfold prepend. f_equal.
      * rewrite !List.filter_app. rewrite filter_none, filter_all.
        -- simpl. apply Qle_bool_iff in Hl. rewrite Hl.
           assert (Hx : Qlt_bool (time e) (time e') = true) by (apply Qlt_bool_iff; exact Hlt).
           rewrite Hx. simpl.
           assert (He' : Qlt_bool (time e') (time e') = false)
             by (apply Qlt_bool_false; apply Qle_refl).
           rewrite He'. rewrite andb_false_r.
           rewrite filter_none; [reflexivity|].
           eapply Forall_impl; [apply (time_ordered_later _ _ Ho)|].
           intros x Hx'. simpl in Hx'. apply andb_false_iff. right.
           apply Qlt_bool_false. exact Hx'.
        -- eapply Forall_impl; [exact Hcur|]. intros c [Hc1 Hc2]. apply andb_true_iff. split.
           ++ apply Qle_bool_iff. exact Hc1.
           ++ apply Qlt_bool_iff. lra.
        -- eapply Forall_impl; [exact Hpre|]. intros p Hp. apply andb_false_iff. left.
           apply Qle_bool_false. exact Hp.
      * specialize (IH (pre ++ cur ++ [e]) [] e' (time e')).
        rewrite <- !app_assoc in IH.
        change ([e] ++ [] ++ e' :: r) with (e :: e' :: r) in IH. rewrite IH.
        -- destruct (split_at_gaps (e' :: r)) as [|s ss] eqn:Hs; [|reflexivity].
           exfalso. exact (split_at_gaps_nonempty e' r Hs).
        -- apply Forall_app. split.
           ++ eapply Forall_impl; [exact Hpre|]. intros p Hp. simpl in Hp. lra.
           ++ apply Forall_app. split.
              ** eapply Forall_impl; [exact Hcur|]. intros c [_ Hc]. lra.
              ** constructor; [exact Hlt | constructor].
        -- constructor.
        -- apply Qle_refl.
        -- exact Ho.
    + simpl app.
      specialize (IH pre (cur ++ [e]) e' l).
      rewrite <- !app_assoc in IH.
      change ([e] ++ e' :: r) with (e :: e' :: r) in IH. rewrite IH.
      * destruct (split_at_gaps (e' :: r)) as [|s ss] eqn:Hs.
        -- exfalso. exact (split_at_gaps_nonempty e' r Hs).
        -- unfold prepend. rewrite <- app_assoc. reflexivity.
      * exact Hpre.
      * apply Forall_app. split.
        -- eapply Forall_impl; [exact Hcur|]. intros c [Hc1 Hc2]. split; [exact Hc1 | lra].
        -- constructor; [split; [exact Hl | exact Hee'] | constructor].
      * lra.
      * exact Ho.
Qed.

Lemma time_ordered_weaken (prev prev' : Q) (fr : list sample) :
  (prev' <= prev)%Q -> time_ordered prev fr = true -> time_ordered prev' fr = true.
Proof.
  intros Hp. destruct fr as [|s fr]; [reflexivity|]. simpl. intros H.
  apply andb_true_iff in H as [H1 H2]. rewrite H2, andb_true_r.
  apply Qle_bool_iff. apply Qle_bool_iff in H1. lra.
Qed.

Lemma select_time_ordered (prev : Q) (fr : list sample) (mask : list bool) :
  time_ordered prev fr = true -> time_ordered prev (select fr mask) = true.
Proof.
  revert prev mask. induction fr as [|s fr IH]; intros prev mask H; [reflexivity|].
  destruct mask as [|b mask]; [reflexivity|].
  simpl in H. apply andb_true_iff in H as [H1 H2]. simpl. destruct b.
  - simpl. rewrite H1. simpl. apply IH. exact H2.
  - apply IH. apply (time_ordered_weaken (time s)); [|exact H2].
    apply Qle_bool_iff. exact H1.
Qed.

Lemma segments_split_at_gaps (fr : list sample) :
  time_ordered 0 fr = true -> segments fr = split_at_gaps (change_points fr).
Proof.
  intros Ho. unfold segments.
  assert (He : time_ordered 0 (change_points fr) = true) by (apply select_time_ordered; exact Ho).
  destruct (change_points fr) as [|e rest]; [reflexivity|].
  rewrite split_times_gap_starts.
  simpl in He. apply andb_true_iff in He as [H0 He]. apply Qle_bool_iff in H0.
  pose proof (windows_split_at_gaps rest [] [] e 0%Q) as H.
  change ([] ++ [] ++ e :: rest) with (e :: rest) in H. rewrite H.
  - destruct (split_at_gaps (e :: rest)) as [|s ss] eqn:Hs; [|reflexivity].
    exfalso. exact (split_at_gaps_nonempty e rest Hs).
  - constructor.
  - constructor.
  - exact H0.
  - exact He.
Qed.

Lemma change_points_leaflet_changes (s : sample) (fr : list sample) :
  change_points (s :: fr) = leaflet_changes (leaflet s) fr.
Proof.
  unfold change_points. simpl.
  generalize (leaflet s) as prev. clear s.
  induction fr as [|s fr IH]; intros prev; simpl; [reflexivity|].
  replace (Z.eqb (leaflet s - prev) 0) with (Z.eqb (leaflet s) prev)
    by (destruct (Z.eqb_spec (leaflet s) prev), (Z.eqb_spec (leaflet s - prev) 0); lia).
  destruct (Z.eqb (leaflet s) prev); simpl; rewrite IH; reflexivity.
Qed.

Lemma for_each_record_segment (segs : list (list sample)) (frames2 : list (sample * sample)) :
  Forall (fun seg => seg <> []) segs ->
  for_each record_segment segs frames2 = Ok (frames2 ++ round_trips segs).
Proof.
  intros Hne. revert frames2. induction Hne as [|seg segs Hseg _ IH]; intros frames2.
  - simpl. rewrite app_nil_r. reflexivity.
  - simpl. unfold record_segment at 1, round_trips. simpl omap.
    assert (Hlast : List.last (map Some seg) None = last seg).
    { clear -Hseg. induction seg as [|x seg IH]; [congruence|].
      destruct seg as [|y seg]; [reflexivity|].
      change (List.last (map Some (x :: y :: seg)) None)
        with (List.last (map Some (y :: seg)) None).
      rewrite IH by discriminate. reflexivity. }
    rewrite Hlast.
    destruct (head seg) as [start|] eqn:Hh; [|destruct seg; [congruence | discriminate]].
    destruct (last seg) as [end_|] eqn:Hl.
    + destruct (Z.eqb (leaflet start) (leaflet end_)).
      * rewrite IH. rewrite <- app_assoc. reflexivity.
      * apply IH.
    + exfalso. destruct seg as [|x seg]; [congruence|].
      rewrite last_cons in Hl. destruct (last seg); discriminate.
Qed.

Lemma split_at_gaps_segments_nonempty (events : list sample) :
  Forall (fun seg => seg <> []) (split_at_gaps events).
Proof.
  induction events as [|e rest IH]; [constructor|].
  destruct rest as [|e' r]; [repeat constructor; discriminate|].
  change (split_at_gaps (e :: e' :: r))
    with (if far_apart (time e) (time e') then [e] :: split_at_gaps (e' :: r)
          else match split_at_gaps (e' :: r) with
               | s :: ss => (e :: s) :: ss
               | [] => [[e]]
               end).
  destruct (far_apart (time e) (time e')).
  - constructor; [discriminate | exact IH].
  - destruct (split_at_gaps (e' :: r)) as [|s ss].
    + repeat constructor; discriminate.
    + inversion IH; subst. constructor; [discriminate | assumption].
Qed.

Lemma flipflop_group_ordered (fr : list sample) (frames1 : list (list sample))
    (frames2 : list (sample * sample)) :
  time_ordered 0 fr = true ->
  flipflop_group (frames1, frames2) fr
  = Ok (frames1 ++ match change_points fr with
                   | [] => []
                   | _ :: _ => [filtered_events (change_points fr)]
                   end,
        frames2 ++ round_trips (split_at_gaps (change_points fr))).
Proof.
  intros Ho. pose proof (segments_split_at_gaps fr Ho) as Hs.
  unfold flipflop_group. unfold segments in Hs.
  destruct (change_points fr) as [|e rest] eqn:He.
  - simpl. rewrite !app_nil_r. reflexivity.
  - rewrite Hs. rewrite for_each_record_segment by apply split_at_gaps_segments_nonempty.
    reflexivity.
Qed.

(** The loop over the residues, for residues whose samples are in time
    order. *)
Lemma flipflop_groups_ordered (groups : list (list sample)) :
  (forall g, g ∈ groups -> time_ordered 0 g = true) ->
  forall frames1 frames2,
    for_each flipflop_group groups (frames1, frames2)
    = Ok (frames1 ++ kept_events groups, frames2 ++ completed groups).
Proof.
  unfold kept_events, completed.
  induction groups as [|g groups IH]; intros Ho frames1 frames2.
  - cbn [for_each map concat]. rewrite !app_nil_r. reflexivity.
  - cbn [for_each]. rewrite (flipflop_group_ordered g frames1 frames2)
      by (apply Ho; apply elem_of_cons; left; reflexivity).
    rewrite IH by (intros g' Hg'; apply Ho; apply elem_of_cons; right; exact Hg').
    cbn [map concat]. rewrite <- !app_assoc. reflexivity.
Qed.

Lemma insert_sorted_elem (x y : Z) (l : list Z) :
  y ∈ insert_sorted x l <-> y = x \/ y ∈ l.
Proof.
  induction l as [|z l IH]; cbn [insert_sorted].
  - rewrite list_elem_of_singleton. split; [auto|]. intros [H|H]; [exact H | inversion H].
  - destruct (Z.leb x z).
    + rewrite elem_of_cons. reflexivity.
    + rewrite !elem_of_cons, IH. tauto.
Qed.

Lemma insert_sorted_ascending (x : Z) (l : list Z) :
  x ∉ l -> StronglySorted Z.lt l -> StronglySorted Z.lt (insert_sorted x l).
Proof.
  intros Hx Hs. induction Hs as [|z l Hs IH Hz]; cbn [insert_sorted].
  - repeat constructor.
  - destruct (Z.leb_spec x z) as [Hle|Hgt].
    + assert (Hlt : x < z).
      { destruct (Z.eq_dec x z) as [->|]; [|lia].
        exfalso. apply Hx. apply elem_of_cons. left. reflexivity. }
      constructor; [constructor; assumption|].
      constructor; [exact Hlt|]. eapply Forall_impl; [exact Hz|]. intros y Hy. cbn in Hy. lia.
    + constructor.
      * apply IH. intros Hin. apply Hx. apply elem_of_cons. right. exact Hin.
      * apply Forall_forall. intros y Hy. apply insert_sorted_elem in Hy as [->|Hy]; [lia|].
        rewrite Forall_forall in Hz. apply Hz. exact Hy.
Qed.

Lemma sorted_ids (l : list Z) :
  NoDup l ->
  StronglySorted Z.lt (foldr insert_sorted [] l)
  /\ forall r, r ∈ foldr insert_sorted [] l <-> r ∈ l.
Proof.
  induction 1 as [|x l Hx Hnd [IH1 IH2]]; cbn [foldr].
  - split; [constructor | reflexivity].
  - split.
    + apply insert_sorted_ascending; [|exact IH1]. rewrite IH2. exact Hx.
    + intros r. rewrite insert_sorted_elem, IH2, elem_of_cons. reflexivity.
Qed.

(** [groupby("resid")] gives, for every residue id of the table once and in
    ascending order, the rows of that residue in the order of the table. *)
Lemma groupby_resid_spec (dat : list sample) :
  exists ids,
    groupby_resid dat = map (rows_of_resid dat) ids
    /\ StronglySorted Z.lt ids
    /\ forall r, r ∈ ids <-> exists s, s ∈ dat /\ resid s = r.
Proof.
  exists (foldr insert_sorted [] (remove_dups (map resid dat))).
  destruct (sorted_ids (remove_dups (map resid dat)) (NoDup_remove_dups _)) as [H1 H2].
  split; [reflexivity|]. split; [exact H1|].
  intros r. rewrite H2, elem_of_remove_dups, list_elem_of_fmap.
  split; intros (s & Hs & Hr); exists s; auto.
Qed.

(** C7: [get_flipflop_events] on a table in which the rows of every
    residue are in time order (no time negative).  The residues are taken
    one by one in ascending order of their id, each with its rows in the
    order of the table.  The change points of a residue are the rows whose
    leaflet differs from that of the row before; the frames of the loop over
    the split times are the change points cut wherever two consecutive ones
    lie more than 10000 time units apart (their float64 difference exceeds
    10000.0).  The table of completed round trips holds one row (id, name,
    start time, end time, leaflet) for exactly the segments whose first and
    last change point report the same leaflet, in that order; the table of
    events holds the change points kept; and when no residue has a change
    point the run ends in the [ValueError] of [pd.concat].  For changes at
    100, 200 and 15000 the segments are (100, 200), not recorded, and
    (15000). *)
Theorem flipflop_segmentation (dat : list sample) :
  (forall g, g ∈ groupby_resid dat -> time_ordered 0 g = true) ->
  (exists ids,
     groupby_resid dat = map (rows_of_resid dat) ids
     /\ StronglySorted Z.lt ids
     /\ forall r, r ∈ ids <-> exists s, s ∈ dat /\ resid s = r)
  /\ (forall g, g ∈ groupby_resid dat ->
       change_points g = match g with
                         | [] => []
                         | s :: g' => leaflet_changes (leaflet s) g'
                         end
       /\ segments g = split_at_gaps (change_points g))
  /\ get_flipflop_events dat
     = match kept_events (groupby_resid dat) with
       | [] => Raise (ValueError "No objects to concatenate")
       | _ :: _ => Ok (concat (kept_events (groupby_resid dat)),
                       map to_roundtrip (completed (groupby_resid dat)))
       end.
Proof.
  intros Ho. split; [apply groupby_resid_spec|]. split.
  - intros g Hg. split.
    + destruct g; [reflexivity | apply change_points_leaflet_changes].
    + apply segments_split_at_gaps, Ho, Hg.
  - unfold get_flipflop_events.
    rewrite (flipflop_groups_ordered _ Ho [] []), bind_Ok. cbn [app].
    destruct (kept_events (groupby_resid dat)); reflexivity.
Qed.

Lemma flipflop_segmentation_witness :
  segments scenario.flips
  = [[scenario.crossing 100 1; scenario.crossing 200 0]; [scenario.crossing 15000 1]]
  /\ get_flipflop_events scenario.flips
     = Ok ([scenario.crossing 100 1; scenario.crossing 15000 1],
           [Roundtrip 17 "DPPC" (inject_Z 15000) (inject_Z 15000) 1]).
Proof.
  assert (Ho : forall g, g ∈ groupby_resid scenario.flips -> time_ordered 0 g = true).
  { intros g Hg. apply list_elem_of_singleton in Hg. subst g. reflexivity. }
  destruct (flipflop_segmentation scenario.flips Ho) as (_ & Hs & Hg).
  split.
  - destruct (Hs scenario.flips ltac:(apply list_elem_of_singleton; reflexivity)) as [_ H].
    rewrite H. vm_compute. reflexivity.
  - rewrite Hg. vm_compute. reflexivity.
Defined.

(** The gap is the one the frame computes: the decimal times 6725.9 and
    16725.9 are held as the floats nearest to them, whose difference is
    10000.000000000002, so that the change at 16725.9 starts a segment of
    its own and both segments are recorded. *)
Example decimal_gap_cut :
  let row (t : Q) (l : Z) := Sample 17 "DPPC" l t in
  get_flipflop_events [row 0%Q 0; row (67259 # 10) 1; row (167259 # 10) 0]
  = Ok ([row (67259 # 10) 1; row (167259 # 10) 0],
        [Roundtrip 17 "DPPC" (67259 # 10) (67259 # 10) 1;
         Roundtrip 17 "DPPC" (167259 # 10) (167259 # 10) 0]).
Proof. vm_compute. reflexivity. Qed.

End FlipFlop.


Section SingleCrossing.
Import leaflets.

Lemma record_segment_grows (frames2 frames2' : list (sample * sample)) (dat : list sample) :
  record_segment frames2 dat = Ok frames2' ->
  (forall p, p ∈ frames2 -> p ∈ frames2')
  /\ (forall e, dat = [e] -> (e, e) ∈ frames2').
Proof.
  unfold record_segment. intros H. split.
  - intros p Hp. destruct (head dat); [|discriminate].
    destruct (List.last (map Some dat) None); [|discriminate].
    destruct (Z.eqb _ _); injection H as <-; [apply elem_of_app; left|]; exact Hp.
  - intros e ->. simpl in H. rewrite Z.eqb_refl in H. injection H as <-.
    apply elem_of_app. right. apply list_elem_of_singleton. reflexivity.
Qed.

Lemma for_each_record_segment_single (segs : list (list sample))
    (frames2 frames2' : list (sample * sample)) :
  for_each record_segment segs frames2 = Ok frames2' ->
  (forall p, p ∈ frames2 -> p ∈ frames2')
  /\ (forall e, [e] ∈ segs -> (e, e) ∈ frames2').
Proof.
  revert frames2. induction segs as [|seg segs IH]; intros frames2; simpl.
  - intros [= <-]. split; [auto|]. intros e He. inversion He.
  - destruct (record_segment frames2 seg) as [f|] eqn:Hr; [|discriminate].
    intros H. destruct (IH f H) as [Hmono Hsingle].
    destruct (record_segment_grows _ _ _ Hr) as [Hg1 Hg2]. split.
    + intros p Hp. apply Hmono, Hg1, Hp.
    + intros e He. apply elem_of_cons in He as [He|He].
      * apply Hmono. apply Hg2. symmetry. exact He.
      * apply Hsingle. exact He.
Qed.

Lemma flipflop_group_single (acc acc' : list (list sample) * list (sample * sample))
    (fr : list sample) :
  flipflop_group acc fr = Ok acc' ->
  (forall p, p ∈ snd acc -> p ∈ snd acc')
  /\ (forall e, [e] ∈ segments fr -> (e, e) ∈ snd acc').
Proof.
  destruct acc as [frames1 frames2]. unfold flipflop_group, segments.
  destruct (change_points fr) as [|ev events].
  - intros [= <-]. split; [auto|]. intros e He. inversion He.
  - destruct (for_each record_segment _ frames2) as [f|] eqn:Hf; [|discriminate].
    rewrite bind_Ok. intros [= <-]. simpl.
    exact (for_each_record_segment_single _ _ _ Hf).
Qed.

Lemma for_each_flipflop_group_single (groups : list (list sample))
    (acc acc' : list (list sample) * list (sample * sample)) :
  for_each flipflop_group groups acc = Ok acc' ->
  (forall p, p ∈ snd acc -> p ∈ snd acc')
  /\ (forall fr e, fr ∈ groups -> [e] ∈ segments fr -> (e, e) ∈ snd acc').
Proof.
  revert acc. induction groups as [|fr groups IH]; intros acc; simpl.
  - intros [= <-]. split; [auto|]. intros fr e Hfr. inversion Hfr.
  - destruct (flipflop_group acc fr) as [a|] eqn:Hg; [|discriminate].
    intros H. destruct (IH a H) as [Hmono Hsingle].
    destruct (flipflop_group_single _ _ _ Hg) as [Hg1 Hg2]. split.
    + intros p Hp. apply Hmono, Hg1, Hp.
    + intros fr' e Hfr He. apply elem_of_cons in Hfr as [->|Hfr].
      * apply Hmono, Hg2, He.
      * exact (Hsingle fr' e Hfr He).
Qed.

Lemma for_each_flipflop_group_ordered (groups : list (list sample))
    (frames1 : list (list sample)) (frames2 : list (sample * sample)) :
  (forall g, g ∈ groups -> time_ordered 0 g = true) ->
  exists frames1' frames2',
    for_each flipflop_group groups (frames1, frames2) = Ok (frames1 ++ frames1', frames2')
    /\ forall g, g ∈ groups -> change_points g <> [] -> frames1' <> [].
Proof.
  revert frames1 frames2. induction groups as [|g groups IH]; intros frames1 frames2 Ho.
  - exists [], frames2. simpl. rewrite app_nil_r. split; [reflexivity|].
    intros g Hg. inversion Hg.
  - change (for_each flipflop_group (g :: groups) (frames1, frames2))
      with (match flipflop_group (frames1, frames2) g with
            | Ok s' => for_each flipflop_group groups s'
            | Raise e => Raise e
            end).
    rewrite (flipflop_group_ordered g frames1 frames2)
      by (apply Ho; apply elem_of_cons; left; reflexivity).
    destruct (IH (frames1 ++ match change_points g with
                             | [] => []
                             | _ :: _ => [filtered_events (change_points g)]
                             end)
                 (frames2 ++ round_trips (split_at_gaps (change_points g))))
      as (f1 & f2 & Hrun & Hne).
    { intros g' Hg'. apply Ho. apply elem_of_cons. right. exact Hg'. }
    rewrite <- app_assoc in Hrun. eexists. exists f2. split; [exact Hrun|].
    intros g' Hg' Hc. apply elem_of_cons in Hg' as [->|Hg'].
    + destruct (change_points g); [congruence | discriminate].
    + specialize (Hne g' Hg' Hc). destruct (match change_points g with [] => _ | _ => _ end);
        [exact Hne | discriminate].
Qed.

(** C10: a segment that holds a single change point is always written to
    the table of completed round trips, as a row whose start time and end
    time are both the time of that change point; and the tables are written
    when the samples of every residue are in time order. *)
Theorem single_change_point_recorded (dat fr : list sample) (e : sample) :
  fr ∈ groupby_resid dat ->
  [e] ∈ segments fr ->
  (forall final1 final2,
     get_flipflop_events dat = Ok (final1, final2) ->
     Roundtrip (resid e) (resname e) (time e) (time e) (leaflet e) ∈ final2)
  /\ ((forall g, g ∈ groupby_resid dat -> time_ordered 0 g = true) ->
      exists final1 final2,
        get_flipflop_events dat = Ok (final1, final2)
        /\ Roundtrip (resid e) (resname e) (time e) (time e) (leaflet e) ∈ final2).
Proof.
  intros Hfr He.
  assert (Hrec : forall final1 final2,
             get_flipflop_events dat = Ok (final1, final2) ->
             Roundtrip (resid e) (resname e) (time e) (time e) (leaflet e) ∈ final2).
  { unfold get_flipflop_events. intros final1 final2 H.
    destruct (for_each flipflop_group (groupby_resid dat) ([], []))
      as [[frames1 frames2]|] eqn:Hf; [|discriminate].
    rewrite bind_Ok in H. destruct frames1; [discriminate|].
    assert (Hf2 : final2 = map to_roundtrip frames2) by congruence. subst final2.
    destruct (for_each_flipflop_group_single _ _ _ Hf) as [_ Hsingle].
    specialize (Hsingle fr e Hfr He). simpl in Hsingle.
    apply (list_elem_of_fmap_2 to_roundtrip) in Hsingle. exact Hsingle. }
  split; [exact Hrec|].
  intros Ho.
  destruct (for_each_flipflop_group_ordered (groupby_resid dat) [] [] Ho)
    as (f1 & f2 & Hrun & Hne).
  assert (Hf1 : f1 <> []).
  { apply (Hne fr Hfr). unfold segments in He. intros Hc. rewrite Hc in He. inversion He. }
  assert (Hget : get_flipflop_events dat = Ok (concat f1, map to_roundtrip f2)).
  { unfold get_flipflop_events. rewrite Hrun, bind_Ok. simpl.
    destruct f1; [congruence | reflexivity]. }
  exists (concat f1), (map to_roundtrip f2). split; [exact Hget|].
  exact (Hrec _ _ Hget).
Qed.

Lemma single_change_point_recorded_witness :
  get_flipflop_events scenario.flips
  = Ok ([scenario.crossing 100 1; scenario.crossing 15000 1],
        [Roundtrip 17 "DPPC" (inject_Z 15000) (inject_Z 15000) 1])
  /\ Roundtrip 17 "DPPC" (inject_Z 15000) (inject_Z 15000) 1
     ∈ [Roundtrip 17 "DPPC" (inject_Z 15000) (inject_Z 15000) 1].
Proof.
  split; [reflexivity|].
  apply (single_change_point_recorded scenario.flips scenario.flips (scenario.crossing 15000 1))
    with (final1 := [scenario.crossing 100 1; scenario.crossing 15000 1]).
  - vm_compute. left.
  - vm_compute. right. left.
  - reflexivity.
Defined.

End SingleCrossing.


(** ** Strings: what [split] finds in a legend *)
Section StringFacts.

Lemma append_String (c : ascii) (s t : string) : String c s +:+ t = String c (s +:+ t).
Proof. reflexivity. Qed.

Lemma append_empty (t : string) : EmptyString +:+ t = t.
Proof. reflexivity. Qed.

Lemma append_assoc (a b c : string) : (a +:+ b) +:+ c = a +:+ (b +:+ c).
Proof.
  induction a as [|x a IH]; [reflexivity|]. rewrite !append_String, IH. reflexivity.
Qed.

Lemma append_empty_r (a : string) : a +:+ EmptyString = a.
Proof.
  induction a as [|x a IH]; [reflexivity|]. rewrite append_String, IH. reflexivity.
Qed.

Lemma string_forall_append (P : ascii -> bool) (a b : string) :
  string_forall P (a +:+ b) = string_forall P a && string_forall P b.
Proof.
  induction a as [|x a IH]; [reflexivity|].
  rewrite append_String. simpl. rewrite IH, andb_assoc. reflexivity.
Qed.

Lemma string_forall_impl (P R : ascii -> bool) (s : string) :
  (forall c, P c = true -> R c = true) -> string_forall P s = true -> string_forall R s = true.
Proof.
  intros H. induction s as [|c s IH]; simpl; [reflexivity|].
  intros Hs. apply andb_true_iff in Hs as [H1 H2]. rewrite (H c H1), (IH H2). reflexivity.
Qed.

Lemma uint_digits (d : Decimal.uint) :
  string_forall is_digit (NilEmpty.string_of_uint d) = true.
Proof. induction d; simpl; auto. Qed.

(** [str(n)] is made of digits, after a minus sign for a negative [n]. *)
Lemma str_chars (n : Z) : string_forall digit_or_minus (str n) = true.
Proof.
  assert (Hu : forall d, string_forall digit_or_minus (NilZero.string_of_uint d) = true).
  { intros d. unfold NilZero.string_of_uint.
    assert (H := uint_digits d).
    destruct d; try reflexivity;
      (eapply string_forall_impl; [|exact H]; intros c Hc; unfold digit_or_minus;
       rewrite Hc; reflexivity). }
  unfold str, NilZero.string_of_int. destruct (Z.to_int n) as [d|d].
  - apply Hu.
  - simpl. apply Hu.
Qed.

Lemma str_no_r (n : Z) : string_forall not_r (str n) = true.
Proof.
  eapply string_forall_impl; [|apply str_chars].
  intros c Hc. unfold digit_or_minus, is_digit, not_r in *.
  destruct (Ascii.eqb_spec c "r") as [->|_]; [discriminate Hc | reflexivity].
Qed.

(** [str(n)] starts with a digit or a minus sign. *)
Lemma str_head (n : Z) : exists c s, str n = String c s /\ digit_or_minus c = true.
Proof.
  pose proof (str_chars n) as H.
  assert (Hne : str n <> EmptyString).
  { unfold str, NilZero.string_of_int, NilZero.string_of_uint.
    destruct (Z.to_int n) as [d|d]; destruct d; discriminate. }
  destruct (str n) as [|c s]; [congruence|]. simpl in H.
  apply andb_true_iff in H as [H _]. eauto.
Qed.

Lemma but_last_append (s : string) (c : ascii) :
  but_last (s +:+ String c EmptyString) = s.
Proof.
  induction s as [|x s IH]; [reflexivity|].
  rewrite append_String. simpl. rewrite IH.
  destruct s; reflexivity.
Qed.

Lemma split_go_String (sep : string) (c : ascii) (s : string) :
  split_go sep 0 (String c s)
  = if starts_with sep (String c s)
    then EmptyString :: split_go sep (String.length sep - 1) s
    else match split_go sep 0 s with
         | w :: ws => String c w :: ws
         | [] => [String c EmptyString]
         end.
Proof. reflexivity. Qed.

Lemma starts_with_other (a c : ascii) (p s : string) :
  Ascii.eqb a c = false -> starts_with (String a p) (String c s) = false.
Proof. intros H. simpl starts_with. rewrite H. reflexivity. Qed.

Lemma not_r_eqb (c : ascii) : not_r c = true -> Ascii.eqb "r" c = false.
Proof.
  unfold not_r. rewrite Ascii.eqb_sym. intros H. apply negb_true_iff in H. exact H.
Qed.

(** A piece without the letter r ends at the next [resid_]. *)
Lemma split_resid_piece (x rest : string) :
  string_forall not_r x = true ->
  split "resid_" (x +:+ "resid_" +:+ rest) = x :: split "resid_" rest.
Proof.
  unfold split. induction x as [|c x IH]; intros Hx.
  - reflexivity.
  - simpl in Hx. apply andb_true_iff in Hx as [Hc Hx].
    rewrite append_String, split_go_String.
    rewrite (starts_with_other _ _ _ _ (not_r_eqb c Hc)).
    rewrite (IH Hx). reflexivity.
Qed.

Lemma split_resid_last (x : string) :
  string_forall not_r x = true -> split "resid_" x = [x].
Proof.
  unfold split. induction x as [|c x IH]; intros Hx; [reflexivity|].
  simpl in Hx. apply andb_true_iff in Hx as [Hc Hx].
  rewrite split_go_String.
  rewrite (starts_with_other _ _ _ _ (not_r_eqb c Hc)).
  rewrite (IH Hx). reflexivity.
Qed.

(** The three pieces of a quoted entry [<type>resid_<host>-resid_<neighbor>]. *)
Lemma split_resid_entry (etype hostlabel neiblabel : string) :
  string_forall not_r etype = true ->
  string_forall not_r hostlabel = true ->
  string_forall not_r neiblabel = true ->
  split "resid_"
    (quoted (etype +:+ "resid_" +:+ hostlabel +:+ "-" +:+ "resid_" +:+ neiblabel))
  = [String dquote etype; hostlabel +:+ "-"; neiblabel +:+ String dquote EmptyString].
Proof.
  intros He Hh Hn. unfold quoted.
  replace (String dquote ((etype +:+ "resid_" +:+ hostlabel +:+ "-" +:+ "resid_" +:+ neiblabel)
                          +:+ String dquote EmptyString))
    with (String dquote etype +:+ "resid_" +:+ (hostlabel +:+ "-") +:+ "resid_"
          +:+ (neiblabel +:+ String dquote EmptyString)).
  - rewrite split_resid_piece by (simpl; rewrite He; reflexivity).
    rewrite split_resid_piece by (rewrite string_forall_append, Hh; reflexivity).
    rewrite split_resid_last by (rewrite string_forall_append, Hn; reflexivity).
    reflexivity.
  - rewrite append_String. f_equal. rewrite !append_assoc. reflexivity.
Qed.

Lemma starts_with_append (sub b : string) : starts_with sub (sub +:+ b) = true.
Proof.
  induction sub as [|c sub IH]; [reflexivity|].
  rewrite append_String. simpl. rewrite Ascii.eqb_refl. exact IH.
Qed.

Lemma contains_append (sub a s : string) :
  contains sub s = true -> contains sub (a +:+ s) = true.
Proof.
  intros H. induction a as [|c a IH]; [exact H|].
  rewrite append_String. simpl. rewrite IH. apply orb_true_r.
Qed.

Lemma contains_here (sub a b : string) : contains sub (a +:+ sub +:+ b) = true.
Proof.
  apply contains_append. pose proof (starts_with_append sub b) as H.
  destruct (sub +:+ b); simpl; rewrite H; reflexivity.
Qed.

Lemma cat_cons (x : string) (l : list string) : cat (x :: l) = x +:+ cat l.
Proof.
  unfold cat. destruct l as [|y l]; [|reflexivity].
  simpl. symmetry. apply append_empty_r.
Qed.

Lemma path_key_double_slash (a b : string) :
  path_key (a +:+ "/" +:+ "/" +:+ b) = path_key (a +:+ "/" +:+ b).
Proof.
  induction a as [|c a IH]; [reflexivity|].
  rewrite !append_String.
  destruct a as [|c' a].
  - change (path_key (String c (String "/" (String "/" b)))
            = path_key (String c (String "/" b))).
    cbn [path_key]. destruct (Ascii.eqb c "/" && Ascii.eqb "/" "/"); [reflexivity|].
    f_equal.
  - rewrite !append_String in *. cbn [path_key] in *.
    destruct (Ascii.eqb c "/" && Ascii.eqb c' "/"); [exact IH | f_equal; exact IH].
Qed.

Lemma cat_app (a b : list string) : cat (a ++ b) = cat a +:+ cat b.
Proof.
  induction a as [|x a IH]; [reflexivity|].
  change ((x :: a) ++ b) with (x :: (a ++ b)).
  rewrite !cat_cons, IH, append_assoc. reflexivity.
Qed.

End StringFacts.


(** ** Reading the tables of a residue *)
Section TablePass.
Import energy.

Lemma extends_refl (st : locals) : extends st st.
Proof. intros p Hp. exact Hp. Qed.

Lemma extends_trans (a b c : locals) : extends a b -> extends b c -> extends a c.
Proof. intros H1 H2 p Hp. apply H2, H1, Hp. Qed.

Lemma agg_for_each_extends {A} (body : A -> agg unit) (l : list A) :
  (forall x s r s', body x s = (r, s') -> extends s s') ->
  forall s r s', agg_for_each body l s = (r, s') -> extends s s'.
Proof.
  intros Hb. induction l as [|x l IH]; intros s r s'; simpl.
  - intros [= _ <-]. apply extends_refl.
  - unfold mbind, agg_bind. destruct (body x s) as [[[]|e] s1] eqn:Hx.
    + intros H. eapply extends_trans; [exact (Hb _ _ _ _ Hx) | exact (IH _ _ _ H)].
    + intros [= _ <-]. exact (Hb _ _ _ _ Hx).
Qed.

(** A loop that ends without exception has run its body on every element,
    and what the body collected is still there at the end. *)
Lemma agg_for_each_visits {A} (body : A -> agg unit) (l : list A) :
  (forall x s r s', body x s = (r, s') -> extends s s') ->
  forall s s', agg_for_each body l s = (Ok tt, s') ->
  forall x, x ∈ l -> exists s1 s2, body x s1 = (Ok tt, s2) /\ extends s2 s'.
Proof.
  intros Hb. induction l as [|y l IH]; intros s s' Hrun x Hx; [inversion Hx|].
  simpl in Hrun. unfold mbind, agg_bind in Hrun.
  destruct (body y s) as [[[]|e] s1] eqn:Hy; [|discriminate].
  apply elem_of_cons in Hx as [->|Hx].
  - exists s, s1. split; [exact Hy|]. exact (agg_for_each_extends body l Hb _ _ _ Hrun).
  - exact (IH _ _ Hrun x Hx).
Qed.

Lemma read_legend_extends (cols : list string) (s : locals) (r : result unit) (s' : locals) :
  read_legend cols s = (r, s') -> extends s s'.
Proof.
  unfold read_legend. destruct (parse_legend cols) as [[[[row neib] host_] etype]|e].
  - intros [= _ <-] p Hp. simpl. destruct (String.eqb etype "LJ"); [|exact Hp].
    apply elem_of_app. left. exact Hp.
  - intros [= _ <-]. apply extends_refl.
Qed.

Lemma print_pair_extends (resid : Z) (cols : list string) (time : f64.t) (neib : Z)
    (parthost partneib : string) (s : locals) (r : result unit) (s' : locals) :
  print_pair resid cols time neib parthost partneib s = (r, s') -> extends s s'.
Proof.
  unfold print_pair.
  destruct (res_to_row s !! _) as [i|]; [|intros [= _ <-]; apply extends_refl].
  destruct (index_int cols i) as [vdw|e]; [|intros [= _ <-]; apply extends_refl].
  destruct (res_to_row s !! _) as [j|]; [|intros [= _ <-]; apply extends_refl].
  destruct (_ ≫= _) as [[coul Etot]|e]; intros [= _ <-]; [|apply extends_refl].
  intros p Hp. exact Hp.
Qed.

Lemma agg_bind_extends {A B} (m : agg A) (f : A -> agg B) :
  (forall s r s', m s = (r, s') -> extends s s') ->
  (forall a s r s', f a s = (r, s') -> extends s s') ->
  forall s r s', (m ≫= f) s = (r, s') -> extends s s'.
Proof.
  intros Hm Hf s r s'. unfold mbind, agg_bind.
  destruct (m s) as [[a|e] s1] eqn:H1.
  - intros H2. eapply extends_trans; [exact (Hm _ _ _ H1) | exact (Hf _ _ _ _ H2)].
  - intros [= _ <-]. exact (Hm _ _ _ H1).
Qed.

Lemma agg_lift_extends {A} (x : result A) (s : locals) (r : result A) (s' : locals) :
  agg_lift x s = (r, s') -> extends s s'.
Proof. intros [= _ <-]. apply extends_refl. Qed.

Lemma agg_ret_extends {A} (a : A) (s : locals) (r : result A) (s' : locals) :
  (mret a : agg A) s = (r, s') -> extends s s'.
Proof. intros [= _ <-]. apply extends_refl. Qed.

Lemma broken_pair_extends (self : Energy) (neib : Z) (s : locals) (r : result bool)
    (s' : locals) :
  broken_pair self neib s = (r, s') -> extends s s'.
Proof.
  unfold broken_pair. destruct (String.eqb _ _); [|intros [= _ <-]; apply extends_refl].
  destruct (host s) as [h|]; [|intros [= _ <-]; apply extends_refl].
  destruct (int h); intros [= _ <-]; apply extends_refl.
Qed.

Lemma print_neighbor_extends (self : Energy) (resid : Z) (residtype : string)
    (cols : list string) (time : f64.t) (neib : Z) (s : locals) (r : result unit) (s' : locals) :
  print_neighbor self resid residtype cols time neib s = (r, s') -> extends s s'.
Proof.
  unfold print_neighbor. apply agg_bind_extends; [apply broken_pair_extends|].
  intros [] s1 r1 s1'; [apply agg_ret_extends|].
  apply agg_bind_extends; [apply agg_lift_extends|].
  intros neibtype s2 r2 s2'.
  apply agg_for_each_extends. intros parthost s3 r3 s3'.
  apply agg_for_each_extends. intros partneib s4 r4 s4'. apply print_pair_extends.
Qed.

Lemma read_energyline_extends (self : Energy) (resid : Z) (residtype : string)
    (all_neibs_of_res : list Z) (line : string) (s : locals) (r : result unit) (s' : locals) :
  read_energyline self resid residtype all_neibs_of_res line s = (r, s') -> extends s s'.
Proof.
  unfold read_energyline.
  destruct (contains "@ s" line); [apply read_legend_extends|].
  destruct (_ && _); [|apply agg_ret_extends].
  apply agg_bind_extends; [apply agg_lift_extends|]. intros time s1 r1 s1'.
  apply agg_bind_extends; [apply agg_lift_extends|]. intros [] s2 r2 s2'; [apply agg_ret_extends|].
  apply agg_for_each_extends. intros neib s3 r3 s3'. apply print_neighbor_extends.
Qed.

Lemma read_xvgfile_extends (self : Energy) (fs : gmap string string) (resid : Z)
    (residtype : string) (all_neibs_of_res : list Z) (part_ : Z)
    (s : locals) (r : result unit) (s' : locals) :
  read_xvgfile self fs resid residtype all_neibs_of_res part_ s = (r, s') -> extends s s'.
Proof.
  unfold read_xvgfile.
  apply agg_bind_extends; [apply agg_lift_extends|]. intros lines s1 r1 s1'.
  apply agg_bind_extends.
  - intros s2 r2 s2' [= _ <-] p Hp. exact Hp.
  - intros [] s2 r2 s2'. apply agg_for_each_extends.
    intros line s3 r3 s3'. apply read_energyline_extends.
Qed.

(** What a table pass that reached its end has seen of a legend line. *)
Lemma legend_line_read (self : Energy) (fs : gmap string string) (resid : Z)
    (st st' : locals) (all_neibs_of_res : list Z) (part_ : Z) (lines : list string)
    (line : string) :
  read_residue self fs resid st = (Ok all_neibs_of_res, st') ->
  all_neibs_of self resid = Ok all_neibs_of_res
  /\ (forall parts, fragments_of self resid = Ok parts ->
      part_ ∈ parts ->
      file_lines fs (xvgfilename_of self resid part_) = Ok lines ->
      line ∈ lines ->
      contains "@ s" line = true ->
      exists row neib host_ energytype,
        parse_legend (split_ws line) = Ok (row, neib, host_, energytype)
        /\ (energytype = "LJ" -> neib ∈ processed_neibs st')).
Proof.
  unfold read_residue, mbind, agg_bind, agg_lift, agg_modify, mret, agg_ret.
  destruct (getitem _ resid) as [residtype|e]; [|discriminate].
  destruct (all_neibs_of self resid) as [neibs|e]; [|discriminate].
  destruct (fragments_of self resid) as [parts|e]; [|discriminate].
  match goal with
  | |- context [agg_for_each ?b parts ?s0] =>
      destruct (agg_for_each b parts s0) as [[[]|e] s1] eqn:Hrun; [|discriminate]
  end.
  intros [= <- <-]. split; [reflexivity|].
  intros parts' [= <-] Hk Hfile Hline Hat.
  destruct (agg_for_each_visits _ parts
              (fun x s r s' => read_xvgfile_extends self fs resid residtype neibs x s r s')
              _ _ Hrun part_ Hk) as (s2 & s3 & Hx & Hext).
  unfold read_xvgfile, mbind, agg_bind, agg_lift, agg_modify in Hx. rewrite Hfile in Hx.
  destruct (agg_for_each_visits _ lines
              (fun x s r s' => read_energyline_extends self resid residtype neibs x s r s')
              _ _ Hx line Hline) as (s4 & s5 & Hl & Hext').
  unfold read_energyline in Hl. rewrite Hat in Hl. unfold read_legend in Hl.
  destruct (parse_legend (split_ws line)) as [[[[row neib] host_] etype]|e]; [|discriminate].
  exists row, neib, host_, etype. split; [reflexivity|].
  intros ->. injection Hl as <-. apply Hext, Hext'. simpl.
  apply elem_of_app. right. apply list_elem_of_singleton. reflexivity.
Qed.

End TablePass.


(** ** The check at the end of a residue *)
Section CrossCheck.
Import energy.

Lemma list_remove_subset (x : value) (l l' : list value) :
  list_remove x l = Ok l' -> forall y, y ∈ l' -> y ∈ l.
Proof.
  revert l'. induction l as [|z l IH]; intros l'; simpl; [discriminate|].
  destruct (decide (z = x)).
  - intros [= <-] y Hy. apply elem_of_cons. right. exact Hy.
  - destruct (list_remove x l) as [l''|e] eqn:Hr; [|discriminate].
    rewrite bind_Ok. intros [= <-] y Hy. apply elem_of_cons in Hy as [->|Hy].
    + apply elem_of_cons. left. reflexivity.
    + apply elem_of_cons. right. exact (IH l'' eq_refl y Hy).
Qed.

Lemma list_remove_keeps (x y : value) (l l' : list value) :
  list_remove x l = Ok l' -> y ∈ l -> y <> x -> y ∈ l'.
Proof.
  revert l'. induction l as [|z l IH]; intros l'; simpl; [discriminate|].
  destruct (decide (z = x)) as [->|Hz].
  - intros [= <-] Hy Hne. apply elem_of_cons in Hy as [Hy|Hy]; [congruence | exact Hy].
  - destruct (list_remove x l) as [l''|e] eqn:Hr; [|discriminate].
    rewrite bind_Ok. intros [= <-] Hy Hne. apply elem_of_cons in Hy as [->|Hy].
    + apply elem_of_cons. left. reflexivity.
    + apply elem_of_cons. right. exact (IH l'' eq_refl Hy Hne).
Qed.

Lemma list_remove_error (x : value) (l : list value) (e : exn) :
  list_remove x l = Raise e -> e = ValueError remove_msg.
Proof.
  induction l as [|z l IH]; simpl; [congruence|].
  destruct (decide (z = x)); [discriminate|].
  destruct (list_remove x l) as [l''|e'] eqn:Hr; [discriminate|].
  rewrite bind_Raise. intros [= <-]. apply IH. reflexivity.
Qed.

Lemma list_remove_absent (x : value) (l : list value) :
  x ∉ l -> list_remove x l = Raise (ValueError remove_msg).
Proof.
  induction l as [|z l IH]; simpl; [reflexivity|]. intros Hx.
  destruct (decide (z = x)) as [->|Hz].
  - exfalso. apply Hx. apply elem_of_cons. left. reflexivity.
  - rewrite IH; [reflexivity|]. intros H. apply Hx. apply elem_of_cons. right. exact H.
Qed.

(** A processed label that the expected list does not hold makes the
    removal loop raise. *)
Lemma removal_raises (processed : list string) (expected : list value) (p : string) :
  p ∈ processed -> VStr p ∉ expected ->
  for_each (fun l pneib => list_remove (VStr pneib) l) processed expected
  = Raise (ValueError remove_msg).
Proof.
  revert expected. induction processed as [|q processed IH]; intros expected Hp Hn.
  - inversion Hp.
  - simpl. destruct (list_remove (VStr q) expected) as [l'|e] eqn:Hr.
    + apply elem_of_cons in Hp as [->|Hp].
      * rewrite (list_remove_absent _ _ Hn) in Hr. discriminate.
      * apply IH; [exact Hp|]. intros H. apply Hn. exact (list_remove_subset _ _ _ Hr _ H).
    + rewrite (list_remove_error _ _ _ Hr). reflexivity.
Qed.

(** An expected entry that is not among the processed labels is never
    removed: the check cannot pass. *)
Lemma removal_keeps_unprocessed (processed : list string) (expected rest : list value)
    (y : value) :
  for_each (fun l pneib => list_remove (VStr pneib) l) processed expected = Ok rest ->
  y ∈ expected -> (forall p, p ∈ processed -> y <> VStr p) -> y ∈ rest.
Proof.
  revert expected. induction processed as [|q processed IH]; intros expected; simpl.
  - intros [= <-] Hy _. exact Hy.
  - destruct (list_remove (VStr q) expected) as [l'|e] eqn:Hr; [|discriminate].
    intros H Hy Hne. apply (IH l' H).
    + apply (list_remove_keeps _ _ _ _ Hr Hy). apply Hne. apply elem_of_cons. left. reflexivity.
    + intros p Hp. apply Hne. apply elem_of_cons. right. exact Hp.
Qed.

Lemma check_processed_omitted (self : Energy) (all_neibs_of_res : list Z)
    (processed : list string) (y : value) :
  y ∈ expected_neighbors self all_neibs_of_res ->
  (forall p, p ∈ processed -> y <> VStr p) ->
  check_processed self all_neibs_of_res processed = Raise (ValueError remove_msg)
  \/ check_processed self all_neibs_of_res processed = Raise not_all_found.
Proof.
  intros Hy Hne. unfold check_processed.
  destruct (for_each _ processed _) as [rest|e] eqn:Hf.
  - right. rewrite bind_Ok.
    pose proof (removal_keeps_unprocessed _ _ _ _ Hf Hy Hne) as Hr.
    destruct rest; [inversion Hr | reflexivity].
  - left. rewrite bind_Raise. f_equal.
    clear Hy Hne. revert Hf. generalize (expected_neighbors self all_neibs_of_res).
    induction processed as [|q processed IH]; intros l; simpl; [discriminate|].
    destruct (list_remove (VStr q) l) as [l'|e'] eqn:Hr.
    + apply IH.
    + intros [= <-]. exact (list_remove_error _ _ _ Hr).
Qed.

Lemma expected_complete (self : Energy) (all_neibs_of_res : list Z) :
  molparts self = ["resid_"] ->
  expected_neighbors self all_neibs_of_res = map VInt all_neibs_of_res.
Proof. intros H. unfold expected_neighbors. rewrite H. reflexivity. Qed.

Lemma in_concat_map {A B} (f : A -> list B) (l : list A) (y : B) :
  y ∈ concat (map f l) <-> exists x, x ∈ l /\ y ∈ f x.
Proof.
  rewrite list_elem_of_In, in_concat. split.
  - intros (k & Hk & Hy). apply in_map_iff in Hk as (x & <- & Hx).
    exists x. rewrite !list_elem_of_In. auto.
  - intros (x & Hx & Hy). exists (f x). apply list_elem_of_In in Hx. apply list_elem_of_In in Hy.
    split; [apply in_map; exact Hx | exact Hy].
Qed.

(** In a mode with several parts every expected entry is a string that
    starts with the label of a part. *)
Lemma expected_divided (self : Energy) (all_neibs_of_res : list Z) (y : value) :
  (1 <? length (molparts self))%nat = true ->
  y ∈ expected_neighbors self all_neibs_of_res ->
  exists part_ entry, part_ ∈ molparts self /\ entry ∈ all_neibs_of_res
                      /\ y = VStr (replace "resid_" EmptyString part_ +:+ str entry).
Proof.
  intros Hm. unfold expected_neighbors. rewrite Hm. intros Hy.
  apply in_concat_map in Hy as (named & Hnamed & Hy).
  apply list_elem_of_In, in_map_iff in Hy as (_ & <- & _).
  apply in_concat_map in Hnamed as (entry & He & Hnamed).
  apply list_elem_of_In, in_map_iff in Hnamed as (part_ & <- & Hp).
  exists part_, entry. rewrite list_elem_of_In. auto.
Qed.

(** The bare id of a neighbor is not among them. *)
Lemma bare_id_not_expected (self : Energy) (all_neibs_of_res : list Z) (n : Z) :
  (1 <? length (molparts self))%nat = true ->
  forallb label_ok (molparts self) = true ->
  VStr (str n) ∉ expected_neighbors self all_neibs_of_res.
Proof.
  intros Hm Hl Hy.
  apply (expected_divided _ _ _ Hm) in Hy as (part_ & entry & Hp & _ & Heq).
  rewrite forallb_forall in Hl. apply list_elem_of_In in Hp. specialize (Hl _ Hp).
  unfold label_ok in Hl. injection Heq as Heq.
  destruct (replace "resid_" EmptyString part_) as [|c s]; [discriminate|].
  rewrite append_String in Heq.
  destruct (str_head n) as (c' & s' & Hn & Hc'). rewrite Hn in Heq. injection Heq as -> _.
  rewrite Hc' in Hl. discriminate.
Qed.

End CrossCheck.


(** ** From the entries asked for to the labels read back *)
Section Entries.
Import energy.
Variable lm : lipidmolecules.t.

Lemma bind_Ok_inv {A B} (r : result A) (f : A -> result B) (y : B) :
  (r ≫= f) = Ok y -> exists x, r = Ok x /\ f x = Ok y.
Proof. destruct r as [x|e]; [|discriminate]. rewrite bind_Ok. eauto. Qed.

Lemma fmap_Ok_inv {A B} (f : A -> B) (r : result A) (y : B) :
  f <$> r = Ok y -> exists x, r = Ok x /\ y = f x.
Proof. destruct r as [x|e]; [|discriminate]. intros [= <-]. eauto. Qed.

Lemma mapM_result_elem {A B} (f : A -> result B) (l : list A) (k : list B) (x : A) :
  mapM f l = Ok k -> x ∈ l -> exists y, f x = Ok y /\ y ∈ k.
Proof.
  intros H Hx. apply mapM_result_Forall2 in H.
  induction H as [|a b l k Hab _ IH]; [inversion Hx|].
  apply elem_of_cons in Hx as [->|Hx].
  - exists b. split; [exact Hab | apply elem_of_cons; left; reflexivity].
  - destruct (IH Hx) as (y & Hy & Hk). exists y. split; [exact Hy|].
    apply elem_of_cons. right. exact Hk.
Qed.

Lemma elem_of_concat {A} (ls : list (list A)) (l : list A) (x : A) :
  l ∈ ls -> x ∈ l -> x ∈ concat ls.
Proof.
  rewrite !list_elem_of_In. intros Hl Hx. apply in_concat. eauto.
Qed.

Lemma parts_reached_subset (whole : bool) (name : string) (k : nat) (parts : list string)
    (x : string) :
  x ∈ parts_reached whole name k parts -> x = name \/ x ∈ parts.
Proof.
  revert k. induction parts as [|p parts IH]; intros k; simpl; [intros H; inversion H|].
  destruct (whole && (k =? 0)%nat).
  - intros H. apply elem_of_cons in H as [->|H]; [left; reflexivity|].
    destruct (IH _ H) as [->|H']; [left; reflexivity | right; apply elem_of_cons; right; exact H'].
  - destruct whole.
    + intros H. destruct (IH _ H) as [->|H']; [left; reflexivity|].
      right. apply elem_of_cons. right. exact H'.
    + intros H. apply elem_of_cons in H as [->|H].
      * right. apply elem_of_cons. left. reflexivity.
      * destruct (IH _ H) as [->|H']; [left; reflexivity|].
        right. apply elem_of_cons. right. exact H'.
Qed.

Lemma parts_reached_head (whole : bool) (name : string) (parts : list string) :
  parts <> [] -> exists p ps, parts_reached whole name 0 parts = p :: ps.
Proof.
  destruct parts as [|p parts]; [congruence|]. intros _. simpl. destruct whole; simpl; eauto.
Qed.

(** Among the entries asked for there is, for every neighbor of the block,
    a Lennard-Jones entry for each of its parts. *)
Lemma energyselection_LJ (self : Energy) (res : Z) (all_neibs_of_res block : list Z)
    (es : list string) (n : Z) :
  molparts self <> [] ->
  current_block self all_neibs_of_res = Ok block ->
  energyselection lm self res all_neibs_of_res = Ok es ->
  n ∈ block ->
  exists parthost lipid,
    (parthost = "resid_" \/ parthost ∈ molparts self)
    /\ resid_to_lipid (sys self) !! n = Some lipid
    /\ forall partneib,
         partneib ∈ parts_reached (sterol_or_protein lm lipid) "resid_" 0 (molparts self) ->
         entry "LJ-SR:" parthost res partneib n ∈ es.
Proof.
  intros Hm Hb Hes Hn. unfold energyselection in Hes. rewrite Hb, bind_Ok in Hes.
  apply fmap_Ok_inv in Hes as (ys & Hys & ->).
  assert (HLJ : "LJ-SR:" ∈ ["Coul-SR:"; "LJ-SR:"]).
  { apply elem_of_cons. right. apply elem_of_cons. left. reflexivity. }
  destruct (mapM_result_elem _ _ _ _ Hys HLJ) as (y & Hy & Hyin).
  apply bind_Ok_inv in Hy as (hosttype & _ & Hy).
  apply fmap_Ok_inv in Hy as (zs & Hzs & ->).
  destruct (parts_reached_head (sterol_or_protein lm hosttype) "resid_" (molparts self) Hm)
    as (parthost & ps & Hhead).
  assert (Hph : parthost ∈ parts_reached (sterol_or_protein lm hosttype) "resid_" 0
                              (molparts self)).
  { rewrite Hhead. apply elem_of_cons. left. reflexivity. }
  destruct (mapM_result_elem _ _ _ _ Hzs Hph) as (z & Hz & Hzin).
  apply fmap_Ok_inv in Hz as (us & Hus & ->).
  destruct (mapM_result_elem _ _ _ _ Hus Hn) as (u & Hu & Huin).
  apply bind_Ok_inv in Hu as (lipid & Hl & Hu). cbv beta in Hu.
  assert (Hueq : u = map (fun partneib => cat ["LJ-SR:"; parthost; str res; "-"; partneib; str n])
                        (parts_reached (sterol_or_protein lm lipid) "resid_" 0 (molparts self)))
    by congruence.
  subst u. clear Hu.
  exists parthost, lipid. split; [exact (parts_reached_subset _ _ _ _ _ Hph)|]. split.
  - unfold getitem in Hl. destruct (resid_to_lipid (sys self) !! n); congruence.
  - intros partneib Hpn.
    apply (elem_of_concat ys _ _ Hyin). apply (elem_of_concat zs _ _ Hzin).
    apply (elem_of_concat us _ _ Huin).
    apply (list_elem_of_fmap_2 (fun partneib => cat ["LJ-SR:"; parthost; str res; "-"; partneib; str n])).
    exact Hpn.
Qed.

Lemma current_block_eq (self : Energy) (a b : Z) (l : list Z) :
  current_block (with_groupblocks self [a; b]) l = Ok (slice l a b).
Proof. reflexivity. Qed.

Lemma elem_of_range (n k : Z) : k ∈ range n <-> 0 <= k < n.
Proof.
  unfold range. rewrite list_elem_of_fmap. split.
  - intros (i & -> & Hi). apply elem_of_seq in Hi. lia.
  - intros Hk. exists (Z.to_nat k). split; [lia|]. apply elem_of_seq. lia.
Qed.

(** Every neighbor is in the block of one of the fragments. *)
Lemma neighbor_in_a_block (d : Z) (l : list Z) (n : Z) :
  0 < d -> n ∈ l ->
  exists k, k ∈ range (ceil_div (Z.of_nat (length l)) d)
            /\ n ∈ slice l (k * d) ((k + 1) * d).
Proof.
  intros Hd Hn. apply list_elem_of_lookup in Hn as (i & Hi).
  pose proof (lookup_lt_Some _ _ _ Hi) as Hlen.
  set (k := Z.of_nat i / d).
  pose proof (Z.div_mod (Z.of_nat i) d ltac:(lia)) as Hdm.
  pose proof (Z.mod_pos_bound (Z.of_nat i) d Hd) as Hmod.
  pose proof (ceil_div_spec (Z.of_nat (length l)) d Hd) as Hc.
  assert (Hk0 : 0 <= k) by (apply Z.div_pos; lia).
  exists k. split.
  - apply elem_of_range. split; [exact Hk0|]. fold k in Hdm. nia.
  - unfold slice. apply list_elem_of_lookup. exists (i - Z.to_nat (k * d))%nat.
    rewrite lookup_drop. fold k in Hdm.
    replace (Z.to_nat (k * d) + (i - Z.to_nat (k * d)))%nat with i by nia.
    rewrite lookup_take_lt by nia. exact Hi.
Qed.

Lemma starts_with_split (p s : string) :
  starts_with p s = true -> s = p +:+ drop_str (String.length p) s.
Proof.
  revert s. induction p as [|a p IH]; intros s; [reflexivity|].
  destruct s as [|b s]; [discriminate|]. simpl starts_with.
  destruct (Ascii.eqb_spec a b) as [<-|]; [|discriminate].
  intros H. rewrite append_String. simpl drop_str. f_equal. exact (IH s H).
Qed.

Lemma part_ok_split (part_ : string) :
  part_ok part_ = true ->
  part_ = "resid_" +:+ drop_str 6 part_ /\ string_forall not_r (drop_str 6 part_) = true.
Proof.
  unfold part_ok. intros H. apply andb_true_iff in H as [H1 H2]. split; [|exact H2].
  exact (starts_with_split "resid_" part_ H1).
Qed.

Lemma entry_normal_form (interaction hostlabel : string) (res : Z) (neiblabel : string)
    (neib : Z) :
  entry interaction ("resid_" +:+ hostlabel) res ("resid_" +:+ neiblabel) neib
  = interaction +:+ "resid_" +:+ (hostlabel +:+ str res) +:+ "-" +:+ "resid_"
    +:+ (neiblabel +:+ str neib).
Proof.
  unfold entry, cat, join. rewrite !append_empty, !append_assoc. reflexivity.
Qed.

(** What [write_energyfile] reads from the legend of a Lennard-Jones entry:
    the label of the neighbor is its part label followed by its id. *)
Lemma parse_legend_LJ (cols : list string) (parthost partneib : string) (res neib : Z)
    (row : Z) (neiblabel host_ energytype : string) :
  part_ok parthost = true -> part_ok partneib = true ->
  cols !! 3%nat = Some (quoted (entry "LJ-SR:" parthost res partneib neib)) ->
  parse_legend cols = Ok (row, neiblabel, host_, energytype) ->
  neiblabel = drop_str 6 partneib +:+ str neib /\ energytype = "LJ".
Proof.
  intros Hh Hn Hc Hp.
  destruct (part_ok_split _ Hh) as [Hh1 Hh2]. destruct (part_ok_split _ Hn) as [Hn1 Hn2].
  unfold parse_legend in Hp.
  apply bind_Ok_inv in Hp as (row0 & _ & Hp).
  assert (Hi : index cols 3 = Ok (quoted (entry "LJ-SR:" parthost res partneib neib))).
  { unfold index. rewrite Hc. reflexivity. }
  rewrite Hi, !bind_Ok in Hp.
  assert (Hsplit :
    split "resid_" (quoted (entry "LJ-SR:" parthost res partneib neib))
    = [String dquote "LJ-SR:"; (drop_str 6 parthost +:+ str res) +:+ "-";
       (drop_str 6 partneib +:+ str neib) +:+ String dquote EmptyString]).
  { rewrite Hh1 at 1. rewrite Hn1 at 1. rewrite entry_normal_form.
    apply split_resid_entry; [reflexivity | |];
      rewrite string_forall_append, str_no_r, andb_true_r; assumption. }
  assert (Hdash :
    drop_str 1 <$> index (split "-" (quoted (entry "LJ-SR:" parthost res partneib neib))) 0
    = Ok "LJ") by reflexivity.
  cbv beta in Hp. rewrite Hsplit, Hdash in Hp.
  change (index [?a; ?b; ?c] 2) with (Ok c) in Hp.
  change (index [?a; ?b; ?c] 1) with (Ok b) in Hp.
  change (but_last <$> Ok ?x) with (Ok (but_last x)) in Hp.
  rewrite !bind_Ok in Hp.
  assert (Hn' : neiblabel = but_last ((drop_str 6 partneib +:+ str neib) +:+ String dquote EmptyString))
    by congruence.
  assert (He' : energytype = "LJ") by congruence.
  rewrite but_last_append in Hn'. split; assumption.
Qed.

End Entries.


(** ** The removal loop on complete tables *)
Section TypeMismatch.
Import energy.
Variable lm : lipidmolecules.t.

Lemma mode_facts (self : Energy) :
  molparts self ∈ molparts_of_modes ->
  molparts self <> []
  /\ forallb part_ok ("resid_" :: molparts self) = true
  /\ (molparts self = ["resid_"]
      \/ ((1 <? length (molparts self))%nat = true
          /\ forallb label_ok (molparts self) = true)).
Proof.
  unfold molparts_of_modes. intros H.
  repeat (apply elem_of_cons in H as [->|H]);
    [ | | | | inversion H];
    (split; [discriminate|]; split; [reflexivity|]);
    first [left; reflexivity | right; split; reflexivity].
Qed.

Lemma write_residue_after_read (self : Energy) (fs : gmap string string) (resid : Z)
    (st st' : locals) (neibs : list Z) :
  read_residue self fs resid st = (Ok neibs, st') ->
  write_residue self fs resid st = (check_processed self neibs (processed_neibs st'), st').
Proof.
  intros H. unfold write_residue, mbind, agg_bind. rewrite H. reflexivity.
Qed.

(** A neighbor whose Lennard-Jones entries are in the tables has been
    processed under the label of each of its parts. *)
Lemma neighbor_label_processed (self : Energy) (fs : gmap string string) (resid : Z)
    (st st' : locals) (neibs : list Z) (n : Z) :
  molparts self ∈ molparts_of_modes ->
  0 < denominator self ->
  read_residue self fs resid st = (Ok neibs, st') ->
  tables_complete lm self fs resid neibs ->
  n ∈ neibs ->
  exists lipid,
    resid_to_lipid (sys self) !! n = Some lipid
    /\ forall partneib,
         partneib ∈ parts_reached (sterol_or_protein lm lipid) "resid_" 0 (molparts self) ->
         drop_str 6 partneib +:+ str n ∈ processed_neibs st'.
Proof.
  intros Hmode Hd Hread Htab Hn.
  destruct (mode_facts self Hmode) as (Hne & Hparts & _).
  destruct (neighbor_in_a_block (denominator self) neibs n Hd Hn) as (k & Hk & Hblock).
  destruct (Htab k Hk) as (es & lines & Hes & Hfile & Hleg).
  destruct (energyselection_LJ lm
              (with_groupblocks self [k * denominator self; (k + 1) * denominator self])
              resid neibs _ es n Hne (current_block_eq self _ _ neibs) Hes Hblock)
    as (parthost & lipid & Hph & Hl & Hentries).
  change (molparts (with_groupblocks self _)) with (molparts self) in *.
  change (sys (with_groupblocks self _)) with (sys self) in *.
  exists lipid. split; [exact Hl|]. intros partneib Hpn.
  destruct (Hleg _ (Hentries partneib Hpn)) as (line & Hline & Hat & Hcol).
  destruct (legend_line_read self fs resid st st' neibs k lines line Hread) as [Hall Hvisit].
  destruct (Hvisit _ (fragments_of_ceil self resid neibs Hd Hall) Hk Hfile Hline Hat)
    as (row & neiblabel & host_ & etype & Hparse & Hproc).
  rewrite forallb_forall in Hparts.
  assert (Hok1 : part_ok parthost = true).
  { apply Hparts. destruct Hph as [->|Hph]; [left; reflexivity|].
    right. apply list_elem_of_In. exact Hph. }
  assert (Hok2 : part_ok partneib = true).
  { apply Hparts. destruct (parts_reached_subset _ _ _ _ _ Hpn) as [->|Hp]; [left; reflexivity|].
    right. apply list_elem_of_In. exact Hp. }
  destruct (parse_legend_LJ _ _ _ _ _ _ _ _ _ Hok1 Hok2 Hcol Hparse) as [-> ->].
  apply Hproc. reflexivity.
Qed.


End TypeMismatch.


(** ** What [Energy.__init__] leaves *)
Section Construction.
Import energy.

(** An instance that [__init__] has built is in one of the four modes, with
    the denominator of that mode. *)
Lemma init_mode (inputfile : SysInfo) (part_ neighborfilename resindex_all_ : string)
    (overwrite_ : bool) (w w' : world) (self : Energy) :
  init inputfile part_ neighborfilename resindex_all_ overwrite_ w = (Ok self, w') ->
  molparts self ∈ molparts_of_modes
  /\ 0 < denominator self
  /\ (part_ = "complete" -> molparts self = ["resid_"] /\ denominator self = 40)
  /\ (part_ = "head-tail" -> denominator self = 20)
  /\ (part_ = "head-tailhalfs" -> denominator self = 10)
  /\ (part_ = "carbons" -> denominator self = 4).
Proof.
  unfold init. intros H.
  destruct (bool_decide (part_ ∈ knownparts)) eqn:Hk; [|discriminate H].
  apply bool_decide_eq_true in Hk.
  change (negb true) with false in H. unfold mbind, io_bind in H. cbv beta iota in H.
  destruct (neighbors.get_neighbor_dict "neighbor_info" w) as [[d|e] w1]; [|discriminate H].
  unfold knownparts in Hk.
  repeat (apply elem_of_cons in Hk as [->|Hk]); [| | | |inversion Hk];
    simpl in H; injection H as <- <-; simpl;
    (split; [apply (bool_decide_unpack _); reflexivity|]);
    (split; [reflexivity|]); repeat split; try reflexivity; discriminate.
Qed.

End Construction.


(** ** Witnesses and the completeness check on concrete runs *)
Section Runs.
Import energy.

Lemma full_tables_complete_mode :
  tables_complete scenario.lipid_tables (scenario.complete [7])
    (scenario.full_tables (scenario.complete [7]) [scenario.data_line]) 5 [7].
Proof.
  intros k Hk. apply elem_of_range in Hk.
  assert (k = 0) by (change (ceil_div _ _) with 1 in Hk; lia). subst k.
  eexists. eexists. split; [reflexivity|]. split; [reflexivity|].
  intros e He.
  repeat (apply elem_of_cons in He as [->|He]); [| |inversion He];
    first [ (eexists; split; [apply (list_elem_of_lookup_2 _ 2%nat); reflexivity
                             | split; reflexivity])
          | (eexists; split; [apply (list_elem_of_lookup_2 _ 3%nat); reflexivity
                             | split; reflexivity]) ].
Qed.


(** A lipid host with a cholesterol neighbor in mode head-tail, the table
    complete: both rows are printed, then the removal of the label [7]
    raises. *)
Lemma cholesterol_neighbor_removal_raises :
  map r_molparts
      (written (snd (write_energyfile (scenario.cholesterol_neighbor "dppc_chol")
                       (scenario.full_tables (scenario.cholesterol_neighbor "dppc_chol")
                          [scenario.data_line]))))
  = ["h_w"; "t_w"]
  /\ processed_neibs
       (snd (write_energyfile (scenario.cholesterol_neighbor "dppc_chol")
               (scenario.full_tables (scenario.cholesterol_neighbor "dppc_chol")
                  [scenario.data_line])))
     = ["7"; "7"]
  /\ expected_neighbors (scenario.cholesterol_neighbor "dppc_chol") [7]
     = [VStr "h_7"; VStr "h_7"; VStr "t_7"; VStr "t_7"]
  /\ fst (write_energyfile (scenario.cholesterol_neighbor "dppc_chol")
            (scenario.full_tables (scenario.cholesterol_neighbor "dppc_chol")
               [scenario.data_line]))
     = Raise (ValueError remove_msg).
Proof. vm_compute. repeat split. Qed.

(** In the system with the excluded pair the same run does not get to the
    removal: the host label [t_5] is not an int literal and the test for the
    excluded pair raises on the first data line. *)
Lemma excluded_pair_test_raises :
  fst (read_residue (scenario.cholesterol_neighbor "dppc_dupc_chol25")
         (scenario.full_tables (scenario.cholesterol_neighbor "dppc_dupc_chol25")
            [scenario.data_line]) 5 scenario.start)
  = Raise invalid_int
  /\ fst (write_energyfile (scenario.cholesterol_neighbor "dppc_dupc_chol25")
            (scenario.full_tables (scenario.cholesterol_neighbor "dppc_dupc_chol25")
               [scenario.data_line]))
     = Raise invalid_int.
Proof. vm_compute. split; reflexivity. Qed.

(** C4 at a residue in mode complete whose neighbors are 7 and 8 and whose
    table has the entries of neighbor 7 only: the run ends with the error of
    [list.remove], raised when the label ["7"] is looked for among the ints
    7 and 8, and not with "Not all neighbours found in xvgfile". *)
Theorem omitted_neighbor_other_error :
  all_neibs_of (scenario.complete [7; 8]) 5 = Ok [7; 8]
  /\ processed_neibs (snd (write_energyfile (scenario.complete [7; 8]) scenario.partial_tables))
     = ["7"]
  /\ expected_neighbors (scenario.complete [7; 8]) [7; 8] = [VInt 7; VInt 8]
  /\ fst (write_energyfile (scenario.complete [7; 8]) scenario.partial_tables)
     = Raise (ValueError remove_msg)
  /\ fst (write_energyfile (scenario.complete [7; 8]) scenario.partial_tables)
     <> Raise not_all_found.
Proof. vm_compute. repeat split. discriminate. Qed.

(** With lipids only and a mode of several parts the check does what it is
    there for: the omitted neighbor 8 is reported. *)
Lemma omitted_neighbor_reported_headtail :
  fst (write_energyfile (scenario.headtail "dppc_chol" scenario.lipids [7; 8])
         scenario.partial_tables_headtail)
  = Raise not_all_found.
Proof. vm_compute. reflexivity. Qed.

End Runs.


(** ** Skipping what is already there *)
Section Idempotence.
Import energy.
Variable lm : lipidmolecules.t.
Variable gmx : engine.

Lemma runs_of_write_file (sub p text : string) (w : world) :
  runs_of sub (snd (write_file p text w)) = runs_of sub w.
Proof. reflexivity. Qed.

Lemma runs_of_append_file (sub p text : string) (w : world) :
  runs_of sub (snd (append_file p text w)) = runs_of sub w.
Proof. reflexivity. Qed.

(** An engine run is counted under its own sub-command only. *)
Lemma runs_of_exec_other (sub other : string) (args : list string) (inp : option string)
    (w : world) :
  String.eqb other sub = false ->
  runs_of sub (snd (exec_gromacs gmx (GMXNAME :: other :: args) inp w)) = runs_of sub w.
Proof.
  intros Hne. unfold exec_gromacs, runs_of.
  destruct (gmx (GMXNAME :: other :: args) inp (files w)) as [[out err] fs]. simpl.
  rewrite List.filter_app. simpl. rewrite Hne. apply app_nil_r.
Qed.

Lemma runs_of_create_MDP (sub : string) (self : Energy) (mdpout energygroups : string)
    (w : world) :
  runs_of sub (snd (create_MDP self mdpout energygroups w)) = runs_of sub w.
Proof. unfold create_MDP, write_file_in. destruct (_ || _); reflexivity. Qed.

Lemma contains_slashless (s : string) : slashless s = true -> contains "/" s = false.
Proof.
  unfold slashless. induction s as [|c s IH]; [reflexivity|]. cbn [string_forall].
  intros H. apply andb_true_iff in H as [Hc Hs]. cbn [contains starts_with].
  rewrite (IH Hs), orb_false_r. rewrite Ascii.eqb_sym.
  destruct (Ascii.eqb c "/"); [discriminate Hc | reflexivity].
Qed.

Lemma slashless_append (a b : string) :
  slashless (a +:+ b) = slashless a && slashless b.
Proof. apply string_forall_append. Qed.

Lemma slashless_str (n : Z) : slashless (str n) = true.
Proof.
  eapply string_forall_impl; [|apply str_chars].
  intros c Hc. unfold digit_or_minus, is_digit in Hc.
  destruct (Ascii.eqb_spec c "/") as [->|_]; [discriminate Hc | reflexivity].
Qed.

(** The directory of a file named [a/b]. *)
Lemma dirname_file (a b : string) : slashless b = true -> dirname (a +:+ "/" +:+ b) = a.
Proof.
  intros Hb. induction a as [|c a IH].
  - change (dirname (String "/" b) = EmptyString). cbn [dirname].
    rewrite (contains_slashless b Hb). reflexivity.
  - rewrite append_String. cbn [dirname]. rewrite contains_here, IH. reflexivity.
Qed.

(** With a slash at the end of [energypath], the parameter file lies in the
    directory that [create_MDP] makes. *)
Lemma mdp_in_made_directory (self : Energy) (res groupfragment : Z) (dir : string) :
  energypath (sys self) = dir +:+ "/" ->
  slashless (part self) = true ->
  same_dir (energypath (sys self) +:+ "/mdpfiles") (dirname (mdpout_of self res groupfragment))
  = true.
Proof.
  intros He Hp. unfold mdpout_of. rewrite He, !cat_cons. change (cat []) with EmptyString.
  rewrite append_empty_r.
  change ("mdpfiles/energy_mdp_recalc_resid" +:+ ?x)
    with ("mdpfiles" +:+ "/" +:+ "energy_mdp_recalc_resid" +:+ x).
  rewrite (append_assoc dir "/"), <- (append_assoc dir), <- (append_assoc (dir +:+ "/")).
  rewrite dirname_file.
  - unfold same_dir. rewrite !append_assoc.
    change ("/mdpfiles" +:+ "/") with ("/" +:+ "mdpfiles/").
    rewrite path_key_double_slash. apply String.eqb_refl.
  - rewrite !slashless_append, !slashless_str, Hp. reflexivity.
Qed.

Lemma create_MDP_writes (self : Energy) (res groupfragment : Z) (dir energygroups : string)
    (w : world) :
  energypath (sys self) = dir +:+ "/" ->
  slashless (part self) = true ->
  fst (create_MDP self (mdpout_of self res groupfragment) energygroups w) = Ok tt.
Proof.
  intros He Hp. unfold create_MDP, write_file_in.
  rewrite (mdp_in_made_directory self res groupfragment dir He Hp). reflexivity.
Qed.

Lemma runs_of_create_TPR (sub : string) (self : Energy) (mdpout tprout : string) (w : world) :
  String.eqb "grompp" sub = false ->
  runs_of sub (snd (create_TPR gmx self mdpout tprout w)) = runs_of sub w.
Proof.
  intros Hne. unfold create_TPR, mbind, io_bind.
  match goal with |- context [exec_gromacs gmx (GMXNAME :: "grompp" :: ?a) None w] =>
    pose proof (runs_of_exec_other sub "grompp" a None w Hne) as Hr;
    destruct (exec_gromacs gmx (GMXNAME :: "grompp" :: a) None w) as [[[out err]|e] w'] eqn:He
  end; simpl in *; exact Hr.
Qed.

Lemma runs_of_write_XVG (sub : string) (self : Energy) (a b c d : string) (w : world) :
  String.eqb "energy" sub = false ->
  runs_of sub (snd (write_XVG gmx self a b c d w)) = runs_of sub w.
Proof.
  intros Hne. unfold write_XVG, mbind, io_bind.
  match goal with |- context [exec_gromacs gmx (GMXNAME :: "energy" :: ?x) ?i w] =>
    pose proof (runs_of_exec_other sub "energy" x i w Hne) as Hr;
    destruct (exec_gromacs gmx (GMXNAME :: "energy" :: x) i w) as [[[out err]|e] w'] eqn:He
  end; simpl in *; exact Hr.
Qed.

Lemma runs_of_do_Energyrun (sub : string) (self : Energy) (res : Z) (a b c : string)
    (w : world) :
  String.eqb "mdrun" sub = false ->
  runs_of sub (snd (do_Energyrun gmx self res a b c w)) = runs_of sub w.
Proof.
  intros Hne. unfold do_Energyrun, mbind, io_bind.
  match goal with |- context [exec_gromacs gmx (GMXNAME :: "mdrun" :: ?x) ?i w] =>
    pose proof (runs_of_exec_other sub "mdrun" x i w Hne) as Hr;
    destruct (exec_gromacs gmx (GMXNAME :: "mdrun" :: x) i w) as [[[out err]|e] w'] eqn:He
  end; simpl in *; exact Hr.
Qed.

Lemma rerun_step_skips (self : Energy) (res groupfragment : Z) (w : world) :
  overwrite self = false ->
  isfile (energyf_output_of self res groupfragment) w = true ->
  rerun_step gmx self res groupfragment w = (Ok tt, w).
Proof. intros Ho Hf. unfold rerun_step. rewrite Hf, Ho. reflexivity. Qed.

Lemma extraction_step_skips (self : Energy) (res groupfragment : Z) (relev : string)
    (w : world) :
  overwrite self = false ->
  isfile (g_energy_output_of self res groupfragment) w = true ->
  extraction_step gmx self res groupfragment relev w = (Ok tt, w).
Proof. intros Ho Hf. unfold extraction_step. rewrite Hf, Ho. reflexivity. Qed.

(** The table that the extraction writes is the file whose presence it
    tests. *)
Lemma isfile_table (self : Energy) (res groupfragment : Z) (dir : string) (w : world) :
  energypath (sys self) = dir +:+ "/" ->
  isfile (g_energy_output_of self res groupfragment) w
  = isfile (xvg_out_of self res groupfragment) w.
Proof.
  intros He.
  assert (Hk : path_key (g_energy_output_of self res groupfragment)
               = path_key (xvg_out_of self res groupfragment)).
  { unfold xvg_out_of, g_energy_output_of. rewrite He, !cat_cons.
    change (cat []) with EmptyString. rewrite !append_assoc.
    change ("/xvgtables/energies_residue" +:+ ?x)
      with ("/" +:+ "xvgtables/energies_residue" +:+ x).
    apply path_key_double_slash. }
  unfold isfile. rewrite Hk. reflexivity.
Qed.

Lemma run_fragment_unfold (self : Energy) (res : Z) (all_neibs_of_res : list Z)
    (groupfragment : Z) (energygroups relev dir : string) (w : world) :
  let self' := with_groupblocks self [groupfragment * denominator self;
                                     (groupfragment + 1) * denominator self] in
  energypath (sys self) = dir +:+ "/" ->
  slashless (part self) = true ->
  gather_energygroups lm self' res all_neibs_of_res = Ok energygroups ->
  get_relev_energies lm self' res all_neibs_of_res = Ok relev ->
  run_fragment lm gmx self res all_neibs_of_res groupfragment w
  = (_ ← rerun_step gmx self res groupfragment;
     extraction_step gmx self res groupfragment relev)
      (before_rerun gmx self res groupfragment energygroups w).
Proof.
  intros self' He Hp Hg Hr. unfold run_fragment, before_rerun.
  fold self'. rewrite Hg, Hr.
  pose proof (create_MDP_writes self res groupfragment dir energygroups w He Hp) as Hm.
  change (mdpout_of self' res groupfragment) with (mdpout_of self res groupfragment).
  change (create_MDP self' ?a ?b) with (create_MDP self a b).
  unfold mbind, io_bind, lift. cbn [fst snd].
  destruct (create_MDP self (mdpout_of self res groupfragment) energygroups w)
    as [[[]|e] w0]; [|discriminate Hm]. cbn [snd].
  unfold create_TPR, mbind, io_bind, exec_gromacs, append_file.
  destruct (gmx _ None _) as [[out err] fs]. reflexivity.
Qed.


End Idempotence.



(** Without that slash and without a directory [energymdpfiles], the first
    fragment ends in [FileNotFoundError] before any engine run: the
    directory made is [energy/mdpfiles]. *)
Example missing_mdp_directory :
  energy.run_calculation scenario.lipid_tables scenario.writing_engine scenario.without_slash
    [5] (World ∅ [])
  = (Raise (FileNotFoundError "energymdpfiles/energy_mdp_recalc_resid5_0.mdp"), World ∅ []).
Proof. vm_compute. reflexivity. Qed.

(** A second [run_calculation] over the files the first one left, with
    overwrite disabled: the preprocessor runs again, [mdrun] and [energy] do
    not, and the trace and the table keep their content. *)
Lemma second_run_skips :
  scenario.subcommands scenario.first_run = ["grompp"; "mdrun"; "energy"]
  /\ scenario.subcommands scenario.second_run = ["grompp"; "mdrun"; "energy"; "grompp"]
  /\ files scenario.second_run !! path_key (energy.energyf_output_of (scenario.complete [7]) 5 0)
     = Some "written by mdrun"
  /\ files scenario.second_run !! path_key (energy.energyf_output_of (scenario.complete [7]) 5 0)
     = files scenario.first_run !! path_key (energy.energyf_output_of (scenario.complete [7]) 5 0)
  /\ files scenario.second_run !! path_key (energy.g_energy_output_of (scenario.complete [7]) 5 0)
     = Some "written by energy"
  /\ files scenario.second_run !! path_key (energy.g_energy_output_of (scenario.complete [7]) 5 0)
     = files scenario.first_run !! path_key (energy.g_energy_output_of (scenario.complete [7]) 5 0).
Proof. vm_compute. repeat split. Qed.

(** ** Numbers and columns written and read back *)
Section WrittenAndRead.
Import neighbors.

Lemma digit_not_space (c : ascii) : is_digit c = true -> not_space c = true.
Proof.
  unfold is_digit, not_space, is_space. intros H.
  apply andb_true_iff in H as [H1 H2].
  apply Nat.leb_le in H1. apply Nat.leb_le in H2.
  apply negb_true_iff. apply orb_false_iff. split; apply andb_false_iff.
  - right. apply Nat.leb_gt. lia.
  - right. apply Nat.leb_gt. lia.
Qed.

Lemma lstrip_no_space (s : string) : string_forall not_space s = true -> lstrip s = s.
Proof.
  destruct s as [|c s]; [reflexivity|]. simpl. intros H.
  apply andb_true_iff in H as [H _]. unfold not_space in H.
  apply negb_true_iff in H. rewrite H. reflexivity.
Qed.

Lemma rstrip_no_space (s : string) : string_forall not_space s = true -> rstrip s = s.
Proof.
  induction s as [|c s IH]; [reflexivity|]. simpl. intros H.
  apply andb_true_iff in H as [Hc Hs]. rewrite (IH Hs).
  unfold not_space in Hc. apply negb_true_iff in Hc.
  destruct s; [rewrite Hc|]; reflexivity.
Qed.

Lemma strip_no_space (s : string) : string_forall not_space s = true -> strip s = s.
Proof.
  intros H. unfold strip. rewrite (lstrip_no_space s H). apply rstrip_no_space, H.
Qed.

Lemma int_digits_acc (d : Decimal.uint) (p : positive) :
  int_digits (Z.pos p) true (NilEmpty.string_of_uint d) = Some (Z.pos (Pos.of_uint_acc d p)).
Proof.
  revert p. induction d as [|d IH|d IH|d IH|d IH|d IH|d IH|d IH|d IH|d IH|d IH]; intros p;
    [reflexivity|..];
    cbn [NilEmpty.string_of_uint Pos.of_uint_acc int_digits];
    match goal with
    | |- context [is_digit ?c] => change (is_digit c) with true
    end; cbv iota;
    match goal with
    | |- int_digits ?a true _ = Some (Z.pos (Pos.of_uint_acc _ ?q)) =>
        replace a with (Z.pos q)
          by (match goal with
              | |- context [digit_val ?c] =>
                  let v := eval vm_compute in (digit_val c) in change (digit_val c) with v
              end; lia)
    end; apply IH.
Qed.

Lemma int_digits_zero (d : Decimal.uint) :
  int_digits 0 true (NilEmpty.string_of_uint d) = Some (Z.of_N (Pos.of_uint d)).
Proof.
  induction d as [|d IH|d IH|d IH|d IH|d IH|d IH|d IH|d IH|d IH|d IH];
    [reflexivity| exact IH |..];
    cbn [NilEmpty.string_of_uint Pos.of_uint int_digits];
    match goal with
    | |- context [is_digit ?c] => change (is_digit c) with true
    end; cbv iota;
    match goal with
    | |- int_digits ?a true _ = _ => let v := eval vm_compute in a in change a with v
    end; rewrite int_digits_acc; reflexivity.
Qed.

Lemma uint_no_space (d : Decimal.uint) :
  string_forall not_space (NilEmpty.string_of_uint d) = true.
Proof.
  eapply string_forall_impl; [|apply uint_digits]. exact digit_not_space.
Qed.

(** The digits of a positive number are read back as that number. *)
Lemma int_literal_digits (p : positive) :
  int_literal (NilEmpty.string_of_uint (Pos.to_uint p)) = Some (Z.pos p).
Proof.
  unfold int_literal. rewrite (strip_no_space _ (uint_no_space _)).
  pose proof (int_digits_zero (Pos.to_uint p)) as H.
  rewrite DecimalPos.Unsigned.of_to in H.
  pose proof (Unsigned.to_uint_nonnil p) as Hn.
  destruct (Pos.to_uint p); [congruence|..]; exact H.
Qed.

(** [int(str(n)) == n]. *)
Lemma int_str (n : Z) : int (str n) = Ok n.
Proof.
  unfold int, str, Z.to_int.
  destruct n as [|p|p]; [reflexivity| |].
  - unfold NilZero.string_of_int, NilZero.string_of_uint.
    pose proof (int_literal_digits p) as H.
    pose proof (Unsigned.to_uint_nonnil p) as Hn.
    destruct (Pos.to_uint p); [congruence|..]; rewrite H; reflexivity.
  - unfold NilZero.string_of_int, NilZero.string_of_uint.
    pose proof (int_digits_zero (Pos.to_uint p)) as H.
    rewrite DecimalPos.Unsigned.of_to in H.
    pose proof (uint_no_space (Pos.to_uint p)) as Hs.
    pose proof (Unsigned.to_uint_nonnil p) as Hn.
    unfold int_literal.
    rewrite strip_no_space by (destruct (Pos.to_uint p); [congruence|..]; exact Hs).
    destruct (Pos.to_uint p); [congruence|..];
      (change (int_digits 0 false ?s) with (int_digits 0 true s) in |- *;
       rewrite H; reflexivity).
Qed.

Lemma str_inj (a b : Z) : str a = str b -> a = b.
Proof.
  intros H. pose proof (int_str a) as Ha. rewrite H, int_str in Ha. congruence.
Qed.

Lemma mapM_int_str (l : list Z) : mapM int (map str l) = Ok l.
Proof.
  induction l as [|x l IH]; [reflexivity|].
  change (map str (x :: l)) with (str x :: map str l).
  rewrite mapM_cons, int_str, bind_Ok, IH, bind_Ok. reflexivity.
Qed.

(** A piece without commas ends at the next comma. *)
Lemma split_comma_piece (p rest : string) :
  string_forall digit_or_minus p = true ->
  split "," (p +:+ "," +:+ rest) = p :: split "," rest.
Proof.
  unfold split. induction p as [|c p IH]; intros Hp; [reflexivity|].
  simpl in Hp. apply andb_true_iff in Hp as [Hc Hp].
  rewrite append_String, split_go_String.
  assert (Hne : Ascii.eqb "," c = false).
  { destruct (Ascii.eqb_spec "," c) as [<-|]; [discriminate Hc | reflexivity]. }
  rewrite (starts_with_other _ _ _ _ Hne), (IH Hp). reflexivity.
Qed.

Lemma split_comma_last (p : string) :
  string_forall digit_or_minus p = true -> split "," p = [p].
Proof.
  unfold split. induction p as [|c p IH]; intros Hp; [reflexivity|].
  simpl in Hp. apply andb_true_iff in Hp as [Hc Hp].
  rewrite split_go_String.
  assert (Hne : Ascii.eqb "," c = false).
  { destruct (Ascii.eqb_spec "," c) as [<-|]; [discriminate Hc | reflexivity]. }
  rewrite (starts_with_other _ _ _ _ Hne), (IH Hp). reflexivity.
Qed.

(** [','.join(str(x) for x in l).split(',')] gives the numbers back. *)
Lemma split_join_str (x : Z) (l : list Z) :
  split "," (join "," (map str (x :: l))) = map str (x :: l).
Proof.
  revert x. induction l as [|y l IH]; intros x.
  - apply split_comma_last, str_chars.
  - change (join "," (map str (x :: y :: l)))
      with (str x +:+ "," +:+ join "," (map str (y :: l))).
    rewrite (split_comma_piece _ _ (str_chars x)), IH. reflexivity.
Qed.

Lemma split_ws_spaces (n : nat) (rest : string) :
  split_ws (spaces n +:+ rest) = split_ws rest.
Proof. induction n as [|n IH]; [reflexivity|]. exact IH. Qed.

Lemma token_inv (c : ascii) (s : string) :
  token (String c s) = true -> is_space c = false /\ (s = EmptyString \/ token s = true).
Proof.
  unfold token. simpl. intros H. apply andb_true_iff in H as [Hc Hs].
  unfold not_space in Hc. apply negb_true_iff in Hc. split; [exact Hc|].
  destruct s as [|c' s]; [left; reflexivity | right; exact Hs].
Qed.

Lemma split_ws_String (c : ascii) (s : string) :
  split_ws (String c s)
  = if is_space c then split_ws s
    else match s with
         | EmptyString => [String c EmptyString]
         | String c' _ =>
             if is_space c' then String c EmptyString :: split_ws s
             else match split_ws s with
                  | w :: ws => String c w :: ws
                  | [] => [String c EmptyString]
                  end
         end.
Proof. reflexivity. Qed.

(** A column followed by a blank is the first column found. *)
Lemma split_ws_token (t rest : string) (n : nat) :
  token t = true ->
  split_ws (t +:+ spaces (S n) +:+ rest) = t :: split_ws rest.
Proof.
  induction t as [|c t IH]; [discriminate|]. intros Ht.
  apply token_inv in Ht as [Hc [->|Ht]].
  - change (split_ws (String c (String " " (spaces n +:+ rest)))
            = String c EmptyString :: split_ws rest).
    rewrite split_ws_String, Hc. change (is_space " ") with true. cbv iota.
    rewrite split_ws_String. change (is_space " ") with true. cbv iota.
    rewrite split_ws_spaces. reflexivity.
  - specialize (IH Ht). destruct t as [|c' t]; [discriminate Ht|].
    apply token_inv in Ht as [Hc' _].
    rewrite !append_String in *.
    rewrite (split_ws_String c), Hc, Hc', IH. reflexivity.
Qed.

(** A column at the end of the line is the last column found. *)
Lemma split_ws_last (t : string) : token t = true -> split_ws t = [t].
Proof.
  induction t as [|c t IH]; [discriminate|]. intros Ht.
  apply token_inv in Ht as [Hc [->|Ht]].
  - rewrite split_ws_String, Hc. reflexivity.
  - specialize (IH Ht). destruct t as [|c' t]; [discriminate Ht|].
    apply token_inv in Ht as [Hc' _].
    rewrite (split_ws_String c), Hc, Hc', IH. reflexivity.
Qed.

Lemma split_ws_blank (n : nat) : split_ws (spaces n) = [].
Proof. induction n as [|n IH]; [reflexivity|]. exact IH. Qed.

(** What [str.split()] returns are columns. *)
Lemma split_ws_tokens (s : string) : Forall (fun t => token t = true) (split_ws s).
Proof.
  induction s as [|c s IH]; [constructor|].
  rewrite split_ws_String.
  destruct (is_space c) eqn:Hc; [exact IH|].
  assert (H1 : token (String c EmptyString) = true).
  { unfold token, not_space. simpl. rewrite Hc. reflexivity. }
  destruct s as [|c' s]; [repeat constructor; exact H1|].
  destruct (is_space c') eqn:Hc'; [constructor; [exact H1 | exact IH]|].
  destruct (split_ws (String c' s)) as [|w ws]; [repeat constructor; exact H1|].
  inversion IH as [|? ? Hw Hws]; subst. constructor; [|exact Hws].
  unfold token in *. simpl. unfold not_space at 1. rewrite Hc. simpl.
  apply andb_true_iff in Hw as [_ Hw]. exact Hw.
Qed.

Lemma str_token (n : Z) : token (str n) = true.
Proof.
  unfold token. apply andb_true_iff. split.
  - destruct (str_head n) as (c & s & -> & _). reflexivity.
  - eapply string_forall_impl; [|apply str_chars].
    intros c Hc. unfold digit_or_minus in Hc. apply orb_true_iff in Hc as [Hc|Hc].
    + apply digit_not_space, Hc.
    + apply Ascii.eqb_eq in Hc as ->. reflexivity.
Qed.

Lemma join_str_chars (l : list Z) :
  string_forall not_space (join "," (map str l)) = true.
Proof.
  assert (Hs : forall x, string_forall not_space (str x) = true).
  { intros x. pose proof (str_token x) as H. apply andb_true_iff in H as [_ H]. exact H. }
  induction l as [|x l IH]; [reflexivity|].
  destruct l as [|y l]; [apply Hs|].
  change (join "," (map str (x :: y :: l)))
    with (str x +:+ "," +:+ join "," (map str (y :: l))).
  rewrite !string_forall_append, Hs, IH. reflexivity.
Qed.

Lemma join_str_token (x : Z) (l : list Z) : token (join "," (map str (x :: l))) = true.
Proof.
  unfold token. rewrite join_str_chars, andb_true_r.
  destruct (str_head x) as (c & s & Hx & _).
  destruct l as [|y l].
  - change (join "," (map str [x])) with (str x). rewrite Hx. reflexivity.
  - change (join "," (map str (x :: y :: l)))
      with (str x +:+ "," +:+ join "," (map str (y :: l))).
    rewrite Hx. reflexivity.
Qed.

Lemma spaces_S (w n : nat) : (n < w)%nat -> exists k, spaces (w - n) = spaces (S k).
Proof. intros H. exists (w - n - 1)%nat. f_equal. lia. Qed.

(** The columns of a row of the neighbor table, when the first three fit
    their widths. *)
Lemma split_ws_format_row (a b c d : string) :
  token a = true -> token b = true -> token c = true ->
  (String.length a < 10)%nat -> (String.length b < 20)%nat -> (String.length c < 10)%nat ->
  d = EmptyString \/ token d = true ->
  split_ws (format_row a b c d)
  = a :: b :: c :: (if String.eqb d EmptyString then [] else [d]).
Proof.
  intros Ha Hb Hc La Lb Lc Hd.
  change (format_row a b c d)
    with ((a +:+ spaces (10 - String.length a)) +:+ (b +:+ spaces (20 - String.length b))
          +:+ (c +:+ spaces (10 - String.length c)) +:+ (spaces (25 - String.length d) +:+ d)).
  destruct (spaces_S 10 _ La) as [ka ->].
  destruct (spaces_S 20 _ Lb) as [kb ->].
  destruct (spaces_S 10 _ Lc) as [kc ->].
  rewrite !append_assoc.
  rewrite (split_ws_token a _ ka Ha), (split_ws_token b _ kb Hb), (split_ws_token c _ kc Hc).
  rewrite split_ws_spaces. do 3 f_equal.
  destruct Hd as [->|Hd]; [reflexivity|].
  rewrite (split_ws_last d Hd).
  destruct d; [discriminate Hd | reflexivity].
Qed.

Lemma forall2_head {A} (P : A -> Prop) (x y : A) (l : list A) :
  Forall P (x :: y :: l) -> P x /\ P y.
Proof. intros H. inversion H as [|? ? Hx H']; subst. inversion H'; subst. tauto. Qed.

(** X1: a row that [determine_neighbors] writes is read back by
    [get_neighbor_dict] as the entry it was made from.  For a line of the
    engine's data file with a time, a count and atom indices, all known to
    the registry, the row built from it is parsed again into the residue id,
    the time and the distinct neighbor ids, and only the entry of that
    residue changes, provided the residue id and the count take fewer than 10
    characters and the time fewer than 20. *)
Theorem neighbor_row_read_back (self : SysInfo) (residue : Z) (line time nneibs : string)
    (ixs : list string) (neibindeces neibresid : list Z) (q : Q)
    (d : gmap Z (list (Q * list Z))) :
  split_ws line = time :: nneibs :: ixs ->
  mapM int ixs = Ok neibindeces ->
  mapM (getitem (index_to_resid self)) neibindeces = Ok neibresid ->
  float time = Ok q ->
  (String.length (str residue) < 10)%nat ->
  (String.length time < 20)%nat ->
  (String.length nneibs < 10)%nat ->
  exists row d',
    neighbor_row self residue line = Ok row
    /\ add_neighbor_line d row = Ok d'
    /\ d' !! residue = Some (update_time q (list_set neibresid) (default [] (d !! residue)))
    /\ forall r, r <> residue -> d' !! r = d !! r.
Proof.
  intros Hc Hi Hr Hq Lr Lt Ln.
  pose proof (split_ws_tokens line) as Ht. rewrite Hc in Ht.
  apply forall2_head in Ht as [Htime Hnn].
  assert (Hnd : default [] ((if bool_decide (is_Some (d !! residue)) then d
                             else <[residue := []]> d) !! residue)
                = default [] (d !! residue)).
  { destruct (bool_decide (is_Some (d !! residue))) eqn:Hs; [reflexivity|].
    apply bool_decide_eq_false_1 in Hs. rewrite lookup_insert_eq.
    destruct (d !! residue) eqn:Hd; [exfalso; apply Hs; eauto | reflexivity]. }
  assert (Hother : forall r, r <> residue ->
            (if bool_decide (is_Some (d !! residue)) then d else <[residue := []]> d) !! r
            = d !! r).
  { intros r Hne. destruct (bool_decide (is_Some (d !! residue))); [reflexivity|].
    apply lookup_insert_ne. congruence. }
  destruct neibresid as [|x l];
    (eexists; eexists;
     split; [exact (neighbor_row_eq self residue line _ _ _ _ _ Hc Hi Hr)|]);
    unfold add_neighbor_line.
  - change (join "," (map str [])) with EmptyString.
    rewrite (split_ws_format_row _ _ _ EmptyString (str_token residue) Htime Hnn Lr Lt Ln)
      by (left; reflexivity).
    change (index (str residue :: time :: ?k) 0) with (Ok (str residue)).
    change (index (str residue :: time :: ?k) 1) with (Ok time).
    rewrite !bind_Ok, int_str, bind_Ok, Hq, bind_Ok.
    change ((str residue :: time :: nneibs :: (if String.eqb EmptyString EmptyString then []
             else [EmptyString])) !! 3%nat) with (@None string).
    cbv beta iota zeta. split; [reflexivity|].
    rewrite lookup_insert_eq, Hnd. split; [reflexivity|].
    intros r Hne. rewrite lookup_insert_ne by congruence. apply Hother, Hne.
  - pose proof (join_str_token x l) as Hd.
    rewrite (split_ws_format_row _ _ _ _ (str_token residue) Htime Hnn Lr Lt Ln)
      by (right; exact Hd).
    change (index (str residue :: time :: ?k) 0) with (Ok (str residue)).
    change (index (str residue :: time :: ?k) 1) with (Ok time).
    rewrite !bind_Ok, int_str, bind_Ok, Hq, bind_Ok.
    assert (Hne : String.eqb (join "," (map str (x :: l))) EmptyString = false).
    { unfold token in Hd. apply andb_true_iff in Hd as [Hd _].
      apply negb_true_iff in Hd. exact Hd. }
    rewrite Hne.
    change ((str residue :: time :: nneibs :: [?c]) !! 3%nat) with (Some c).
    cbv beta iota zeta. rewrite split_join_str, mapM_int_str, bind_Ok.
    split; [reflexivity|].
    rewrite lookup_insert_eq, Hnd. split; [reflexivity|].
    intros r Hne'. rewrite lookup_insert_ne by congruence. apply Hother, Hne'.
Qed.

End WrittenAndRead.

Lemma neighbor_row_read_back_witness :
  exists row d',
    neighbors.neighbor_row (scenario.registry "dppc_chol" scenario.lipids) 5
      "   0.000   3   10 11 12" = Ok row
    /\ neighbors.add_neighbor_line ∅ row = Ok d'
    /\ d' !! 5 = Some (neighbors.update_time (0 # 1000)%Q (list_set [3; 3; 4])
                        (default [] ((∅ : gmap Z (list (Q * list Z))) !! 5)))
    /\ forall r, r <> 5 -> d' !! r = (∅ : gmap Z (list (Q * list Z))) !! r.
Proof.
  apply (neighbor_row_read_back (scenario.registry "dppc_chol" scenario.lipids) 5
           "   0.000   3   10 11 12" "0.000" "3" ["10"; "11"; "12"] [10; 11; 12] [3; 3; 4]
           (0 # 1000)%Q ∅); try reflexivity; vm_compute; lia.
Defined.

(** A time that fills the 20 characters of its column runs into the count:
    the row is then read back with the wrong columns. *)
Example neighbor_row_wide_time :
  split_ws (neighbors.format_row "5" "12345678901234567890" "3" "7")
  = ["5"; "123456789012345678903"; "7"].
Proof. reflexivity. Qed.

(** ** The index file of the energy groups *)
Section IndexFile.
Import neighbors.
Variable lm : lipidmolecules.t.
Variable atoms : atom_tables.
Variable gmx : engine.
Variable self : SysInfo.

Lemma tailhalf_lists_acc (tails : list (list string)) (a b : list string) :
  foldl (fun acc molpart =>
           (fst acc ++ take (length molpart / 2)%nat molpart,
            snd acc ++ drop (length molpart / 2)%nat molpart)) (a, b) tails
  = (a ++ concat (map (fun m => take (length m / 2)%nat m) tails),
     b ++ concat (map (fun m => drop (length m / 2)%nat m) tails)).
Proof.
  revert a b. induction tails as [|m tails IH]; intros a b; cbn [foldl concat map fst snd].
  - rewrite !app_nil_r. reflexivity.
  - rewrite IH. rewrite !app_assoc. reflexivity.
Qed.

Lemma halves_permutation (tails : list (list string)) :
  concat (map (fun m => take (length m / 2)%nat m) tails)
  ++ concat (map (fun m => drop (length m / 2)%nat m) tails) ≡ₚ concat tails.
Proof.
  induction tails as [|m tails IH]; cbn [concat map]; [reflexivity|].
  rewrite <- (take_drop (length m / 2)%nat m) at 5.
  rewrite <- IH.
  rewrite <- !app_assoc. apply Permutation_app_head.
  rewrite !app_assoc. apply Permutation_app_tail, Permutation_app_comm.
Qed.


(** X2: [get_atoms_tailhalfs] cuts every chain of the tail in two: with
    the chains [tails] of a lipid, the first string names the first halves
    of the chains, chain after chain, and the second string their second
    halves.  A chain of [n] atoms gives its first [n // 2] atoms to the first
    half and the others to the second, so that a chain of odd length has its
    middle atom in the second half, and the two halves put together are the
    chain.  All halves together are the atoms of the tail (the list
    [get_atoms_tail] returns), each once. *)
Theorem tail_halves_partition (lipidtype : string) (tails : list (list string)) :
  tail_atoms_of atoms lipidtype = Ok tails ->
  get_atoms_tailhalfs atoms lipidtype
  = Ok (join " " (concat (map first_half tails)), join " " (concat (map second_half tails)))
  /\ (forall chain, chain ∈ tails ->
        first_half chain ++ second_half chain = chain
        /\ length (first_half chain) = (length chain / 2)%nat
        /\ length (second_half chain) = (length chain / 2 + length chain mod 2)%nat)
  /\ concat (map first_half tails) ++ concat (map second_half tails) ≡ₚ concat tails
  /\ (forall headatoms, head_atoms_of atoms lipidtype = Ok headatoms ->
        get_atoms_tail atoms lipidtype = Ok (concat tails, headatoms)).
Proof.
  intros Ht. split; [|split; [|split; [apply halves_permutation|]]].
  - unfold get_atoms_tailhalfs. rewrite Ht, bind_Ok.
    unfold tailhalf_lists. rewrite tailhalf_lists_acc. reflexivity.
  - intros chain _. unfold first_half, second_half.
    pose proof (Nat.div_mod_eq (length chain) 2) as Hd.
    pose proof (Nat.mod_upper_bound (length chain) 2) as Hm.
    split; [apply take_drop|]. rewrite length_take, length_drop. lia.
  - intros headatoms Hh. unfold get_atoms_tail. rewrite Ht, bind_Ok, Hh. reflexivity.
Qed.

Lemma length_pairs {A} (l : list A) : length (pairs l) = (length l / 2)%nat.
Proof.
  assert (H : forall n (k : list A), (length k <= n)%nat ->
                length (pairs k) = (length k / 2)%nat).
  { intros n. induction n as [|n IH]; intros k Hk.
    - destruct k; [reflexivity | simpl in Hk; lia].
    - destruct k as [|a [|b k]]; [reflexivity | reflexivity |].
      cbn [pairs length]. rewrite IH by (cbn [length] in Hk; lia).
      change (S (S (length k))) with (1 * 2 + length k)%nat.
      rewrite Nat.div_add_l by lia. lia. }
  apply (H (length l)). lia.
Qed.

Lemma length_methylgroup (carbons : list string) (hydr : list (string * string)) :
  length (methylgroup carbons hydr) = (3 * (length carbons `min` length hydr))%nat.
Proof.
  revert hydr. induction carbons as [|c cs IH]; intros hydr; [reflexivity|].
  destruct hydr as [|[h1 h2] hs]; cbn [methylgroup length]; [lia|].
  rewrite IH. lia.
Qed.

Lemma mapM_result_error {A B} (f : A -> result B) (l : list A) (e : exn) :
  mapM f l = Raise e -> exists x, x ∈ l /\ f x = Raise e.
Proof.
  induction l as [|x l IH]; [discriminate|].
  rewrite mapM_cons. destruct (f x) as [y|e'] eqn:Hx.
  - rewrite bind_Ok. destruct (mapM f l) as [k|e'] eqn:Hl; [discriminate|].
    rewrite bind_Raise. intros [= ->]. destruct (IH eq_refl) as (x' & Hin & Hx').
    exists x'. split; [apply elem_of_cons; right; exact Hin | exact Hx'].
  - rewrite bind_Raise. intros [= ->]. exists x. split; [apply elem_of_cons; left; reflexivity|].
    exact Hx.
Qed.

Lemma index_error {A} (l : list A) (i : nat) (e : exn) : index l i = Raise e -> e = IndexError.
Proof. unfold index. destruct (l !! i); [discriminate|]. congruence. Qed.

(** What [get_atoms_tailcarbons] gives for a lipid whose first chain has
    fewer than 13 carbons with two hydrogens each: an [IndexError], or fewer
    than seven strings. *)
Lemma short_chain_few_groups (lipidtype : string) (c0 : list string) (cs : list (list string))
    (h0 : list string) (hs : list (list string)) :
  lipidmolecules.tailcarbons_of lm lipidtype = Ok (c0 :: cs) ->
  tailhydr_of atoms lipidtype = Ok (h0 :: hs) ->
  (length c0 < 13 \/ length h0 < 26)%nat ->
  match get_atoms_tailcarbons lm atoms lipidtype with
  | Ok strs => (length strs < 7)%nat
  | Raise e => e = IndexError
  end.
Proof.
  intros Hc Hh Hshort. unfold get_atoms_tailcarbons, methylatomslists_of.
  rewrite Hc, bind_Ok. cbn [length seq]. rewrite mapM_cons.
  rewrite Hh, !bind_Ok.
  change (index (h0 :: hs) 0) with (Ok h0). change (index (c0 :: cs) 0) with (Ok c0).
  rewrite !bind_Ok.
  match goal with
  | |- context [mapM ?g (seq 1 (length cs))] => destruct (mapM g (seq 1 (length cs))) as [k|e] eqn:Hk
  end.
  - rewrite ?bind_Ok. change (mret (methylgroup c0 (pairs h0) :: k))
      with (Ok (methylgroup c0 (pairs h0) :: k)).
    rewrite ?bind_Ok. unfold methylatomstrings_of.
    change (index (methylgroup c0 (pairs h0) :: k) 0) with (Ok (methylgroup c0 (pairs h0))).
    rewrite bind_Ok.
    match goal with
    | |- context [mapM ?g (group_starts ?l)] => destruct (mapM g (group_starts l)) as [strs|e] eqn:Hs
    end.
    + apply mapM_result_length in Hs. rewrite Hs. unfold group_starts.
      rewrite length_map, length_seq, length_methylgroup, length_pairs.
      assert (Hle : (length c0 `min` (length h0 / 2) <= 12)%nat).
      { destruct Hshort as [H|H]; [lia|].
        pose proof (Nat.div_mod_eq (length h0) 2). lia. }
      set (x := (3 * (length c0 `min` (length h0 / 2)) - 1 + 5)%nat) in *.
      assert (x <= 40)%nat by (subst x; lia).
      pose proof (Nat.div_mod_eq x 6). lia.
    + apply mapM_result_error in Hs as (i & _ & Hi).
      destruct (index (methylgroup c0 (pairs h0) :: k) 1) eqn:H1; [discriminate Hi|].
      rewrite bind_Raise in Hi. injection Hi as <-. apply (index_error _ _ _ H1).
  - rewrite ?bind_Raise.
    apply mapM_result_error in Hk as (i & _ & Hi).
    cbv beta in Hi. rewrite ?Hh, bind_Ok in Hi.
    destruct (index (h0 :: hs) i) eqn:H1.
    + rewrite bind_Ok in Hi. destruct (index (c0 :: cs) i) eqn:H2; [discriminate Hi|].
      rewrite bind_Raise in Hi. injection Hi as <-. apply (index_error _ _ _ H2).
    + rewrite bind_Raise in Hi. injection Hi as <-. apply (index_error _ _ _ H1).
Qed.

(** X3: a lipid whose first chain has fewer than 13 carbons, or fewer than
    26 hydrogens, cannot be given its index groups: the seven groups [C0]
    to [C6] take six atoms of the flattened chain each, fewer than seven
    strings come back, and [create_selectionfile_indexcreation] raises
    [IndexError], leaving the selection file it has just opened empty. *)
Theorem short_chain_index_error (selectionfilename : string) (mol : Z) (w : world)
    (lipidtype : string) (tails : list (list string)) (headatoms c0 : list string)
    (cs : list (list string)) (h0 : list string) (hs : list (list string)) :
  resid_to_lipid self !! mol = Some lipidtype ->
  lipidtype ∈ molecules self ->
  lipidtype ∉ lipidmolecules.STEROLS lm ++ lipidmolecules.PROTEINS lm ->
  tail_atoms_of atoms lipidtype = Ok tails ->
  head_atoms_of atoms lipidtype = Ok headatoms ->
  lipidmolecules.tailcarbons_of lm lipidtype = Ok (c0 :: cs) ->
  tailhydr_of atoms lipidtype = Ok (h0 :: hs) ->
  (length c0 < 13 \/ length h0 < 26)%nat ->
  create_selectionfile_indexcreation lm atoms self selectionfilename mol w
  = (Raise IndexError,
     World (<[path_key selectionfilename := EmptyString]> (files w)) (calls w)).
Proof.
  intros Hl Hm Hs Ht Hh Hc Hy Hshort.
  assert (Hsel : selprefixes_of lm atoms lipidtype = Raise IndexError).
  { unfold selprefixes_of, get_atoms_tail, get_atoms_tailhalfs.
    rewrite Ht, !bind_Ok, Hh, !bind_Ok.
    destruct (tailhalf_lists tails) as [l12 l22]. rewrite bind_Ok.
    pose proof (short_chain_few_groups lipidtype c0 cs h0 hs Hc Hy Hshort) as Hfew.
    destruct (get_atoms_tailcarbons lm atoms lipidtype) as [strs|e].
    - rewrite bind_Ok.
      destruct strs as [|s0 [|s1 [|s2 [|s3 [|s4 [|s5 [|s6 strs]]]]]]];
        try reflexivity. cbn [length] in Hfew. lia.
    - subst e. reflexivity. }
  unfold create_selectionfile_indexcreation, mbind, io_bind, write_file, lift, getitem.
  cbn [files calls]. rewrite Hl.
  rewrite (bool_decide_eq_true_2 _ Hm), (bool_decide_eq_false_2 _ Hs). cbn [negb].
  rewrite Hsel. reflexivity.
Qed.

End IndexFile.

Lemma short_chain_index_error_witness :
  neighbors.create_selectionfile_indexcreation (index_scenario.lipid_tables 12)
    (index_scenario.atoms 12) index_scenario.registry "temp/tmp_selectionfile" 5 (World ∅ [])
  = (Raise IndexError,
     World (<[path_key "temp/tmp_selectionfile" := EmptyString]> (files (World ∅ [])))
           (calls (World ∅ []))).
Proof.
  apply (short_chain_index_error (index_scenario.lipid_tables 12) (index_scenario.atoms 12)
           index_scenario.registry "temp/tmp_selectionfile" 5 (World ∅ []) "DPPC"
           [index_scenario.chain_carbons "2" 12 ++ index_scenario.chain_hydrogens "2" 12;
            index_scenario.chain_carbons "3" 12 ++ index_scenario.chain_hydrogens "3" 12]
           ["P"; "N"; "C1"; "C2"; "C3"]
           (index_scenario.chain_carbons "2" 12) [index_scenario.chain_carbons "3" 12]
           (index_scenario.chain_hydrogens "2" 12) [index_scenario.chain_hydrogens "3" 12]);
    try reflexivity.
  - apply (bool_decide_unpack _). reflexivity.
  - apply (bool_decide_unpack _). reflexivity.
  - left. vm_compute. lia.
Defined.

(** With 13 carbons in each of two chains the selection file is written:
    twelve definitions and the twelve groups asked for. *)
Example thirteen_carbons_suffice :
  exists text,
    files (snd (neighbors.create_selectionfile_indexcreation (index_scenario.lipid_tables 13)
                  (index_scenario.atoms 13) index_scenario.registry "temp/tmp_selectionfile" 5
                  (World ∅ []))) !! "temp/tmp_selectionfile" = Some text
    /\ length (split nl text) = 25%nat.
Proof. eexists. split; vm_compute; reflexivity. Qed.

Lemma tail_halves_partition_witness :
  neighbors.get_atoms_tailhalfs (index_scenario.atoms 3) "DPPC"
  = Ok ("C22 C23 C24 H2R C32 C33 C34 H2R", "H2S H3R H3S H4R H4S H2S H3R H3S H4R H4S").
Proof.
  destruct (tail_halves_partition (index_scenario.atoms 3) "DPPC"
              [index_scenario.chain_carbons "2" 3 ++ index_scenario.chain_hydrogens "2" 3;
               index_scenario.chain_carbons "3" 3 ++ index_scenario.chain_hydrogens "3" 3]
              eq_refl) as [H _].
  rewrite H. vm_compute. reflexivity.
Defined.

(** ** The energy groups and the groups of the index file *)
Section GroupsDefined.
Import neighbors.
Variable lm : lipidmolecules.t.
Variable atoms : atom_tables.
Variable self : SysInfo.

Lemma cat_snoc (l : list string) (x : string) : cat (l ++ [x]) = cat l +:+ x.
Proof.
  induction l as [|y l IH]; [reflexivity|].
  change ((y :: l) ++ [x]) with (y :: (l ++ [x])).
  rewrite !cat_cons, IH, append_assoc. reflexivity.
Qed.

(** A line of a text made of lines, after a text that ends a line. *)
Lemma line_in_text (g p : string) (ls : list string) :
  (g +:+ ";" +:+ nl) ∈ ls ->
  (forall l, l ∈ ls -> exists x, l = x +:+ nl) ->
  contains (nl +:+ g +:+ ";") ((p +:+ nl) +:+ cat ls) = true.
Proof.
  revert p. induction ls as [|l ls IH]; intros p Hin Hnl; [inversion Hin|].
  rewrite cat_cons. apply elem_of_cons in Hin as [<-|Hin].
  - replace ((p +:+ nl) +:+ (g +:+ ";" +:+ nl) +:+ cat ls)
      with (p +:+ (nl +:+ g +:+ ";") +:+ (nl +:+ cat ls))
      by (rewrite !append_assoc; reflexivity).
    apply contains_here.
  - destruct (Hnl l) as [x ->]; [apply elem_of_cons; left; reflexivity|].
    replace ((p +:+ nl) +:+ (x +:+ nl) +:+ cat ls)
      with (((p +:+ nl +:+ x) +:+ nl) +:+ cat ls)
      by (rewrite !append_assoc; reflexivity).
    apply IH; [exact Hin|].
    intros l' Hl'. apply Hnl. apply elem_of_cons. right. exact Hl'.
Qed.

Lemma cat_ends_line (ls : list string) :
  ls <> [] -> (forall l, l ∈ ls -> exists x, l = x +:+ nl) -> exists p, cat ls = p +:+ nl.
Proof.
  induction ls as [|l ls IH]; [congruence|]. intros _ Hnl.
  rewrite cat_cons. destruct ls as [|l' ls].
  - destruct (Hnl l) as [x ->]; [apply elem_of_cons; left; reflexivity|].
    exists x. apply append_empty_r.
  - destruct IH as [p Hp]; [discriminate| |].
    + intros k Hk. apply Hnl. apply elem_of_cons. right. exact Hk.
    + exists (l +:+ p). rewrite Hp, append_assoc. reflexivity.
Qed.

Lemma selection_line_ends (mol : Z) (lipidtype : string) (d : string * string) :
  exists x, selection_line mol lipidtype d = x +:+ nl.
Proof.
  destruct d as [prefname atomnames]. unfold selection_line.
  destruct (String.eqb prefname EmptyString).
  - exists (cat ["resid_"; str mol; "=resid "; str mol; " and resname "; lipidtype;
                 " and name "; atomnames; ";"]).
    rewrite <- cat_snoc. reflexivity.
  - exists (cat ["resid_"; prefname; "_"; str mol; "=resid "; str mol; " and resname ";
                 lipidtype; " and name "; atomnames; ";"]).
    rewrite <- cat_snoc. reflexivity.
Qed.

(** The prefixes of the groups of the four modes are those of the twelve
    groups of the index file. *)
Lemma part_of_modes (parts : list string) (part_ : string) :
  parts ∈ molparts_of_modes -> part_ ∈ parts ->
  part_ ∈ ["resid_"; "resid_h_"; "resid_t_"; "resid_t12_"; "resid_t22_"; "resid_C0_";
           "resid_C1_"; "resid_C2_"; "resid_C3_"; "resid_C4_"; "resid_C5_"; "resid_C6_"].
Proof.
  intros Hm Hp. unfold molparts_of_modes in Hm.
  repeat (apply elem_of_cons in Hm as [->|Hm]); [| | | |inversion Hm];
    repeat (apply elem_of_cons in Hp as [->|Hp]); try (inversion Hp; fail);
    apply (bool_decide_unpack _); vm_compute; reflexivity.
Qed.

(** The shape of [selprefixes]. *)
Lemma selprefixes_shape (lipidtype : string) (sp : list (string * string)) :
  selprefixes_of lm atoms lipidtype = Ok sp ->
  map fst sp = [EmptyString; "h"; "t"; "t12"; "t22"; "C0"; "C1"; "C2"; "C3"; "C4"; "C5"; "C6"].
Proof.
  unfold selprefixes_of.
  destruct (get_atoms_tail atoms lipidtype) as [[ta ha]|]; [|discriminate].
  rewrite bind_Ok.
  destruct (get_atoms_tailhalfs atoms lipidtype) as [[t12 t22]|]; [|discriminate].
  rewrite bind_Ok.
  destruct (get_atoms_tailcarbons lm atoms lipidtype) as [ms|]; [|discriminate].
  rewrite bind_Ok.
  repeat match goal with
         | |- context [index ms ?i] => destruct (index ms i); [rewrite bind_Ok | discriminate]
         end.
  intros [= <-]. reflexivity.
Qed.

Lemma lastlineitems_groups (mol : Z) (sp : list (string * string)) (part_ : string) :
  map fst sp = [EmptyString; "h"; "t"; "t12"; "t22"; "C0"; "C1"; "C2"; "C3"; "C4"; "C5"; "C6"] ->
  part_ ∈ ["resid_"; "resid_h_"; "resid_t_"; "resid_t12_"; "resid_t22_"; "resid_C0_";
           "resid_C1_"; "resid_C2_"; "resid_C3_"; "resid_C4_"; "resid_C5_"; "resid_C6_"] ->
  ((part_ +:+ str mol) +:+ ";" +:+ nl) ∈ lastlineitems mol sp.
Proof.
  intros Hsp Hp.
  destruct sp as [|[p0 a0] [|[p1 a1] [|[p2 a2] [|[p3 a3] [|[p4 a4] [|[p5 a5] [|[p6 a6]
    [|[p7 a7] [|[p8 a8] [|[p9 a9] [|[p10 a10] [|[p11 a11] [|? ?]]]]]]]]]]]]];
    try discriminate Hsp.
  cbn [map fst] in Hsp.
  injection Hsp as -> -> -> -> -> -> -> -> -> -> -> ->.
  unfold lastlineitems. cbn [List.filter fst negb String.eqb Ascii.eqb Bool.eqb map].
  repeat (apply elem_of_cons in Hp as [->|Hp]); [..|inversion Hp];
    apply list_elem_of_In; cbn [In]; rewrite !cat_cons; change (cat []) with EmptyString;
    rewrite ?append_assoc, ?append_empty_r; cbn [append]; tauto.
Qed.

Lemma starts_with_nl (d r : string) :
  starts_with d r = true -> starts_with (nl +:+ d) (nl +:+ r) = true.
Proof. intros H. exact H. Qed.

Lemma contains_start (sub s : string) : starts_with sub s = true -> contains sub s = true.
Proof. intros H. destruct s; simpl; rewrite H; reflexivity. Qed.

(** A line of a text made of lines starts the text or follows a line
    break. *)
Lemma line_start_in_text (d : string) (ls : list string) (tail : string) :
  (exists rest, (d +:+ rest) ∈ ls) ->
  (forall l, l ∈ ls -> exists x, l = x +:+ nl) ->
  starts_with d (cat ls +:+ tail) || contains (nl +:+ d) (cat ls +:+ tail) = true.
Proof.
  induction ls as [|l ls IH]; intros [rest Hin] Hnl; [inversion Hin|].
  rewrite cat_cons. apply elem_of_cons in Hin as [<-|Hin].
  - rewrite !append_assoc, starts_with_append. reflexivity.
  - destruct (Hnl l) as [x ->]; [apply elem_of_cons; left; reflexivity|].
    apply orb_true_iff. right.
    replace (((x +:+ nl) +:+ cat ls) +:+ tail) with (x +:+ (nl +:+ (cat ls +:+ tail)))
      by (rewrite !append_assoc; reflexivity).
    apply contains_append.
    destruct (proj1 (orb_true_iff _ _) (IH (ex_intro _ rest Hin)
                (fun k Hk => Hnl k ltac:(apply elem_of_cons; right; exact Hk)))) as [H|H].
    + apply contains_start, starts_with_nl, H.
    + change (contains (nl +:+ d) (String "010" (cat ls +:+ tail)) = true).
      cbn [contains]. rewrite H. apply orb_true_r.
Qed.

(** The twelve selections of a lipid define the twelve groups. *)
Lemma selection_lines_define (mol : Z) (lipidtype : string) (sp : list (string * string))
    (part_ : string) :
  map fst sp = [EmptyString; "h"; "t"; "t12"; "t22"; "C0"; "C1"; "C2"; "C3"; "C4"; "C5"; "C6"] ->
  part_ ∈ ["resid_"; "resid_h_"; "resid_t_"; "resid_t12_"; "resid_t22_"; "resid_C0_";
           "resid_C1_"; "resid_C2_"; "resid_C3_"; "resid_C4_"; "resid_C5_"; "resid_C6_"] ->
  exists rest,
    (cat [part_ +:+ str mol; "=resid "; str mol; " and resname "; lipidtype] +:+ rest)
    ∈ map (selection_line mol lipidtype) sp.
Proof.
  intros Hsp Hp.
  destruct sp as [|[p0 a0] [|[p1 a1] [|[p2 a2] [|[p3 a3] [|[p4 a4] [|[p5 a5] [|[p6 a6]
    [|[p7 a7] [|[p8 a8] [|[p9 a9] [|[p10 a10] [|[p11 a11] [|? ?]]]]]]]]]]]]];
    try discriminate Hsp.
  cbn [map fst] in Hsp.
  injection Hsp as -> -> -> -> -> -> -> -> -> -> -> ->.
  cbn [map]. unfold selection_line. cbn [String.eqb Ascii.eqb Bool.eqb].
  assert (Hline : forall (pre : string) (atomnames : string),
             cat [pre +:+ str mol; "=resid "; str mol; " and resname "; lipidtype]
             +:+ cat [" and name "; atomnames; ";"; nl]
             = pre +:+ cat [str mol; "=resid "; str mol; " and resname "; lipidtype;
                            " and name "; atomnames; ";"; nl]).
  { intros pre atomnames. rewrite !cat_cons. change (cat []) with EmptyString.
    rewrite !append_assoc, !append_empty_r. reflexivity. }
  repeat (apply elem_of_cons in Hp as [->|Hp]); [..|inversion Hp];
    eexists; apply list_elem_of_In; cbn [In]; rewrite Hline;
    repeat (first [left; reflexivity | right]).
Qed.

(** X4: every energy group that [gather_energygroups] names for a residue
    of a configured species is a group of the index selection of that
    residue.  For an energy run in one of the four modes over the same
    registry, the selection file that [create_selectionfile_indexcreation]
    has written defines every name of [groups_of_index] (it has a line
    [<group>=resid <id> and resname <species> ...]) and asks for it (it has
    the line [<group>;]): [resid_<id>] for a sterol or protein, [<part><id>]
    for every part of the mode otherwise.  For a species that is not
    configured the file is left empty. *)
Theorem energy_groups_in_selection (e : energy.Energy) (selectionfilename : string) (mol : Z)
    (lipidtype : string) (w w' : world) (gs : list string) :
  energy.sys e = self ->
  energy.molparts e ∈ molparts_of_modes ->
  resid_to_lipid self !! mol = Some lipidtype ->
  energy.groups_of_index lm e mol = Ok gs ->
  create_selectionfile_indexcreation lm atoms self selectionfilename mol w = (Ok tt, w') ->
  exists text,
    files w' !! path_key selectionfilename = Some text
    /\ if bool_decide (lipidtype ∈ molecules self)
       then forall g, g ∈ gs ->
              defines text g mol lipidtype = true /\ asks_for text g = true
       else text = EmptyString.
Proof.
  intros Hsys Hmode Hl Hg Hc.
  unfold energy.groups_of_index, getitem in Hg. rewrite Hsys, Hl, bind_Ok in Hg.
  unfold create_selectionfile_indexcreation, mbind, io_bind, write_file, lift, getitem in Hc.
  cbn [files calls] in Hc. rewrite Hl in Hc.
  destruct (bool_decide (lipidtype ∈ molecules self)); cbn [negb] in Hc;
    [|injection Hc as <-; eexists; split;
      [cbn [files]; apply lookup_insert_eq | reflexivity]].
  unfold energy.sterol_or_protein in Hg. unfold defines, asks_for.
  destruct (bool_decide (lipidtype ∈ lipidmolecules.STEROLS lm ++ lipidmolecules.PROTEINS lm)).
  - cbn [negb] in Hc. injection Hc as <-. injection Hg as <-.
    eexists. split; [cbn [files]; apply lookup_insert_eq|].
    intros g Hin. apply list_elem_of_singleton in Hin as ->. split.
    + apply orb_true_iff. left.
      replace (cat ["resid_"; str mol; "=resid "; str mol; " and resname "; lipidtype; ";"; nl;
                    "resid_"; str mol; ";"])
        with (cat ["resid_" +:+ str mol; "=resid "; str mol; " and resname "; lipidtype]
              +:+ cat [";"; nl; "resid_"; str mol; ";"])
        by (rewrite !cat_cons; change (cat []) with EmptyString;
            rewrite !append_assoc, !append_empty_r; reflexivity).
      apply starts_with_append.
    + rewrite !cat_cons. change (cat []) with EmptyString.
      replace ("resid_" +:+ str mol +:+ "=resid " +:+ str mol +:+ " and resname " +:+ lipidtype
               +:+ ";" +:+ nl +:+ "resid_" +:+ str mol +:+ ";" +:+ EmptyString)
        with (("resid_" +:+ str mol +:+ "=resid " +:+ str mol +:+ " and resname " +:+ lipidtype
               +:+ ";") +:+ (nl +:+ ("resid_" +:+ str mol) +:+ ";") +:+ EmptyString)
        by (rewrite !append_assoc; reflexivity).
      apply contains_here.
  - cbn [negb] in Hc.
    destruct (selprefixes_of lm atoms lipidtype) as [sp|] eqn:Hsp; [|discriminate Hc].
    injection Hc as <-. injection Hg as <-.
    eexists. split; [cbn [files]; apply lookup_insert_eq|].
    intros g Hin. apply list_elem_of_fmap in Hin as (part_ & -> & Hin).
    pose proof (selprefixes_shape lipidtype sp Hsp) as Hshape.
    pose proof (part_of_modes _ _ Hmode Hin) as Hpart.
    assert (Hends : forall l, l ∈ map (selection_line mol lipidtype) sp ->
                              exists x, l = x +:+ nl).
    { intros l Hl'. apply list_elem_of_fmap in Hl' as (d & -> & _). apply selection_line_ends. }
    split.
    + unfold define_selection_for_resids. apply line_start_in_text; [|exact Hends].
      exact (selection_lines_define mol lipidtype sp part_ Hshape Hpart).
    + destruct (cat_ends_line (map (selection_line mol lipidtype) sp)) as [p Hp];
        [destruct sp; [discriminate Hshape | discriminate] | exact Hends |].
      unfold define_selection_for_resids. rewrite Hp.
      apply line_in_text.
      * apply lastlineitems_groups; [exact Hshape | exact Hpart].
      * intros l Hl'. unfold lastlineitems in Hl'.
        apply elem_of_cons in Hl' as [->|Hl'].
        -- exists (cat ["resid_"; str mol; ";"]). rewrite <- cat_snoc. reflexivity.
        -- apply list_elem_of_fmap in Hl' as (d & -> & _).
           exists (cat ["resid_"; fst d; "_"; str mol; ";"]). rewrite <- cat_snoc. reflexivity.
Qed.

End GroupsDefined.

Lemma energy_groups_in_selection_witness :
  exists text,
    files (index_scenario.selection_written 5) !! path_key "temp/tmp_selectionfile" = Some text
    /\ if bool_decide ("DPPC" ∈ molecules index_scenario.registry)
       then forall g, g ∈ ["resid_h_5"; "resid_t_5"] ->
              defines text g 5 "DPPC" = true /\ asks_for text g = true
       else text = EmptyString.
Proof.
  apply (energy_groups_in_selection (index_scenario.lipid_tables 13) (index_scenario.atoms 13)
           index_scenario.registry index_scenario.headtail "temp/tmp_selectionfile" 5 "DPPC"
           (World ∅ []) (index_scenario.selection_written 5) ["resid_h_5"; "resid_t_5"]).
  - reflexivity.
  - apply (bool_decide_unpack _). reflexivity.
  - reflexivity.
  - reflexivity.
  - vm_compute. reflexivity.
Defined.

(** A residue of a species that is not configured: the energy groups are
    named all the same, and the selection file that should define them is
    empty. *)
Example unconfigured_species_no_groups :
  let registry :=
    systeminfo.Build "dppc_chol" [5] (list_to_map [(5, "POPE")]) ∅ ["DPPC"; "CHL1"]
      ["DPPC"; "CHL1"] 0 (1000 # 1) (100 # 1) (1 # 1) (300 # 1) (fun _ => "1.0") "data"
      "index" "temp" "energy/" "topol.top" "conf.gro" "topol.tpr" "traj.xtc" in
  let run := energy.Build registry ∅ "resindex_all" false [] "head-tail"
               ["resid_h_"; "resid_t_"] 20 ["h_"; "t_"] "all_energies_headtail.dat" in
  energy.groups_of_index (index_scenario.lipid_tables 13) run 5 = Ok ["resid_h_5"; "resid_t_5"]
  /\ files (snd (neighbors.create_selectionfile_indexcreation (index_scenario.lipid_tables 13)
                   (index_scenario.atoms 13) registry "temp/tmp_selectionfile" 5 (World ∅ [])))
     !! "temp/tmp_selectionfile" = Some EmptyString.
Proof. split; vm_compute; reflexivity. Qed.

(** ** The runs that make the index file *)
Section IndexRuns.
Import neighbors.
Variable lm : lipidmolecules.t.
Variable atoms : atom_tables.
Variable gmx : engine.
Variable self : SysInfo.

Lemma calls_create_selectionfile_indexcreation (f : string) (mol : Z) (w : world) :
  calls (snd (create_selectionfile_indexcreation lm atoms self f mol w)) = calls w.
Proof.
  unfold create_selectionfile_indexcreation, mbind, io_bind, write_file, lift, mret, io_ret.
  cbn [files calls].
  destruct (getitem (resid_to_lipid self) mol) as [lipidtype|]; [|reflexivity].
  destruct (negb (bool_decide (lipidtype ∈ molecules self))); [reflexivity|].
  destruct (negb (bool_decide (lipidtype ∈ lipidmolecules.STEROLS lm
                                            ++ lipidmolecules.PROTEINS lm))); [|reflexivity].
  destruct (selprefixes_of lm atoms lipidtype); reflexivity.
Qed.

Lemma create_indexfile_eq (w : world) :
  create_indexfile lm atoms gmx self w
  = match io_for_each (index_turn lm atoms gmx self) (MOLRANGE self)
            (World (<[path_key "resindex_all.ndx" := EmptyString]> (files w)) (calls w)) with
    | (Ok _, w1) => system_group gmx self w1
    | (Raise e, w1) => (Raise e, w1)
    end.
Proof. reflexivity. Qed.

Lemma calls_index_turn (mol : Z) (w w' : world) :
  index_turn lm atoms gmx self mol w = (Ok tt, w') ->
  calls w' = calls w ++ [(gmx_select_arglist self mol, None)].
Proof.
  unfold index_turn, mbind, io_bind.
  pose proof (calls_create_selectionfile_indexcreation
                (temppath self +:+ "/tmp_selectionfile") mol w) as Hc.
  destruct (create_selectionfile_indexcreation lm atoms self _ mol w) as [[[]|e] w1];
    [|discriminate].
  cbn [snd] in Hc. unfold exec_gromacs.
  destruct (gmx (gmx_select_arglist self mol) None (files w1)) as [[out err] fs].
  unfold write_file, read_text, append_file. cbn [files calls].
  match goal with
  | |- context [match ?x with Some text => Ok text | None => _ end] => destruct x
  end; [|discriminate].
  intros [= <-]. cbn [calls]. rewrite Hc. reflexivity.
Qed.

Lemma calls_index_loop (l : list Z) (w w' : world) :
  io_for_each (index_turn lm atoms gmx self) l w = (Ok tt, w') ->
  calls w' = calls w ++ map (fun mol => (gmx_select_arglist self mol, None)) l.
Proof.
  revert w. induction l as [|mol l IH]; intros w.
  - intros [= <-]. rewrite app_nil_r. reflexivity.
  - cbn [io_for_each]. unfold mbind, io_bind.
    destruct (index_turn lm atoms gmx self mol w) as [[[]|e] w1] eqn:Ht; [|discriminate].
    intros H. rewrite (IH _ H), (calls_index_turn _ _ _ Ht), <- app_assoc. reflexivity.
Qed.

(** X5: a [create_indexfile] that returns has run the engine once for
    every residue of [MOLRANGE], in order, as [select] on the residue's own
    selection with the residue's own index file as output, and then once as
    [make_ndx] with [keep 0] and [q] on its standard input; it has made no
    other run. *)
Theorem create_indexfile_runs (w w' : world) :
  create_indexfile lm atoms gmx self w = (Ok tt, w') ->
  calls w' = calls w
             ++ map (fun mol => (gmx_select_arglist self mol, None)) (MOLRANGE self)
             ++ [(gmx_make_ndx_arglist self, Some ("keep 0" +:+ nl +:+ "q" +:+ nl))].
Proof.
  rewrite create_indexfile_eq.
  destruct (io_for_each (index_turn lm atoms gmx self) (MOLRANGE self) _)
    as [[[]|e] w1] eqn:Hloop; [|discriminate].
  apply calls_index_loop in Hloop. cbn [calls] in Hloop.
  unfold system_group, mbind, io_bind, exec_gromacs.
  destruct (gmx (gmx_make_ndx_arglist self) _ (files w1)) as [[out err] fs].
  unfold write_file, read_text, append_file. cbn [files calls].
  match goal with
  | |- context [match ?x with Some text => Ok text | None => _ end] => destruct x
  end; [|discriminate].
  intros [= <-]. cbn [calls]. rewrite Hloop, <- app_assoc. reflexivity.
Qed.

Lemma io_for_each_raises {A} (body : A -> io unit) (l : list A) (x : A) :
  x ∈ l -> (forall w, exists e, fst (body x w) = Raise e) ->
  forall w, exists e, fst (io_for_each body l w) = Raise e.
Proof.
  intros Hin Hx. induction l as [|y l IH]; [inversion Hin|]. intros w.
  cbn [io_for_each]. unfold mbind, io_bind.
  apply elem_of_cons in Hin as [<-|Hin].
  - destruct (Hx w) as [e He]. destruct (body x w) as [[[]|e'] w1]; [discriminate He|].
    exists e'. reflexivity.
  - destruct (body y w) as [[[]|e'] w1]; [apply (IH Hin) | exists e'; reflexivity].
Qed.

Lemma runs_of_index_turn (mol : Z) (w : world) :
  runs_of "make_ndx" (snd (index_turn lm atoms gmx self mol w)) = runs_of "make_ndx" w.
Proof.
  unfold index_turn, mbind, io_bind.
  pose proof (calls_create_selectionfile_indexcreation
                (temppath self +:+ "/tmp_selectionfile") mol w) as Hc.
  destruct (create_selectionfile_indexcreation lm atoms self _ mol w) as [[[]|e] w1];
    cbn [snd] in *; [|unfold runs_of; rewrite Hc; reflexivity].
  pose proof (runs_of_exec_other gmx "make_ndx" "select"
                (drop 2 (gmx_select_arglist self mol)) None w1 eq_refl) as Hr.
  change (GMXNAME :: "select" :: drop 2 (gmx_select_arglist self mol))
    with (gmx_select_arglist self mol) in Hr.
  destruct (exec_gromacs gmx (gmx_select_arglist self mol) None w1) as [[[out err]|e] w2];
    cbn [snd] in *.
  - unfold write_file, read_text, append_file. cbn [files calls].
    match goal with
    | |- context [match ?x with Some text => Ok text | None => _ end] => destruct x
    end; cbn [snd]; unfold runs_of in *; cbn [calls]; rewrite Hr, Hc; reflexivity.
  - unfold runs_of in *. rewrite Hr, Hc. reflexivity.
Qed.

Lemma runs_of_index_loop (l : list Z) (w : world) :
  runs_of "make_ndx" (snd (io_for_each (index_turn lm atoms gmx self) l w))
  = runs_of "make_ndx" w.
Proof.
  revert w. induction l as [|mol l IH]; intros w; [reflexivity|].
  cbn [io_for_each]. unfold mbind, io_bind.
  pose proof (runs_of_index_turn mol w) as Ht.
  destruct (index_turn lm atoms gmx self mol w) as [[[]|e] w1]; cbn [snd] in *.
  - rewrite IH. exact Ht.
  - exact Ht.
Qed.

(** X6: [create_indexfile] needs a species for every residue of
    [MOLRANGE].  If one of them is missing from [resid_to_lipid] (a case
    that [determine_neighbors] passes over), the run ends in an exception
    and [make_ndx] is never run: the group of the whole system is not
    made. *)
Theorem create_indexfile_needs_species (mol : Z) (w : world) :
  mol ∈ MOLRANGE self ->
  resid_to_lipid self !! mol = None ->
  (exists e, fst (create_indexfile lm atoms gmx self w) = Raise e)
  /\ runs_of "make_ndx" (snd (create_indexfile lm atoms gmx self w)) = runs_of "make_ndx" w.
Proof.
  intros Hin Hnone.
  assert (Hturn : forall w0, exists e, fst (index_turn lm atoms gmx self mol w0) = Raise e).
  { intros w0. exists KeyError.
    unfold index_turn, create_selectionfile_indexcreation, mbind, io_bind, write_file, lift,
      getitem.
    cbn [files calls]. rewrite Hnone. reflexivity. }
  rewrite create_indexfile_eq.
  set (w0 := World _ (calls w)).
  destruct (io_for_each_raises (index_turn lm atoms gmx self) (MOLRANGE self) mol Hin Hturn w0)
    as [e He].
  pose proof (runs_of_index_loop (MOLRANGE self) w0) as Hr.
  destruct (io_for_each (index_turn lm atoms gmx self) (MOLRANGE self) w0) as [[[]|e'] w1];
    [discriminate He|].
  cbn [fst snd] in *. split; [exists e'; reflexivity | exact Hr].
Qed.

End IndexRuns.

Lemma create_indexfile_runs_witness :
  calls (snd (neighbors.create_indexfile (index_scenario.lipid_tables 13)
                (index_scenario.atoms 13) index_scenario.index_engine index_scenario.registry
                (World ∅ [])))
  = calls (World ∅ [])
    ++ map (fun mol => (neighbors.gmx_select_arglist index_scenario.registry mol, None))
           (MOLRANGE index_scenario.registry)
    ++ [(neighbors.gmx_make_ndx_arglist index_scenario.registry,
         Some ("keep 0" +:+ nl +:+ "q" +:+ nl))].
Proof.
  apply (create_indexfile_runs (index_scenario.lipid_tables 13) (index_scenario.atoms 13)
           index_scenario.index_engine index_scenario.registry (World ∅ [])).
  vm_compute. reflexivity.
Defined.

Lemma create_indexfile_needs_species_witness :
  (exists e, fst (neighbors.create_indexfile scenario.lipid_tables (index_scenario.atoms 13)
                    scenario.silent_engine (scenario.registry "dppc_chol" []) (World ∅ []))
             = Raise e)
  /\ runs_of "make_ndx"
       (snd (neighbors.create_indexfile scenario.lipid_tables (index_scenario.atoms 13)
               scenario.silent_engine (scenario.registry "dppc_chol" []) (World ∅ [])))
     = runs_of "make_ndx" (World ∅ []).
Proof.
  apply (create_indexfile_needs_species scenario.lipid_tables (index_scenario.atoms 13)
           scenario.silent_engine (scenario.registry "dppc_chol" []) 5 (World ∅ [])).
  - apply (bool_decide_unpack _). reflexivity.
  - reflexivity.
Defined.

(** ** Energy runs: fragments, files and engine runs *)
Section EnergyRuns.
Import energy.
Variable lm : lipidmolecules.t.
Variable gmx : engine.

Lemma slices_concat {A} (d : nat) (l : list A) (n : nat) :
  (length l <= n * d)%nat ->
  concat (map (fun k => drop (k * d) (take ((k + 1) * d) l)) (seq 0 n)) = l.
Proof.
  revert l. induction n as [|n IH]; intros l Hl.
  - destruct l; [reflexivity | simpl in Hl; lia].
  - rewrite seq_S, map_app, concat_app. cbn [map concat plus]. rewrite app_nil_r.
    rewrite (take_ge l ((n + 1) * d)) by lia.
    transitivity (take (n * d) l ++ drop (n * d) l); [|apply take_drop]. f_equal.
    etransitivity; [|apply (IH (take (n * d) l)); rewrite length_take; lia].
    f_equal. apply map_ext_in. intros k Hk. apply in_seq in Hk.
    rewrite take_take. f_equal. f_equal. nia.
Qed.

(** X7: the fragments of a residue cut its neighbors into consecutive
    blocks.  With a positive denominator D, the blocks that
    [gather_energygroups] and [get_relev_energies] take from the all-time
    neighbor list, one per fragment of [run_calculation], put together in
    the order of the fragments give the list back: every neighbor is in
    exactly one energy run; no block is empty and none holds more than D
    neighbors. *)
Theorem fragments_partition_neighbors (self : Energy) (res : Z) (neibs : list Z) :
  0 < denominator self ->
  all_neibs_of self res = Ok neibs ->
  exists frags,
    fragments_of self res = Ok frags
    /\ concat (map (fun k => slice neibs (k * denominator self) ((k + 1) * denominator self))
                   frags) = neibs
    /\ forall k, k ∈ frags ->
         current_block (with_groupblocks self [k * denominator self;
                                               (k + 1) * denominator self]) neibs
         = Ok (slice neibs (k * denominator self) ((k + 1) * denominator self))
         /\ (0 < length (slice neibs (k * denominator self) ((k + 1) * denominator self))
             <= Z.to_nat (denominator self))%nat.
Proof.
  intros Hd Hn. eexists. split; [exact (fragments_of_ceil self res neibs Hd Hn)|].
  pose proof (ceil_div_spec (Z.of_nat (length neibs)) (denominator self) Hd) as Hc.
  set (c := ceil_div (Z.of_nat (length neibs)) (denominator self)) in *.
  assert (Hc0 : 0 <= c).
  { destruct (Z.le_gt_cases 0 c) as [H|H]; [exact H | nia]. }
  split.
  - unfold range. rewrite map_map.
    etransitivity;
      [|apply (slices_concat (Z.to_nat (denominator self)) neibs (Z.to_nat c)); nia].
    f_equal. apply map_ext_in. intros k Hk. apply in_seq in Hk. unfold slice.
    f_equal; [|f_equal]; nia.
  - intros k Hk. apply elem_of_range in Hk. split; [reflexivity|].
    unfold slice. rewrite length_drop, length_take. nia.
Qed.

Lemma fragments_partition_neighbors_witness :
  exists frags,
    fragments_of (scenario.complete [7; 8]) 5 = Ok frags
    /\ concat (map (fun k => slice [7; 8] (k * denominator (scenario.complete [7; 8]))
                               ((k + 1) * denominator (scenario.complete [7; 8]))) frags)
       = [7; 8]
    /\ forall k, k ∈ frags ->
         current_block (with_groupblocks (scenario.complete [7; 8])
                          [k * denominator (scenario.complete [7; 8]);
                           (k + 1) * denominator (scenario.complete [7; 8])]) [7; 8]
         = Ok (slice [7; 8] (k * denominator (scenario.complete [7; 8]))
                 ((k + 1) * denominator (scenario.complete [7; 8])))
         /\ (0 < length (slice [7%Z; 8%Z] (k * denominator (scenario.complete [7%Z; 8%Z]))%Z
                           ((k + 1) * denominator (scenario.complete [7%Z; 8%Z]))%Z)
             <= Z.to_nat (denominator (scenario.complete [7%Z; 8%Z])))%nat.
Proof.
  apply (fragments_partition_neighbors (scenario.complete [7; 8]) 5 [7; 8]).
  - reflexivity.
  - reflexivity.
Defined.

Lemma write_XVG_runs (self : Energy) (a b c d : string) (w : world) :
  exists fs,
    write_XVG gmx self a b c d w
    = (Ok tt, World fs (calls w ++ [([GMXNAME; "energy"; "-f"; a; "-s"; b; "-o"; d], Some c)])).
Proof.
  unfold write_XVG, mbind, io_bind, exec_gromacs, append_file.
  destruct (gmx _ (Some c) (files w)) as [[out err] fs]. cbn [files calls].
  eexists. reflexivity.
Qed.

(** X8: [selfinteractions_edr_to_xvg] never raises, and runs the engine
    exactly once for every residue of [MOLRANGE], in order, as [energy] on
    the trace and the run input of fragment 0 of that residue (the names
    [run_calculation] gives them), with the self-interaction entries of the
    residue on standard input and the residue's self-interaction table as
    output, whether or not the residue has a fragment 0. *)
Theorem selfinteractions_edr_to_xvg_runs (self : Energy) (w : world) :
  fst (selfinteractions_edr_to_xvg gmx self w) = Ok tt
  /\ calls (snd (selfinteractions_edr_to_xvg gmx self w))
     = calls w
       ++ map (fun res =>
                 ([GMXNAME; "energy"; "-f"; energyf_output_of self res 0;
                   "-s"; tprout_of self res 0; "-o"; self_xvg_out_of self res],
                  Some (get_relev_self_interaction self res)))
              (MOLRANGE (sys self)).
Proof.
  unfold selfinteractions_edr_to_xvg. generalize (MOLRANGE (sys self)) as l.
  intros l. revert w. induction l as [|res l IH]; intros w.
  - split; [reflexivity|]. cbn [map]. rewrite app_nil_r. reflexivity.
  - cbn [io_for_each map]. unfold mbind, io_bind.
    match goal with
    | |- context [write_XVG gmx self ?a ?b ?c ?d w] =>
        destruct (write_XVG_runs self a b c d w) as [fs ->]
    end.
    match goal with
    | |- context [io_for_each ?b l ?w1] => destruct (IH w1) as [H1 H2]
    end.
    split; [exact H1|]. rewrite H2. cbn [calls]. rewrite <- app_assoc. reflexivity.
Qed.

(** X9: when [energypath] ends with a slash, the table that the
    extraction step asks the engine to write ([xvg_out], built without a
    slash before [xvgtables]) is the file whose presence it tests
    ([g_energy_output]) and the file that [write_energyfile] and
    [check_exist_xvgs] open afterwards (both built with that slash). *)
Theorem table_written_is_table_read (self : Energy) (res groupfragment : Z) (dir : string) :
  energypath (sys self) = dir +:+ "/" ->
  path_key (xvg_out_of self res groupfragment) = path_key (g_energy_output_of self res groupfragment)
  /\ g_energy_output_of self res groupfragment = xvgfilename_of self res groupfragment.
Proof.
  intros He. split; [|reflexivity].
  unfold xvg_out_of, g_energy_output_of. rewrite He, !cat_cons.
  change (cat []) with EmptyString.
  rewrite !append_assoc. symmetry.
  change ("/xvgtables/energies_residue" +:+ ?x)
    with ("/" +:+ "xvgtables/energies_residue" +:+ x).
  apply path_key_double_slash.
Qed.

End EnergyRuns.

Lemma table_written_is_table_read_witness :
  path_key (energy.xvg_out_of (scenario.complete [7]) 5 0)
  = path_key (energy.g_energy_output_of (scenario.complete [7]) 5 0)
  /\ energy.g_energy_output_of (scenario.complete [7]) 5 0
     = energy.xvgfilename_of (scenario.complete [7]) 5 0.
Proof.
  apply (table_written_is_table_read (scenario.complete [7]) 5 0 "energy"). reflexivity.
Defined.

(** Without the slash the two names are two files: a table written is not
    found again. *)
Example table_names_without_slash :
  let self := energy.Build (systeminfo.Build "s" [5] ∅ ∅ [] [] 0 0 0 0 0 (fun _ => "")
                              "d" "i" "t" "energy" "p" "g" "r" "x")
                ∅ "resindex_all" false [] EmptyString ["resid_"] 40 [EmptyString] "a" in
  path_key (energy.xvg_out_of self 5 0) = "energyxvgtables/energies_residue5_0.xvg"
  /\ path_key (energy.g_energy_output_of self 5 0) = "energy/xvgtables/energies_residue5_0.xvg".
Proof. split; reflexivity. Qed.

(** ** The preprocessor and the check of the tables *)
Section Preprocessor.
Import energy.
Variable lm : lipidmolecules.t.
Variable gmx : engine.

Lemma runs_of_rerun_step (self : Energy) (res k : Z) (w : world) :
  fst (rerun_step gmx self res k w) = Ok tt
  /\ runs_of "grompp" (snd (rerun_step gmx self res k w)) = runs_of "grompp" w.
Proof.
  unfold rerun_step.
  destruct (isfile (energyf_output_of self res k) w && negb (overwrite self));
    [split; reflexivity|].
  split; [|apply runs_of_do_Energyrun; reflexivity].
  unfold do_Energyrun, mbind, io_bind, exec_gromacs.
  destruct (gmx _ None (files w)) as [[out err] fs]. reflexivity.
Qed.

Lemma runs_of_extraction_step (self : Energy) (res k : Z) (relev : string) (w : world) :
  runs_of "grompp" (snd (extraction_step gmx self res k relev w)) = runs_of "grompp" w.
Proof.
  unfold extraction_step.
  destruct (isfile (g_energy_output_of self res k) w && negb (overwrite self));
    [reflexivity|].
  apply runs_of_write_XVG. reflexivity.
Qed.

(** X11: the preprocessor is never skipped.  With an [energypath] that
    ends with a slash (so that the parameter file can be opened in the
    directory [create_MDP] makes), whatever [overwrite] says and whatever
    files exist, a fragment whose energy groups and entries can be formed
    runs [grompp] exactly once, on the fragment's own parameter file (which
    is also named as the file for the processed parameters) and with the
    fragment's run input as output. *)
Theorem preprocessor_never_skipped (self : Energy) (res : Z) (all_neibs_of_res : list Z)
    (groupfragment : Z) (energygroups relev dir : string) (w : world) :
  energypath (sys self) = dir +:+ "/" ->
  slashless (part self) = true ->
  gather_energygroups lm
    (with_groupblocks self [groupfragment * denominator self;
                            (groupfragment + 1) * denominator self])
    res all_neibs_of_res = Ok energygroups ->
  get_relev_energies lm
    (with_groupblocks self [groupfragment * denominator self;
                            (groupfragment + 1) * denominator self])
    res all_neibs_of_res = Ok relev ->
  runs_of "grompp" (snd (run_fragment lm gmx self res all_neibs_of_res groupfragment w))
  = runs_of "grompp" w
    ++ [([GMXNAME; "grompp"; "-f"; mdpout_of self res groupfragment; "-p"; toppath (sys self);
          "-c"; gropath (sys self); "-o"; tprout_of self res groupfragment;
          "-n"; resindex_all self; "-po"; mdpout_of self res groupfragment], None)].
Proof.
  intros He Hp Hg Hr.
  rewrite (run_fragment_unfold lm gmx self res all_neibs_of_res groupfragment energygroups
             relev dir w He Hp Hg Hr).
  set (w0 := before_rerun gmx self res groupfragment energygroups w).
  assert (H0 : runs_of "grompp" w0
               = runs_of "grompp" w
                 ++ [([GMXNAME; "grompp"; "-f"; mdpout_of self res groupfragment; "-p";
                       toppath (sys self); "-c"; gropath (sys self); "-o";
                       tprout_of self res groupfragment; "-n"; resindex_all self; "-po";
                       mdpout_of self res groupfragment], None)]).
  { subst w0. unfold before_rerun.
    pose proof (runs_of_create_MDP "grompp" self (mdpout_of self res groupfragment)
                  energygroups w) as Hm.
    destruct (create_MDP self (mdpout_of self res groupfragment) energygroups w)
      as [r wm]. cbn [snd] in *.
    unfold create_TPR, mbind, io_bind, exec_gromacs, append_file. cbn [snd files calls].
    destruct (gmx _ None _) as [[out err] fs]. cbn [snd calls].
    unfold runs_of in *. cbn [calls]. rewrite List.filter_app, Hm. reflexivity. }
  unfold mbind, io_bind.
  destruct (runs_of_rerun_step self res groupfragment w0) as [H1 H2].
  destruct (rerun_step gmx self res groupfragment w0) as [[[]|e] w1]; [|discriminate H1].
  cbn [snd] in H2. rewrite runs_of_extraction_step, H2. exact H0.
Qed.

End Preprocessor.

Lemma preprocessor_never_skipped_witness :
  runs_of "grompp"
    (snd (energy.run_fragment scenario.lipid_tables scenario.writing_engine
            (scenario.complete [7]) 5 [7] 0 scenario.first_run))
  = runs_of "grompp" scenario.first_run
    ++ [([GMXNAME; "grompp"; "-f"; energy.mdpout_of (scenario.complete [7]) 5 0; "-p";
          toppath (energy.sys (scenario.complete [7])); "-c";
          gropath (energy.sys (scenario.complete [7])); "-o";
          energy.tprout_of (scenario.complete [7]) 5 0; "-n";
          energy.resindex_all (scenario.complete [7]); "-po";
          energy.mdpout_of (scenario.complete [7]) 5 0], None)].
Proof.
  apply (preprocessor_never_skipped scenario.lipid_tables scenario.writing_engine
           (scenario.complete [7]) 5 [7] 0 "resid_5 resid_7"
           (join os.nl ["Coul-SR:resid_5-resid_7"; "LJ-SR:resid_5-resid_7"; os.nl])
           "energy" scenario.first_run);
    reflexivity.
Defined.

Section TablesPresent.
Import energy.

Lemma last_char_append (a b : string) :
  b <> EmptyString -> last_char (a +:+ b) = last_char b.
Proof.
  intros Hb. induction a as [|c a IH]; [reflexivity|].
  rewrite append_String. cbn [last_char]. rewrite <- IH.
  destruct (a +:+ b) eqn:E; [|reflexivity].
  destruct a; [rewrite append_empty in E; congruence | discriminate E].
Qed.

Lemma path_key_String (c c' : ascii) (p : string) :
  path_key (String c (String c' p))
  = if Ascii.eqb c "/" && Ascii.eqb c' "/" then path_key (String c' p)
    else String c (path_key (String c' p)).
Proof. reflexivity. Qed.

Lemma path_key_nonempty (c : ascii) (p : string) : path_key (String c p) <> EmptyString.
Proof.
  revert c. induction p as [|c' p IH]; intros c; [discriminate|].
  rewrite path_key_String.
  destruct (Ascii.eqb c "/" && Ascii.eqb c' "/"); [apply IH | discriminate].
Qed.

Lemma last_char_path_key (p : string) : last_char (path_key p) = last_char p.
Proof.
  induction p as [|c p IH]; [reflexivity|].
  destruct p as [|c' p]; [reflexivity|].
  rewrite path_key_String.
  change (last_char (String c (String c' p))) with (last_char (String c' p)).
  destruct (Ascii.eqb c "/" && Ascii.eqb c' "/"); [exact IH|].
  rewrite <- IH. cbn [last_char].
  pose proof (path_key_nonempty c' p) as Hne.
  destruct (path_key (String c' p)); [congruence | reflexivity].
Qed.

Lemma xvg_is_not_the_report (self : Energy) (resid part_ : Z) :
  path_key (xvgfilename_of self resid part_) <> "missing_xvgfiles.info".
Proof.
  intros H. apply (f_equal last_char) in H. rewrite last_char_path_key in H.
  unfold xvgfilename_of in H.
  change [energypath (sys self); "/xvgtables/energies_residue"; str resid; "_"; str part_;
          part self; ".xvg"]
    with ([energypath (sys self); "/xvgtables/energies_residue"; str resid; "_"; str part_;
           part self] ++ [".xvg"]) in H.
  rewrite cat_snoc, last_char_append in H by discriminate. discriminate H.
Qed.

Lemma isfile_report_only (self : Energy) (resid part_ : Z) (w w1 : world) :
  report_only w w1 ->
  isfile (xvgfilename_of self resid part_) w1 = isfile (xvgfilename_of self resid part_) w.
Proof.
  intros [_ H]. unfold isfile. rewrite H by apply xvg_is_not_the_report. reflexivity.
Qed.

Lemma report_only_append (w w1 : world) (text : string) :
  report_only w w1 ->
  report_only w (snd (append_file "missing_xvgfiles.info" text w1)).
Proof.
  intros [Hc Hf]. split; [exact Hc|]. intros key Hk. cbn [snd append_file files].
  change (path_key "missing_xvgfiles.info") with "missing_xvgfiles.info".
  rewrite lookup_insert_ne by congruence. apply Hf, Hk.
Qed.

(** The loop over the fragments of one residue. *)
Lemma check_parts (self : Energy) (resid : Z) (w : world) (parts : list Z) :
  forall (acc : bool) (w1 : world) (b : bool) (w2 : world),
    report_only w w1 ->
    (acc = true -> files w1 !! "missing_xvgfiles.info" = Some ("#Files missing" +:+ nl)) ->
    io_foldl (fun all_okay part_ =>
                let xvgfilename := xvgfilename_of self resid part_ in
                present ← (fun w => (Ok (isfile xvgfilename w), w));
                if negb present
                then _ ← append_file "missing_xvgfiles.info" (xvgfilename +:+ nl); mret false
                else mret all_okay) parts acc w1 = (Ok b, w2) ->
    report_only w w2
    /\ (b = true -> files w2 !! "missing_xvgfiles.info" = Some ("#Files missing" +:+ nl))
    /\ (b = true <-> acc = true
                     /\ forall part_, part_ ∈ parts ->
                          isfile (xvgfilename_of self resid part_) w = true).
Proof.
  induction parts as [|p parts IH]; intros acc w1 b w2 Hro Hrep.
  - intros [= <- <-]. split; [exact Hro|]. split; [exact Hrep|].
    split; [intros ->; split; [reflexivity | intros ? H; inversion H] | tauto].
  - cbn [io_foldl]. unfold mbind, io_bind. cbv beta zeta.
    rewrite (isfile_report_only self resid p w w1 Hro).
    destruct (isfile (xvgfilename_of self resid p) w) eqn:Hp; cbn [negb].
    + unfold mret, io_ret. intros H.
      destruct (IH acc w1 b w2 Hro Hrep H) as (H1 & H2 & H3).
      split; [exact H1|]. split; [exact H2|]. rewrite H3. split.
      * intros [Ha Hall]. split; [exact Ha|]. intros q Hq.
        apply elem_of_cons in Hq as [->|Hq]; [exact Hp | apply Hall, Hq].
      * intros [Ha Hall]. split; [exact Ha|]. intros q Hq. apply Hall.
        apply elem_of_cons. right. exact Hq.
    + unfold mret, io_ret.
      destruct (append_file "missing_xvgfiles.info" (xvgfilename_of self resid p +:+ nl) w1)
        as [[[]|e] w1'] eqn:Ha; [|discriminate Ha].
      pose proof (report_only_append w w1 (xvgfilename_of self resid p +:+ nl) Hro) as Hro'.
      rewrite Ha in Hro'. cbn [snd] in Hro'. intros H.
      destruct (IH false w1' b w2 Hro' ltac:(discriminate) H) as (H1 & H2 & H3).
      split; [exact H1|]. split; [exact H2|]. split.
      * intros Hb. apply H3 in Hb as [Hf _]. discriminate Hf.
      * intros [_ Hall]. specialize (Hall p ltac:(apply elem_of_cons; left; reflexivity)).
        congruence.
Qed.

(** The loop over the residues. *)
Lemma check_residues (self : Energy) (w : world) (l : list Z) :
  forall (acc : bool) (w1 : world) (b : bool) (w2 : world),
    report_only w w1 ->
    (acc = true -> files w1 !! "missing_xvgfiles.info" = Some ("#Files missing" +:+ nl)) ->
    io_foldl (fun all_okay resid =>
                parts ← lift (fragments_of self resid);
                io_foldl (fun all_okay part_ =>
                  let xvgfilename := xvgfilename_of self resid part_ in
                  present ← (fun w => (Ok (isfile xvgfilename w), w));
                  if negb present
                  then _ ← append_file "missing_xvgfiles.info" (xvgfilename +:+ nl); mret false
                  else mret all_okay) parts all_okay) l acc w1 = (Ok b, w2) ->
    report_only w w2
    /\ (b = true -> files w2 !! "missing_xvgfiles.info" = Some ("#Files missing" +:+ nl))
    /\ (b = true <-> acc = true /\ forall resid, resid ∈ l -> tables_present self w resid).
Proof.
  induction l as [|resid l IH]; intros acc w1 b w2 Hro Hrep.
  - intros [= <- <-]. split; [exact Hro|]. split; [exact Hrep|].
    split; [intros ->; split; [reflexivity | intros ? H; inversion H] | tauto].
  - cbn [io_foldl]. unfold mbind at 1. unfold io_bind at 1.
    unfold mbind at 1. unfold io_bind at 1. unfold lift at 1.
    destruct (fragments_of self resid) as [parts|e] eqn:Hf; [|discriminate].
    match goal with
    | |- context [io_foldl ?f parts acc w1] => destruct (io_foldl f parts acc w1)
                                                as [[b1|e] w1'] eqn:Hin
    end; [|discriminate].
    destruct (check_parts self resid w parts acc w1 b1 w1' Hro Hrep Hin) as (H1 & H2 & H3).
    intros H. destruct (IH b1 w1' b w2 H1 H2 H) as (H4 & H5 & H6).
    split; [exact H4|]. split; [exact H5|]. rewrite H6, H3. split.
    + intros [[Ha Hp] Hall]. split; [exact Ha|]. intros r Hr.
      apply elem_of_cons in Hr as [->|Hr]; [|apply Hall, Hr].
      intros parts' Hf' q Hq. rewrite Hf in Hf'. injection Hf' as <-. apply Hp, Hq.
    + intros [Ha Hall]. split; [split; [exact Ha|]|].
      * intros q Hq. apply (Hall resid ltac:(apply elem_of_cons; left; reflexivity) parts Hf q Hq).
      * intros r Hr. apply Hall. apply elem_of_cons. right. exact Hr.
Qed.

(** X12: [check_exist_xvgs], when it returns, answers [True] exactly when
    the table of every fragment of every residue of [MOLRANGE] is a file,
    and then the report holds its header line only; it runs no engine and
    touches no file but the report [missing_xvgfiles.info]. *)
Theorem check_exist_xvgs_answer (self : Energy) (w w' : world) (b : bool) :
  check_exist_xvgs self w = (Ok b, w') ->
  (b = true <-> forall resid, resid ∈ MOLRANGE (sys self) -> tables_present self w resid)
  /\ (b = true -> files w' !! "missing_xvgfiles.info" = Some ("#Files missing" +:+ nl))
  /\ report_only w w'.
Proof.
  unfold check_exist_xvgs. unfold mbind at 1. unfold io_bind at 1. unfold write_file at 1.
  intros H.
  match type of H with
  | io_foldl _ _ _ ?w0 = _ =>
      assert (Hro : report_only w w0);
      [|assert (Hrep : true = true ->
                       files w0 !! "missing_xvgfiles.info" = Some ("#Files missing" +:+ nl))]
  end.
  - split; [reflexivity|]. intros key Hk. cbn [files].
    change (path_key "missing_xvgfiles.info") with "missing_xvgfiles.info".
    apply lookup_insert_ne. congruence.
  - intros _. cbn [files].
    change (path_key "missing_xvgfiles.info") with "missing_xvgfiles.info".
    apply lookup_insert_eq.
  - destruct (check_residues self w (MOLRANGE (sys self)) true _ b w' Hro Hrep H)
      as (H1 & H2 & H3).
    split; [|split; [exact H2 | exact H1]].
    rewrite H3. tauto.
Qed.

End TablesPresent.

Lemma check_exist_xvgs_answer_witness :
  (true = true <->
   forall resid, resid ∈ MOLRANGE (energy.sys (scenario.complete [7])) ->
                 tables_present (scenario.complete [7]) scenario.first_run resid)
  /\ (true = true ->
      files (snd (energy.check_exist_xvgs (scenario.complete [7]) scenario.first_run))
        !! "missing_xvgfiles.info" = Some ("#Files missing" +:+ nl))
  /\ report_only scenario.first_run
       (snd (energy.check_exist_xvgs (scenario.complete [7]) scenario.first_run)).
Proof.
  apply (check_exist_xvgs_answer (scenario.complete [7]) scenario.first_run
           (snd (energy.check_exist_xvgs (scenario.complete [7]) scenario.first_run)) true).
  vm_compute. reflexivity.
Defined.

(** Before the first run no table is there: the answer is [False] and the
    report names the table of the one fragment. *)
Example check_exist_xvgs_missing :
  fst (energy.check_exist_xvgs (scenario.complete [7]) (World ∅ [])) = Ok false
  /\ files (snd (energy.check_exist_xvgs (scenario.complete [7]) (World ∅ [])))
       !! "missing_xvgfiles.info"
     = Some ("#Files missing" +:+ nl +:+ "energy//xvgtables/energies_residue5_0.xvg" +:+ nl).
Proof. split; vm_compute; reflexivity. Qed.

(** ** The entries asked for and the groups declared *)
Section PairsOfGroups.
Import energy.
Variable lm : lipidmolecules.t.

Lemma mapM_result_elem_inv {A B} (f : A -> result B) (l : list A) (k : list B) (y : B) :
  mapM f l = Ok k -> y ∈ k -> exists x, x ∈ l /\ f x = Ok y.
Proof.
  intros H Hy. apply mapM_result_Forall2 in H.
  induction H as [|a b l k Hab _ IH]; [inversion Hy|].
  apply elem_of_cons in Hy as [->|Hy].
  - exists a. split; [apply elem_of_cons; left; reflexivity | exact Hab].
  - destruct (IH Hy) as (x & Hx & Hfx). exists x. split; [|exact Hfx].
    apply elem_of_cons. right. exact Hx.
Qed.

Lemma elem_of_concat_inv {A} (ls : list (list A)) (x : A) :
  x ∈ concat ls -> exists l, l ∈ ls /\ x ∈ l.
Proof.
  rewrite list_elem_of_In, in_concat. intros (l & Hl & Hx).
  exists l. rewrite !list_elem_of_In. auto.
Qed.

Lemma parts_reached_whole_elem (name : string) (k : nat) (parts : list string) (x : string) :
  x ∈ parts_reached true name k parts -> x = name.
Proof.
  revert k. induction parts as [|p parts IH]; intros k; cbn [parts_reached];
    [intros H; inversion H|].
  destruct (true && (k =? 0)%nat).
  - intros H. apply elem_of_cons in H as [->|H]; [reflexivity | exact (IH _ H)].
  - apply IH.
Qed.

(** The groups of a residue are its parts, as the entries name them. *)
Lemma group_of_part (self : Energy) (i : Z) (lipid p : string) :
  resid_to_lipid (sys self) !! i = Some lipid ->
  p ∈ parts_reached (sterol_or_protein lm lipid) "resid_" 0 (molparts self) ->
  exists g, groups_of_index lm self i = Ok g /\ (p +:+ str i) ∈ g.
Proof.
  intros Hl Hp. unfold groups_of_index, getitem. rewrite Hl, bind_Ok.
  destruct (sterol_or_protein lm lipid).
  - apply parts_reached_whole_elem in Hp as ->. eexists. split; [reflexivity|].
    apply elem_of_cons. left. reflexivity.
  - rewrite parts_reached_divided in Hp. eexists. split; [reflexivity|].
    apply (list_elem_of_fmap_2 (fun part_ => part_ +:+ str i)). exact Hp.
Qed.

Lemma part_of_group (self : Energy) (i : Z) (lipid : string) (g : list string) (x : string) :
  molparts self <> [] ->
  resid_to_lipid (sys self) !! i = Some lipid ->
  groups_of_index lm self i = Ok g -> x ∈ g ->
  exists p, p ∈ parts_reached (sterol_or_protein lm lipid) "resid_" 0 (molparts self)
            /\ x = p +:+ str i.
Proof.
  intros Hm Hl. unfold groups_of_index, getitem. rewrite Hl, bind_Ok.
  destruct (sterol_or_protein lm lipid).
  - intros [= <-] Hx. apply list_elem_of_singleton in Hx as ->.
    exists "resid_". split; [|reflexivity].
    rewrite (parts_reached_whole _ _ Hm). apply elem_of_cons. left. reflexivity.
  - intros [= <-] Hx. apply list_elem_of_fmap in Hx as (p & -> & Hp).
    exists p. rewrite parts_reached_divided. split; [exact Hp | reflexivity].
Qed.

Lemma entry_of_groups (interaction parthost : string) (res : Z) (partneib : string) (neib : Z) :
  cat [interaction; parthost; str res; "-"; partneib; str neib]
  = cat [interaction; parthost +:+ str res; "-"; partneib +:+ str neib].
Proof.
  rewrite !cat_cons. change (cat []) with EmptyString. rewrite !append_assoc. reflexivity.
Qed.

(** X13: the entries that [get_relev_energies] asks the engine for are
    the pairs of the groups that [gather_energygroups] declares in the same
    fragment.  Every entry is [<type><a>-<b>] with [a] a group of the host
    and [b] a group of a neighbor of the block, both among the declared
    energy groups; and for both interaction types every such pair is asked
    for. *)
Theorem entries_pair_declared_groups (self : Energy) (res : Z) (all_neibs_of_res block : list Z)
    (es gs : list string) :
  molparts self <> [] ->
  current_block self all_neibs_of_res = Ok block ->
  energyselection lm self res all_neibs_of_res = Ok es ->
  energygroup_list lm self res all_neibs_of_res = Ok gs ->
  (forall e, e ∈ es ->
     exists interaction a neib b ga gb,
       interaction ∈ ["Coul-SR:"; "LJ-SR:"] /\ neib ∈ block
       /\ groups_of_index lm self res = Ok ga /\ a ∈ ga /\ a ∈ gs
       /\ groups_of_index lm self neib = Ok gb /\ b ∈ gb /\ b ∈ gs
       /\ e = cat [interaction; a; "-"; b])
  /\ (forall interaction a neib b ga gb,
        interaction ∈ ["Coul-SR:"; "LJ-SR:"] -> neib ∈ block ->
        groups_of_index lm self res = Ok ga -> a ∈ ga ->
        groups_of_index lm self neib = Ok gb -> b ∈ gb ->
        cat [interaction; a; "-"; b] ∈ es).
Proof.
  intros Hm Hb Hes Hgs.
  unfold energyselection in Hes. rewrite Hb, bind_Ok in Hes.
  apply fmap_Ok_inv in Hes as (ys & Hys & ->).
  unfold energygroup_list in Hgs. rewrite Hb, bind_Ok in Hgs.
  apply fmap_Ok_inv in Hgs as (ks & Hks & ->).
  assert (Hdecl : forall i g x, i ∈ res :: block -> groups_of_index lm self i = Ok g ->
                                x ∈ g -> x ∈ concat ks).
  { intros i g x Hi Hg Hx. destruct (mapM_result_elem _ _ _ _ Hks Hi) as (g' & Hg' & Hin).
    rewrite Hg in Hg'. injection Hg' as <-. exact (elem_of_concat ks g x Hin Hx). }
  assert (Hres : res ∈ res :: block) by (apply elem_of_cons; left; reflexivity).
  split.
  - intros e He.
    apply elem_of_concat_inv in He as (y & Hy & He).
    apply (mapM_result_elem_inv _ _ _ _ Hys) in Hy as (interaction & Hi & Hy).
    apply bind_Ok_inv in Hy as (hosttype & Hh & Hy). cbv beta in Hy.
    apply fmap_Ok_inv in Hy as (zs & Hzs & ->).
    apply elem_of_concat_inv in He as (z & Hz & He).
    apply (mapM_result_elem_inv _ _ _ _ Hzs) in Hz as (parthost & Hph & Hz).
    apply fmap_Ok_inv in Hz as (us & Hus & ->).
    apply elem_of_concat_inv in He as (u & Hu & He).
    apply (mapM_result_elem_inv _ _ _ _ Hus) in Hu as (neib & Hn & Hu).
    apply bind_Ok_inv in Hu as (neibtype & Hnt & Hu). cbv beta in Hu.
    injection Hu as <-. apply list_elem_of_fmap in He as (partneib & -> & Hpn).
    unfold getitem in Hh, Hnt.
    destruct (resid_to_lipid (sys self) !! res) as [ht|] eqn:Hlr; [|discriminate Hh].
    injection Hh as ->.
    destruct (resid_to_lipid (sys self) !! neib) as [nt|] eqn:Hln; [|discriminate Hnt].
    injection Hnt as ->.
    destruct (group_of_part self res hosttype parthost Hlr Hph) as (ga & Hga & Ha).
    destruct (group_of_part self neib neibtype partneib Hln Hpn) as (gb & Hgb & Hb').
    exists interaction, (parthost +:+ str res), neib, (partneib +:+ str neib), ga, gb.
    split; [exact Hi|]. split; [exact Hn|].
    split; [exact Hga|]. split; [exact Ha|]. split; [exact (Hdecl res ga _ Hres Hga Ha)|].
    split; [exact Hgb|]. split; [exact Hb'|].
    split; [apply (Hdecl neib gb _ ltac:(apply elem_of_cons; right; exact Hn) Hgb Hb')|].
    apply entry_of_groups.
  - intros interaction a neib b ga gb Hi Hn Hga Ha Hgb Hb'.
    destruct (mapM_result_elem _ _ _ _ Hys Hi) as (y & Hy & Hyin).
    apply bind_Ok_inv in Hy as (hosttype & Hh & Hy). cbv beta in Hy.
    apply fmap_Ok_inv in Hy as (zs & Hzs & ->).
    unfold getitem in Hh.
    destruct (resid_to_lipid (sys self) !! res) as [ht|] eqn:Hlr; [|discriminate Hh].
    injection Hh as ->.
    destruct (part_of_group self res hosttype ga a Hm Hlr Hga Ha) as (parthost & Hph & ->).
    destruct (mapM_result_elem _ _ _ _ Hzs Hph) as (z & Hz & Hzin).
    apply fmap_Ok_inv in Hz as (us & Hus & ->).
    destruct (mapM_result_elem _ _ _ _ Hus Hn) as (u & Hu & Huin).
    apply bind_Ok_inv in Hu as (neibtype & Hnt & Hu). cbv beta in Hu.
    injection Hu as <-. unfold getitem in Hnt.
    destruct (resid_to_lipid (sys self) !! neib) as [nt|] eqn:Hln; [|discriminate Hnt].
    injection Hnt as ->.
    destruct (part_of_group self neib neibtype gb b Hm Hln Hgb Hb') as (partneib & Hpn & ->).
    apply (elem_of_concat ys _ _ Hyin). apply (elem_of_concat zs _ _ Hzin).
    apply (elem_of_concat us _ _ Huin).
    rewrite <- entry_of_groups.
    apply (list_elem_of_fmap_2
             (fun partneib => cat [interaction; parthost; str res; "-"; partneib; str neib])).
    exact Hpn.
Qed.

End PairsOfGroups.

Lemma entries_pair_declared_groups_witness :
  (forall e, e ∈ pairs_scenario.entries ->
     exists interaction a neib b ga gb,
       interaction ∈ ["Coul-SR:"; "LJ-SR:"] /\ neib ∈ [7]
       /\ energy.groups_of_index scenario.lipid_tables pairs_scenario.self 5 = Ok ga
       /\ a ∈ ga /\ a ∈ pairs_scenario.groups
       /\ energy.groups_of_index scenario.lipid_tables pairs_scenario.self neib = Ok gb
       /\ b ∈ gb /\ b ∈ pairs_scenario.groups
       /\ e = cat [interaction; a; "-"; b])
  /\ (forall interaction a neib b ga gb,
        interaction ∈ ["Coul-SR:"; "LJ-SR:"] -> neib ∈ [7] ->
        energy.groups_of_index scenario.lipid_tables pairs_scenario.self 5 = Ok ga -> a ∈ ga ->
        energy.groups_of_index scenario.lipid_tables pairs_scenario.self neib = Ok gb ->
        b ∈ gb ->
        cat [interaction; a; "-"; b] ∈ pairs_scenario.entries).
Proof.
  apply (entries_pair_declared_groups scenario.lipid_tables pairs_scenario.self 5 [7] [7]
           pairs_scenario.entries pairs_scenario.groups).
  - discriminate.
  - reflexivity.
  - reflexivity.
  - reflexivity.
Defined.

(** ** The rows of the consolidated table *)
Section Rows.
Import energy.
Variable self : Energy.

Lemma keeps_bind {A B} (P : locals -> Prop) (m : agg A) (f : A -> agg B) :
  keeps P m -> (forall a st, fst (m st) = Ok a -> keeps P (f a)) -> keeps P (m ≫= f).
Proof.
  intros Hm Hf st Hst. unfold mbind, agg_bind.
  specialize (Hm st Hst). specialize (Hf) with (st := st).
  destruct (m st) as [[a|e] st']; cbn [fst snd] in *; [|exact Hm].
  exact (Hf a eq_refl st' Hm).
Qed.

Lemma keeps_for_each {A} (P : locals -> Prop) (body : A -> agg unit) (l : list A) :
  (forall x, x ∈ l -> keeps P (body x)) -> keeps P (agg_for_each body l).
Proof.
  induction l as [|x l IH]; intros Hb; [intros st Hst; exact Hst|].
  cbn [agg_for_each]. apply keeps_bind.
  - apply Hb. apply elem_of_cons. left. reflexivity.
  - intros _ _ _. apply IH. intros y Hy. apply Hb. apply elem_of_cons. right. exact Hy.
Qed.

Lemma keeps_lift {A} (P : locals -> Prop) (r : result A) : keeps P (agg_lift r).
Proof. intros st Hst. exact Hst. Qed.

Lemma keeps_ret {A} (P : locals -> Prop) (a : A) : keeps P (mret a).
Proof. intros st Hst. exact Hst. Qed.

Lemma print_pair_sound (resid : Z) (cols : list string) (time : f64.t) (neib : Z)
    (parthost partneib : string) (neibs : list Z) :
  resid ∈ MOLRANGE (sys self) ->
  all_neibs_of self resid = Ok neibs -> neib ∈ neibs ->
  f64.mod_nonzero time (f64.of_Q (dt (sys self))) = Ok false ->
  keeps (sound_so_far self) (print_pair resid cols time neib parthost partneib).
Proof.
  intros Hr Hn Hin Ht st Hst. unfold print_pair.
  destruct (res_to_row st !! ("LJ", parthost +:+ str resid, partneib +:+ str neib));
    [|exact Hst].
  destruct (index_int cols z) as [vdw|]; [|exact Hst].
  destruct (res_to_row st !! ("Coul", parthost +:+ str resid, partneib +:+ str neib));
    [|exact Hst].
  destruct (index_int cols z0) as [coul|]; [|exact Hst]. rewrite bind_Ok.
  destruct (f64.of_string vdw) as [a|] eqn:Ha; [|exact Hst]. rewrite bind_Ok.
  destruct (f64.of_string coul) as [b|] eqn:Hb; [|exact Hst]. rewrite bind_Ok.
  cbn [snd written]. unfold sound_so_far. apply Forall_app. split; [exact Hst|].
  constructor; [|constructor]. unfold row_sound. cbn [r_host r_neighbor r_time r_vdw r_coul r_etot].
  split; [exact Hr|]. split; [exists neibs; split; assumption|]. split; [exact Ht|].
  exists a, b. auto.
Qed.

Lemma print_neighbor_sound (resid : Z) (residtype : string) (cols : list string) (time : f64.t)
    (neib : Z) (neibs : list Z) :
  resid ∈ MOLRANGE (sys self) ->
  all_neibs_of self resid = Ok neibs -> neib ∈ neibs ->
  f64.mod_nonzero time (f64.of_Q (dt (sys self))) = Ok false ->
  keeps (sound_so_far self) (print_neighbor self resid residtype cols time neib).
Proof.
  intros Hr Hn Hin Ht. unfold print_neighbor. apply keeps_bind.
  - intros st Hst. unfold broken_pair.
    destruct (String.eqb (system (sys self)) "dppc_dupc_chol25"); [|exact Hst].
    destruct (host st) as [h|]; [|exact Hst]. destruct (int h); exact Hst.
  - intros skip _ _. destruct skip; [apply keeps_ret|].
    apply keeps_bind; [apply keeps_lift|]. intros neibtype _ _.
    apply keeps_for_each. intros parthost _. apply keeps_for_each. intros partneib _.
    exact (print_pair_sound resid cols time neib parthost partneib neibs Hr Hn Hin Ht).
Qed.

Lemma read_energyline_sound (resid : Z) (residtype : string) (neibs : list Z)
    (energyline : string) :
  resid ∈ MOLRANGE (sys self) ->
  all_neibs_of self resid = Ok neibs ->
  keeps (sound_so_far self) (read_energyline self resid residtype neibs energyline).
Proof.
  intros Hr Hn. unfold read_energyline.
  destruct (contains "@ s" energyline).
  - intros st Hst. unfold read_legend.
    destruct (parse_legend (split_ws energyline)) as [[[[row neib] host_] energytype]|];
      exact Hst.
  - destruct (negb (contains "@" energyline) && negb (contains "#" energyline));
      [|apply keeps_ret].
    apply keeps_bind; [apply keeps_lift|]. intros time _ _.
    apply keeps_bind; [apply keeps_lift|]. intros unaligned st Hu.
    destruct unaligned; [apply keeps_ret|].
    apply keeps_for_each. intros neib Hin.
    exact (print_neighbor_sound resid residtype (split_ws energyline) time neib neibs
             Hr Hn Hin Hu).
Qed.

Lemma write_residue_sound (fs : gmap string string) (resid : Z) :
  resid ∈ MOLRANGE (sys self) -> keeps (sound_so_far self) (write_residue self fs resid).
Proof.
  intros Hr. unfold write_residue, read_residue.
  apply keeps_bind; [|intros ? ? ? st0 Hst0; exact Hst0].
  apply keeps_bind; [apply keeps_lift|]. intros residtype _ _.
  apply keeps_bind; [apply keeps_lift|]. intros neibs st Hn.
  apply keeps_bind; [apply keeps_lift|]. intros parts _ _.
  apply keeps_bind; [intros st0 Hst0; exact Hst0|]. intros _ _ _.
  apply keeps_bind; [|intros; apply keeps_ret].
  apply keeps_for_each. intros part_ _. unfold read_xvgfile.
  apply keeps_bind; [apply keeps_lift|]. intros xvgfile _ _.
  apply keeps_bind; [intros st0 Hst0; exact Hst0|]. intros _ _ _.
  apply keeps_for_each. intros energyline _.
  exact (read_energyline_sound resid residtype neibs energyline Hr Hn).
Qed.

(** X14: every row that [write_energyfile] prints, also before an
    exception ends the run, tells of a residue of [MOLRANGE] and of one of
    its all-time neighbors, at a time that [time % dt] finds to be a
    multiple of [dt]; the two energies it shows are strings that [float]
    reads, and the total it shows is their float sum, printed with five
    decimals. *)
Theorem rows_are_sound (fs : gmap string string) :
  Forall (row_sound self) (written (snd (write_energyfile self fs))).
Proof.
  unfold write_energyfile.
  apply (keeps_for_each (sound_so_far self) (write_residue self fs) (MOLRANGE (sys self))).
  - intros resid Hr. exact (write_residue_sound fs resid Hr).
  - constructor.
Qed.

End Rows.

(** A table of fragment 0 with every entry and one data line gives one
    row, printed before the final check raises; the time 2e2 is a multiple
    of the step 100, and the total of -2.000001 and -1.234567 is printed as
    -3.23457. *)
Example one_row_written :
  map (fun r => (energy.r_time r, energy.r_host r, energy.r_neighbor r, energy.r_molparts r,
                 energy.r_vdw r, energy.r_coul r, energy.r_etot r))
      (energy.written
         (snd (energy.write_energyfile (scenario.complete [7])
                 (scenario.full_tables (scenario.complete [7])
                    ["2e2  -1.234567  -2.000001"; "250.0  -1.0  -2.0"]))))
  = [(f64.of_Z 200, 5, 7, "w_w", "-2.000001", "-1.234567", "-3.23457")].
Proof. vm_compute. reflexivity. Qed.

(** ** The interaction of a residue with itself *)
Section SelfInteraction.
Import energy.
Variable self : Energy.

Lemma stmt_for_each_keeps {A} (P : self_locals -> Prop) (body : A -> stmt) (l : list A) :
  (forall x, x ∈ l -> forall st, P st -> P (snd (body x st))) ->
  forall st, P st -> P (snd (stmt_for_each body l st)).
Proof.
  induction l as [|x l IH]; intros Hb st Hst; [exact Hst|].
  cbn [stmt_for_each].
  pose proof (Hb x ltac:(apply elem_of_cons; left; reflexivity) st Hst) as Hx.
  destruct (body x st) as [[[]|e] st']; cbn [snd] in *; [|exact Hx].
  apply IH; [|exact Hx]. intros y Hy. apply Hb. apply elem_of_cons. right. exact Hy.
Qed.

Lemma self_column_some (st : self_locals) (cols : list string) (energytype host_ : string)
    (B : Type) (f : string -> result (option B)) (y : B) :
  and_then (self_column st cols energytype host_) f = Ok (Some y) ->
  exists v, f v = Ok (Some y).
Proof.
  unfold and_then. destruct (self_column st cols energytype host_) as [[v|]|]; try discriminate.
  eauto.
Qed.

Lemma read_self_data_sound (resid : Z) (cols : list string) (st : self_locals) :
  resid ∈ MOLRANGE (sys self) ->
  self_sound_so_far self st -> self_sound_so_far self (snd (read_self_data self resid cols st)).
Proof.
  intros Hr Hst. unfold read_self_data.
  destruct (index cols 0 ≫= f64.of_string) as [time|]; [|exact Hst]. rewrite bind_Ok.
  destruct (f64.mod_nonzero time (f64.of_Q (dt (sys self)))) as [[|]|] eqn:Ht; try exact Hst.
  rewrite bind_Ok. destruct (self_host st) as [host_|]; [|exact Hst].
  destruct (self_energies st cols host_)
    as [[[[[[[vdw_sr vdw_14] coul_sr] coul_14] vdw_tot] coul_tot]|]|] eqn:He; try exact Hst.
  unfold self_energies in He.
  apply self_column_some in He as (v1 & He). apply self_column_some in He as (v2 & He).
  apply self_column_some in He as (v3 & He). apply self_column_some in He as (v4 & He).
  destruct (f64.of_string v2) as [a14|] eqn:H14; [|discriminate He]. rewrite bind_Ok in He.
  destruct (f64.of_string v1) as [asr|] eqn:Hsr; [|discriminate He]. rewrite bind_Ok in He.
  destruct (f64.of_string v4) as [c14|] eqn:Hc14; [|discriminate He]. rewrite bind_Ok in He.
  destruct (f64.of_string v3) as [csr|] eqn:Hcsr; [|discriminate He]. rewrite bind_Ok in He.
  injection He as <- <- <- <- <- <-.
  rewrite Hsr, bind_Ok, Hcsr, bind_Ok, H14, bind_Ok, Hc14, bind_Ok.
  cbn [snd self_written]. unfold self_sound_so_far. apply Forall_app. split; [exact Hst|].
  constructor; [|constructor]. unfold self_row_sound.
  cbn [s_lipid s_time s_vdw_sr s_coul_sr s_vdw_14 s_coul_14 s_vdw_tot s_coul_tot s_etot].
  split; [exact Hr|]. split; [exact Ht|]. exists asr, csr, a14, c14. auto 10.
Qed.

Lemma read_self_line_sound (resid : Z) (energyline : string) (st : self_locals) :
  resid ∈ MOLRANGE (sys self) ->
  self_sound_so_far self st ->
  self_sound_so_far self (snd (read_self_line self resid energyline st)).
Proof.
  intros Hr Hst. unfold read_self_line.
  destruct (contains "@ s" energyline).
  - unfold read_self_legend.
    destruct (parse_self_legend (split_ws energyline)) as [[[row host_] energytype]|];
      exact Hst.
  - destruct (negb (contains "@" energyline) && negb (contains "#" energyline));
      [|exact Hst].
    apply read_self_data_sound; assumption.
Qed.

(** X15: every row that [selfinteractions_xvg_to_dat] prints, also
    before an exception ends the run, tells of a residue of [MOLRANGE] at a
    time that [time % dt] finds to be a multiple of [dt]; the four energies
    it shows are strings that [float] reads; its Lennard-Jones total is the
    float sum of the 1-4 and the short-range Lennard-Jones energy, its
    Coulomb total that of the two Coulomb energies and its total that of all
    four, added from left to right, each printed with five decimals. *)
Theorem self_rows_are_sound (fs : gmap string string) :
  Forall (self_row_sound self) (self_written (snd (selfinteractions_xvg_to_dat self fs))).
Proof.
  unfold selfinteractions_xvg_to_dat.
  apply (stmt_for_each_keeps (self_sound_so_far self)); [|constructor].
  intros resid Hr st Hst. unfold read_self_table.
  destruct (file_lines fs (self_xvg_out_of self resid)) as [xvgfile|]; [|exact Hst].
  apply (stmt_for_each_keeps (self_sound_so_far self)); [|exact Hst].
  intros energyline _ st0 Hst0. apply read_self_line_sound; assumption.
Qed.

Lemma self_entry_normal_form (interaction label : string) (res : Z) :
  cat [interaction; "resid_" +:+ label; str res; "-"; "resid_" +:+ label; str res]
  = interaction +:+ "resid_" +:+ (label +:+ str res) +:+ "-" +:+ "resid_"
    +:+ (label +:+ str res).
Proof.
  rewrite !cat_cons. change (cat []) with EmptyString.
  rewrite !append_assoc, append_empty_r. reflexivity.
Qed.

(** X16: the legend of an entry that [get_relev_self_interaction] asks
    for is stored by [selfinteractions_xvg_to_dat] under the key that its
    data lines look up.  In each of the four modes every entry is
    [<type>:<part><id>-<part><id>] for one of the types Coul-SR, LJ-SR,
    Coul-14 and LJ-14 and a part of the mode; a legend line that names it in
    its fourth column and the set [s<k>] in its second makes the part label
    followed by the id the current host and maps (type, host) to the column
    k+1. *)
Theorem self_legend_read_back (res : Z) (e : string) :
  molparts self ∈ molparts_of_modes ->
  e ∈ self_energyselection self res ->
  exists T part_,
    T ∈ ["Coul-SR"; "LJ-SR"; "Coul-14"; "LJ-14"] /\ part_ ∈ molparts self
    /\ e = cat [T +:+ ":"; part_; str res; "-"; part_; str res]
    /\ forall (cols : list string) (k : Z) (st : self_locals),
         cols !! 1%nat = Some ("s" +:+ str k) ->
         cols !! 3%nat = Some (quoted e) ->
         read_self_legend cols st
         = (Ok tt, SelfLocals (self_written st) (Some (drop_str 6 part_ +:+ str res))
                     (<[(T, drop_str 6 part_ +:+ str res) := k + 1]> (self_res_to_row st))).
Proof.
  intros Hmode He. unfold self_energyselection in He.
  apply elem_of_concat_inv in He as (l & Hl & He).
  apply list_elem_of_fmap in Hl as (interaction & -> & Hi).
  apply list_elem_of_fmap in He as (part_ & -> & Hp).
  destruct (mode_facts self Hmode) as (_ & Hok & _).
  assert (Hpok : part_ok part_ = true).
  { cbn [forallb] in Hok. apply andb_true_iff in Hok as [_ Hok].
    rewrite forallb_forall in Hok. apply Hok. apply list_elem_of_In. exact Hp. }
  destruct (part_ok_split _ Hpok) as [Hp1 Hp2].
  set (label := drop_str 6 part_) in *.
  assert (Hlab : string_forall not_r (label +:+ str res) = true)
    by (rewrite string_forall_append, str_no_r, andb_true_r; exact Hp2).
  assert (Hcases : exists T, T ∈ ["Coul-SR"; "LJ-SR"; "Coul-14"; "LJ-14"]
                             /\ interaction = T +:+ ":"
                             /\ string_forall not_r (T +:+ ":") = true
                             /\ forall x, drop_str 1 <$> index (split ":" (quoted (T +:+ ":" +:+ x))) 0
                                          = Ok T).
  { repeat (apply elem_of_cons in Hi as [->|Hi]); [| | | |inversion Hi].
    - exists "Coul-SR". split; [apply (bool_decide_unpack _); reflexivity|]. repeat split.
    - exists "LJ-SR". split; [apply (bool_decide_unpack _); reflexivity|]. repeat split.
    - exists "Coul-14". split; [apply (bool_decide_unpack _); reflexivity|]. repeat split.
    - exists "LJ-14". split; [apply (bool_decide_unpack _); reflexivity|]. repeat split. }
  destruct Hcases as (T & HT & -> & HTr & Hcolon).
  exists T, part_. split; [exact HT|]. split; [exact Hp|]. split; [reflexivity|].
  intros cols k st Hc1 Hc3. unfold read_self_legend, parse_self_legend, index.
  rewrite Hc1, Hc3, !bind_Ok.
  change (drop_str 1 ("s" +:+ str k)) with (str k). rewrite int_str, bind_Ok.
  assert (Hform : cat [T +:+ ":"; part_; str res; "-"; part_; str res]
                  = (T +:+ ":") +:+ "resid_" +:+ (label +:+ str res) +:+ "-" +:+ "resid_"
                    +:+ (label +:+ str res)).
  { rewrite Hp1 at 1 2. apply self_entry_normal_form. }
  rewrite Hform.
  rewrite (split_resid_entry (T +:+ ":") (label +:+ str res) (label +:+ str res) HTr Hlab Hlab).
  change (match [?a; ?b; ?c] !! 1%nat with Some a0 => Ok a0 | None => Raise IndexError end)
    with (Ok b).
  change (but_last <$> Ok ?x) with (Ok (but_last x)).
  rewrite but_last_append, bind_Ok.
  rewrite append_assoc. fold (index (split ":" (quoted (T +:+ ":" +:+ "resid_" +:+
    (label +:+ str res) +:+ "-" +:+ "resid_" +:+ (label +:+ str res)))) 0).
  rewrite Hcolon. reflexivity.
Qed.

End SelfInteraction.

Lemma self_legend_read_back_witness :
  exists T part_,
    T ∈ ["Coul-SR"; "LJ-SR"; "Coul-14"; "LJ-14"]
    /\ part_ ∈ energy.molparts scenario.cholesterol_host
    /\ "Coul-SR:resid_h_5-resid_h_5" = cat [T +:+ ":"; part_; str 5; "-"; part_; str 5]
    /\ forall (cols : list string) (k : Z) (st : energy.self_locals),
         cols !! 1%nat = Some ("s" +:+ str k) ->
         cols !! 3%nat = Some (quoted "Coul-SR:resid_h_5-resid_h_5") ->
         energy.read_self_legend cols st
         = (Ok tt, energy.SelfLocals (energy.self_written st)
                     (Some (drop_str 6 part_ +:+ str 5))
                     (<[(T, drop_str 6 part_ +:+ str 5) := k + 1]>
                        (energy.self_res_to_row st))).
Proof.
  apply (self_legend_read_back scenario.cholesterol_host 5 "Coul-SR:resid_h_5-resid_h_5").
  - apply (bool_decide_unpack _). reflexivity.
  - apply (bool_decide_unpack _). reflexivity.
Defined.

(** The table of a residue in mode [complete] with the four entries and one
    data line gives one row. *)
Example one_self_row_written :
  fst (energy.selfinteractions_xvg_to_dat self_scenario.self self_scenario.tables) = Ok tt
  /\ map (fun r => (energy.s_lipid r, energy.s_etot r, energy.s_vdw_sr r, energy.s_coul_sr r,
                    energy.s_vdw_14 r, energy.s_coul_14 r, energy.s_vdw_tot r,
                    energy.s_coul_tot r))
         (energy.self_written
            (snd (energy.selfinteractions_xvg_to_dat self_scenario.self self_scenario.tables)))
     = [(5, "-12.00000", "-2.5", "-1.5", "-4.5", "-3.5", "-7.00000", "-5.00000")].
Proof. split; vm_compute; reflexivity. Qed.

(** In a mode with several parts the rows carry the energies of the part
    named on the last legend line only. *)
Example self_rows_of_last_part :
  map (fun r => (energy.s_lipid r, energy.s_vdw_sr r, energy.s_coul_sr r))
      (energy.self_written
         (snd (energy.selfinteractions_xvg_to_dat scenario.cholesterol_host
                 {[ path_key (energy.self_xvg_out_of scenario.cholesterol_host 5) :=
                      scenario.table (energy.self_energyselection scenario.cholesterol_host 5)
                        ["0.000000  -1  -2  -3  -4  -5  -6  -7  -8"] ]})))
  = [(5, "-4", "-2")].
Proof. vm_compute. reflexivity. Qed.

(** ** The neighbor search: lines read twice, residues passed over, files
    found again *)
Section NeighborSearch.
Import neighbors.
Variable lm : lipidmolecules.t.
Variable gmx : engine.
Variable self : SysInfo.

Lemma update_time_twice (key : Q) (v1 v2 : list Z) (d : list (Q * list Z)) :
  update_time key v2 (update_time key v1 d) = update_time key v2 d.
Proof.
  induction d as [|[k x] d IH]; cbn [update_time].
  - rewrite Qeq_bool_refl. reflexivity.
  - destruct (Qeq_bool k key) eqn:Hk; cbn [update_time]; rewrite Hk; [reflexivity|].
    rewrite IH. reflexivity.
Qed.

(** X17: of two lines of the neighbor table that name the same residue
    and the same time, only the later one counts: reading the second line
    after the first gives the dictionary that the second line alone
    gives. *)
Theorem later_line_overwrites (d d1 : gmap Z (list (Q * list Z))) (line1 line2 : string) :
  add_neighbor_line d line1 = Ok d1 ->
  index (split_ws line1) 0 = index (split_ws line2) 0 ->
  index (split_ws line1) 1 = index (split_ws line2) 1 ->
  add_neighbor_line d1 line2 = add_neighbor_line d line2.
Proof.
  intros H1 Hc0 Hc1. unfold add_neighbor_line in *. rewrite <- Hc0, <- Hc1.
  destruct (index (split_ws line1) 0 ≫= int) as [resid|]; [|discriminate H1].
  rewrite bind_Ok in H1.
  destruct (index (split_ws line1) 1 ≫= float) as [time|]; [|discriminate H1].
  rewrite bind_Ok in H1. rewrite !bind_Ok. cbv zeta in *.
  set (nd := if bool_decide (is_Some (d !! resid)) then d else <[resid := []]> d) in *.
  assert (Hd1 : exists v1, d1 = <[resid := update_time time v1 (default [] (nd !! resid))]> nd).
  { destruct (split_ws line1 !! 3%nat) as [c|].
    - destruct (mapM int (split "," c)) as [neiblist|]; [|discriminate H1].
      rewrite bind_Ok in H1. injection H1 as <-. eauto.
    - injection H1 as <-. eauto. }
  destruct Hd1 as [v1 ->].
  assert (Hs : is_Some (<[resid := update_time time v1 (default [] (nd !! resid))]> nd !! resid))
    by (rewrite lookup_insert_eq; eauto).
  rewrite (bool_decide_eq_true_2 _ Hs), lookup_insert_eq.
  change (default [] (Some ?x)) with x.
  destruct (split_ws line2 !! 3%nat) as [c|].
  - destruct (mapM int (split "," c)) as [neiblist|]; [|reflexivity].
    rewrite !bind_Ok, update_time_twice, insert_insert_eq. reflexivity.
  - rewrite update_time_twice, insert_insert_eq. reflexivity.
Qed.

Lemma io_for_each_app {A} (body : A -> io unit) (l1 l2 : list A) (w : world) :
  io_for_each body (l1 ++ l2) w
  = match io_for_each body l1 w with
    | (Ok _, w') => io_for_each body l2 w'
    | (Raise e, w') => (Raise e, w')
    end.
Proof.
  revert w. induction l1 as [|x l1 IH]; intros w; [reflexivity|].
  cbn [app io_for_each]. unfold mbind, io_bind.
  destruct (body x w) as [[[]|e] w1]; [apply IH | reflexivity].
Qed.

Lemma io_for_each_skip {A} (body : A -> io unit) (l : list A) (w : world) :
  (forall x, x ∈ l -> body x w = (Ok tt, w)) -> io_for_each body l w = (Ok tt, w).
Proof.
  induction l as [|x l IH]; intros Hb; [reflexivity|].
  cbn [io_for_each]. unfold mbind, io_bind.
  rewrite (Hb x) by (apply elem_of_cons; left; reflexivity).
  apply IH. intros y Hy. apply Hb. apply elem_of_cons. right. exact Hy.
Qed.

(** The selection file is not the neighbor table. *)
Lemma sf_is_not_the_table : path_key (temppath self +:+ "/sf") <> "neighbor_info".
Proof.
  intros H. apply (f_equal last_char) in H.
  rewrite last_char_path_key, last_char_append in H by discriminate. discriminate H.
Qed.

(** X18: with a reference strategy that is not known,
    [determine_neighbors] passes over the residues without a configured
    species and stops at the first residue that has one, with the "Wrong
    input for refatoms" error (the atom names being found): the engine has
    not been run and the neighbor table holds its header line only. *)
Theorem unknown_strategy_stops_run (refatoms : string) (overwrite : bool) (w : world)
    (skipped : list Z) (r : Z) (rest : list Z) (hosttype atm : string) (parts : list string) :
  refatoms ∉ known_refatoms ->
  MOLRANGE self = skipped ++ r :: rest ->
  (forall x, x ∈ skipped -> passed_over self x) ->
  resid_to_lipid self !! r = Some hosttype ->
  hosttype ∈ molecules self ->
  lipidmolecules.central_atom_of lm hosttype = Ok atm ->
  mapM (fun i => a ← lipidmolecules.central_atom_of lm i;
                 Ok (cat ["(resname "; i; " and name "; a; ")"]))
       (RESNAMES self) = Ok parts ->
  fst (determine_neighbors lm gmx self refatoms overwrite w) = Raise (wrong_refatoms refatoms)
  /\ calls (snd (determine_neighbors lm gmx self refatoms overwrite w)) = calls w
  /\ files (snd (determine_neighbors lm gmx self refatoms overwrite w)) !! "neighbor_info"
     = Some (neighbor_info_header +:+ nl).
Proof.
  intros Hn Hm Hskip Hl Hin Ha Hp.
  destruct (unknown_refatoms_eqb refatoms Hn) as (E1 & E2 & E3 & E4).
  assert (Heq : determine_neighbors lm gmx self refatoms overwrite w
                = (Raise (wrong_refatoms refatoms),
                   World (<[path_key (temppath self +:+ "/sf") := EmptyString]>
                            (<[path_key "neighbor_info" := neighbor_info_header +:+ nl]>
                               (files w)))
                         (calls w))).
  { unfold determine_neighbors. rewrite Hm.
    unfold mbind at 1. unfold io_bind at 1. unfold write_file at 1.
    set (w0 := World _ (calls w)).
    match goal with |- context [io_for_each ?b _ w0] => set (body := b) end.
    rewrite io_for_each_app.
    rewrite (io_for_each_skip body skipped w0).
    - cbn [io_for_each]. unfold mbind at 1. unfold io_bind at 1.
      assert (Hr : body r w0
                   = (Raise (wrong_refatoms refatoms),
                      World (<[path_key (temppath self +:+ "/sf") := EmptyString]> (files w0))
                            (calls w0))).
      { subst body. cbv beta. rewrite Hl.
        assert (His : is_Some (Some hosttype)) by eauto.
        rewrite (bool_decide_eq_true_2 _ His). cbn [negb].
        unfold create_selectionfile_neighborsearch. cbv zeta. rewrite Hp.
        unfold mbind, io_bind, lift, getitem, write_file.
        rewrite Hl, (bool_decide_eq_true_2 _ Hin). cbn [negb]. cbv beta iota.
        rewrite Ha. cbv beta iota. rewrite E1, E2, E3, E4. reflexivity. }
      rewrite Hr. reflexivity.
    - intros x Hx. specialize (Hskip x Hx). unfold passed_over in Hskip. subst body. cbv beta.
      destruct (resid_to_lipid self !! x) as [t|] eqn:Hlx.
      + assert (His : is_Some (Some t)) by eauto.
        rewrite (bool_decide_eq_true_2 _ His). cbn [negb].
        unfold create_selectionfile_neighborsearch, mbind, io_bind, lift, getitem.
        rewrite Hlx, (bool_decide_eq_false_2 _ Hskip). reflexivity.
      + assert (His : ~ is_Some (@None string)) by (intros [? ?]; discriminate).
        rewrite (bool_decide_eq_false_2 _ His). reflexivity. }
  rewrite Heq. cbn [fst snd calls files].
  split; [reflexivity|]. split; [reflexivity|].
  rewrite lookup_insert_ne by apply sf_is_not_the_table.
  apply lookup_insert_eq.
Qed.

End NeighborSearch.

Lemma later_line_overwrites_witness :
  neighbors.add_neighbor_line search_scenario.first_line_read "5  0.000  2  7,8"
  = neighbors.add_neighbor_line ∅ "5  0.000  2  7,8".
Proof.
  apply (later_line_overwrites ∅ search_scenario.first_line_read "5  0.000  1  7"
           "5  0.000  2  7,8"); vm_compute; reflexivity.
Defined.

Lemma unknown_strategy_stops_run_witness :
  fst (neighbors.determine_neighbors scenario.lipid_tables scenario.silent_engine
         (scenario.registry "dppc_chol" scenario.lipids) "phosphate" true (World ∅ []))
  = Raise (neighbors.wrong_refatoms "phosphate")
  /\ calls (snd (neighbors.determine_neighbors scenario.lipid_tables scenario.silent_engine
                   (scenario.registry "dppc_chol" scenario.lipids) "phosphate" true
                   (World ∅ [])))
     = calls (World ∅ [])
  /\ files (snd (neighbors.determine_neighbors scenario.lipid_tables scenario.silent_engine
                   (scenario.registry "dppc_chol" scenario.lipids) "phosphate" true
                   (World ∅ []))) !! "neighbor_info"
     = Some (neighbors.neighbor_info_header +:+ nl).
Proof.
  apply (unknown_strategy_stops_run scenario.lipid_tables scenario.silent_engine
           (scenario.registry "dppc_chol" scenario.lipids) "phosphate" true (World ∅ [])
           [] 5 [] "DPPC" "P"
           ["(resname DPPC and name P)"; "(resname CHL1 and name P)";
            "(resname ERG and name P)"]).
  - apply (bool_decide_unpack _). reflexivity.
  - reflexivity.
  - intros x Hx. inversion Hx.
  - reflexivity.
  - apply (bool_decide_unpack _). reflexivity.
  - reflexivity.
  - reflexivity.
Defined.

(** ** Data files found again *)
Section FilesFoundAgain.
Import neighbors.
Variable lm : lipidmolecules.t.
Variable gmx : engine.
Variable self : SysInfo.

Lemma grows_refl (w : world) : grows w w.
Proof. split; [reflexivity | auto]. Qed.

Lemma grows_trans (a b c : world) : grows a b -> grows b c -> grows a c.
Proof. intros [H1 H2] [H3 H4]. split; [congruence | auto]. Qed.

Lemma grows_insert (w : world) (key text : string) :
  grows w (World (<[key := text]> (files w)) (calls w)).
Proof.
  split; [reflexivity|]. intros k Hk. cbn [files].
  destruct (decide (key = k)) as [->|Hne].
  - rewrite lookup_insert_eq. eauto.
  - rewrite lookup_insert_ne by exact Hne. exact Hk.
Qed.

Section Steady.
Variable I : world -> Prop.
Hypothesis I_grows : forall w w1, I w -> grows w w1 -> I w1.

Lemma steady_bind {A B} (m : io A) (f : A -> io B) :
  steady I m -> (forall a, steady I (f a)) -> steady I (m ≫= f).
Proof.
  intros Hm Hf w Hw. unfold mbind, io_bind. specialize (Hm w Hw).
  destruct (m w) as [[a|e] w1]; cbn [snd] in *; [|exact Hm].
  apply (grows_trans w w1); [exact Hm|]. apply Hf. exact (I_grows w w1 Hw Hm).
Qed.

Lemma steady_for_each {A} (body : A -> io unit) (l : list A) :
  (forall x, x ∈ l -> steady I (body x)) -> steady I (io_for_each body l).
Proof.
  induction l as [|x l IH]; intros Hb; [intros w _; apply grows_refl|].
  cbn [io_for_each]. apply steady_bind.
  - apply Hb. apply elem_of_cons. left. reflexivity.
  - intros _. apply IH. intros y Hy. apply Hb. apply elem_of_cons. right. exact Hy.
Qed.

Lemma steady_write_file (p text : string) : steady I (write_file p text).
Proof. intros w _. apply grows_insert. Qed.

Lemma steady_append_file (p text : string) : steady I (append_file p text).
Proof. intros w _. apply grows_insert. Qed.

Lemma steady_lift {A} (r : result A) : steady I (lift r).
Proof. intros w _. apply grows_refl. Qed.

Lemma steady_ret {A} (a : A) : steady I (mret a).
Proof. intros w _. apply grows_refl. Qed.

Lemma steady_selectionfile (resid : Z) (refatoms : string) :
  steady I (create_selectionfile_neighborsearch lm self resid refatoms).
Proof.
  unfold create_selectionfile_neighborsearch.
  apply steady_bind; [apply steady_lift|]. intros hosttype.
  destruct (negb (bool_decide (hosttype ∈ molecules self))); [apply steady_ret|].
  apply steady_bind; [apply steady_lift|]. intros host_atm.
  apply steady_bind; [apply steady_lift|]. intros parts.
  apply steady_bind; [apply steady_write_file|]. intros _.
  apply steady_bind; [|intros _; apply steady_ret].
  destruct (String.eqb refatoms "P"); [apply steady_write_file|].
  destruct (String.eqb refatoms "bothtails"); [apply steady_write_file|].
  destruct (String.eqb refatoms "glycerol"); [apply steady_write_file|].
  destruct (String.eqb refatoms "tails_com"); [|apply steady_lift].
  apply steady_bind; [apply steady_lift|]. intros tailstr_l. apply steady_write_file.
Qed.

End Steady.

Lemma searched_grows (w w1 : world) : searched self w -> grows w w1 -> searched self w1.
Proof.
  intros Hs [_ Hg] residue Hr. specialize (Hs residue Hr). unfold isfile in *.
  apply bool_decide_eq_true in Hs. apply bool_decide_eq_true. apply Hg, Hs.
Qed.

Lemma determine_neighbors_steady (refatoms : string) :
  steady (searched self) (determine_neighbors lm gmx self refatoms false).
Proof.
  unfold determine_neighbors.
  apply (steady_bind (searched self) searched_grows); [apply steady_write_file|]. intros _.
  apply (steady_for_each (searched self) searched_grows). intros residue Hr.
  destruct (negb (bool_decide (is_Some (resid_to_lipid self !! residue))));
    [apply steady_ret|].
  apply (steady_bind (searched self) searched_grows);
    [apply (steady_selectionfile (searched self) searched_grows)|].
  intros [selectionfile|]; [|apply steady_ret].
  apply (steady_bind (searched self) searched_grows).
  - intros w Hw. fold (datafile_of self residue). rewrite (Hw residue Hr). apply grows_refl.
  - intros _. apply (steady_bind (searched self) searched_grows).
    + intros w _. apply grows_refl.
    + intros datfile. apply (steady_for_each (searched self) searched_grows). intros line _.
      apply (steady_bind (searched self) searched_grows); [apply steady_lift|].
      intros row. apply steady_append_file.
Qed.

(** A data file is neither the selection file nor the neighbor table. *)
Lemma datafile_last_char (residue : Z) :
  last_char (path_key (datafile_of self residue)) = last_char ".dat".
Proof.
  rewrite last_char_path_key. unfold datafile_of.
  change [datapath self; "/neighborfiles/neighbors_of_residue"; str residue; ".dat"]
    with ([datapath self; "/neighborfiles/neighbors_of_residue"; str residue] ++ [".dat"]).
  rewrite cat_snoc, last_char_append by discriminate. reflexivity.
Qed.

Lemma datafile_is_not_sf (residue : Z) :
  path_key (datafile_of self residue) <> path_key (temppath self +:+ "/sf").
Proof.
  intros H. apply (f_equal last_char) in H.
  rewrite datafile_last_char, last_char_path_key, last_char_append in H by discriminate.
  discriminate H.
Qed.

Lemma datafile_is_not_the_table (residue : Z) :
  path_key (datafile_of self residue) <> "neighbor_info".
Proof.
  intros H. apply (f_equal last_char) in H. rewrite datafile_last_char in H. discriminate H.
Qed.

(** What the selection step changes, and what it returns when it
    returns. *)
Lemma selectionfile_frame (resid : Z) (refatoms : string) (w : world) :
  calls (snd (create_selectionfile_neighborsearch lm self resid refatoms w)) = calls w
  /\ (forall k, k <> path_key (temppath self +:+ "/sf") ->
        files (snd (create_selectionfile_neighborsearch lm self resid refatoms w)) !! k
        = files w !! k)
  /\ (forall o, fst (create_selectionfile_neighborsearch lm self resid refatoms w) = Ok o ->
        o = if configured self resid then Some (temppath self +:+ "/sf") else None).
Proof.
  unfold create_selectionfile_neighborsearch, configured, mbind, io_bind, lift, getitem.
  destruct (resid_to_lipid self !! resid) as [hosttype|];
    [|cbn [fst snd]; split; [reflexivity|]; split; [reflexivity | discriminate]].
  destruct (bool_decide (hosttype ∈ molecules self)); cbn [negb];
    [|cbn [fst snd]; split; [reflexivity|]; split; [reflexivity | intros o [= <-]; reflexivity]].
  destruct (lipidmolecules.central_atom_of lm hosttype) as [host_atm|];
    [|cbn [fst snd]; split; [reflexivity|]; split; [reflexivity | discriminate]].
  destruct (mapM _ (RESNAMES self)) as [parts|];
    [|cbn [fst snd]; split; [reflexivity|]; split; [reflexivity | discriminate]].
  unfold write_file, mret, io_ret. cbn [files calls].
  destruct (String.eqb refatoms "P");
    [cbn [fst snd files calls]; split; [reflexivity|]; split;
     [intros k Hk; rewrite !lookup_insert_ne by congruence; reflexivity
     |intros o [= <-]; reflexivity]|].
  destruct (String.eqb refatoms "bothtails");
    [cbn [fst snd files calls]; split; [reflexivity|]; split;
     [intros k Hk; rewrite !lookup_insert_ne by congruence; reflexivity
     |intros o [= <-]; reflexivity]|].
  destruct (String.eqb refatoms "glycerol");
    [cbn [fst snd files calls]; split; [reflexivity|]; split;
     [intros k Hk; rewrite !lookup_insert_ne by congruence; reflexivity
     |intros o [= <-]; reflexivity]|].
  destruct (String.eqb refatoms "tails_com").
  - destruct (tail_definitions lm self) as [tailstr_l|]; cbn [fst snd files calls];
      (split; [reflexivity|]); split;
      try (intros k Hk; rewrite !lookup_insert_ne by congruence; reflexivity);
      [intros o [= <-]; reflexivity | discriminate].
  - cbn [fst snd files calls]. split; [reflexivity|]. split; [|discriminate].
    intros k Hk. rewrite !lookup_insert_ne by congruence. reflexivity.
Qed.

(** The rows of one data file added to the table. *)
Lemma rows_appended (residue : Z) (lines : list string) (w w' : world) (t : string) :
  files w !! "neighbor_info" = Some t ->
  io_for_each (fun line => row ← lift (neighbor_row self residue line);
                           append_file "neighbor_info" (row +:+ nl)) lines w = (Ok tt, w') ->
  exists rows,
    mapM (neighbor_row self residue) lines = Ok rows
    /\ (forall k, k <> "neighbor_info" -> files w' !! k = files w !! k)
    /\ files w' !! "neighbor_info" = Some (t +:+ cat (map (fun row => row +:+ nl) rows)).
Proof.
  revert w t. induction lines as [|line lines IH]; intros w t Ht H.
  - injection H as <-. exists []. split; [reflexivity|]. split; [reflexivity|].
    cbn [map]. change (cat []) with EmptyString. rewrite append_empty_r. exact Ht.
  - cbn [io_for_each] in H. unfold mbind, io_bind, lift in H. rewrite mapM_cons.
    destruct (neighbor_row self residue line) as [row|]; [|discriminate H].
    unfold append_file in H. change (path_key "neighbor_info") with "neighbor_info" in H.
    rewrite Ht in H. cbn [default] in H.
    apply IH with (t := t +:+ row +:+ nl) in H; [|cbn [files]; apply lookup_insert_eq].
    destruct H as (rows & Hrows & Hk & Hn). exists (row :: rows).
    rewrite Hrows. split; [reflexivity|]. split.
    + intros k Hne. rewrite (Hk k Hne). cbn [files]. apply lookup_insert_ne. congruence.
    + rewrite Hn. cbn [map]. rewrite cat_cons, !append_assoc. reflexivity.
Qed.

(** One turn of the loop over the residues, in a world that holds the
    data files as [w] holds them. *)
Lemma residue_turn (refatoms : string) (w : world) (residue : Z) (w1 w2 : world) (t : string) :
  searched self w ->
  residue ∈ MOLRANGE self ->
  (forall r, files w1 !! path_key (datafile_of self r) = files w !! path_key (datafile_of self r)) ->
  files w1 !! "neighbor_info" = Some t ->
  (if negb (bool_decide (is_Some (resid_to_lipid self !! residue))) then mret tt
   else
     selectionfile ← create_selectionfile_neighborsearch lm self residue refatoms;
     match selectionfile with
     | None => mret tt
     | Some selectionfile =>
         let indexoutput := cat [indexpath self; "/neighbors_of_residue"; str residue; ".ndx"] in
         let datafileoutput :=
           cat [datapath self; "/neighborfiles/neighbors_of_residue"; str residue; ".dat"] in
         _ ← (fun w =>
                if isfile datafileoutput w && negb false then (Ok tt, w)
                else
                  let cmdlist :=
                    [GMXNAME; "select"; "-s"; tprpath self; "-f"; trjpath self;
                     "-sf"; selectionfile; "-on"; indexoutput; "-oi"; datafileoutput;
                     "-b"; str_float self (t_start self); "-e"; str_float self (t_end self);
                     "-dt"; str_float self (dt self)] in
                  ('(out, err) ← exec_gromacs gmx cmdlist None;
                   write_file "gmx_select.log" (err +:+ out)) w);
         datfile ← read_lines datafileoutput;
         io_for_each (fun line =>
           row ← lift (neighbor_row self residue line);
           append_file "neighbor_info" (row +:+ nl)) datfile
     end) w1 = (Ok tt, w2) ->
  exists rows,
    (if configured self residue then rows_of_datafile self (files w) residue = Ok rows
     else rows = [])
    /\ (forall r, files w2 !! path_key (datafile_of self r)
                  = files w !! path_key (datafile_of self r))
    /\ files w2 !! "neighbor_info" = Some (t +:+ cat (map (fun row => row +:+ nl) rows)).
Proof.
  intros Hs Hr Hd Ht H.
  destruct (resid_to_lipid self !! residue) as [hosttype|] eqn:Hl.
  - assert (His : is_Some (Some hosttype)) by eauto.
    rewrite (bool_decide_eq_true_2 _ His) in H. cbn [negb] in H.
    unfold mbind at 1 in H. unfold io_bind at 1 in H.
    destruct (selectionfile_frame residue refatoms w1) as (_ & Hframe & Hres).
    destruct (create_selectionfile_neighborsearch lm self residue refatoms w1)
      as [[o|e] w1'] eqn:Hsel; [|discriminate H].
    cbn [fst snd] in Hframe, Hres. specialize (Hres o eq_refl).
    unfold configured in *. rewrite Hl in *.
    destruct (bool_decide (hosttype ∈ molecules self)); subst o.
    + fold (datafile_of self residue) in H. cbv zeta in H.
      unfold mbind at 1 in H. unfold io_bind at 1 in H.
      assert (Hd1 : forall r, files w1' !! path_key (datafile_of self r)
                              = files w !! path_key (datafile_of self r)).
      { intros r. rewrite Hframe by apply datafile_is_not_sf. apply Hd. }
      assert (Hfile : isfile (datafile_of self residue) w1' = true).
      { specialize (Hs residue Hr). unfold isfile in *. rewrite Hd1. exact Hs. }
      rewrite Hfile in H. cbn [andb negb] in H.
      unfold mbind at 1 in H. unfold io_bind at 1 in H. unfold read_lines in H.
      unfold rows_of_datafile.
      assert (Hlines : file_lines (files w1') (datafile_of self residue)
                       = file_lines (files w) (datafile_of self residue)).
      { unfold file_lines. rewrite Hd1. reflexivity. }
      rewrite Hlines in H.
      destruct (file_lines (files w) (datafile_of self residue)) as [datfile|];
        [|discriminate H].
      rewrite bind_Ok.
      apply rows_appended with (t := t) in H.
      * destruct H as (rows & Hrows & Hk & Hn). exists rows.
        split; [exact Hrows|]. split; [|exact Hn].
        intros r. rewrite Hk by apply datafile_is_not_the_table. apply Hd1.
      * rewrite Hframe by (intros E; symmetry in E; exact (sf_is_not_the_table self E)).
        exact Ht.
    + injection H as <-. exists []. split; [reflexivity|]. split.
      * intros r. rewrite Hframe by apply datafile_is_not_sf. apply Hd.
      * cbn [map]. change (cat []) with EmptyString. rewrite append_empty_r.
        rewrite Hframe by (intros E; symmetry in E; exact (sf_is_not_the_table self E)).
        exact Ht.
  - assert (His : ~ is_Some (@None string)) by (intros [? ?]; discriminate).
    rewrite (bool_decide_eq_false_2 _ His) in H. injection H as <-.
    unfold configured. rewrite Hl. exists []. split; [reflexivity|]. split; [exact Hd|].
    cbn [map]. change (cat []) with EmptyString. rewrite append_empty_r. exact Ht.
Qed.

(** The loop over the residues, for a body that behaves as
    [residue_turn] says. *)
Lemma residues_loop (body : Z -> io unit) (w : world) (l : list Z) :
  (forall residue w1 w2 t,
     residue ∈ l ->
     (forall r, files w1 !! path_key (datafile_of self r)
                = files w !! path_key (datafile_of self r)) ->
     files w1 !! "neighbor_info" = Some t ->
     body residue w1 = (Ok tt, w2) ->
     exists rows,
       (if configured self residue then rows_of_datafile self (files w) residue = Ok rows
        else rows = [])
       /\ (forall r, files w2 !! path_key (datafile_of self r)
                     = files w !! path_key (datafile_of self r))
       /\ files w2 !! "neighbor_info" = Some (t +:+ cat (map (fun row => row +:+ nl) rows))) ->
  forall t w0 w',
    (forall r, files w0 !! path_key (datafile_of self r)
               = files w !! path_key (datafile_of self r)) ->
    files w0 !! "neighbor_info" = Some t ->
    io_for_each body l w0 = (Ok tt, w') ->
    exists rowss,
      mapM (rows_of_datafile self (files w)) (List.filter (configured self) l) = Ok rowss
      /\ files w' !! "neighbor_info"
         = Some (t +:+ cat (map (fun row => row +:+ nl) (concat rowss))).
Proof.
  induction l as [|residue l IH]; intros Hturn t w0 w' Hd0 Ht0 Hrun.
  - injection Hrun as <-. exists []. split; [reflexivity|].
    cbn [concat map]. change (cat []) with EmptyString. rewrite append_empty_r. exact Ht0.
  - cbn [io_for_each] in Hrun. unfold mbind, io_bind in Hrun.
    destruct (body residue w0) as [[[]|e] w1] eqn:Hb; [|discriminate Hrun].
    destruct (Hturn residue w0 w1 t ltac:(apply elem_of_cons; left; reflexivity) Hd0 Ht0 Hb)
      as (rows & Hrows & Hd1 & Ht1).
    destruct (IH (fun r a b c Hr => Hturn r a b c ltac:(apply elem_of_cons; right; exact Hr))
                 _ w1 w' Hd1 Ht1 Hrun) as (rowss & Hrowss & Hfin).
    cbn [List.filter]. destruct (configured self residue).
    + exists (rows :: rowss). rewrite mapM_cons, Hrows, bind_Ok, Hrowss. split; [reflexivity|].
      rewrite Hfin. cbn [concat]. rewrite map_app, cat_app, !append_assoc. reflexivity.
    + subst rows. exists rowss. split; [exact Hrowss|]. rewrite Hfin.
      cbn [map]. change (cat []) with EmptyString. rewrite append_empty_r. reflexivity.
Qed.

(** X19: with [overwrite] disabled and the data file of every residue of
    [MOLRANGE] already there, [determine_neighbors] does not run the engine
    at all, whatever else happens, and removes no file; and when it returns,
    the neighbor table is the one made from the data files found: the
    header line, then for every configured residue of [MOLRANGE] in turn the
    rows made from the lines of its data file. *)
Theorem data_files_found_again (refatoms : string) (w : world) :
  (forall residue, residue ∈ MOLRANGE self -> isfile (datafile_of self residue) w = true) ->
  calls (snd (determine_neighbors lm gmx self refatoms false w)) = calls w
  /\ (forall key, is_Some (files w !! key) ->
        is_Some (files (snd (determine_neighbors lm gmx self refatoms false w)) !! key))
  /\ (fst (determine_neighbors lm gmx self refatoms false w) = Ok tt ->
      exists table,
        table_of_datafiles self (files w) = Ok table
        /\ files (snd (determine_neighbors lm gmx self refatoms false w)) !! "neighbor_info"
           = Some table).
Proof.
  intros Hs.
  destruct (determine_neighbors_steady refatoms w Hs) as [Hc Hk].
  split; [exact Hc|]. split; [exact Hk|].
  destruct (determine_neighbors lm gmx self refatoms false w) as [r wf] eqn:Hdn.
  cbn [fst snd]. intros ->.
  unfold determine_neighbors in Hdn.
  unfold mbind at 1 in Hdn. unfold io_bind at 1 in Hdn. unfold write_file at 1 in Hdn.
  change (path_key "neighbor_info") with "neighbor_info" in Hdn.
  set (w0 := World _ (calls w)) in Hdn.
  assert (Hd0 : forall r, files w0 !! path_key (datafile_of self r)
                          = files w !! path_key (datafile_of self r)).
  { intros r. subst w0. cbn [files]. apply lookup_insert_ne.
    intros E. symmetry in E. exact (datafile_is_not_the_table r E). }
  assert (Ht0 : files w0 !! "neighbor_info" = Some (neighbor_info_header +:+ nl))
    by (subst w0; cbn [files]; apply lookup_insert_eq).
  apply (residues_loop _ w (MOLRANGE self)) with (t := neighbor_info_header +:+ nl) in Hdn;
    [| |exact Hd0 | exact Ht0].
  - destruct Hdn as (rowss & Hrowss & Hfin). unfold table_of_datafiles.
    rewrite Hrowss, bind_Ok.
    eexists. split; [reflexivity|]. rewrite Hfin, !append_assoc. reflexivity.
  - intros residue w1 w2 t Hr Hd1 Ht1 Hb.
    exact (residue_turn refatoms w residue w1 w2 t Hs Hr Hd1 Ht1 Hb).
Qed.

End FilesFoundAgain.

Lemma data_files_found_again_witness :
  calls (snd (neighbors.determine_neighbors scenario.lipid_tables scenario.writing_engine
                (scenario.registry "dppc_chol" scenario.lipids) "P" false
                search_scenario.searched_before))
  = calls search_scenario.searched_before
  /\ (forall key, is_Some (files search_scenario.searched_before !! key) ->
        is_Some (files (snd (neighbors.determine_neighbors scenario.lipid_tables
                               scenario.writing_engine
                               (scenario.registry "dppc_chol" scenario.lipids) "P" false
                               search_scenario.searched_before)) !! key))
  /\ (fst (neighbors.determine_neighbors scenario.lipid_tables scenario.writing_engine
             (scenario.registry "dppc_chol" scenario.lipids) "P" false
             search_scenario.searched_before) = Ok tt ->
      exists table,
        table_of_datafiles (scenario.registry "dppc_chol" scenario.lipids)
          (files search_scenario.searched_before) = Ok table
        /\ files (snd (neighbors.determine_neighbors scenario.lipid_tables
                         scenario.writing_engine
                         (scenario.registry "dppc_chol" scenario.lipids) "P" false
                         search_scenario.searched_before)) !! "neighbor_info"
           = Some table).
Proof.
  apply (data_files_found_again scenario.lipid_tables scenario.writing_engine
           (scenario.registry "dppc_chol" scenario.lipids) "P"
           search_scenario.searched_before).
  intros residue Hr. apply list_elem_of_singleton in Hr as ->. vm_compute. reflexivity.
Defined.

(** The run returns, and the table made again holds the row of the data
    file found. *)
Example table_made_again :
  fst (neighbors.determine_neighbors scenario.lipid_tables scenario.writing_engine
         (scenario.registry "dppc_chol" scenario.lipids) "P" false
         search_scenario.searched_before) = Ok tt
  /\ files (snd (neighbors.determine_neighbors scenario.lipid_tables scenario.writing_engine
                (scenario.registry "dppc_chol" scenario.lipids) "P" false
                search_scenario.searched_before)) !! "neighbor_info"
  = Some (neighbors.neighbor_info_header +:+ nl
          +:+ neighbors.format_row "5" "0.000" "3" "3,3,4" +:+ nl).
Proof. split; vm_compute; reflexivity. Qed.

(** ** Leaflets along the trajectory *)
Section AcrossLeaflets.
Import leaflets leaflet_files.

Lemma for_each_collect {A B} (body : list B -> A -> result (list B))
    (g : A -> result (list B)) :
  (forall acc x, body acc x = (g x ≫= fun ys => Ok (acc ++ ys))) ->
  forall l acc, for_each body l acc = (mapM g l ≫= fun yss => Ok (acc ++ concat yss)).
Proof.
  intros Hb. induction l as [|x l IH]; intros acc.
  - cbn [for_each]. change (mapM g []) with (Ok (@nil (list B))). rewrite bind_Ok.
    cbn [concat]. rewrite app_nil_r. reflexivity.
  - cbn [for_each]. rewrite Hb, mapM_cons.
    destruct (g x) as [ys|e]; [|reflexivity]. rewrite !bind_Ok, IH.
    destruct (mapM g l) as [yss|e]; [|reflexivity]. rewrite !bind_Ok.
    rewrite <- app_assoc. reflexivity.
Qed.

(** The pairs found for one host at one time. *)
Lemma neighbors_of_time (res_to_leaflet : gmap Z Z) (host host_leaflet : Z) (l : list Z)
    (acc : list (Z * Z)) :
  for_each (fun acc neib =>
              neib_leaflet ← getitem res_to_leaflet neib;
              if negb (Z.eqb neib_leaflet host_leaflet) then Ok (acc ++ [(host, neib)])
              else Ok acc) l acc
  = (mapM (fun neib => neib_leaflet ← getitem res_to_leaflet neib;
                       Ok (if negb (Z.eqb neib_leaflet host_leaflet) then [(host, neib)]
                           else [])) l
     ≫= fun yss => Ok (acc ++ concat yss)).
Proof.
  apply for_each_collect. intros a x.
  destruct (getitem res_to_leaflet x) as [b|]; [|reflexivity]. rewrite !bind_Ok.
  destruct (negb (Z.eqb b host_leaflet)); [reflexivity|]. rewrite app_nil_r. reflexivity.
Qed.

(** X20: the pairs that [is_neighbor_in_leaflet] logs, when it gets to
    log them, are exactly the pairs of a residue of [MOLRANGE] and one of its
    neighbors at some time whose assigned leaflets differ. *)
Theorem interleaflet_pairs (self : SysInfo) (res_to_leaflet : gmap Z Z)
    (neiblist : gmap Z (list (Q * list Z))) (pairs_ : list (Z * Z)) :
  is_neighbor_in_leaflet self res_to_leaflet neiblist = Ok pairs_ ->
  forall host neib,
    (host, neib) ∈ pairs_ <->
    host ∈ MOLRANGE self
    /\ exists neibs_times t l host_leaflet neib_leaflet,
         neiblist !! host = Some neibs_times /\ (t, l) ∈ neibs_times /\ neib ∈ l
         /\ res_to_leaflet !! host = Some host_leaflet
         /\ res_to_leaflet !! neib = Some neib_leaflet
         /\ neib_leaflet <> host_leaflet.
Proof.
  unfold is_neighbor_in_leaflet. intros H host neib.
  rewrite (for_each_collect _
             (fun host =>
                neibs_times ← getitem neiblist host;
                host_leaflet ← getitem res_to_leaflet host;
                mapM (fun t =>
                        mapM (fun neib =>
                                neib_leaflet ← getitem res_to_leaflet neib;
                                Ok (if negb (Z.eqb neib_leaflet host_leaflet)
                                    then [(host, neib)] else [])) (snd t)
                        ≫= fun yss => Ok (concat yss)) neibs_times
                ≫= fun zss => Ok (concat zss))) in H.
  - apply bind_Ok_inv in H as (xss & Hxss & H). injection H as <-. cbn [app]. split.
    + intros Hin. apply elem_of_concat_inv in Hin as (xs & Hxs & Hin).
      apply (mapM_result_elem_inv _ _ _ _ Hxss) in Hxs as (h & Hh & Hxs).
      apply bind_Ok_inv in Hxs as (neibs_times & Hnt & Hxs).
      apply bind_Ok_inv in Hxs as (host_leaflet & Hhl & Hxs).
      apply bind_Ok_inv in Hxs as (zss & Hzss & Hxs). injection Hxs as <-.
      apply elem_of_concat_inv in Hin as (zs & Hzs & Hin).
      apply (mapM_result_elem_inv _ _ _ _ Hzss) in Hzs as ([t l] & Ht & Hzs).
      apply bind_Ok_inv in Hzs as (yss & Hyss & Hzs). injection Hzs as <-.
      apply elem_of_concat_inv in Hin as (ys & Hys & Hin).
      apply (mapM_result_elem_inv _ _ _ _ Hyss) in Hys as (n & Hn & Hys).
      apply bind_Ok_inv in Hys as (neib_leaflet & Hnl & Hys). injection Hys as <-.
      destruct (Z.eqb_spec neib_leaflet host_leaflet) as [|Hne]; cbn [negb] in Hin;
        [inversion Hin|].
      apply list_elem_of_singleton in Hin. injection Hin as -> ->.
      split; [exact Hh|]. exists neibs_times, t, l, host_leaflet, neib_leaflet.
      unfold getitem in Hnt, Hhl, Hnl.
      destruct (neiblist !! h); [|discriminate Hnt]. injection Hnt as ->.
      destruct (res_to_leaflet !! h); [|discriminate Hhl]. injection Hhl as ->.
      destruct (res_to_leaflet !! n); [|discriminate Hnl]. injection Hnl as ->.
      auto 10.
    + intros (Hh & neibs_times & t & l & host_leaflet & neib_leaflet
              & Hnt & Ht & Hn & Hhl & Hnl & Hne).
      destruct (mapM_result_elem _ _ _ _ Hxss Hh) as (xs & Hxs & Hxsin).
      unfold getitem in Hxs. rewrite Hnt, bind_Ok, Hhl, bind_Ok in Hxs.
      apply bind_Ok_inv in Hxs as (zss & Hzss & Hxs). injection Hxs as <-.
      destruct (mapM_result_elem _ _ _ _ Hzss Ht) as (zs & Hzs & Hzsin).
      apply bind_Ok_inv in Hzs as (yss & Hyss & Hzs). injection Hzs as <-.
      destruct (mapM_result_elem _ _ _ _ Hyss Hn) as (ys & Hys & Hysin).
      rewrite Hnl, bind_Ok in Hys. injection Hys as <-.
      apply (elem_of_concat xss _ _ Hxsin). apply (elem_of_concat zss _ _ Hzsin).
      apply (elem_of_concat yss _ _ Hysin).
      destruct (Z.eqb_spec neib_leaflet host_leaflet) as [|_]; [contradiction|].
      apply list_elem_of_singleton. reflexivity.
  - intros acc h. destruct (getitem neiblist h) as [neibs_times|]; [|reflexivity].
    rewrite !bind_Ok. destruct (getitem res_to_leaflet h) as [host_leaflet|]; [|reflexivity].
    rewrite !bind_Ok.
    rewrite (for_each_collect _
               (fun t => mapM (fun neib =>
                                 neib_leaflet ← getitem res_to_leaflet neib;
                                 Ok (if negb (Z.eqb neib_leaflet host_leaflet)
                                     then [(h, neib)] else [])) (snd t)
                         ≫= fun yss => Ok (concat yss))).
    + destruct (mapM _ neibs_times) as [zss|]; reflexivity.
    + intros a t. rewrite neighbors_of_time.
      destruct (mapM _ (snd t)) as [yss|]; reflexivity.
Qed.


Lemma interleaflet_pairs_witness :
  is_neighbor_in_leaflet index_scenario.registry leaflet_scenario.assignment
    leaflet_scenario.neiblist = Ok [(5, 6); (6, 5)]
  /\ forall host neib,
       (host, neib) ∈ [(5, 6); (6, 5)] <->
       host ∈ MOLRANGE index_scenario.registry
       /\ exists neibs_times t l host_leaflet neib_leaflet,
            leaflet_scenario.neiblist !! host = Some neibs_times /\ (t, l) ∈ neibs_times
            /\ neib ∈ l
            /\ leaflet_scenario.assignment !! host = Some host_leaflet
            /\ leaflet_scenario.assignment !! neib = Some neib_leaflet
            /\ neib_leaflet <> host_leaflet.
Proof.
  split; [vm_compute; reflexivity|].
  apply (interleaflet_pairs index_scenario.registry leaflet_scenario.assignment
           leaflet_scenario.neiblist [(5, 6); (6, 5)]).
  vm_compute. reflexivity.
Defined.

Section Trajectory.
Variable lm : lipidmolecules.t.
Variable scd_tail_atoms_of : string -> result (list (list string)).
Variable self : SysInfo.

Lemma frame_of_in_window (refhead reftail : gmap string string) (ts : timestep)
    (frame : list sample) :
  Qlt_bool (ts_time ts) (systeminfo.t_start self) = false ->
  Qlt_bool (systeminfo.t_end self) (ts_time ts) = false ->
  frame_of self refhead reftail ts = Ok frame ->
  Forall (in_window self) frame.
Proof.
  unfold Qlt_bool. intros Hs He H. apply negb_false_iff in Hs, He.
  unfold frame_of in H. apply bind_Ok_inv in H as (rows & Hrows & H). injection H as <-.
  apply Forall_forall. intros s Hin. rewrite list_elem_of_In in Hin.
  apply in_map_iff in Hin as (row & <- & Hrow). rewrite <- list_elem_of_In in Hrow.
  unfold leaflet_assignment_of_frame in Hrows.
  apply (mapM_result_elem_inv _ _ _ _ Hrows) in Hrow as (r & Hr & Hrow).
  rewrite list_elem_of_In in Hr. apply filter_In in Hr as [_ Hr].
  apply bool_decide_eq_true_1 in Hr.
  apply bind_Ok_inv in Hrow as (head_sel & _ & Hrow).
  apply bind_Ok_inv in Hrow as (coord_head & _ & Hrow).
  apply bind_Ok_inv in Hrow as (tail_sel & _ & Hrow). injection Hrow as <-.
  unfold in_window. cbn [fst snd time resname leaflet]. repeat split; try assumption.
  unfold molecule_leaflet_orientation. destruct (le_zero _); auto.
Qed.

Lemma trajectory_loop_in_window (refhead reftail : gmap string string)
    (trajectory : list timestep) :
  forall frames frames',
    Forall (Forall (in_window self)) frames ->
    trajectory_loop self refhead reftail trajectory frames = Ok frames' ->
    Forall (Forall (in_window self)) frames'.
Proof.
  induction trajectory as [|ts rest IH]; intros frames frames' Hf H.
  - injection H as <-. exact Hf.
  - cbn [trajectory_loop] in H.
    destruct (Qlt_bool (ts_time ts) (systeminfo.t_start self)) eqn:Hs; [exact (IH _ _ Hf H)|].
    destruct (Qlt_bool (systeminfo.t_end self) (ts_time ts)) eqn:He;
      [injection H as <-; exact Hf|].
    destruct (frame_of self refhead reftail ts) as [frame|e] eqn:Hfr; [|discriminate].
    apply (IH _ _) in H; [exact H|]. apply Forall_app. split; [exact Hf|].
    constructor; [|constructor]. exact (frame_of_in_window _ _ _ _ Hs He Hfr).
Qed.

(** X21: every row that [leaflet_assignment_time_evolution] writes has a
    time between [t_start] and [t_end], both included, names a species of
    [molecules] and puts the residue in leaflet 0 or 1. *)
Theorem rows_in_window (trajectory : list timestep) :
  Forall (in_window self)
    (rows_of (leaflet_assignment_time_evolution lm scd_tail_atoms_of self trajectory)).
Proof.
  unfold leaflet_assignment_time_evolution.
  destruct (reference_selections lm scd_tail_atoms_of self) as [[refhead reftail]|e];
    [|constructor].
  rewrite bind_Ok.
  destruct (trajectory_loop self refhead reftail trajectory []) as [frames|e] eqn:H;
    [|constructor].
  rewrite bind_Ok. apply trajectory_loop_in_window in H; [|constructor].
  destruct frames as [|frame frames]; [constructor|]. cbn [rows_of].
  apply Forall_forall. intros s Hin. apply elem_of_concat_inv in Hin as (fr & Hfr & Hin).
  rewrite Forall_forall in H. specialize (H fr Hfr). rewrite Forall_forall in H. auto.
Qed.

Lemma trajectory_loop_break (refhead reftail : gmap string string)
    (before after : list timestep) (late : timestep) :
  Qlt_bool (ts_time late) (systeminfo.t_start self) = false ->
  Qlt_bool (systeminfo.t_end self) (ts_time late) = true ->
  forall frames,
    trajectory_loop self refhead reftail (before ++ late :: after) frames
    = trajectory_loop self refhead reftail before frames.
Proof.
  intros Hs He. induction before as [|ts rest IH]; intros frames.
  - cbn [app trajectory_loop]. rewrite Hs, He. reflexivity.
  - cbn [app trajectory_loop].
    destruct (Qlt_bool (ts_time ts) (systeminfo.t_start self)); [apply IH|].
    destruct (Qlt_bool (systeminfo.t_end self) (ts_time ts)); [reflexivity|].
    destruct (frame_of self refhead reftail ts); [apply IH | reflexivity].
Qed.

(** X22: the trajectory is read up to the first frame that lies after
    [t_end] (and not before [t_start]); what follows that frame is never
    looked at, not even a frame whose time is inside the window, and the
    result is that of the frames before it. *)
Theorem reading_stops_after_window (before after : list timestep) (late : timestep) :
  Qle_bool (systeminfo.t_start self) (ts_time late) = true ->
  Qlt_bool (systeminfo.t_end self) (ts_time late) = true ->
  leaflet_assignment_time_evolution lm scd_tail_atoms_of self (before ++ late :: after)
  = leaflet_assignment_time_evolution lm scd_tail_atoms_of self before.
Proof.
  intros Hs He. unfold leaflet_assignment_time_evolution.
  destruct (reference_selections lm scd_tail_atoms_of self) as [[refhead reftail]|e];
    [|reflexivity].
  rewrite !bind_Ok, trajectory_loop_break; [reflexivity | | exact He].
  unfold Qlt_bool. rewrite Hs. reflexivity.
Qed.

End Trajectory.

Lemma reading_stops_after_window_witness :
  Qle_bool (systeminfo.t_start index_scenario.registry)
           (ts_time (leaflet_scenario.frame_at (2000 # 1))) = true
  /\ Qlt_bool (systeminfo.t_end index_scenario.registry)
              (ts_time (leaflet_scenario.frame_at (2000 # 1))) = true
  /\ leaflet_assignment_time_evolution leaflet_scenario.tables
       leaflet_scenario.scd_tail_atoms_of index_scenario.registry
       ([leaflet_scenario.frame_at (500 # 1)] ++ leaflet_scenario.frame_at (2000 # 1)
          :: [leaflet_scenario.frame_at (700 # 1)])
     = leaflet_assignment_time_evolution leaflet_scenario.tables
         leaflet_scenario.scd_tail_atoms_of index_scenario.registry
         [leaflet_scenario.frame_at (500 # 1)].
Proof.
  split; [reflexivity|]. split; [reflexivity|].
  apply (reading_stops_after_window leaflet_scenario.tables leaflet_scenario.scd_tail_atoms_of
           index_scenario.registry [leaflet_scenario.frame_at (500 # 1)]
           [leaflet_scenario.frame_at (700 # 1)] (leaflet_scenario.frame_at (2000 # 1)));
    reflexivity.
Defined.

(** The frame at 500 gives one row, that of the lipid: the water is no
    configured species, and a residue whose two reference points coincide is
    put in leaflet 1. *)
Example one_frame_in_window :
  leaflet_assignment_time_evolution leaflet_scenario.tables
    leaflet_scenario.scd_tail_atoms_of index_scenario.registry
    [leaflet_scenario.frame_at (500 # 1); leaflet_scenario.frame_at (2000 # 1);
     leaflet_scenario.frame_at (700 # 1)]
  = Ok [Sample 5 "DPPC" 1 (500 # 1)].
Proof.
  unfold leaflet_assignment_time_evolution.
  assert (Hsel : reference_selections leaflet_scenario.tables
                   leaflet_scenario.scd_tail_atoms_of index_scenario.registry
                 = Ok (list_to_map [("DPPC", "name P"); ("CHL1", "name P")],
                       list_to_map [("DPPC", "name C23 C33"); ("CHL1", "name C23 C33")]))
    by (vm_compute; reflexivity).
  rewrite Hsel, bind_Ok.
  assert (Hfr : forall refhead reftail,
             refhead !! "DPPC" = Some "name P" -> reftail !! "DPPC" = Some "name C23 C33" ->
             frame_of index_scenario.registry refhead reftail
               (leaflet_scenario.frame_at (500 # 1))
             = Ok [Sample 5 "DPPC" 1 (500 # 1)]).
  { intros refhead reftail Hh Ht. unfold frame_of, leaflet_scenario.frame_at.
    cbn [ts_residues ts_time].
    assert (Hf : List.filter
                   (fun r => bool_decide (res_resname r ∈ molecules index_scenario.registry))
                   [leaflet_scenario.at_origin 5 "DPPC"; leaflet_scenario.at_origin 9 "TIP3"]
                 = [leaflet_scenario.at_origin 5 "DPPC"]) by (vm_compute; reflexivity).
    rewrite Hf. unfold leaflet_assignment_of_frame. rewrite mapM_cons.
    unfold leaflet_scenario.at_origin.
    cbn [res_resname res_resid positions center_of_mass]. unfold getitem. rewrite Hh, Ht.
    rewrite !bind_Ok. unfold index. cbn [lookup list_lookup]. rewrite !bind_Ok.
    rewrite orientation_same_position. reflexivity. }
  cbn [trajectory_loop].
  change (Qlt_bool (ts_time (leaflet_scenario.frame_at (500 # 1)))
            (systeminfo.t_start index_scenario.registry)) with false.
  change (Qlt_bool (systeminfo.t_end index_scenario.registry)
            (ts_time (leaflet_scenario.frame_at (500 # 1)))) with false.
  change (Qlt_bool (ts_time (leaflet_scenario.frame_at (2000 # 1)))
            (systeminfo.t_start index_scenario.registry)) with false.
  change (Qlt_bool (systeminfo.t_end index_scenario.registry)
            (ts_time (leaflet_scenario.frame_at (2000 # 1)))) with true.
  cbv iota. rewrite Hfr by (vm_compute; reflexivity). reflexivity.
Qed.


Section Density.
Variable gmx : engine.
Variable self : SysInfo.
Variable trjpath_whole : string.

Lemma split_ws_blank_token (t rest : string) :
  token t = true -> split_ws (t +:+ " " +:+ rest) = t :: split_ws rest.
Proof. exact (fun Ht => split_ws_token t rest 0 Ht). Qed.

Lemma split_select_command (TRJ TPR NDX : string) :
  token TRJ = true -> token TPR = true -> token NDX = true ->
  split_ws (cat ["gmx select -f "; TRJ; " -s "; TPR; " -on "; NDX; " -select"])
  = ["gmx"; "select"; "-f"; TRJ; "-s"; TPR; "-on"; NDX; "-select"].
Proof.
  intros Ht Hp Hn.
  change (cat ["gmx select -f "; TRJ; " -s "; TPR; " -on "; NDX; " -select"])
    with ("gmx" +:+ " " +:+ ("select" +:+ " " +:+ ("-f" +:+ " " +:+ (TRJ +:+ " " +:+
            ("-s" +:+ " " +:+ (TPR +:+ " " +:+ ("-on" +:+ " " +:+ (NDX +:+ " " +:+
               "-select")))))))).
  rewrite !split_ws_blank_token by (assumption || reflexivity). reflexivity.
Qed.

Lemma split_density_command (TRJ TPR NDX OUT : string) :
  token TRJ = true -> token TPR = true -> token NDX = true -> token OUT = true ->
  split_ws (cat ["gmx density -f "; TRJ; " -s "; TPR; " -n "; NDX; " -o "; OUT; "  -d Z"])
  = ["gmx"; "density"; "-f"; TRJ; "-s"; TPR; "-n"; NDX; "-o"; OUT; "-d"; "Z"].
Proof.
  intros Ht Hp Hn Ho.
  change (cat ["gmx density -f "; TRJ; " -s "; TPR; " -n "; NDX; " -o "; OUT; "  -d Z"])
    with ("gmx" +:+ " " +:+ ("density" +:+ " " +:+ ("-f" +:+ " " +:+ (TRJ +:+ " " +:+
            ("-s" +:+ " " +:+ (TPR +:+ " " +:+ ("-n" +:+ " " +:+ (NDX +:+ " " +:+
               ("-o" +:+ " " +:+ (OUT +:+ spaces 2 +:+ "-d Z")))))))))).
  rewrite !split_ws_blank_token by (assumption || reflexivity).
  rewrite (split_ws_token OUT "-d Z" 1 Ho). reflexivity.
Qed.

(** X23: what [calc_density] runs.  With paths free of blanks it returns
    the path of the density file in every case; it runs nothing when that
    file exists and [overwrite] is off, and otherwise runs the engine exactly
    twice: [select], with the selection string as one last argument however
    many blanks it holds, and then [density] along Z, with the flags of
    [kw_den] after [-d Z]. *)
Theorem calc_density_runs (selstr outname : string) (overwrite : bool)
    (kw_den : list (string * string)) (w : world) :
  token trjpath_whole = true ->
  token (tprpath self) = true ->
  token (temppath self +:+ "temp.ndx") = true ->
  token (datapath self +:+ "densities/" +:+ outname) = true ->
  fst (calc_density gmx self trjpath_whole selstr outname overwrite kw_den w)
  = Ok (datapath self +:+ "densities/" +:+ outname)
  /\ calls (snd (calc_density gmx self trjpath_whole selstr outname overwrite kw_den w))
     = calls w
       ++ (if negb overwrite && isfile (datapath self +:+ "densities/" +:+ outname) w
           then []
           else [(["gmx"; "select"; "-f"; trjpath_whole; "-s"; tprpath self;
                   "-on"; temppath self +:+ "temp.ndx"; "-select"; selstr], None);
                 (["gmx"; "density"; "-f"; trjpath_whole; "-s"; tprpath self;
                   "-n"; temppath self +:+ "temp.ndx";
                   "-o"; datapath self +:+ "densities/" +:+ outname; "-d"; "Z"]
                  ++ additional_input kw_den, None)]).
Proof.
  intros Ht Hp Hn Ho. unfold calc_density. cbv zeta.
  destruct (negb overwrite && isfile (datapath self +:+ "densities/" +:+ outname) w).
  - cbn [fst snd]. rewrite app_nil_r. split; reflexivity.
  - rewrite (split_select_command _ _ _ Ht Hp Hn), (split_density_command _ _ _ _ Ht Hp Hn Ho).
    unfold mbind, io_bind, exec_gromacs.
    destruct (gmx _ None (files w)) as [[out err] fs]. unfold write_file. cbn [files calls].
    destruct (gmx _ None _) as [[out' err'] fs']. cbn [fst snd calls mret io_ret].
    rewrite <- app_assoc. split; reflexivity.
Qed.

End Density.

Lemma calc_density_runs_witness :
  token "traj_whole.xtc" = true
  /\ token (tprpath index_scenario.registry) = true
  /\ token (temppath index_scenario.registry +:+ "temp.ndx") = true
  /\ token (datapath index_scenario.registry +:+ "densities/" +:+ "density.xvg") = true
  /\ fst (calc_density index_scenario.index_engine index_scenario.registry "traj_whole.xtc"
            "resname DPPC and name P" "density.xvg" false [("sl", "100")] (World ∅ []))
     = Ok (datapath index_scenario.registry +:+ "densities/" +:+ "density.xvg")
  /\ calls (snd (calc_density index_scenario.index_engine index_scenario.registry
                   "traj_whole.xtc" "resname DPPC and name P" "density.xvg" false
                   [("sl", "100")] (World ∅ [])))
     = calls (World ∅ [])
       ++ (if negb false
              && isfile (datapath index_scenario.registry +:+ "densities/" +:+ "density.xvg")
                   (World ∅ [])
           then []
           else [(["gmx"; "select"; "-f"; "traj_whole.xtc"; "-s";
                   tprpath index_scenario.registry;
                   "-on"; temppath index_scenario.registry +:+ "temp.ndx"; "-select";
                   "resname DPPC and name P"], None);
                 (["gmx"; "density"; "-f"; "traj_whole.xtc"; "-s";
                   tprpath index_scenario.registry;
                   "-n"; temppath index_scenario.registry +:+ "temp.ndx";
                   "-o"; datapath index_scenario.registry +:+ "densities/" +:+ "density.xvg";
                   "-d"; "Z"]
                  ++ additional_input [("sl", "100")], None)]).
Proof.
  split; [reflexivity|]. split; [reflexivity|]. split; [reflexivity|]. split; [reflexivity|].
  apply (calc_density_runs index_scenario.index_engine index_scenario.registry
           "traj_whole.xtc" "resname DPPC and name P" "density.xvg" false [("sl", "100")]
           (World ∅ [])); reflexivity.
Defined.

(** A second call with [overwrite] off finds the file the engine left and
    runs nothing more. *)
Example density_kept :
  let w1 := snd (calc_density index_scenario.index_engine index_scenario.registry
                   "traj_whole.xtc" "resname DPPC and name P" "density.xvg" false []
                   (World ∅ [])) in
  length (calls w1) = 2%nat
  /\ calc_density index_scenario.index_engine index_scenario.registry
       "traj_whole.xtc" "resname DPPC and name P" "density.xvg" false [] w1
     = (Ok "datadensities/density.xvg", w1).
Proof. vm_compute. split; reflexivity. Qed.

Section NoFlipFlop.

Lemma select_none {A} (fr : list A) (mask : list bool) :
  Forall (fun b => b = false) mask -> select fr mask = [].
Proof.
  intros H. revert fr. induction H as [|b mask -> _ IH]; intros [|r fr]; try reflexivity.
  cbn [select]. apply IH.
Qed.

Lemma zip_with_Forall {A B} (P : A -> Prop) (Q : B -> Prop) (g : A -> A -> B)
    (l1 l2 : list A) :
  (forall a b, P a -> P b -> Q (g a b)) ->
  Forall P l1 -> Forall P l2 -> Forall Q (zip_with g l1 l2).
Proof.
  intros Hg H1. revert l2. induction H1 as [|a l1 Ha _ IH]; intros l2 H2; [constructor|].
  destruct H2 as [|b l2 Hb H2]; [constructor|]. cbn [zip_with]. constructor; auto.
Qed.

(** A residue whose rows all show one leaflet has no change point. *)
Lemma change_points_steady (fr : list sample) (c : Z) :
  Forall (fun s => leaflet s = c) fr -> change_points fr = [].
Proof.
  intros H. unfold change_points. apply select_none.
  assert (Hl : Forall (fun x => x = c) (map leaflet fr)).
  { induction H; constructor; auto. }
  unfold diff_fillna. destruct (map leaflet fr) as [|x xs] eqn:E; [constructor|].
  cbn [map]. constructor; [reflexivity|].
  apply Forall_fmap.
  apply (zip_with_Forall (fun x => x = c)); [| exact Hl | inversion Hl; assumption].
  intros a b -> ->. cbn. rewrite Z.sub_diag. reflexivity.
Qed.

Lemma flipflop_groups_steady (groups : list (list sample)) :
  Forall (fun fr => change_points fr = []) groups ->
  for_each flipflop_group groups ([], []) = Ok ([], []).
Proof.
  induction 1 as [|fr groups Hfr _ IH]; [reflexivity|].
  cbn [for_each]. unfold flipflop_group at 1. rewrite Hfr. exact IH.
Qed.

(** X24: when no residue of the leaflet trajectory is ever seen in two
    leaflets (in particular when the trajectory has no row), there is no
    event to write and [get_flipflop_events] ends in the [ValueError] of
    [pd.concat]: neither table is written. *)
Theorem no_flipflop_no_tables (dat : list sample) :
  (forall s s', s ∈ dat -> s' ∈ dat -> resid s = resid s' -> leaflet s = leaflet s') ->
  get_flipflop_events dat = Raise (ValueError "No objects to concatenate").
Proof.
  intros H. unfold get_flipflop_events.
  rewrite flipflop_groups_steady; [reflexivity|].
  unfold groupby_resid. apply Forall_fmap, Forall_forall. intros r _. cbn.
  destruct (List.filter (fun s => Z.eqb (resid s) r) dat) as [|s0 fr] eqn:E; [reflexivity|].
  rewrite <- E. apply (change_points_steady _ (leaflet s0)).
  assert (H0 : In s0 (List.filter (fun s => Z.eqb (resid s) r) dat))
    by (rewrite E; left; reflexivity).
  apply filter_In in H0 as [H0 Hr0]. apply Z.eqb_eq in Hr0.
  apply Forall_forall. intros s Hs. rewrite list_elem_of_In in Hs.
  apply filter_In in Hs as [Hs Hr]. apply Z.eqb_eq in Hr.
  apply H; [| |congruence]; apply list_elem_of_In; assumption.
Qed.

End NoFlipFlop.

Lemma no_flipflop_no_tables_witness :
  (forall s s', s ∈ leaflet_scenario.steady_rows -> s' ∈ leaflet_scenario.steady_rows ->
                resid s = resid s' -> leaflet s = leaflet s')
  /\ get_flipflop_events leaflet_scenario.steady_rows
     = Raise (ValueError "No objects to concatenate").
Proof.
  assert (H : forall s s', s ∈ leaflet_scenario.steady_rows ->
                           s' ∈ leaflet_scenario.steady_rows ->
                           resid s = resid s' -> leaflet s = leaflet s').
  { intros s s' Hs Hs'. unfold leaflet_scenario.steady_rows in *.
    repeat (apply elem_of_cons in Hs as [->|Hs]); [| | | |inversion Hs];
      (repeat (apply elem_of_cons in Hs' as [->|Hs']); [| | | |inversion Hs']);
      cbn; intros; congruence. }
  split; [exact H|]. apply (no_flipflop_no_tables leaflet_scenario.steady_rows H).
Defined.

End AcrossLeaflets.
